(* ===== verification/_CoqProject ===== *)
-Q . S2P
Prelude.v
Text.v
Platform.v
Float64.v
Prog.v
Models.v
JobState.v
Database.v
Scope.v
Quota.v
JobSteps.v
JobsApi.v
Requests.v
AgentJobs.v
Checkin.v
Scheduler.v
Enrollment.v
AgentAuth.v
Tenancy.v
Fleet.v
JobSystem.v
JobSpecs.v
Isolation.v
Lineage.v
Identity.v
Cdm.v
Inventory.v
Host.v
Poller.v
Update.v
Credentials.v
Install.v
InstallWindows.v
Ids.v
Pki.v
LocalCA.v
TrustStore.v
Packages.v
Transfer.v
Executor.v
EndToEnd.v
FleetSpecs.v
Paging.v
Users.v
Files.v
FileSpecs.v
FileHistory.v
TransferSpecs.v
Schedules.v
ScheduleSpecs.v
Versions.v
VersionSpecs.v
Installers.v
InstallerSpecs.v
Scripts.v
RateLimit.v
RateSpecs.v
Config.v
Leader.v
Notify.v
Migrate.v
Bootstrap.v
Gateway.v
Server.v
Router.v
GatewaySpecs.v
Base64.v
Tools.v
Logs.v
LogSpecs.v
Sessions.v
LocalAccess.v
LocalSpecs.v
AuditFile.v
Ipc.v
Witnesses.v
FleetWitnesses.v
AgentWitnesses.v
