(* ===== verification/Prelude.v ===== *)
(** * Moebius: a verification development

    Moebius manages fleets of devices.  A server keeps tenants, users, API keys,
    devices and jobs in PostgreSQL and answers two kinds of clients: users, with
    an API key, and agents, with a client certificate.  A scheduler runs beside
    it.  An agent on each device polls the server (check-in), is handed jobs,
    acknowledges them, runs them and submits the results; while customer device
    mode (CDM) is on, it runs them only in a session the device's owner granted,
    over a local socket or a local web page.  The server also keeps uploaded
    files, agent versions with their rollouts and installers, and device logs.
    An installer puts the agent on a device, where it enrolls with a token and
    renews its certificate; release tools sign what it is updated to.

    ** How programs are modelled

    A handler, a tick or a job runner is a value of [prog] (file [Prog]): a
    finite tree of atomic accesses to a shared store with the code's control
    flow, early returns included, in between.  An access reads its environment
    [Env]: whether it fails, the clock, a random identifier.  [run] executes a
    program alone; [pstep] interleaves a pool of programs access by access;
    [rg] and [guar] are the rely/guarantee rules the proofs use.  There is no
    fuel: loops range over lists, so every program is a finite tree, and a
    statement about [run] or [rg] says what the program does when each access
    returns; [run_some] stops it after any number of accesses, for programs that
    wait for something outside (a command that is run).  One SQL statement,
    or one committed transaction, is one access; a failing one has no effect.
    Time is a [Z] of nanoseconds; durations and counters that Go keeps in an
    int64 wrap ([wrap64]); INT columns refuse values out of range ([int4_ok]).
    JSON, X.509, hashing, cron expressions, address parsing and the operating
    system are parameters: records of functions, or arguments.

    ** Files and the code they model (paths under src/)

    - [Prelude], [Prog]: shared notation, tactics, hint database [moebius],
      generic lemmas; programs over a shared store and their proof rules.
    - [Models]: the structs of shared/models and shared/protocol, the responses
      of server/api/respond.go, the request context of server/auth.
    - [Database]: the tables of server/migrate/sql with their constraints, the
      SQL forms, and server/audit/audit.go ([Log], [LogAction]).
    - [JobState]: server/jobs/state.go and types.go, with the lifecycle as an
      inductive relation that [ValidateTransition] decides.
    - [Scope], [Quota]: server/auth/scope.go, server/quota/quota.go.
    - [JobSteps]: the row changes of all statements on [jobs], with the
      conditions their WHERE clauses and their handlers impose.
    - [JobsApi], [AgentJobs], [Checkin]: the handlers of server/api/jobs.go,
      agent_jobs.go and checkin.go, one definition each.
    - [Scheduler]: one tick of server/scheduler/scheduler.go and the queries of
      server/store/scheduled_jobs.go.
    - [Enrollment]: server/pki/ca.go, server/auth/enrollment.go,
      server/api/enroll.go and enrollment_tokens.go.
    - [AgentAuth]: server/auth/mtls.go and proxy.go, server/api/renew.go.
    - [Tenancy], [Fleet], [FleetSpecs]: server/api and server/store for devices,
      groups, tags, sites, tenants, inventory views and device rollback; what a
      request may change for which tenant.
    - [JobSystem], [JobSpecs], [Isolation], [Lineage]: the job system as a pool or
      a history of all the requests that write jobs (those on jobs, check-ins, the
      revocation and the rollback of a device) and scheduler ticks, with its
      theorems.
    - [Identity]: server/rbac, server/auth/apikey.go and tenant.go, roles, users
      and API keys (server/store and server/api).
    - [Cdm]: agent/cdm.  [Inventory]: agent/inventory/collector.go.  [Poller]:
      agent/poller, with the server's check-in handler behind it.  [Update]:
      agent/executor/update.go and rollback.go, agent/update.  [Executor]: the
      job runner of agent/executor/executor.go with its handlers, against the
      server's handlers ([Requests] is the exchange of one request).
    - [EndToEnd]: the parts put together, a job from [Create] over the check-in and
      the runner to its stored result.
    - [Ids]: shared/models/id.go.
    - [Text], [Platform]: the functions of strings, bufio and path/filepath that
      the agent uses; agent/platform/platform.go, linux.go and windows.go.
    - [Host]: agent/inventory/hardware_linux.go and packages_linux.go, and the stubs
      hardware_windows.go and packages_windows.go.
    - [Packages]: agent/executor/package.go, both pkgmanager.go files, the setuid
      helper of agent/cmd/pkg-helper with exec.LookPath.  [Transfer], [TransferSpecs]:
      agent/executor/filetransfer.go, alone and with the server's answer.
    - [Credentials]: agent/enrollment, agent/renewal, agent/tlsutil,
      and the start of the daemon in agent/cmd/agent/main.go,
      against the server's enrollment and renewal.
    - [Install]: agent/installer (Linux) over a machine with accounts, files with
      owners and modes, and services; the install and uninstall commands.
      [InstallWindows]: install_windows.go and uninstall_windows.go over files,
      running programs and the log of the commands that are run, whose answers are
      a parameter; restart_linux.go and restart_windows.go of agent/cmd/agent.
    - [Pki], [LocalCA]: the CA of server/pki/ca.go and generate-ca;
      agent/localui/localca.go, truststore_linux.go and the TLS part of server.go,
      over one record of certificate functions with laws ([CertLaws]).
      [TrustStore]: removal from the trust store of Linux, truststore_windows.go.
    - [Float64]: the float64 operations the code uses, as rounding on rationals
      (53 bits, ties to even; the exponent range is unbounded, which the values
      here never leave).  [Base64]: encoding/base64.
    - [Users]: the reading of users (server/store/users.go, server/api/users.go).
    - [Paging]: pagination of server/api/middleware.go and the listings, with a
      client that follows the cursors ([collect]; its fuel is one more than the
      rows, which [paging_terminates] shows to be enough).
    - [Files], [FileSpecs], [FileHistory]: server/api/files.go, signingkeys.go,
      agent_signingkeys.go and server/storage/storage.go.
    - [Schedules], [ScheduleSpecs]: server/api/scheduled_jobs.go, alert_rules.go.
    - [Versions], [VersionSpecs]: server/api/agent_versions.go, rollouts.go and
      update_policies.go with their store functions.
    - [Installers], [InstallerSpecs]: server/api/installers.go and
      install_script.go.  [Scripts]: the text of the scripts.
    - [RateLimit], [RateSpecs]: server/ratelimit.
    - [Gateway], [GatewaySpecs]: server/auth/oidc.go, the chain of middleware and
      the 90 routes under /v1 of server/api/router.go, body limits.
      [Router]: what is in front of all routes, and the routes of agents.
    - [Config]: server/config/config.go, what the processes build from it, and
      agent/config/config.go.
      [Leader]: the advisory lock and the loop of the scheduler.  [Notify]:
      server/notify.  [Migrate]: server/migrate.  [Bootstrap]: create-admin.
      [Server]: the start of both processes (server/cmd), server/health.
    - [Tools]: tools/keygen and tools/sign.
    - [Logs], [LogSpecs]: server/api/logs.go and auditlog.go,
      agent/logshipper/shipper.go.
    - [Sessions], [LocalAccess], [LocalSpecs]: agent/localauth, agent/localcli,
      agent/ipc/handler.go, agent/localui/server.go, agent/localaudit, in front
      of the CDM manager.  [AuditFile]: the two audit logs of the agent as bytes
      (agent/localaudit, agent/cdm/audit.go).  [Ipc]: the messages of agent/ipc on a connection and
      the commands of the client.
    - [Witnesses], [FleetWitnesses], [AgentWitnesses]: concrete instances of the theorems that have
      hypotheses.

    Handlers keep the names of the source; where two functions share a name the
    handler says which ([GetRole] of the store, [GetRoleHandler] of the API;
    [CreateEnrollmentToken] is [Create] of enrollment_tokens.go).

    ** What the theorems show

    - Jobs.  Whatever interleaves and fails, jobs stay well-formed, keep their
      identity, are changed only by requests that may (the exception is the report
      of a failed update, and ticks serve all tenants), and retries agree with
      their parents ([interleaving_safe], [isolation], [retry_lineage]).  Served
      one at a time, each request moves a job only along its own row of the table
      of moves, and finished jobs do not change ([history_lifecycle],
      [terminal_immutable]).
      Each handler has a functional specification on every branch
      ([create_spec], [list_spec], [cancel_spec], [acknowledge_spec],
      [submit_result_spec], [checkin_dispatch], [checkin_fifo], [tick_reaps]),
      and no job stays with an agent that went away ([no_job_stuck]).  Put
      together, a job that was created is handed out, executed once and finished
      with what its handler reported, on the conditions that [job_end_to_end]
      states ([handlers_report_final]).
    - Identity of agents.  Tokens enroll once, enrollment is atomic, the issued
      certificate authenticates, renewal revokes all others
      ([token_single_use], [enroll_atomic], [enrolled_agent_authenticates],
      [renew_supersedes], [renewal_locks_out], [mtls_sound]).  A first start of
      the agent ends with an identity the server accepts; an answer of a renewal
      that is lost locks the agent out ([startup_authenticates],
      [lost_renewal_locks_out], [lost_enrollment_strands]).
    - Identity of users.  Admin keys are out of reach of others, roles and
      assignments do not escalate, keys authenticate as what was stored, scopes
      never widen ([admin_keys_protected], [no_role_escalation],
      [user_role_guard], [apikey_auth_sound], [subset_never_widens]).
    - The agent.  CDM refines a specification without memory or files and keeps
      consent necessary under failing writes; check-ins keep the inventory in
      step; only verified binaries are installed; at every moment of its run the
      runner is gated and has started a dispatch at most once ([cdm_refines],
      [consent_required], [checkin_syncs], [update_installs_verified],
      [runner_gated]).  The setuid helper runs only fixed command lines, of a
      program it looks for in the caller's PATH; package lists survive their text
      form ([helper_sound], [tsv_roundtrip]).
    - Installation and certificates.  What the installer leaves, what uninstalling
      removes, the certificate of the local web page, the CA that generate-ca
      writes and the server loads ([installed_agent_never_starts],
      [uninstall_spec], [local_ui_certificate], [generated_ca_loads]); the same on
      Windows ([windows_install_files], [windows_uninstall_spec],
      [windows_trust_spec]), and removal from the trust store ([trust_roundtrip]).
    - Processes.  Migrations are applied once and in order by any number of
      runners, one scheduler leads while sessions last, the configuration is
      accepted exactly when complete, a fresh deployment comes up, the first
      administrator's key works ([migrations_in_order], [migrate_completes],
      [one_leader], [load_spec], [fresh_server_starts], [create_admin_works],
      [mail_readable], [send_spec], [release_verifies]).
    - The gateway.  A handler under /v1 runs only for an identified caller with the
      permission of its route, and a refused request writes at most the time of
      last use of its key; the predefined read-only roles reach no writes; the
      rate limiter lets through no more than burst and rate, rounding of the
      floats included, when the burst fills up within the time to live, as it does
      with the default rates ([gate_sound], [default_rates_hold], [readonly_roles], [rate_limited],
      [burst_exact], [bucket_bounds]).  A handler for agents runs only for a live
      certificate of the device, from the connection or a trusted proxy
      ([agent_gate_sound]).
    - The fleet.  Requests change only rows of their own tenant, a revoked device
      stays locked out whatever requests interleave, renewals that were already
      past authentication apart ([fleet_isolation], [revoked_locked_out]).
    - Files.  Stored files have the declared hash; completing an upload is decided
      by its data; the chunk count computed in floats is exact ([files_intact],
      [complete_decides], [total_chunks_exact], [download_spec]).
    - Versions and installers.  Rollouts follow their state machine, policies are
      found as they were stored, scripts, checksums and downloads agree
      ([rollout_lifecycle], [policy_roundtrip], [script_agrees],
      [script_sets_variables],
      [create_installer_spec], [installer_download_spec]).
    - Listings and logs.  Following the cursors ends and, where the orders agree,
      shows every row once; log entries are accounted for from the agent to the
      table ([paging_terminates], [paging_complete], [ingest_spec],
      [log_delivery], [audit_cursor_roundtrip]).
    - Local access.  Tokens live as long as their session, cleanup cannot be
      observed, and consent comes from a login ([session_life],
      [cleanup_unobservable], [cdm_view_spec], [consent_from_login]); calls over a
      connection are calls of the handlers ([ipc_transparent]).  The audit files
      refine the lists that the interfaces are specified with
      ([audit_reads_back], [local_audit_refines]).
    - Ids.  An id tells its kind, except that roles and rollouts share a prefix
      ([id_kind_recognised], [ids_injective]).
    - Where the code falls short, the theorem says so: [scheduled_jobs_blocked],
      [never_restarts], [late_restart_undoes], [upgrade_refused],
      [lost_checkin], [failed_writes], [created_key_authenticates], the second
      case of [watched] in [offline_alert_spec], [foreign_membership],
      [late_checkin_unrevokes], [tenant_lifts_quota], [paging_skips],
      [complete_hangs], [published_unreadable], [rollout_race],
      [schedule_scope_gap], [ipc_actor_unchecked], [transfers_fail],
      [installed_agent_never_starts], [package_change_unreported],
      [helper_passes_options], [lost_session_two_leaders], [create_admin_again],
      [fast_agent_limited], [rule_name_adds_headers], [cli_actor_from_env],
      [interrupted_rotation], [keygen_key_refused],
      [unreadable_proxies_fail_open], [windows_upgrade_refused],
      [windows_data_unprotected], [windows_inventory_empty],
      [windows_removal_fails], [purge_leaves_trust], [torn_write_swallows_next],
      [late_renewal_reopens], [helper_runs_callers_program],
      [evicted_burst_again], [unchecked_update_loses_file].

    ** Not modelled

    Listening on sockets, signals and shutting down, TLS handshakes, PAM and
    LogonUser: calls of the operating system and of libraries without logic of
    the program around them.  Metrics, the construction of loggers, request ids
    and the version string: nothing depends on them.  HTML templates and what the
    command line prints: text for people.  The contents of JSON and certificates
    and the text of operating-system errors: parameters stand for the functions
    that make and read them.  Matching a path to its route is the router
    library's.  The wiring of the daemon in runDaemon is modelled part by part
    (start of the agent, CDM, pending update, local interfaces), not as one
    program.  On Windows, paths are compared as they are written, and the access
    lists and the root store are what the commands and calls answer.  A SELECT
    without ORDER BY enumerates the model's map, in an order no theorem depends
    on.  Histories of file and version requests run one at a time, and in those of
    files every access may fail except in completions ([unchecked_update_loses_file]
    shows why); interleaving is modelled for jobs, enrollment, identity and the
    fleet, and [rollout_race] shows what it does to rollouts.  A process that the
    agent starts is one access: one that never returns is a run that stops there.
    [job_end_to_end] speaks of runs in which no access fails; what failures do is
    in the theorems of the parts. *)

From stdpp Require Export base gmap sets list strings pretty sorting.
From stdpp Require Import relations.

(** Scope of the development's own notations. *)
Declare Scope moebius_scope.
Delimit Scope moebius_scope with moebius.

(** Hint database of the lemmas that discharge routine side conditions. *)
Create HintDb moebius.

(** Go string equality test. *)
Definition seqb (a b : string) : bool := bool_decide (a = b).

Notation "a =s b" := (seqb a b) (at level 70, no associativity) : moebius_scope.
Open Scope moebius_scope.

Lemma seqb_eq a b : (a =s b) = true <-> a = b.
Proof. apply bool_decide_eq_true. Qed.

Lemma seqb_neq a b : (a =s b) = false <-> a <> b.
Proof. apply bool_decide_eq_false. Qed.

Lemma seqb_refl a : (a =s a) = true.
Proof. by apply seqb_eq. Qed.

(** Turns boolean tests of the code, in hypotheses, into propositions. *)
Ltac reflect_bools :=
  repeat match goal with
  | H : (_ && _) = true |- _ => apply andb_true_iff in H as [??]
  | H : (_ || _) = false |- _ => apply orb_false_iff in H as [??]
  | H : negb _ = true |- _ => apply negb_true_iff in H
  | H : negb _ = false |- _ => apply negb_false_iff in H
  | H : seqb _ _ = true |- _ => apply seqb_eq in H
  | H : seqb _ _ = false |- _ => apply seqb_neq in H
  | H : bool_decide _ = true |- _ => apply bool_decide_eq_true in H
  | H : bool_decide _ = false |- _ => apply bool_decide_eq_false in H
  | H : Z.ltb _ _ = true |- _ => apply Z.ltb_lt in H
  | H : Z.ltb _ _ = false |- _ => apply Z.ltb_ge in H
  | H : Z.leb _ _ = true |- _ => apply Z.leb_le in H
  | H : Z.leb _ _ = false |- _ => apply Z.leb_gt in H
  end.

(** Splits every match of the goal, keeping the equations. *)
Ltac case_all := repeat (case_match; simplify_eq/=; try done).

(** ** Machine integers *)

(** Two's complement wrap-around of a signed 64-bit integer (Go [int],
    [int64], [time.Duration]). *)
Definition wrap64 (z : Z) : Z := ((z + 2 ^ 63) mod 2 ^ 64 - 2 ^ 63)%Z.

(** PostgreSQL INT (int4): a value outside the range makes the statement fail. *)
Definition int4_ok (z : Z) : bool := ((- 2 ^ 31 <=? z) && (z <=? 2 ^ 31 - 1))%Z.

Lemma wrap64_id z : (- 2 ^ 63 <= z < 2 ^ 63)%Z -> wrap64 z = z.
Proof. intros ?. unfold wrap64. rewrite Z.mod_small; lia. Qed.

Lemma wrap64_bounds z : (- 2 ^ 63 <= wrap64 z < 2 ^ 63)%Z.
Proof. unfold wrap64. pose proof (Z.mod_pos_bound (z + 2 ^ 63) (2 ^ 64)). lia. Qed.

(** ** Ordered lists of targets: the [seen]/[append] idiom *)

(** [if !seen[id] { seen[id] = true; ids = append(ids, id) }], where [seen]
    always holds exactly the ids already appended. *)
Definition add_seen (ids : list string) (id : string) : list string :=
  if decide (id ∈ ids) then ids else ids ++ [id].

Definition add_all (ids new : list string) : list string := foldl add_seen ids new.

Lemma add_seen_elem ids id x : x ∈ add_seen ids id <-> x ∈ ids \/ x = id.
Proof. unfold add_seen. case_decide; set_solver. Qed.

Lemma add_seen_NoDup ids id : NoDup ids -> NoDup (add_seen ids id).
Proof.
  intros Hn. unfold add_seen. case_decide; [done|].
  apply NoDup_app; split_and!; [done|set_solver|apply NoDup_singleton].
Qed.

Lemma add_all_elem new : forall ids x, x ∈ add_all ids new <-> x ∈ ids \/ x ∈ new.
Proof.
  induction new as [|y new IH]; intros ids x; simpl; [set_solver|].
  rewrite IH, add_seen_elem. set_solver.
Qed.

Lemma add_all_NoDup new : forall ids, NoDup ids -> NoDup (add_all ids new).
Proof. induction new as [|y new IH]; intros ids Hn; simpl; auto using add_seen_NoDup. Qed.

#[export] Hint Resolve add_seen_NoDup add_all_NoDup : moebius.

(** ** ORDER BY ... LIMIT n *)

(** What the limit cuts off comes no earlier than what it keeps. *)
Lemma sorted_take {A} (R : A -> A -> Prop) n (l : list A) x :
  StronglySorted R l -> x ∈ l ->
  x ∈ take n l \/ length (take n l) = n /\ forall y, y ∈ take n l -> R y x.
Proof.
  intros Hs Hx. rewrite <-(take_drop n l) in Hx. apply elem_of_app in Hx as [Hx|Hx]; [by left|right].
  split.
  - apply length_take_le. destruct (decide (n <= length l)) as [|Hlt]; [done|].
    rewrite drop_ge in Hx by lia. by apply elem_of_nil in Hx.
  - intros y Hy. rewrite <-(take_drop n l) in Hs.
    induction (take n l) as [|z k IH]; [by apply elem_of_nil in Hy|]. simpl in Hs.
    apply StronglySorted_inv in Hs as [Hs Hz]. apply elem_of_cons in Hy as [->|Hy]; [|auto].
    rewrite Forall_forall in Hz. apply Hz. apply elem_of_app. by right.
Qed.

(** A page of a sorted list is sorted, comes from it, and leaves out nothing that
    belongs before what it shows. *)
Lemma limit_spec {A} (R : A -> A -> Prop) n (l : list A) : StronglySorted R l ->
  length (take n l) <= n /\ StronglySorted R (take n l) /\ (forall x, x ∈ take n l -> x ∈ l) /\
  (forall x, x ∈ l -> x ∈ take n l \/ length (take n l) = n /\ forall y, y ∈ take n l -> R y x).
Proof.
  intros Hs. split_and!.
  - rewrite length_take. lia.
  - revert l Hs. induction n as [|n IH]; intros [|x m] Hm; simpl; constructor;
      apply StronglySorted_inv in Hm as [Hm Hx]; auto. by apply Forall_take.
  - intros x. apply subseteq_take.
  - intros x. by apply sorted_take.
Qed.

(** ** Go's strings package *)

(** [strings.Split(s, ",")] and [strings.TrimSpace] (of ASCII white space). *)
Fixpoint split_comma (s : string) : list string :=
  match s with
  | EmptyString => [EmptyString]
  | String c s' =>
      if Ascii.eqb c (Ascii.ascii_of_nat 44) then EmptyString :: split_comma s'
      else match split_comma s' with
           | [] => [String c EmptyString]
           | w :: ws => String c w :: ws
           end
  end.

Definition is_space (c : Ascii.ascii) : bool :=
  let n := Ascii.nat_of_ascii c in (n =? 32)%nat || ((9 <=? n)%nat && (n <=? 13)%nat).

Fixpoint trim_left (s : string) : string :=
  match s with
  | EmptyString => EmptyString
  | String c s' => if is_space c then trim_left s' else s
  end.

Fixpoint trim_right (s : string) : string :=
  match s with
  | EmptyString => EmptyString
  | String c s' =>
      match trim_right s' with
      | EmptyString => if is_space c then EmptyString else String c EmptyString
      | t => String c t
      end
  end.

Definition TrimSpace (s : string) : string := trim_right (trim_left s).

(** Comparison of Go strings, [a <= b], and of text columns: bytewise. *)
Fixpoint string_leb (a b : string) : bool :=
  match a, b with
  | EmptyString, _ => true
  | String _ _, EmptyString => false
  | String c a', String d b' =>
      if Ascii.eqb c d then string_leb a' b'
      else (Ascii.nat_of_ascii c <? Ascii.nat_of_ascii d)%nat
  end.

(** Strict comparison. *)
Definition string_ltb (a b : string) : bool := negb (string_leb b a).

Lemma string_leb_refl a : string_leb a a = true.
Proof. induction a as [|c a IH]; simpl; [done|]. by rewrite Ascii.eqb_refl. Qed.

Lemma string_leb_total a : forall b, string_leb a b = true \/ string_leb b a = true.
Proof.
  induction a as [|c a IH]; intros [|d b]; simpl; auto. rewrite (Ascii.eqb_sym d c).
  destruct (Ascii.eqb_spec c d) as [->|Hne]; [apply IH|]. rewrite !Nat.ltb_lt.
  assert (Ascii.nat_of_ascii c <> Ascii.nat_of_ascii d); [|lia].
  intros E. apply Hne. by rewrite <-(Ascii.ascii_nat_embedding c), E, Ascii.ascii_nat_embedding.
Qed.

Lemma string_leb_trans a : forall b c, string_leb a b = true -> string_leb b c = true -> string_leb a c = true.
Proof.
  induction a as [|x a IH]; intros [|y b] [|z c]; simpl; try done.
  destruct (Ascii.eqb_spec x y) as [<-|Hxy].
  { destruct (Ascii.eqb x z); eauto. }
  destruct (Ascii.eqb_spec y z) as [<-|Hyz]; rewrite ?Nat.ltb_lt; intros H1 H2.
  - destruct (Ascii.eqb_spec x y); [done|]. by apply Nat.ltb_lt.
  - destruct (Ascii.eqb_spec x z) as [->|]; [lia|]. apply Nat.ltb_lt. lia.
Qed.

Lemma string_leb_antisym a : forall b, string_leb a b = true -> string_leb b a = true -> a = b.
Proof.
  induction a as [|x a IH]; intros [|y b]; simpl; try done. rewrite (Ascii.eqb_sym y x).
  destruct (Ascii.eqb_spec x y) as [->|]; [intros; f_equal; auto|]. rewrite !Nat.ltb_lt. lia.
Qed.

Lemma string_ltb_trans a b c : string_ltb a b = true -> string_ltb b c = true -> string_ltb a c = true.
Proof.
  unfold string_ltb. rewrite !negb_true_iff. intros H1 H2. apply not_true_iff_false. intros H.
  destruct (string_leb_total a b) as [Hab|]; [|congruence].
  rewrite (string_leb_trans c a b H Hab) in H2. done.
Qed.

Lemma string_ltb_irrefl a : string_ltb a a = false.
Proof. unfold string_ltb. by rewrite string_leb_refl. Qed.

(** [strconv.Atoi]: an optional sign, decimal digits, the range of int. *)
Fixpoint atoi_digits (s : string) (acc : Z) : option Z :=
  match s with
  | EmptyString => Some acc
  | String c s' =>
      let n := Ascii.nat_of_ascii c in
      if (48 <=? n)%nat && (n <=? 57)%nat then atoi_digits s' (acc * 10 + Z.of_nat (n - 48))%Z else None
  end.

Definition Atoi (s : string) : option Z :=
  let in_range z := if ((- 2 ^ 63 <=? z) && (z <? 2 ^ 63))%Z then Some z else None in
  match s with
  | EmptyString => None
  | String c s' =>
      if Ascii.eqb c (Ascii.ascii_of_nat 45)
      then match s' with EmptyString => None | _ => n ← atoi_digits s' 0; in_range (- n)%Z end
      else if Ascii.eqb c (Ascii.ascii_of_nat 43)
      then match s' with EmptyString => None | _ => n ← atoi_digits s' 0; in_range n end
      else n ← atoi_digits s 0; in_range n
  end.
