(* ===== verification/Text.v ===== *)
(** * Text

    The parts of Go's [strings], [bufio] and [path/filepath] that the agent's
    parsers and the two line protocols use: splitting, line scanning with its
    length limit, character sets, joining and cleaning paths. *)

From S2P Require Import Prelude.

Local Open Scope nat_scope.

Definition newline : Ascii.ascii := Ascii.ascii_of_nat 10.
Definition carriage_return : Ascii.ascii := Ascii.ascii_of_nat 13.
Definition tab : Ascii.ascii := Ascii.ascii_of_nat 9.
Definition slash : Ascii.ascii := Ascii.ascii_of_nat 47.

Definition char (c : Ascii.ascii) : string := String c EmptyString.

(** ** Characters *)

Fixpoint string_forall (p : Ascii.ascii -> bool) (s : string) : bool :=
  match s with
  | EmptyString => true
  | String c s' => p c && string_forall p s'
  end.

Definition without (c : Ascii.ascii) (s : string) : bool := string_forall (fun d => negb (Ascii.eqb d c)) s.

(** [strings.ContainsAny(s, chars)]. *)
Definition ContainsAny (s : string) (chars : list Ascii.ascii) : bool :=
  negb (string_forall (fun c => negb (existsb (Ascii.eqb c) chars)) s).

(** ** Splitting *)

(** [strings.SplitN(s, sep, 2)] with a one-character separator: [None] when the
    separator does not occur. *)
Fixpoint cut_at (sep : Ascii.ascii) (s : string) : option (string * string) :=
  match s with
  | EmptyString => None
  | String c s' =>
      if Ascii.eqb c sep then Some (EmptyString, s')
      else match cut_at sep s' with Some (a, b) => Some (String c a, b) | None => None end
  end.

(** [strings.Split(s, sep)] with a one-character separator. *)
Fixpoint split_on (sep : Ascii.ascii) (s : string) : list string :=
  match s with
  | EmptyString => [EmptyString]
  | String c s' =>
      if Ascii.eqb c sep then EmptyString :: split_on sep s'
      else match split_on sep s' with
           | [] => [char c]
           | w :: ws => String c w :: ws
           end
  end.

(** [strings.Fields]. *)
Fixpoint fields_from (cur : string) (s : string) : list string :=
  match s with
  | EmptyString => if cur =s "" then [] else [cur]
  | String c s' =>
      if is_space c then (if cur =s "" then fields_from "" s' else cur :: fields_from "" s')
      else fields_from (String.append cur (char c)) s'
  end.
Definition Fields (s : string) : list string := fields_from "" s.

(** [strings.HasPrefix] and [strings.TrimPrefix]. *)
Fixpoint cut_prefix (prefix s : string) : option string :=
  match prefix, s with
  | EmptyString, _ => Some s
  | String c p', String d s' => if Ascii.eqb c d then cut_prefix p' s' else None
  | String _ _, EmptyString => None
  end.

(** [strings.HasPrefix]. *)
Definition HasPrefix (s prefix : string) : bool := bool_decide (is_Some (cut_prefix prefix s)).

(** [strings.ToLower] of ASCII letters. *)
Definition lower_char (c : Ascii.ascii) : Ascii.ascii :=
  let n := Ascii.nat_of_ascii c in if (65 <=? n) && (n <=? 90) then Ascii.ascii_of_nat (n + 32) else c.
Fixpoint ToLower (s : string) : string :=
  match s with EmptyString => EmptyString | String c s' => String (lower_char c) (ToLower s') end.

(** ** [bufio.Scanner] with [ScanLines] *)

Fixpoint drop_cr (s : string) : string :=
  match s with
  | EmptyString => EmptyString
  | String c EmptyString => if Ascii.eqb c carriage_return then EmptyString else s
  | String c s' => String c (drop_cr s')
  end.

(** The lines of the input, and whether the scan ended without an error: a line
    of [max] bytes or more ends it with [ErrTooLong]. *)
Fixpoint scan_from (max : Z) (cur : string) (s : string) : list string * bool :=
  let fits := (Z.of_nat (String.length cur) <? max)%Z in
  match s with
  | EmptyString => if cur =s "" then ([], true) else if fits then ([drop_cr cur], true) else ([], false)
  | String c s' =>
      if Ascii.eqb c newline
      then if fits then let r := scan_from max "" s' in (drop_cr cur :: r.1, r.2) else ([], false)
      else scan_from max (String.append cur (char c)) s'
  end.
Definition scan_lines (max : Z) (s : string) : list string * bool := scan_from max "" s.

(** [bufio.MaxScanTokenSize]. *)
Definition MaxScanTokenSize : Z := 64 * 1024.

(** ** [path/filepath] on Unix *)

Definition clean_step (rooted : bool) (stack : list string) (c : string) : list string :=
  if (c =s "") || (c =s ".") then stack
  else if c =s ".." then
    match stack with
    | [] => if rooted then [] else [".."]
    | top :: rest => if top =s ".." then ".." :: stack else rest
    end
  else c :: stack.

Definition is_rooted (s : string) : bool :=
  match s with String c _ => Ascii.eqb c slash | EmptyString => false end.

Definition Clean (s : string) : string :=
  let rooted := is_rooted s in
  let body := String.concat "/" (rev (foldl (clean_step rooted) [] (split_on slash s))) in
  if rooted then String slash body else if body =s "" then "." else body.

(** [filepath.Join]: empty elements are left out. *)
Definition Join (elems : list string) : string :=
  match filter (fun e => e <> "") elems with
  | [] => ""
  | es => Clean (String.concat "/" es)
  end.

(** [filepath.Base]. *)
Definition Base (s : string) : string :=
  if s =s "" then "."
  else
    let comps := filter (fun c => c <> "") (split_on slash s) in
    default "/" (last comps).

(** ** Lemmas *)

Lemma append_cons c a b : String.append (String c a) b = String c (String.append a b).
Proof. done. Qed.

Lemma append_nil b : String.append "" b = b.
Proof. done. Qed.

Lemma append_assoc a b c : String.append (String.append a b) c = String.append a (String.append b c).
Proof. induction a as [|x a IH]; rewrite ?append_cons; [done|]. by rewrite IH. Qed.

Lemma append_empty a : String.append a "" = a.
Proof. induction a as [|x a IH]; rewrite ?append_cons; [done|]. by rewrite IH. Qed.

Lemma length_append a b : String.length (String.append a b) = String.length a + String.length b.
Proof. induction a as [|x a IH]; rewrite ?append_cons; simpl; [done|]. by rewrite IH. Qed.

Lemma string_forall_append p a b : string_forall p (String.append a b) = string_forall p a && string_forall p b.
Proof. induction a as [|x a IH]; rewrite ?append_cons; simpl; [done|]. by rewrite IH, andb_assoc. Qed.

Lemma ContainsAny_append a b cs : ContainsAny (String.append a b) cs = ContainsAny a cs || ContainsAny b cs.
Proof. unfold ContainsAny. by rewrite string_forall_append, negb_andb. Qed.

Lemma cut_at_append sep a b : without sep a = true -> cut_at sep (String.append a (String sep b)) = Some (a, b).
Proof.
  unfold without. induction a as [|c a IH]; rewrite ?append_nil, ?append_cons; simpl; [by rewrite Ascii.eqb_refl|].
  intros [Hc Ha]%andb_true_iff. apply negb_true_iff in Hc. by rewrite Hc, IH.
Qed.

Lemma scan_from_line max l : forall cur s, without newline l = true ->
  (Z.of_nat (String.length cur + String.length l) < max)%Z ->
  scan_from max cur (String.append l (String newline s)) =
    (drop_cr (String.append cur l) :: (scan_from max "" s).1, (scan_from max "" s).2).
Proof.
  induction l as [|c l IH]; intros cur s Hl Hlen.
  - simpl String.length in Hlen. rewrite Nat.add_0_r in Hlen. rewrite append_empty, append_nil. apply Z.ltb_lt in Hlen.
    simpl. by rewrite Hlen.
  - unfold without in Hl. simpl in Hl. apply andb_true_iff in Hl as [Hc Hl]. apply negb_true_iff in Hc.
    rewrite append_cons. cbn [scan_from]. rewrite Hc, IH; [by rewrite append_assoc|done|].
    rewrite length_append. simpl in *. lia.
Qed.

(** What a writer of lines wrote is what the scanner reads. *)
Lemma scan_lines_written max ls :
  Forall (fun l => without newline l = true /\ drop_cr l = l /\ (Z.of_nat (String.length l) < max)%Z) ls ->
  scan_lines max (String.concat "" ((fun l => String.append l (char newline)) <$> ls)) = (ls, true).
Proof.
  unfold scan_lines. induction 1 as [|l ls (Hn & Hcr & Hlen) _ IH]; [done|]. cbn [fmap list_fmap].
  assert (forall x xs, String.concat "" (x :: xs) = String.append x (String.concat "" xs)) as ->.
  { intros x [|y ys]; simpl; [by rewrite append_empty|done]. }
  rewrite append_assoc. change (char newline) with (String newline "") at 1. rewrite append_cons, append_nil, scan_from_line by done.
  by rewrite IH, append_nil, Hcr.
Qed.

Lemma string_prefix_cut p s : cut_prefix p (String.append p s) = Some s.
Proof. induction p as [|c p IH]; [by destruct s|]. simpl. rewrite Ascii.eqb_refl. exact IH. Qed.
