(* ===== verification/Platform.v ===== *)
(** * Where the agent keeps its files

    [agent/platform/platform.go] and its two implementations,
    [agent/platform/linux/linux.go] and [agent/platform/windows/windows.go]. *)

From S2P Require Import Prelude Text.

Record Platform := {
  ConfigDir : string;
  BinaryDir : string;
  DataDir : string;
  LogDir : string;
  RuntimeDir : string;
  ConfigPath : string;
  EnrollmentTokenPath : string;
  CACertPath : string;
  ClientCertPath : string;
  ClientKeyPath : string;
  SocketPath : string;
  AgentIDPath : string;
  CDMStatePath : string;
  CDMAuditLogPath : string;
  LocalAuditLogPath : string;
  DropDir : string;
  BinaryPath : string;
  BinaryStagingPath : string;
  BinaryPreviousPath : string;
  PendingUpdatePath : string;
  ServiceName : string;
}.

Definition linux : Platform :=
  let ConfigDir := "/etc/moebius-agent" in
  let BinaryDir := "/usr/local/bin" in
  let DataDir := "/var/lib/moebius-agent" in
  let RuntimeDir := "/run/moebius-agent" in
  {| ConfigDir := ConfigDir;
     BinaryDir := BinaryDir;
     DataDir := DataDir;
     LogDir := "/var/log/moebius-agent";
     RuntimeDir := RuntimeDir;
     ConfigPath := Join [ConfigDir; "config.toml"];
     EnrollmentTokenPath := Join [ConfigDir; "enrollment.token"];
     CACertPath := Join [ConfigDir; "ca.crt"];
     ClientCertPath := Join [ConfigDir; "client.crt"];
     ClientKeyPath := Join [ConfigDir; "client.key"];
     SocketPath := Join [RuntimeDir; "moebius-agent.sock"];
     AgentIDPath := Join [ConfigDir; "agent_id"];
     CDMStatePath := Join [DataDir; "cdm.json"];
     CDMAuditLogPath := Join [DataDir; "cdm-audit.log"];
     LocalAuditLogPath := Join [DataDir; "local-audit.log"];
     DropDir := "/opt/moebius-agent/drop";
     BinaryPath := Join [BinaryDir; "moebius-agent"];
     BinaryStagingPath := Join [BinaryDir; "moebius-agent.new"];
     BinaryPreviousPath := Join [BinaryDir; "moebius-agent.previous"];
     PendingUpdatePath := Join [DataDir; "pending_update.json"];
     ServiceName := "moebius-agent" |}.

(** [filepath.Join] on Windows, of two elements that are clean and not empty. *)
Definition win_join (dir name : string) : string := String.concat "\" [dir; name].

Definition windows : Platform :=
  let ConfigDir := "C:\ProgramData\MoebiusAgent" in
  let BinaryDir := "C:\Program Files\MoebiusAgent" in
  let DataDir := "C:\ProgramData\MoebiusAgent" in
  {| ConfigDir := ConfigDir;
     BinaryDir := BinaryDir;
     DataDir := DataDir;
     LogDir := "";
     RuntimeDir := "";
     ConfigPath := win_join ConfigDir "config.toml";
     EnrollmentTokenPath := win_join ConfigDir "enrollment.token";
     CACertPath := win_join ConfigDir "ca.crt";
     ClientCertPath := win_join ConfigDir "client.crt";
     ClientKeyPath := win_join ConfigDir "client.key";
     SocketPath := "\\.\pipe\moebius-agent";
     AgentIDPath := win_join ConfigDir "agent_id";
     CDMStatePath := win_join DataDir "cdm.json";
     CDMAuditLogPath := win_join DataDir "cdm-audit.log";
     LocalAuditLogPath := win_join DataDir "local-audit.log";
     DropDir := "C:\ProgramData\MoebiusAgent\Drop";
     BinaryPath := win_join BinaryDir "moebius-agent.exe";
     BinaryStagingPath := win_join BinaryDir "moebius-agent.new.exe";
     BinaryPreviousPath := win_join BinaryDir "moebius-agent.previous.exe";
     PendingUpdatePath := win_join DataDir "pending_update.json";
     ServiceName := "MoebiusAgent" |}.

(** The files the agent reads and writes; the socket and the drop directory apart. *)
Definition file_paths (p : Platform) : list string :=
  [ConfigPath p; EnrollmentTokenPath p; CACertPath p; ClientCertPath p; ClientKeyPath p; AgentIDPath p;
   CDMStatePath p; CDMAuditLogPath p; LocalAuditLogPath p; BinaryPath p; BinaryStagingPath p;
   BinaryPreviousPath p; PendingUpdatePath p].

(** No two of them are the same file. *)
Definition well_placed (p : Platform) : Prop := NoDup (file_paths p).

(** Decides a closed fact about the paths of a layout. *)
Ltac apart := apply (bool_decide_unpack _); vm_compute; exact I.

Lemma platforms_well_placed : Forall well_placed [linux; windows].
Proof. repeat constructor; apart. Qed.

(** Two of the files, by their positions in the list. *)
Lemma placed_apart p i j a b :
  well_placed p -> file_paths p !! i = Some a -> file_paths p !! j = Some b -> i <> j -> a <> b.
Proof. intros Hp Hi Hj Hne ->. apply Hne. by eapply NoDup_lookup. Qed.
