(* ===== verification/Float64.v ===== *)
(** * float64 arithmetic

    Go's float64 as exact rationals with the rounding of every operation written
    out: to nearest, ties to even, 53 bits of precision.  The values the code
    computes (chunk counts, token buckets, seconds) stay far from overflow and
    from the subnormal range, which are not modelled. *)

From Stdlib Require Import QArith Qround Lqa.
From S2P Require Import Prelude.

Local Open Scope Z_scope.

(** [a/b] to the nearest integer, ties to even ([b > 0]). *)
Definition rne (a b : Z) : Z :=
  let q := a / b in
  let r := a mod b in
  if 2 * r <? b then q
  else if b <? 2 * r then q + 1
  else if Z.even q then q else q + 1.

(** The exponent of [a/b > 0]: [2^lg a b <= a/b < 2^(lg a b + 1)]. *)
Definition lg (a b : Z) : Z :=
  let d := Z.log2 a - Z.log2 b in
  if a * 2 ^ Z.max 0 (- d) <? b * 2 ^ Z.max 0 d then d - 1 else d.

(** A rational rounded to the nearest float64. *)
Definition rnd_pos (a : Z) (b : positive) : Q :=
  let k := 52 - lg a (Zpos b) in
  if 0 <=? k then Qmake (rne (a * 2 ^ k) (Zpos b)) (Z.to_pos (2 ^ k))
  else Qmake (rne a (Zpos b * 2 ^ (- k)) * 2 ^ (- k)) 1.

Definition rnd (x : Q) : Q :=
  if Qnum x =? 0 then 0%Q
  else if 0 <? Qnum x then rnd_pos (Qnum x) (Qden x)
  else (- rnd_pos (- Qnum x) (Qden x))%Q.

(** Conversion of an integer, and the arithmetic operations. *)
Definition float_of_int (z : Z) : Q := rnd (inject_Z z).
Definition fadd (x y : Q) : Q := rnd (x + y).
Definition fsub (x y : Q) : Q := rnd (x - y).
Definition fmul (x y : Q) : Q := rnd (x * y).
Definition fdiv (x y : Q) : Q := rnd (x / y).

(** [math.Min], [math.Ceil] and the conversion [int(...)], which truncates. *)
Definition fmin (x y : Q) : Q := if Qle_bool x y then x else y.
Definition fceil (x : Q) : Z := Qceiling x.
Definition ftrunc (x : Q) : Z := Z.quot (Qnum x) (Zpos (Qden x)).

(** ** Rounding to an integer *)

Lemma rne_bounds a b : 0 < b -> b * rne a b <= a + b /\ a <= b * rne a b + b /\
  2 * b * rne a b <= 2 * a + b /\ 2 * a <= 2 * b * rne a b + b.
Proof.
  intros Hb. unfold rne. pose proof (Z.div_mod a b ltac:(lia)). pose proof (Z.mod_pos_bound a b Hb).
  destruct (2 * (a mod b) <? b) eqn:E1; [apply Z.ltb_lt in E1; nia|]. apply Z.ltb_ge in E1.
  destruct (b <? 2 * (a mod b)) eqn:E2; [apply Z.ltb_lt in E2; nia|]. apply Z.ltb_ge in E2.
  destruct (Z.even (a / b)); nia.
Qed.

(** Rounding respects integers on both sides. *)
Lemma rne_ge z a b : 0 < b -> z * b <= a -> z <= rne a b.
Proof. intros Hb Hz. destruct (rne_bounds a b Hb) as (_ & _ & _ & H). nia. Qed.

Lemma rne_le z a b : 0 < b -> a <= z * b -> rne a b <= z.
Proof. intros Hb Hz. destruct (rne_bounds a b Hb) as (_ & _ & H & _). nia. Qed.

Lemma rne_exact z b : 0 < b -> rne (z * b) b = z.
Proof. intros Hb. apply Z.le_antisymm; [apply rne_le|apply rne_ge]; lia. Qed.

(** ** The exponent *)

Lemma pow2_pos k : 0 <= k -> 0 < 2 ^ k.
Proof. intros. apply Z.pow_pos_nonneg; lia. Qed.

Lemma lg_spec a b : 0 < a -> 0 < b ->
  b * 2 ^ Z.max 0 (lg a b) <= a * 2 ^ Z.max 0 (- lg a b) /\
  a * 2 ^ Z.max 0 (- (lg a b + 1)) < b * 2 ^ Z.max 0 (lg a b + 1).
Proof.
  intros Ha Hb. destruct (Z.log2_spec a Ha) as [La Ua]. destruct (Z.log2_spec b Hb) as [Lb Ub].
  pose proof (Z.log2_nonneg a) as Na. pose proof (Z.log2_nonneg b) as Nb.
  set (x := Z.log2 a) in *. set (y := Z.log2 b) in *. rewrite Z.pow_succ_r in Ua, Ub by lia.
  assert (b * 2 ^ Z.max 0 (x - y - 1) <= a * 2 ^ Z.max 0 (- (x - y - 1))) as H1.
  { destruct (Z.le_gt_cases (x - y - 1) 0).
    - rewrite (Z.max_l 0 (x - y - 1)), (Z.max_r 0 (- _)) by lia.
      apply Z.le_trans with (2 ^ (y + 1)); [rewrite Z.pow_add_r by lia; lia|].
      replace (y + 1) with (x + (- (x - y - 1))) by lia. rewrite Z.pow_add_r by lia.
      apply Z.mul_le_mono_nonneg_r; [apply Z.pow_nonneg|]; lia.
    - rewrite (Z.max_r 0 (x - y - 1)), (Z.max_l 0 (- _)) by lia.
      apply Z.le_trans with (2 ^ (y + 1) * 2 ^ (x - y - 1)).
      + apply Z.mul_le_mono_nonneg_r; [apply Z.pow_nonneg; lia|]. rewrite Z.pow_add_r by lia. lia.
      + rewrite <-Z.pow_add_r by lia. replace (y + 1 + (x - y - 1)) with x by lia. lia. }
  assert (a * 2 ^ Z.max 0 (- (x - y + 1)) < b * 2 ^ Z.max 0 (x - y + 1)) as H2.
  { destruct (Z.le_gt_cases (x - y + 1) 0).
    - rewrite (Z.max_l 0 (x - y + 1)), (Z.max_r 0 (- _)) by lia.
      apply Z.lt_le_trans with (2 ^ (x + 1) * 2 ^ (- (x - y + 1))).
      + apply Z.mul_lt_mono_pos_r; [apply pow2_pos; lia|]. rewrite Z.pow_add_r by lia. lia.
      + rewrite <-Z.pow_add_r by lia. replace (x + 1 + - (x - y + 1)) with y by lia. lia.
    - rewrite (Z.max_r 0 (x - y + 1)), (Z.max_l 0 (- _)) by lia.
      apply Z.lt_le_trans with (2 ^ (x + 1)); [rewrite Z.pow_add_r by lia; lia|].
      replace (x + 1) with (y + (x - y + 1)) by lia. rewrite Z.pow_add_r by lia.
      apply Z.mul_le_mono_nonneg_r; [apply Z.pow_nonneg|]; lia. }
  unfold lg. fold x y. destruct (_ <? _) eqn:E.
  - apply Z.ltb_lt in E. split; [done|]. by replace (x - y - 1 + 1) with (x - y) by lia.
  - apply Z.ltb_ge in E. split; [lia|done].
Qed.

(** ** Rounding respects the integers up to [2^53] *)

Lemma rnd_pos_ge z a b : 0 < a -> 0 <= z <= 2 ^ 53 -> z * Zpos b <= a -> (inject_Z z <= rnd_pos a b)%Q.
Proof.
  intros Ha Hz Hle. unfold rnd_pos. pose proof (lg_spec a (Zpos b) Ha ltac:(lia)) as [HL _].
  set (e := lg a (Zpos b)) in *. destruct (Z.leb_spec 0 (52 - e)).
  - unfold Qle; simpl. rewrite Z2Pos.id by (apply pow2_pos; lia). rewrite Z.mul_1_r.
    apply rne_ge; [lia|]. pose proof (pow2_pos (52 - e)). nia.
  - unfold Qle; simpl. rewrite Z.mul_1_r. rewrite !Z.max_r, !Z.max_l in HL by lia. simpl in HL.
    assert (2 ^ 52 <= rne a (Zpos b * 2 ^ (- (52 - e)))) as H52.
    { apply rne_ge; [pose proof (pow2_pos (- (52 - e))); nia|].
      rewrite (Z.mul_comm (Zpos b)), Z.mul_assoc, <-Z.pow_add_r by lia.
      replace (52 + - (52 - e)) with e by lia. lia. }
    assert (2 ^ 1 <= 2 ^ (- (52 - e))) as Hp by (apply Z.pow_le_mono_r; lia).
    change (2 ^ 53) with (2 ^ 52 * 2 ^ 1) in Hz. nia.
Qed.

Lemma rnd_pos_le z a b : 0 < a -> z <= 2 ^ 53 -> a <= z * Zpos b -> (rnd_pos a b <= inject_Z z)%Q.
Proof.
  intros Ha Hz Hle. unfold rnd_pos. pose proof (lg_spec a (Zpos b) Ha ltac:(lia)) as [HL _].
  set (e := lg a (Zpos b)) in *. destruct (Z.leb_spec 0 (52 - e)).
  - unfold Qle; simpl. rewrite Z2Pos.id by (apply pow2_pos; lia). rewrite Z.mul_1_r.
    apply rne_le; [lia|]. pose proof (pow2_pos (52 - e)). nia.
  - rewrite !Z.max_r, !Z.max_l in HL by lia. simpl in HL. rewrite Z.mul_1_r in HL.
    assert (e = 53) as He.
    { assert (2 ^ e <= 2 ^ 53) as Hp by nia. apply Z.pow_le_mono_r_iff in Hp; lia. }
    rewrite He in *. unfold Qle; simpl. rewrite Z.mul_1_r.
    assert (z * Zpos b <= 2 ^ 53 * Zpos b) by (apply Z.mul_le_mono_nonneg_r; lia).
    assert (2 ^ 53 <= z) by nia. change (2 ^ (- (52 - 53))) with 2.
    assert (rne a (Zpos b * 2) <= 2 ^ 52) by (apply rne_le; lia). lia.
Qed.

Lemma rnd_ge z x : 0 <= z <= 2 ^ 53 -> (inject_Z z <= x)%Q -> (inject_Z z <= rnd x)%Q.
Proof.
  intros Hz Hx. unfold Qle in Hx; simpl in Hx. rewrite Z.mul_1_r in Hx. unfold rnd.
  destruct (Z.eqb_spec (Qnum x) 0) as [E|E]; [rewrite E in Hx; unfold Qle; simpl; nia|].
  assert (0 < Qnum x) as Hp by nia. destruct (Z.ltb_spec 0 (Qnum x)); [|lia]. by apply rnd_pos_ge.
Qed.

Lemma rnd_le z x : 0 <= z <= 2 ^ 53 -> (0 <= x)%Q -> (x <= inject_Z z)%Q -> (rnd x <= inject_Z z)%Q.
Proof.
  intros Hz H0 Hx. unfold Qle in Hx, H0; simpl in Hx, H0. rewrite Z.mul_1_r in *. unfold rnd.
  destruct (Z.eqb_spec (Qnum x) 0) as [E|E]; [unfold Qle; simpl; lia|].
  destruct (Z.ltb_spec 0 (Qnum x)); [|lia]. apply rnd_pos_le; lia.
Qed.

Lemma rnd_nonneg x : (0 <= x)%Q -> (0 <= rnd x)%Q.
Proof. apply (rnd_ge 0). lia. Qed.

(** Integers up to [2^53] are floats. *)
Lemma rnd_int z x : 0 <= z <= 2 ^ 53 -> (x == inject_Z z)%Q -> (rnd x == inject_Z z)%Q.
Proof.
  intros Hz Hx. apply Qle_antisym.
  - apply rnd_le; [done| |]; rewrite Hx; [change 0%Q with (inject_Z 0); rewrite <-Zle_Qle; lia|apply Qle_refl].
  - apply rnd_ge; [done|]. rewrite Hx. apply Qle_refl.
Qed.

(** Below [2^31] a rounded number does not fall onto an integer it exceeds by at
    least [1/D], for [D] below [2^23]. *)
Lemma rnd_gt z D x :
  0 <= z -> 0 < D < 2 ^ 23 -> (x < inject_Z (2 ^ 31))%Q -> (inject_Z z + (1 # Z.to_pos D) <= x)%Q -> (inject_Z z < rnd x)%Q.
Proof.
  intros Hz HD Hx Hzx. destruct x as [a b]. unfold Qlt, Qle in *; simpl in *.
  rewrite Pos.mul_1_l, Z2Pos.id, ?Z.mul_1_r in * by lia. assert (0 < a) as Ha by nia. unfold rnd. simpl.
  destruct (Z.eqb_spec a 0); [lia|]. destruct (Z.ltb_spec 0 a); [|lia]. unfold rnd_pos.
  pose proof (lg_spec a (Zpos b) Ha ltac:(lia)) as [HL _]. set (e := lg a (Zpos b)) in *.
  assert (e <= 30) as He.
  { destruct (Z.le_gt_cases e 30); [done|]. rewrite Z.max_r, Z.max_l in HL by lia. simpl in HL.
    assert (2 ^ 31 <= 2 ^ e) by (apply Z.pow_le_mono_r; lia). nia. }
  destruct (Z.leb_spec 0 (52 - e)); [|lia]. simpl. rewrite Z2Pos.id by (apply pow2_pos; lia).
  assert (2 ^ 22 <= 2 ^ (52 - e)) as Hk by (apply Z.pow_le_mono_r; lia). set (K := 2 ^ (52 - e)) in *.
  destruct (rne_bounds (a * K) (Zpos b)) as (_ & _ & _ & Hr); [lia|]. set (m := rne _ _) in *.
  assert (D * (a - z * Zpos b) >= Zpos b) as H1 by lia.
  assert (2 * K * (a - z * Zpos b) > Zpos b) as H2.
  { change (2 ^ 23) with (2 * 2 ^ 22) in HD. nia. }
  nia.
Qed.

(** The ceiling of a float quotient of integers is exact up to [2^53]. *)
Lemma fceil_fdiv n D :
  0 < n <= 2 ^ 53 -> 0 < D < 2 ^ 23 -> n < 2 ^ 31 * D ->
  fceil (fdiv (float_of_int n) (float_of_int D)) = (n + D - 1) / D.
Proof.
  intros Hn HD Hmax. unfold fceil, fdiv, float_of_int.
  pose proof (rnd_int n (inject_Z n) ltac:(lia) ltac:(reflexivity)) as Ein.
  pose proof (rnd_int D (inject_Z D) ltac:(lia) ltac:(reflexivity)) as EiD.
  set (x := (rnd (inject_Z n) / rnd (inject_Z D))%Q).
  assert (x == inject_Z n / inject_Z D)%Q as Ex by (unfold x; by rewrite Ein, EiD). clearbody x. clear Ein EiD.
  pose proof (Z.div_mod (n + D - 1) D ltac:(lia)) as Hdm. pose proof (Z.mod_pos_bound (n + D - 1) D ltac:(lia)).
  set (N := (n + D - 1) / D) in *.
  assert (inject_Z n == x * inject_Z D)%Q as Enx.
  { rewrite Ex. field. unfold Qeq; simpl; lia. }
  assert (0 < inject_Z D)%Q as HDq by (unfold Qlt; simpl; lia).
  assert (rnd x <= inject_Z N)%Q as Hup.
  { apply rnd_le; [nia| |].
    - rewrite Ex. unfold Qdiv. apply Qmult_le_0_compat; [unfold Qle; simpl; lia|]. apply Qinv_le_0_compat. lra.
    - apply Qmult_le_r with (inject_Z D); [done|]. rewrite <-Enx, <-inject_Z_mult, <-Zle_Qle. lia. }
  assert (inject_Z (N - 1) < rnd x)%Q as Hlow.
  { apply (rnd_gt _ D); [nia|lia| |].
    - apply Qmult_lt_r with (inject_Z D); [done|]. rewrite <-Enx, <-inject_Z_mult, <-Zlt_Qlt. nia.
    - apply Qmult_le_r with (inject_Z D); [done|]. rewrite <-Enx, Qmult_plus_distr_l, <-inject_Z_mult.
      assert ((1 # Z.to_pos D) * inject_Z D == inject_Z 1)%Q as ->
        by (unfold Qeq; simpl; rewrite ?Pos.mul_1_r, Z2Pos.id by lia; lia).
      rewrite <-inject_Z_plus, <-Zle_Qle. lia. }
  apply Z.le_antisymm.
  - apply Qceiling_resp_le in Hup. by rewrite Qceiling_Z in Hup.
  - assert (N - 1 < Qceiling (rnd x)); [|lia]. rewrite Zlt_Qlt.
    eapply Qlt_le_trans; [exact Hlow|]. apply Qle_ceiling.
Qed.

(** ** The relative error of rounding upwards *)

Definition ulp53 : Q := (1 # 2 ^ 53)%Q.

Lemma rnd_pos_err a b : 0 < a -> (rnd_pos a b <= (a # b) * (1 + ulp53))%Q.
Proof.
  intros Ha. unfold rnd_pos. pose proof (lg_spec a (Zpos b) Ha ltac:(lia)) as [HL _].
  set (e := lg a (Zpos b)) in *. set (B := Zpos b) in *. assert (0 < B) as HB by (unfold B; lia).
  destruct (Z.leb_spec 0 (52 - e)).
  - destruct (rne_bounds (a * 2 ^ (52 - e)) B HB) as (_ & _ & Hr & _). set (m := rne _ _) in *.
    pose proof (pow2_pos (52 - e) ltac:(lia)) as Hk. set (K := 2 ^ (52 - e)) in *.
    assert (B * 2 ^ 52 <= a * K) as Hm.
    { unfold K. destruct (Z.le_gt_cases 0 e).
      - rewrite Z.max_r, Z.max_l in HL by lia. replace (2 ^ 52) with (2 ^ e * 2 ^ (52 - e)); [nia|].
        rewrite <-Z.pow_add_r by lia. f_equal. lia.
      - rewrite Z.max_l, Z.max_r in HL by lia. replace (2 ^ (52 - e)) with (2 ^ 52 * 2 ^ (- e)); [nia|].
        rewrite <-Z.pow_add_r by lia. f_equal. }
    unfold Qle; simpl. rewrite Z2Pos.id by done. rewrite Pos2Z.inj_mul. fold B.
    change (Z.pow_pos 2 53) with (2 ^ 53). change (2 ^ 53) with (2 * 2 ^ 52). nia.
  - rewrite Z.max_r, Z.max_l in HL by lia. simpl in HL. pose proof (pow2_pos (- (52 - e)) ltac:(lia)) as Hk.
    assert (2 ^ e = 2 ^ 52 * 2 ^ (- (52 - e))) as He by (rewrite <-Z.pow_add_r by lia; f_equal; lia).
    set (K := 2 ^ (- (52 - e))) in *. destruct (rne_bounds a (B * K)) as (_ & _ & Hr & _); [nia|]. set (m := rne _ _) in *.
    unfold Qle; simpl. rewrite Pos2Z.inj_mul. fold B. nia.
Qed.

Lemma rnd_err x : (0 <= x)%Q -> (rnd x <= x * (1 + ulp53))%Q.
Proof.
  intros Hx. destruct x as [a b]. unfold rnd. simpl. destruct (Z.eqb_spec a 0) as [->|]; [by unfold Qle|].
  assert (0 < a) by (unfold Qle in Hx; simpl in Hx; lia). destruct (Z.ltb_spec 0 a); [|lia]. by apply rnd_pos_err.
Qed.
