(* ===== verification/Prog.v ===== *)
(** * Programs over shared state

    The server's request handlers, the scheduler's tick and the agent's job
    runner are sequences of atomic accesses to a shared store (PostgreSQL, a
    directory) with Go control flow in between.  [prog S R A] is such a
    sequence: [S] is the store, [R] what an early [return] hands back (an HTTP
    response) and [A] the value of a normal continuation.

    Every atomic access is given an environment [Env]: whether the access
    fails, what the clock reads and which random identifier is drawn.
    [run] executes a program alone; [pstep] interleaves a pool of programs.
    [rg] is the rely/guarantee triple the theorems are stated with, [guar] its
    result-independent fragment. *)

From stdpp Require Import relations.
From S2P Require Import Prelude.

Record Env := {
  e_fault : bool;           (* the access reports an error and has no effect *)
  e_faults : nat -> bool;   (* the same for the statements of a transaction *)
  e_now : Z;                (* time.Now(), in nanoseconds *)
  e_id : string;            (* the random part of a fresh identifier *)
}.

Inductive prog (S R A : Type) : Type :=
| PRet (a : A)
| PStop (r : R)
| PStep (X : Type) (f : Env -> S -> S * X) (k : X -> prog S R A).
Arguments PRet {S R A} a.
Arguments PStop {S R A} r.
Arguments PStep {S R A X} f k.

Fixpoint pbind {S R A B} (p : prog S R A) (g : A -> prog S R B) : prog S R B :=
  match p with
  | PRet a => g a
  | PStop r => PStop r
  | PStep f k => PStep f (fun x => pbind (k x) g)
  end.

#[export] Instance prog_ret {S R} : MRet (prog S R) := fun A a => PRet a.
#[export] Instance prog_bind {S R} : MBind (prog S R) := fun A B g p => pbind p g.

(** What a single-row query gives: [Scan] filled the row, [pgx.ErrNoRows], or
    another error. *)
Inductive qres (A : Type) : Type :=
| Row (a : A)
| NoRows
| DbErr.
Arguments Row {A} a.
Arguments NoRows {A}.
Arguments DbErr {A}.

(** ** Primitive accesses *)
Section Primitives.
Context {S R : Type}.

(** [return] with a response. *)
Definition stop {A} (r : R) : prog S R A := PStop r.

(** [time.Now()]. *)
Definition time_now : prog S R Z := PStep (fun e s => (s, e_now e)) PRet.

(** [models.New...ID()]: a prefix and 16 random hexadecimal digits. *)
Definition new_id (prefix : string) : prog S R string :=
  PStep (fun e s => (s, String.append prefix (String.append "_" (e_id e)))) PRet.

(** [pool.Exec] of a data-modifying statement: [None] is an error (a fault of
    the access, or a violated constraint), with no effect on the store. *)
Definition exec {X} (f : S -> option (S * X)) : prog S R (option X) :=
  PStep (fun e s =>
    if e_fault e then (s, None)
    else match f s with
         | Some (s', x) => (s', Some x)
         | None => (s, None)
         end) PRet.

(** [pool.Query] and the [rows.Next()] loop: [None] is an error. *)
Definition query {X} (f : S -> X) : prog S R (option X) :=
  PStep (fun e s => if e_fault e then (s, None) else (s, Some (f s))) PRet.

(** [pool.QueryRow(...).Scan(...)]. *)
Definition query_row {X} (f : S -> option X) : prog S R (qres X) :=
  PStep (fun e s =>
    if e_fault e then (s, DbErr)
    else match f s with Some x => (s, Row x) | None => (s, NoRows) end) PRet.

(** The statements of a transaction in order; a failing statement or a failing
    commit rolls everything back.  [Some i] is the index of what failed (the
    number of statements for the commit), [None] a committed transaction. *)
Fixpoint tx_run (fault : nat -> bool) (i : nat) (stmts : list (S -> option S)) (s : S) : S + nat :=
  match stmts with
  | [] => if fault i then inr i else inl s
  | f :: stmts' =>
      if fault i then inr i
      else match f s with
           | Some s' => tx_run fault (Datatypes.S i) stmts' s'
           | None => inr i
           end
  end.

Definition transact (stmts : list (S -> option S)) : prog S R (option nat) :=
  PStep (fun e s =>
    match tx_run (e_faults e) 0 stmts s with
    | inl s' => (s', None)
    | inr i => (s, Some i)
    end) PRet.

(** A transaction with a value that a committed run reports, such as the rows a
    statement affected, as a function of the store it started from. *)
Definition transact_obs {X} (stmts : list (S -> option S)) (obs : S -> X) : prog S R (X + nat) :=
  PStep (fun e s =>
    match tx_run (e_faults e) 0 stmts s with
    | inl s' => (s', inl (obs s))
    | inr i => (s, inr i)
    end) PRet.

(** [for _, x := range xs { ... }] with an accumulator. *)
Fixpoint for_each {X B} (xs : list X) (acc : B) (body : B -> X -> prog S R B) : prog S R B :=
  match xs with
  | [] => PRet acc
  | x :: xs' => pbind (body acc x) (fun acc' => for_each xs' acc' body)
  end.

(** A call of a function that returns early: its [return b] is the value [b] of
    the call. *)
Fixpoint call {B} (p : prog S B B) : prog S R B :=
  match p with
  | PRet b => PRet b
  | PStop b => PRet b
  | PStep f k => PStep f (fun x => call (k x))
  end.

(** A program of another process: how it ended, as a value. *)
Fixpoint caught {F A} (p : prog S F A) : prog S R (F + A) :=
  match p with
  | PRet a => PRet (inr a)
  | PStop e => PRet (inl e)
  | PStep f k => PStep f (fun x => caught (k x))
  end.

End Primitives.

(** A program over a part of the store; its early return is turned into one of
    the whole. *)
Section Zoom.
Context {S T R : Type} (get : S -> T) (put : T -> S -> S).

Fixpoint zoom {A} (p : prog T R A) : prog S R A :=
  match p with
  | PRet a => PRet a
  | PStop r => PStop r
  | PStep f k => PStep (fun e s => (put (f e (get s)).1 s, (f e (get s)).2)) (fun x => zoom (k x))
  end.
End Zoom.

(** ** Running a program alone *)
Section Run.
Context {S R : Type}.

Fixpoint run {A} (p : prog S R A) (env : nat -> Env) (n : nat) (s : S) : S * nat * (R + A) :=
  match p with
  | PRet a => (s, n, inr a)
  | PStop r => (s, n, inl r)
  | PStep f k => run (k (f (env n) s).2) env (Datatypes.S n) (f (env n) s).1
  end.

Definition run_store {A} (p : prog S R A) env s : S := (run p env 0 s).1.1.
Definition run_result {A} (p : prog S R A) env s : R + A := (run p env 0 s).2.

(** ** Rely/guarantee triples

    [rg E Rl G p Q s]: started in [s], in environments that satisfy [E], while
    other programs change the store by [Rl], every access of [p] changes it by
    [G], and [p] ends in [Q].  Programs are finite trees, so a triple says that
    the program ends. *)
Fixpoint rg (E : Env -> Prop) (Rl G : relation S) {A} (p : prog S R A) (Q : R + A -> S -> Prop) (s : S) : Prop :=
  match p with
  | PRet a => Q (inr a) s
  | PStop r => Q (inl r) s
  | PStep f k => forall s1 e, E e -> Rl s s1 ->
      G s1 (f e s1).1 /\ rg E Rl G (k (f e s1).2) Q (f e s1).1
  end.

(** Every access of [p], whatever was read before it, changes the store by [G]. *)
Fixpoint guar (G : relation S) {A} (p : prog S R A) : Prop :=
  match p with
  | PRet _ | PStop _ => True
  | PStep f k => (forall e s, G s (f e s).1) /\ (forall x, guar G (k x))
  end.

(** ** Interleaving: a pool of programs that share the store *)
Inductive pstep {A} : S * list (prog S R A) -> S * list (prog S R A) -> Prop :=
| pstep_one s e i X (f : Env -> S -> S * X) k pool :
    pool !! i = Some (PStep f k) ->
    pstep (s, pool) ((f e s).1, <[i := k (f e s).2]> pool).

End Run.

(** ** Rules *)


(** Every environment, and the environments in which no access fails. *)
Definition any_env (e : Env) : Prop := True.
Definition ok_env (e : Env) : Prop := e_fault e = false /\ forall i, e_faults e i = false.
Definition may_fault (E : Env -> Prop) : Prop := exists e, E e /\ e_fault e = true.

Lemma ok_env_no_fault : ~ may_fault ok_env.
Proof. intros (e & [He _] & Hf). congruence. Qed.

(** The environments of one run. *)
Definition envs (env : nat -> Env) (e : Env) : Prop := exists n, env n = e.

Lemma envs_no_fault env : (forall n, ok_env (env n)) -> ~ may_fault (envs env).
Proof. intros H (e & [n <-] & Hf). destruct (H n). congruence. Qed.

Section Rules.
Context {S R : Type}.
Implicit Types (E : Env -> Prop) (Rl G : relation S).

Lemma rg_mono E Rl G {A} (p : prog S R A) (Q Q' : R + A -> S -> Prop) : forall s,
  (forall r s', Q r s' -> Q' r s') -> rg E Rl G p Q s -> rg E Rl G p Q' s.
Proof.
  induction p as [a|r|X f k IH]; intros s HQ; simpl; eauto.
  intros Hp s1 e HE HR. destruct (Hp s1 e HE HR). eauto.
Qed.

Lemma rg_always E Rl {A} (p : prog S R A) (Q : R + A -> S -> Prop) : forall s,
  (forall r s', Q r s') -> rg E Rl (fun _ _ => True) p Q s.
Proof. induction p as [a|r|X f k IH]; intros s HQ; simpl; auto. Qed.

Lemma rg_weaken_G E Rl G G' {A} (p : prog S R A) (Q : R + A -> S -> Prop) : forall s,
  (forall a b, G a b -> G' a b) -> rg E Rl G p Q s -> rg E Rl G' p Q s.
Proof.
  induction p as [a|r|X f k IH]; intros s HG; simpl; eauto.
  intros Hp s1 e HE HR. destruct (Hp s1 e HE HR). eauto.
Qed.

Lemma rg_bind E Rl G {A B} (p : prog S R A) (g : A -> prog S R B) (Q : R + B -> S -> Prop) : forall s,
  rg E Rl G p (fun r s' => match r with inl x => Q (inl x) s' | inr a => rg E Rl G (g a) Q s' end) s ->
  rg E Rl G (p ≫= g) Q s.
Proof.
  induction p as [a|r|X f k IH]; intros s; simpl; eauto.
  intros Hp s1 e HE HR. destruct (Hp s1 e HE HR) as [??]. split; [done|]. by apply IH.
Qed.

Lemma rg_call E Rl G {B} (p : prog S B B) (Q : R + B -> S -> Prop) : forall s,
  rg E Rl G p (fun r s' => match r with inl b | inr b => Q (inr b) s' end) s ->
  rg E Rl G (call p) Q s.
Proof.
  induction p as [a|r|X f k IH]; intros s; simpl; eauto.
  intros Hp s1 e HE HR. destruct (Hp s1 e HE HR) as [??]. eauto.
Qed.

(** *** Running composed programs *)

Lemma run_bind {A B} (p : prog S R A) (g : A -> prog S R B) env : forall n s,
  run (p ≫= g) env n s =
  match run p env n s with
  | (s', n', inr a) => run (g a) env n' s'
  | (s', n', inl r) => (s', n', inl r)
  end.
Proof. induction p as [a|r|X f k IH]; intros n s; simpl; [done|done|]. apply (IH (f (env n) s).2). Qed.

Lemma run_call {B} (p : prog S B B) env : forall n s,
  run (call p : prog S R B) env n s =
  match run p env n s with (s', n', inl b) | (s', n', inr b) => (s', n', inr b) end.
Proof. induction p as [a|r|X f k IH]; intros n s; simpl; [done|done|]. apply (IH (f (env n) s).2). Qed.

Lemma run_caught {F A} (p : prog S F A) env : forall n s,
  run (caught p : prog S R (F + A)) env n s = ((run p env n s).1, inr (run p env n s).2).
Proof. induction p as [a|r|X f k IH]; intros n s; simpl; [done|done|]. apply (IH (f (env n) s).2). Qed.

(** A program started at access [n] is one started at 0 in a shifted environment. *)
Lemma run_shift {A} (p : prog S R A) env : forall n s,
  (run p env n s).1.1 = run_store p (fun k => env (n + k)) s /\ (run p env n s).2 = run_result p (fun k => env (n + k)) s.
Proof.
  unfold run_store, run_result.
  assert (forall m n s, (run p env (n + m) s).1.1 = (run p (fun k => env (n + k)) m s).1.1 /\
    (run p env (n + m) s).2 = (run p (fun k => env (n + k)) m s).2) as H.
  { induction p as [a|r|X f k IH]; intros m n s; simpl; [done|done|].
    specialize (IH (f (env (n + m)) s).2 (Datatypes.S m) n (f (env (n + m)) s).1).
    by rewrite Nat.add_succ_r in IH. }
  intros n s. specialize (H 0 n s). by rewrite Nat.add_0_r in H.
Qed.

(** A program run to its end while the others of the pool wait is one
    interleaving. *)
Definition finished {A} (r : R + A) : prog S R A := match r with inl x => PStop x | inr a => PRet a end.

Lemma pool_run {A} (p : prog S R A) env : forall n s pool i,
  pool !! i = Some p ->
  rtc pstep (s, pool) ((run p env n s).1.1, <[i := finished (run p env n s).2]> pool).
Proof.
  induction p as [a|r|X f k IH]; intros n s pool i Hi; simpl.
  - by rewrite list_insert_id.
  - by rewrite list_insert_id.
  - eapply rtc_l; [apply (pstep_one s (env n) i X f k pool Hi)|].
    pose proof (lookup_lt_Some _ _ _ Hi) as Hlt.
    specialize (IH (f (env n) s).2 (Datatypes.S n) (f (env n) s).1 (<[i := k (f (env n) s).2]> pool) i).
    rewrite list_insert_insert_eq in IH. apply IH. by apply list_lookup_insert_eq.
Qed.

(** The first [k] accesses of a program. *)
Fixpoint run_some {A} (k : nat) (p : prog S R A) (env : nat -> Env) (n : nat) (s : S) : S * prog S R A :=
  match k, p with
  | Datatypes.S k', PStep f g => run_some k' (g (f (env n) s).2) env (Datatypes.S n) (f (env n) s).1
  | _, _ => (s, p)
  end.

(** A run cut short inside a sequence is cut short in its first part or in its second. *)
Lemma run_some_bind {A B} (g : A -> prog S R B) env k : forall (p : prog S R A) n s,
  run_some k (p ≫= g) env n s = ((run_some k p env n s).1, (run_some k p env n s).2 ≫= g) \/
  exists s1 n1 a k1, run p env n s = (s1, n1, inr a) /\ run_some k (p ≫= g) env n s = run_some k1 (g a) env n1 s1.
Proof.
  induction k as [|k IH]; intros [a|r|X f h] n s; try (by left); try (by right; eexists _, _, _, _).
  destruct (IH (h (f (env n) s).2) (Datatypes.S n) (f (env n) s).1) as [H|H]; [left|right]; exact H.
Qed.

Lemma pool_run_some {A} k : forall (p : prog S R A) env n s pool i,
  pool !! i = Some p ->
  rtc pstep (s, pool) ((run_some k p env n s).1, <[i := (run_some k p env n s).2]> pool).
Proof.
  induction k as [|k IH]; intros [a|r|X f g] env n s pool i Hi; simpl; try (by rewrite list_insert_id).
  eapply rtc_l; [apply (pstep_one s (env n) i X f g pool Hi)|].
  pose proof (lookup_lt_Some _ _ _ Hi) as Hlt.
  specialize (IH (g (f (env n) s).2) env (Datatypes.S n) (f (env n) s).1 (<[i := g (f (env n) s).2]> pool) i).
  rewrite list_insert_insert_eq in IH. apply IH. by apply list_lookup_insert_eq.
Qed.

(** *** [rg] of the primitives *)

Lemma rg_mret E Rl G {A} (a : A) (Q : R + A -> S -> Prop) s : Q (inr a) s -> rg E Rl G (mret a) Q s.
Proof. done. Qed.

Lemma rg_stop E Rl G {A} (r : R) (Q : R + A -> S -> Prop) s : Q (inl r) s -> rg E Rl G (stop r) Q s.
Proof. done. Qed.

Lemma rg_now E Rl G (Q : R + Z -> S -> Prop) s :
  (forall s1 t, Rl s s1 -> G s1 s1 /\ Q (inr t) s1) -> rg E Rl G time_now Q s.
Proof. intros H s1 e HE HR. apply (H s1 (e_now e) HR). Qed.

Lemma rg_new_id E Rl G prefix (Q : R + string -> S -> Prop) s :
  (forall s1 i, Rl s s1 -> G s1 s1 /\ Q (inr i) s1) -> rg E Rl G (new_id prefix) Q s.
Proof. intros H s1 e HE HR. apply (H s1 _ HR). Qed.

Lemma rg_query E Rl G {X} (f : S -> X) (Q : R + option X -> S -> Prop) s :
  (forall s1, Rl s s1 -> G s1 s1 /\ (may_fault E -> Q (inr None) s1) /\ Q (inr (Some (f s1))) s1) ->
  rg E Rl G (query f) Q s.
Proof.
  intros H s1 e HE HR. specialize (H s1 HR). simpl.
  destruct (e_fault e) eqn:Ef; [assert (may_fault E) by (by exists e)|]; repeat case_match; simpl; tauto.
Qed.

Lemma rg_query_row E Rl G {X} (f : S -> option X) (Q : R + qres X -> S -> Prop) s :
  (forall s1, Rl s s1 -> G s1 s1 /\ (may_fault E -> Q (inr DbErr) s1) /\
     match f s1 with Some x => Q (inr (Row x)) s1 | None => Q (inr NoRows) s1 end) ->
  rg E Rl G (query_row f) Q s.
Proof.
  intros H s1 e HE HR. specialize (H s1 HR). simpl.
  destruct (e_fault e) eqn:Ef; [assert (may_fault E) by (by exists e)|]; repeat case_match; simpl; tauto.
Qed.

Lemma rg_exec E Rl G {X} (f : S -> option (S * X)) (Q : R + option X -> S -> Prop) s :
  (forall s1, Rl s s1 -> G s1 s1 /\ (may_fault E -> Q (inr None) s1) /\
     match f s1 with Some (s', x) => G s1 s' /\ Q (inr (Some x)) s' | None => Q (inr None) s1 end) ->
  rg E Rl G (exec f) Q s.
Proof.
  intros H s1 e HE HR. specialize (H s1 HR). simpl.
  destruct (e_fault e) eqn:Ef; [assert (may_fault E) by (by exists e)|]; repeat case_match; simpl; tauto.
Qed.

Lemma rg_transact E Rl G stmts (Q : R + option nat -> S -> Prop) s :
  (forall s1 e, E e -> Rl s s1 ->
     match tx_run (e_faults e) 0 stmts s1 with
     | inl s' => G s1 s' /\ Q (inr None) s'
     | inr i => G s1 s1 /\ Q (inr (Some i)) s1
     end) ->
  rg E Rl G (transact stmts) Q s.
Proof. intros H s1 e HE HR. specialize (H s1 e HE HR). simpl. by case_match. Qed.

Lemma rg_transact_obs E Rl G {X} stmts (obs : S -> X) (Q : R + (X + nat) -> S -> Prop) s :
  (forall s1 e, E e -> Rl s s1 ->
     match tx_run (e_faults e) 0 stmts s1 with
     | inl s' => G s1 s' /\ Q (inr (inl (obs s1))) s'
     | inr i => G s1 s1 /\ Q (inr (inr i)) s1
     end) ->
  rg E Rl G (transact_obs stmts obs) Q s.
Proof. intros H s1 e HE HR. specialize (H s1 e HE HR). simpl. by case_match. Qed.

(** A loop with an invariant [I done acc] on the elements already handled. *)
Lemma rg_for_each E Rl G {X B} (body : B -> X -> prog S R B) (Q : R + B -> S -> Prop)
    (I : list X -> B -> S -> Prop) xs : forall ys acc s,
  I ys acc s ->
  (forall ys' x zs acc s, ys ++ xs = ys' ++ x :: zs -> I ys' acc s ->
     rg E Rl G (body acc x)
        (fun r s' => match r with inl q => Q (inl q) s' | inr b => I (ys' ++ [x]) b s' end) s) ->
  (forall b s, I (ys ++ xs) b s -> Q (inr b) s) ->
  rg E Rl G (for_each xs acc body) Q s.
Proof.
  induction xs as [|x xs IH]; intros ys acc s HI Hb HQ; simpl.
  - apply HQ. by rewrite app_nil_r.
  - apply (rg_bind E Rl G (body acc x) (fun acc' => for_each xs acc' body)).
    eapply rg_mono; [|by eapply Hb].
    intros [q|b] s' H; [done|]. eapply (IH (ys ++ [x])); [done|..]; rewrite <-app_assoc; eauto.
Qed.

Lemma rg_for_each_cons E Rl G {X B} (body : B -> X -> prog S R B) (Q : R + B -> S -> Prop) x xs acc s :
  rg E Rl G (body acc x)
    (fun r s' => match r with inl q => Q (inl q) s' | inr b => rg E Rl G (for_each xs b body) Q s' end) s ->
  rg E Rl G (for_each (x :: xs) acc body) Q s.
Proof. apply (rg_bind E Rl G (body acc x) (fun acc' => for_each xs acc' body)). Qed.

Lemma guar_weaken G G' {A} (p : prog S R A) :
  (forall a b, G a b -> G' a b) -> guar G p -> guar G' p.
Proof. intros HG. induction p as [a|r|X f k IH]; simpl; [done..|]. intros [??]; eauto. Qed.

(** A program's own accesses, composed, stay within the transitive closure. *)
Lemma guar_run G {A} (p : prog S R A) env : forall n s,
  guar G p -> rtc G s (run p env n s).1.1.
Proof.
  induction p as [a|r|X f k IH]; intros n s; simpl; [done..|].
  intros [Hf Hk]. eapply rtc_l; [apply Hf|]. by apply IH.
Qed.

Lemma guar_run_some G `{!PreOrder G} {A} k env : forall (p : prog S R A) n s,
  guar G p -> G s (run_some k p env n s).1.
Proof.
  induction k as [|k IH]; intros [a|r|X f h] n s; simpl; try (intros; reflexivity).
  intros [Hf Hh]. etrans; [apply Hf|]. by apply IH.
Qed.

(** A guarantee that is no restriction. *)
Lemma guar_trivial G {A} (p : prog S R A) : (forall a b, G a b) -> guar G p.
Proof. intros HG. induction p as [a|r|X f k IH]; simpl; auto. Qed.

Lemma guar_run_preorder G `{!PreOrder G} {A} (p : prog S R A) env n s :
  guar G p -> G s (run p env n s).1.1.
Proof.
  intros Hp. apply (guar_run G p env n s) in Hp.
  induction Hp as [x|x y z Hxy _ IH]; [reflexivity|etrans; eauto].
Qed.

(** A triple with the identity rely is a triple of the program run alone. *)
Lemma rg_run E G {A} (p : prog S R A) (Q : R + A -> S -> Prop) env : forall n s,
  (forall m, E (env m)) -> rg E (=) G p Q s -> Q (run p env n s).2 (run p env n s).1.1.
Proof.
  induction p as [a|r|X f k IH]; intros n s HE; simpl; [done..|].
  intros Hp. by destruct (Hp s (env n) (HE n) eq_refl); auto.
Qed.

(** The same for its accesses: they compose to the closure of the guarantee. *)
Lemma rg_run_guar E G {A} (p : prog S R A) (Q : R + A -> S -> Prop) env : forall n s,
  (forall m, E (env m)) -> rg E (=) G p Q s -> rtc G s (run p env n s).1.1.
Proof.
  induction p as [a|r|X f k IH]; intros n s HE; simpl; [done..|].
  intros Hp. destruct (Hp s (env n) (HE n) eq_refl). eapply rtc_l; eauto.
Qed.

(** Interleaving theorem: when every program of the pool guarantees [G], any
    interleaving stays within the closure of [G]. *)
Lemma pstep_guar G {A} (c c' : S * list (prog S R A)) :
  pstep c c' -> Forall (guar G) c.2 -> G c.1 c'.1 /\ Forall (guar G) c'.2.
Proof.
  destruct 1 as [s e i X f k pool Hi]; simpl. intros Hp.
  pose proof (Forall_lookup_1 _ _ _ _ Hp Hi) as [Hf Hk].
  split; [done|]. apply Forall_insert; auto.
Qed.

Lemma psteps_guar G {A} (c c' : S * list (prog S R A)) :
  rtc pstep c c' -> Forall (guar G) c.2 -> rtc G c.1 c'.1.
Proof.
  induction 1 as [c|c c1 c2 Hs _ IH]; [done|]. intros Hp.
  destruct (pstep_guar G _ _ Hs Hp). eapply rtc_l; eauto.
Qed.

Lemma psteps_guar_preorder G `{!PreOrder G} {A} (s s' : S) (pool pool' : list (prog S R A)) :
  rtc pstep (s, pool) (s', pool') -> Forall (guar G) pool -> G s s'.
Proof.
  intros Hs Hp. apply (psteps_guar G _ _ Hs) in Hp. simpl in Hp. clear Hs.
  induction Hp as [x|x y z Hxy _ IH]; [reflexivity|by etrans].
Qed.

(** A program that guarantees [G] satisfies every triple about stable facts. *)
Lemma guar_rg_stable E Rl G (P : S -> Prop) {A} (p : prog S R A) : forall s,
  (forall a b, Rl a b -> P a -> P b) -> (forall a b, G a b -> P a -> P b) ->
  guar G p -> P s -> rg E Rl G p (fun _ s' => P s') s.
Proof.
  induction p as [a|r|X f k IH]; intros s HR HG; simpl; [done..|].
  intros [Hf Hk] HP s1 e _ Hs1. split; [done|]. apply IH; eauto.
Qed.

Lemma guar_rg E Rl G {A} (p : prog S R A) s : guar G p -> rg E Rl G p (fun _ _ => True) s.
Proof. intros Hp. by apply guar_rg_stable. Qed.

(** A read-only program, run alone, only has its result to be accounted for. *)
Lemma rg_readonly E G `{!Reflexive G} {A} (p : prog S R A) (Q : R + A -> S -> Prop) s :
  guar (=) p -> (forall r, Q r s) -> rg E (=) G p Q s.
Proof.
  intros Hp HQ. apply (rg_weaken_G E (=) (=) G); [by intros ? ? ->|].
  eapply rg_mono; [|apply (guar_rg_stable E (=) (=) (eq s)); [congruence..|done|done]].
  intros r s' <-. apply HQ.
Qed.

(** An invariant kept by [G] is kept by every interleaving. *)
Lemma psteps_invariant G (I : S -> Prop) {A} (c c' : S * list (prog S R A)) :
  (forall a b, G a b -> I a -> I b) ->
  rtc pstep c c' -> Forall (guar G) c.2 -> I c.1 -> I c'.1.
Proof.
  intros HI Hs Hp. apply (psteps_guar G) in Hs; [|done].
  induction Hs; eauto.
Qed.

(** Guarantees combine. *)
Lemma guar_and G1 G2 {A} (p : prog S R A) :
  guar G1 p -> guar G2 p -> guar (fun a b => G1 a b /\ G2 a b) p.
Proof. induction p as [a|r|X f k IH]; simpl; [done..|]. intros [??] [??]; eauto. Qed.

(** A fact that everyone keeps survives a program and is there for what follows. *)
Lemma rg_stable_then E Rl G (P : S -> Prop) {A B} (p : prog S R A) (g : A -> prog S R B)
    (Q : R + B -> S -> Prop) s :
  (forall a b, Rl a b -> P a -> P b) -> (forall a b, G a b -> P a -> P b) -> guar G p ->
  (forall r s', P s' -> Q (inl r) s') -> P s -> (forall a s', P s' -> rg E Rl G (g a) Q s') ->
  rg E Rl G (p ≫= g) Q s.
Proof.
  intros HR HG Hp HQ HP Hg. apply rg_bind. eapply rg_mono; [|by apply (guar_rg_stable E Rl G P)].
  intros [r|a] s' HP'; auto.
Qed.

(** A triple with a transitive rely and a stable postcondition stays true while
    others run. *)
Lemma rg_stable E Rl G `{!Transitive Rl} {A} (p : prog S R A) (Q : R + A -> S -> Prop) s s' :
  (forall r a b, Rl a b -> Q r a -> Q r b) -> Rl s s' -> rg E Rl G p Q s -> rg E Rl G p Q s'.
Proof.
  intros HQ Hs. destruct p as [a|r|X f k]; simpl; [eauto..|].
  intros Hp s1 e HE HR. apply Hp; [done|]. by etrans.
Qed.

(** Parallel composition: programs whose guarantees imply each other's rely. *)
Lemma psteps_rg Rl `{!PreOrder Rl} {A} (c c' : S * list (prog S R A)) :
  rtc pstep c c' ->
  Forall (fun p => rg any_env Rl Rl p (fun _ _ => True) c.1) c.2 -> Rl c.1 c'.1.
Proof.
  induction 1 as [c|c c1 c2 Hs _ IH]; [reflexivity|]. intros Hp.
  destruct Hs as [s e i X f k pool Hi]; simpl in *.
  pose proof (Forall_lookup_1 _ _ _ _ Hp Hi) as Hf. simpl in Hf.
  destruct (Hf s e I) as [HG Hk]; [reflexivity|]. etrans; [exact HG|]. apply IH.
  apply Forall_insert; [|done]. eapply Forall_impl; [exact Hp|].
  intros p Hpp. eapply (rg_stable any_env Rl Rl p); [done|exact HG|done].
Qed.

(** The same, keeping what the programs guarantee beyond the common rely. *)
Lemma psteps_rg_steps Rl G `{!PreOrder Rl} {A} (c c' : S * list (prog S R A)) :
  (forall a b, G a b -> Rl a b) -> rtc pstep c c' ->
  Forall (fun p => rg any_env Rl G p (fun _ _ => True) c.1) c.2 -> rtc G c.1 c'.1.
Proof.
  intros HGR. induction 1 as [c|c c1 c2 Hs _ IH]; [done|]. intros Hp.
  destruct Hs as [s e i X f k pool Hi]; simpl in *.
  pose proof (Forall_lookup_1 _ _ _ _ Hp Hi) as Hf. simpl in Hf.
  destruct (Hf s e I) as [HG Hk]; [reflexivity|]. eapply rtc_l; [exact HG|]. apply IH.
  apply Forall_insert; [|done]. eapply Forall_impl; [exact Hp|].
  intros p Hpp. eapply (rg_stable any_env Rl G p); [done|exact (HGR _ _ HG)|done].
Qed.

(** *** [guar] of the primitives *)
Section Guar.
Context (G : relation S) `{!Reflexive G}.

Lemma guar_ret {A} (a : A) : guar G (PRet a : prog S R A).
Proof. done. Qed.

Lemma guar_mret {A} (a : A) : guar G (mret a : prog S R A).
Proof. done. Qed.

Lemma guar_stop {A} (r : R) : guar G (stop r : prog S R A).
Proof. done. Qed.

Lemma guar_pbind {A B} (p : prog S R A) (g : A -> prog S R B) :
  guar G p -> (forall a, guar G (g a)) -> guar G (pbind p g).
Proof. intros Hp Hg. induction p as [a|r|X f k IH]; simpl in *; naive_solver. Qed.

Lemma guar_bind {A B} (p : prog S R A) (g : A -> prog S R B) :
  guar G p -> (forall a, guar G (g a)) -> guar G (p ≫= g).
Proof. apply guar_pbind. Qed.

Lemma guar_now : guar G (time_now : prog S R Z).
Proof. split; intros; done. Qed.

Lemma guar_new_id p : guar G (new_id p : prog S R string).
Proof. split; intros; done. Qed.

Lemma guar_query {X} (f : S -> X) : guar G (query f : prog S R (option X)).
Proof. split; [|done]. intros e s; simpl. by case_match. Qed.

Lemma guar_query_row {X} (f : S -> option X) : guar G (query_row f : prog S R (qres X)).
Proof. split; [|done]. intros e s; simpl. by repeat case_match. Qed.

Lemma guar_exec {X} (f : S -> option (S * X)) :
  (forall s s' x, f s = Some (s', x) -> G s s') -> guar G (exec f : prog S R (option X)).
Proof. intros Hf. split; [|done]. intros e s; simpl. repeat case_match; simplify_eq/=; eauto. Qed.

Lemma tx_run_preserves (T : relation S) `{!PreOrder T} fault stmts : forall i s s',
  Forall (fun f : S -> option S => forall a b, f a = Some b -> T a b) stmts ->
  tx_run fault i stmts s = inl s' -> T s s'.
Proof.
  induction stmts as [|f stmts IH]; intros i s s' Hf; simpl.
  - case_match; [done|]. intros [= ->]. done.
  - apply Forall_cons in Hf as [Hf1 Hf2]. repeat (case_match; try done).
    intros Hr. etrans; eauto.
Qed.

Lemma guar_transact stmts :
  (forall fault s s', tx_run fault 0 stmts s = inl s' -> G s s') ->
  guar G (transact stmts : prog S R (option nat)).
Proof. intros Hf. split; [|done]. intros e s; simpl. case_match; simpl; eauto. Qed.

Lemma guar_transact_obs {X} stmts (obs : S -> X) :
  (forall fault s s', tx_run fault 0 stmts s = inl s' -> G s s') ->
  guar G (transact_obs stmts obs : prog S R (X + nat)).
Proof. intros Hf. split; [|done]. intros e s; simpl. case_match; simpl; eauto. Qed.

Lemma guar_call {B} (p : prog S B B) : guar G p -> guar G (call p : prog S R B).
Proof. induction p as [a|r|X f k IH]; simpl; [done..|]. intros [??]; split; auto. Qed.

Lemma guar_for_each {X B} (xs : list X) (body : B -> X -> prog S R B) : forall acc,
  (forall b x, guar G (body b x)) -> guar G (for_each xs acc body).
Proof. induction xs; intros acc Hb; simpl; [done|]. apply guar_pbind; auto. Qed.

End Guar.
End Rules.

(** ** One winner

    Programs compete for something that can be spent once.  [fresh p]: [p] ends
    without winning unless one of its accesses spends it. *)
Section OneShot.
Context {S R : Type} (inv spent : S -> Prop) (win : R -> bool).

Fixpoint fresh {A} (p : prog S R A) : Prop :=
  match p with
  | PRet _ => True
  | PStop r => win r = false
  | PStep f k => forall e s, inv s ->
      fresh (k (f e s).2) \/ ~ spent s /\ spent (f e s).1
  end.

(** What every program keeps. *)
Definition keeps_spent : relation S := fun a b => inv a -> inv b /\ (spent a -> spent b).

#[export] Instance keeps_spent_refl : Reflexive keeps_spent.
Proof. intros a Ha. by split. Qed.

(** The first [n] programs compete; at most the program [w] may have won. *)
Definition one_ahead {A} (n : nat) (c : S * list (prog S R A)) : Prop :=
  inv c.1 /\ Forall (guar keeps_spent) c.2 /\
  ((forall i p, i < n -> c.2 !! i = Some p -> fresh p) \/
   spent c.1 /\ exists w, forall i p, i < n -> i <> w -> c.2 !! i = Some p -> fresh p).

Lemma one_ahead_step {A} n (c c' : S * list (prog S R A)) : pstep c c' -> one_ahead n c -> one_ahead n c'.
Proof.
  destruct 1 as [s e i X f k pool Hi]. intros (Hinv & Hk & Hpool). simpl in *.
  pose proof (Forall_lookup_1 _ _ _ _ Hk Hi) as [Hf Hkk]. destruct (Hf e s Hinv) as [Hinv' Hsp].
  split_and!; [done|apply Forall_insert; auto|]. simpl.
  assert (forall j p, <[i:=k (f e s).2]> pool !! j = Some p -> j = i /\ p = k (f e s).2 \/ pool !! j = Some p) as Hins.
  { intros j p Hj. apply list_lookup_insert_Some in Hj. naive_solver. }
  destruct Hpool as [Hall|[Hs (w & Hw)]].
  - destruct (decide (i < n)) as [Hin|Hin].
    + destruct (Hall i _ Hin Hi e s Hinv) as [Hfr|[_ Hspent]].
      * left. intros j p Hj [[-> ->]|Hp]%Hins; eauto.
      * right. split; [done|]. exists i. intros j p Hj Hne [[-> _]|Hp]%Hins; [done|eauto].
    + left. intros j p Hj [[-> _]|Hp]%Hins; [done|eauto].
  - right. split; [auto|]. exists w. intros j p Hj Hne [[-> ->]|Hp]%Hins; [|eauto].
    destruct (Hw i _ Hj Hne Hi e s Hinv) as [?|[? _]]; done.
Qed.

Lemma one_winner {A} n (c c' : S * list (prog S R A)) i j ri rj :
  inv c.1 -> Forall (guar keeps_spent) c.2 -> (forall i p, i < n -> c.2 !! i = Some p -> fresh p) ->
  rtc pstep c c' -> i < n -> j < n ->
  c'.2 !! i = Some (PStop ri) -> c'.2 !! j = Some (PStop rj) -> win ri = true -> win rj = true -> i = j.
Proof.
  intros Hinv Hk Hfr Hs Hi Hj Hri Hrj Hwi Hwj.
  assert (one_ahead n c') as (_ & _ & Hpool).
  { assert (one_ahead n c) as H0 by (split_and!; auto). clear -H0 Hs.
    induction Hs as [|x y z Hxy _ IH]; [done|]. apply IH. by eapply one_ahead_step. }
  destruct Hpool as [Hall|[_ (w & Hw)]].
  - pose proof (Hall i _ Hi Hri) as Hf. simpl in Hf. congruence.
  - destruct (decide (i = w)) as [->|Hne]; [|pose proof (Hw i _ Hi Hne Hri) as Hf; simpl in Hf; congruence].
    destruct (decide (j = w)) as [->|Hne]; [done|].
    pose proof (Hw j _ Hj Hne Hrj) as Hf. simpl in Hf. congruence.
Qed.
End OneShot.

Lemma rg_call_any {S R B : Type} E (Rl G : relation S) (p : prog S B B) (Q : R + B -> S -> Prop) s :
  guar G p -> (forall b s', Q (inr b) s') -> rg E Rl G (call p) Q s.
Proof.
  intros Hp HQ. apply rg_call. eapply rg_mono; [|by apply guar_rg]. intros [b|b] s' _; auto.
Qed.

(** ** Programs over a part of the store *)
Section ZoomRules.
Context {S T R : Type} (get : S -> T) (put : T -> S -> S).
Context (put_get : forall s, put (get s) s = s) (get_put : forall t s, get (put t s) = t).
Context (put_put : forall t t' s, put t (put t' s) = put t s).

Lemma rg_zoom E {A} (p : prog T R A) (Q : R + A -> S -> Prop) : forall s,
  rg E (=) (fun _ _ => True) p (fun r t => Q r (put t s)) (get s) ->
  rg E (=) (fun _ _ => True) (zoom get put p) Q s.
Proof.
  induction p as [a|r|X f k IH]; intros s; simpl; [by rewrite put_get..|].
  intros H s1 e HE <-. split; [done|]. apply IH. destruct (H (get s) e HE eq_refl) as [_ Hk].
  rewrite get_put. eapply rg_mono; [|exact Hk]. intros r t. by rewrite put_put.
Qed.

Lemma run_zoom {A} (p : prog T R A) env : forall n s,
  run (zoom get put p) env n s =
    (put (run p env n (get s)).1.1 s, (run p env n (get s)).1.2, (run p env n (get s)).2).
Proof.
  induction p as [a|r|X f k IH]; intros n s; simpl; [by rewrite put_get..|]. rewrite IH, get_put, put_put. done.
Qed.

Lemma run_some_zoom {A} k : forall (p : prog T R A) env n s,
  run_some k (zoom get put p) env n s = (put (run_some k p env n (get s)).1 s, zoom get put (run_some k p env n (get s)).2).
Proof.
  induction k as [|k IH]; intros [a|r|X f h] env n s; simpl; try (by rewrite put_get). by rewrite IH, get_put, put_put.
Qed.

Lemma guar_zoom (G : relation S) {A} (p : prog T R A) :
  guar (fun a b => forall s, get s = a -> G s (put b s)) p -> guar G (zoom get put p).
Proof. induction p as [a|r|X f k IH]; simpl; [done..|]. intros [Hf Hk]. split; auto. Qed.
End ZoomRules.

Lemma run_some_call {S R B : Type} k : forall (p : prog S B B) env n s,
  run_some k (call p : prog S R B) env n s = ((run_some k p env n s).1, call (run_some k p env n s).2).
Proof. induction k as [|k IH]; intros [a|r|X f h] env n s; simpl; done || apply IH. Qed.

Lemma guar_caught {S R F A : Type} (G : relation S) (p : prog S F A) : guar G p -> guar G (caught p : prog S R (F + A)).
Proof. induction p as [a|r|X f k IH]; simpl; [done..|]. intros [??]; split; auto. Qed.

(** A shifted environment, for a run cut short. *)
Lemma run_some_shift {S R A : Type} k : forall (p : prog S R A) env n m s,
  run_some k p env (n + m) s = run_some k p (fun i => env (n + i)) m s.
Proof.
  induction k as [|k IH]; intros [a|r|X f h] env n m s; simpl; try done.
  rewrite <-IH. by rewrite Nat.add_succ_r.
Qed.

(** Walks a program down to its data-modifying accesses. *)
Ltac guar_step :=
  match goal with
  | |- guar _ (PRet _) => apply guar_ret
  | |- guar _ (mret _) => apply guar_mret
  | |- guar _ (stop _) => apply guar_stop
  | |- guar _ (_ ≫= _) => apply guar_bind; [|intros ?]
  | |- guar _ (pbind _ _) => apply guar_pbind; [|intros ?]
  | |- guar _ time_now => apply guar_now; apply _
  | |- guar _ (new_id _) => apply guar_new_id; apply _
  | |- guar _ (query _) => apply guar_query; apply _
  | |- guar _ (query_row _) => apply guar_query_row; apply _
  | |- guar _ (for_each _ _ _) => apply guar_for_each; intros ??
  | |- guar _ (exec _) => apply guar_exec; [apply _|]; intros ???
  | |- guar _ (call _) => apply guar_call
  | |- guar _ (match ?x with _ => _ end) => destruct x
  | |- guar _ _ => solve [eauto with moebius typeclass_instances]
  end.

Ltac guar_all := repeat guar_step.

(** Symbolic execution of a [rg] goal whose rely is the identity: one access. *)
Ltac rg_prim :=
  match goal with
  | |- rg _ _ _ (mret _) _ _ => apply rg_mret
  | |- rg _ _ _ (stop _) _ _ => apply rg_stop
  | |- rg _ _ _ time_now _ _ => apply rg_now; intros ? ? <-; split; [try done|]
  | |- rg _ _ _ (new_id _) _ _ => apply rg_new_id; intros ? ? <-; split; [try done|]
  | |- rg _ _ _ (query _) _ _ => apply rg_query; intros ? <-; split_and!; [try done|..]
  | |- rg _ _ _ (query_row _) _ _ => apply rg_query_row; intros ? <-; split_and!; [try done|..]
  | |- rg _ _ _ (exec _) _ _ => apply rg_exec; intros ? <-; split_and!; [try done|..]
  end.
Ltac rg_step := first [rg_prim | apply rg_call | apply rg_bind]; cbv beta iota.

(** A goal about the run of a program becomes a triple. *)
Ltac by_rg E G :=
  unfold run_result, run_store;
  match goal with
  | |- context [run ?p ?env 0 ?db] =>
      pattern (run p env 0 db).2, (run p env 0 db).1.1;
      match goal with |- ?Q _ _ => refine (rg_run E G p Q env 0 db _ _) end
  end.
