(* ===== verification/Models.v ===== *)
(** * Shared data model

    The structs of [shared/models] and [shared/protocol] that the modelled
    components exchange, the HTTP responses of [server/api/respond.go], and the
    errors that surface in them.

    Conventions: a [time.Time] is a [Z] number of nanoseconds; a nullable column
    or pointer is an [option]; a JSONB column, or a request body, that Go
    unmarshals into a struct is [Json] of that struct ([JInvalid] is a document
    of another shape); a payload the server only stores is a string of bytes. *)

From S2P Require Import Prelude.

Inductive Json (A : Type) : Type :=
| JInvalid (partial : A)
| JValid (a : A).
Arguments JInvalid {A} partial.
Arguments JValid {A} a.

(** [json.Unmarshal] into a value: [None] is the error.  The error comes after
    the fields that do fit have been filled in, which shows where it is ignored. *)
Definition unmarshal {A} (j : Json A) : option A :=
  match j with JInvalid _ => None | JValid a => Some a end.
Definition unmarshal_into {A} (j : Json A) : A :=
  match j with JInvalid a | JValid a => a end.

(** ** shared/models/job.go *)

Record RetryPolicy := { MaxRetries : Z; RetryDelaySeconds : Z }.

(** A row of table [jobs]; the key of the table is the job's id. *)
Record Job := {
  job_tenant : string;
  job_device : string;
  job_parent : option string;
  job_type : string;
  job_status : string;
  job_payload : string;
  job_retry_policy : option (Json RetryPolicy);
  job_retry_count : Z;
  job_max_retries : Z;
  job_last_error : option string;
  job_created_by : option string;
  job_created_at : Z;
  job_dispatched_at : option Z;
  job_acknowledged_at : option Z;
  job_started_at : option Z;
  job_completed_at : option Z;
}.

Record JobResult := {
  jr_job : string;
  jr_exit_code : option Z;
  jr_stdout : string;
  jr_stderr : string;
  jr_started_at : option Z;
  jr_completed_at : option Z;
}.

Record JobTarget := {
  tgt_device_ids : list string;
  tgt_group_ids : list string;
  tgt_tag_ids : list string;
  tgt_site_ids : list string;
}.

Record ScheduledJob := {
  sj_tenant : string;
  sj_name : string;
  sj_job_type : string;
  sj_payload : string;
  sj_target : option (Json JobTarget);
  sj_cron_expr : string;
  sj_retry_policy : option (Json RetryPolicy);
  sj_enabled : bool;
  sj_last_run_at : option Z;
  sj_next_run_at : option Z;
}.

Definition JobTypeExec : string := "exec".
Definition JobTypePackageInstall : string := "package_install".
Definition JobTypePackageRemove : string := "package_remove".
Definition JobTypePackageUpdate : string := "package_update".
Definition JobTypeInventoryFull : string := "inventory_full".
Definition JobTypeFileTransfer : string := "file_transfer".
Definition JobTypeAgentUpdate : string := "agent_update".
Definition JobTypeAgentRollback : string := "agent_rollback".

Definition JobStatusPending : string := "pending".
Definition JobStatusQueued : string := "queued".
Definition JobStatusCDMHold : string := "cdm_hold".
Definition JobStatusDispatched : string := "dispatched".
Definition JobStatusAcknowledged : string := "acknowledged".
Definition JobStatusRunning : string := "running".
Definition JobStatusCompleted : string := "completed".
Definition JobStatusFailed : string := "failed".
Definition JobStatusTimedOut : string := "timed_out".
Definition JobStatusCancelled : string := "cancelled".

Definition IsTerminalStatus (status : string) : bool :=
  (status =s JobStatusCompleted) || (status =s JobStatusFailed)
  || (status =s JobStatusTimedOut) || (status =s JobStatusCancelled).

(** ** shared/models/user.go and shared/models/tenant.go *)

Record APIScope := {
  sc_group_ids : list string;
  sc_tag_ids : list string;
  sc_site_ids : list string;
  sc_device_ids : list string;
}.

Record TenantQuotas := {
  tq_max_devices : Z;
  tq_max_queued_jobs : Z;
  tq_max_api_keys : Z;
  tq_max_file_size_bytes : Z;
}.

Record SSOConfig := { sso_enabled : bool; sso_provider : string; sso_client_id : string; sso_issuer_url : string }.

Record StorageConfig := {
  stc_backend : string;
  stc_endpoint : string;
  stc_bucket : string;
  stc_region : string;
  stc_presign_expiry_seconds : Z;
}.

Record TenantConfig := {
  tc_default_poll_interval_seconds : Z;
  tc_default_cert_lifetime_days : Z;
  tc_sso : option SSOConfig;
  tc_storage : option StorageConfig;
  tc_quotas : option TenantQuotas;
}.

(** A row of [tenants]. *)
Record Tenant := {
  tn_name : string;
  tn_slug : string;
  tn_config : option (Json TenantConfig);
  tn_created_at : Z;
}.

Record User := {
  usr_tenant : string;
  usr_email : string;
  usr_role : option string;
  usr_sso_subject : option string;
  usr_created_at : Z;
}.

(** [role_tenant] is NULL for a system role. *)
Record Role := {
  role_tenant : option string;
  role_name : string;
  role_permissions : list string;
  role_is_custom : bool;
}.

Record APIKey := {
  key_tenant : string;
  key_user : string;
  key_name : string;
  key_hash : string;
  key_role : string;
  key_scope : option (Json APIScope);
  key_is_admin : bool;
  key_last_used_at : option Z;
  key_expires_at : option Z;
  key_created_at : Z;
}.

(** ** shared/models/device.go *)

Record Device := {
  dev_tenant : string;
  dev_hostname : string;
  dev_os : string;
  dev_os_version : string;
  dev_arch : string;
  dev_agent_version : string;
  dev_status : string;
  dev_last_seen_at : option Z;
  dev_registered_at : Z;
  dev_cdm_enabled : bool;
  dev_cdm_session_active : bool;
  dev_cdm_session_expires_at : option Z;
  dev_sequence_last : Z;
}.

Definition DeviceStatusOnline : string := "online".
Definition DeviceStatusOffline : string := "offline".
Definition DeviceStatusUnknown : string := "unknown".
Definition DeviceStatusRevoked : string := "revoked".

(** A row of [groups], [tags] or [sites]; only sites have a location. *)
Record Container := { ct_tenant : string; ct_name : string; ct_location : option string }.

(** ** shared/models/cert.go *)

Record AgentCertificate := {
  crt_device : string;
  crt_serial_number : string;
  crt_fingerprint : string;
  crt_issued_at : Z;
  crt_expires_at : Z;
  crt_revoked_at : option Z;
  crt_revocation_reason : option string;
}.

Record EnrollmentToken := {
  tok_tenant : string;
  tok_hash : string;
  tok_created_by : string;
  tok_scope : option (Json APIScope);
  tok_used_at : option Z;
  tok_expires_at : Z;
  tok_created_at : Z;
}.

(** ** shared/models/inventory.go: rows of [inventory_packages] and of
    [inventory_hardware] (whose JSONB columns are kept as bytes) *)

Record Hardware := {
  hw_device : string;
  hw_collected_at : Z;
  hw_cpu : string;
  hw_ram_mb : Z;
  hw_disks : string;
  hw_network_interfaces : string;
}.

Record Package := {
  pkg_device : string;
  pkg_name : string;
  pkg_version : string;
  pkg_manager : string;
  pkg_installed_at : option Z;
  pkg_last_seen_at : Z;
}.

(** ** server/scheduler/scheduler.go: the parsed condition of an alert rule *)

Record AlertCondition := {
  ac_type : string;
  ac_threshold_minutes : Z;
  ac_scope : option JobTarget;
}.

(** ** shared/models/alert.go: the condition is stored as it was sent *)
Record AlertChannels := { ach_webhooks : list string; ach_emails : list string }.

Record AlertRule := {
  ar_tenant : string;
  ar_name : string;
  ar_condition : Json AlertCondition;
  ar_channels : Json AlertChannels;
  ar_enabled : bool;
}.

(** ** shared/models/file.go: rows of [signing_keys], [files], [file_uploads] *)

Record SigningKey := {
  sgk_tenant : string;
  sgk_name : string;
  sgk_algorithm : string;
  sgk_public_key : string;
  sgk_fingerprint : string;
  sgk_created_by : option string;
  sgk_created_at : Z;
}.

Record File := {
  fil_tenant : string;
  fil_filename : string;
  fil_size_bytes : Z;
  fil_sha256 : string;
  fil_signature : option string;
  fil_signature_key : option string;
  fil_signature_verified : bool;
  fil_mime_type : option string;
  fil_storage_backend : string;
  fil_storage_path : string;
  fil_created_by : option string;
  fil_created_at : Z;
}.

Record FileUpload := {
  upl_file : string;
  upl_tenant : string;
  upl_chunk_size_bytes : Z;
  upl_total_chunks : Z;
  upl_uploaded_chunks : list Z;
  upl_completed_at : option Z;
  upl_expires_at : Z;
  upl_created_at : Z;
}.

(** ** shared/models/agent_version.go and rollout.go *)

Record AgentVersion := {
  av_version : string;
  av_channel : string;
  av_changelog : option string;
  av_yanked : bool;
  av_yank_reason : option string;
  av_created_at : Z;
}.

Record AgentVersionBinary := {
  avb_version : string;              (* agent_version_id *)
  avb_os : string;
  avb_arch : string;
  avb_file : string;
  avb_sha256 : string;
  avb_signature : string;
  avb_signature_key : string;
}.

Record AgentUpdatePolicy := {
  aup_tenant : string;
  aup_group : option string;
  aup_enabled : bool;
  aup_channel : string;
  aup_schedule : option string;
  aup_rollout_strategy : string;
  aup_rollout_batch_percent : Z;
  aup_rollout_batch_interval_minutes : Z;
}.

Record Installer := {
  ins_version : string;
  ins_channel : string;
  ins_os : string;
  ins_arch : string;
  ins_file : string;
  ins_sha256 : string;
  ins_signature : string;
  ins_signature_key : string;
  ins_released_at : Z;
  ins_yanked : bool;
  ins_yank_reason : option string;
}.

Definition ChannelStable : string := "stable".
Definition ChannelBeta : string := "beta".
Definition ChannelCanary : string := "canary".

Record Rollout := {
  ro_version : string;               (* agent_version_id *)
  ro_tenant : string;
  ro_status : string;
  ro_strategy : string;
  ro_batch_percent : Z;
  ro_batch_interval_minutes : Z;
  ro_current_batch : Z;
  ro_total_devices : Z;
  ro_updated_devices : Z;
  ro_rolled_back_devices : Z;
  ro_seed : Z;
  ro_last_batch_at : option Z;
  ro_created_at : Z;
}.

Definition RolloutStatusInProgress : string := "in_progress".
Definition RolloutStatusPaused : string := "paused".
Definition RolloutStatusCompleted : string := "completed".
Definition RolloutStatusAborted : string := "aborted".

(** ** shared/protocol/logs.go and the rows of [device_logs] *)

Record LogEntry := { le_timestamp : option Z; le_level : string; le_message : string }.

Record DeviceLog := {
  dl_tenant : string;
  dl_device : string;
  dl_timestamp : Z;
  dl_level : string;
  dl_message : string;
  dl_created_at : Z;
}.

(** ** shared/models/audit.go *)

Record AuditEntry := {
  au_id : string;
  au_tenant : string;
  au_actor : string;
  au_actor_type : string;
  au_action : string;
  au_resource_type : string;
  au_resource_id : string;
  au_metadata : list (string * string);
  au_ip_address : string;
  au_created_at : Z;
}.

Definition ActorTypeUser : string := "user".
Definition ActorTypeAgent : string := "agent".

(** ** shared/protocol *)

Record PackageRef := { pr_name : string; pr_version : string; pr_manager : string }.

Record PackageDelta := {
  pd_added : list PackageRef;
  pd_removed : list PackageRef;
  pd_updated : list PackageRef;
}.

Record AgentStatus := {
  as_uptime_seconds : Z;
  as_cdm_enabled : bool;
  as_cdm_session_active : bool;
  as_cdm_session_expires_at : option Z;
  as_agent_version : string;
  as_last_update_failed : bool;
  as_last_update_job_id : string;
  as_last_update_error : string;
}.

Record CheckinRequest := {
  cr_agent_id : string;
  cr_timestamp : Z;
  cr_sequence : Z;
  cr_status : AgentStatus;
  cr_delta : option PackageDelta;   (* inventory_delta.packages *)
}.

Record JobDispatch := {
  jd_job_id : string;
  jd_type : string;
  jd_payload : string;
  jd_created_at : Z;
}.

Record JobResultSubmission := {
  sub_status : string;
  sub_exit_code : option Z;
  sub_stdout : string;
  sub_stderr : string;
  sub_message : string;
  sub_started_at : option Z;
  sub_completed_at : option Z;
}.

Record EnrollRequest := {
  er_token : string;
  er_csr : string;
  er_hostname : string;
  er_os : string;
  er_os_version : string;
  er_arch : string;
  er_agent_version : string;
}.

(** The columns [SELECT id, tenant_id, device_id, type, status, payload,
    created_at FROM jobs] reads into a [models.Job]. *)
Record JobBrief := {
  jb_id : string;
  jb_tenant : string;
  jb_device : string;
  jb_type : string;
  jb_status : string;
  jb_payload : string;
  jb_created_at : Z;
}.

Definition brief (kv : string * Job) : JobBrief :=
  {| jb_id := kv.1; jb_tenant := job_tenant kv.2; jb_device := job_device kv.2;
     jb_type := job_type kv.2; jb_status := job_status kv.2; jb_payload := job_payload kv.2;
     jb_created_at := job_created_at kv.2 |}.

(** ** Errors that surface in responses *)

Inductive QuotaKind := KindDevices | KindQueuedJobs | KindAPIKeys | KindFileSize.

Record ErrExceeded := { ex_kind : QuotaKind; ex_limit : Z; ex_current : Z; ex_attempted : Z }.

Inductive GoError :=
| ETerminalState (from : string)              (* cannot transition from terminal state *)
| EUnknownState (from : string)               (* unknown state *)
| EInvalidTransition (from to : string)       (* invalid transition from .. to .. *)
| EUnknownJobType (t : string)                (* unknown job type *)
| ENotInTenant (table id : string)            (* <table> <id> not found in tenant *)
| EQuota (e : ErrExceeded)
| ERoleInUse (n : nat)                        (* role is assigned to .. users/keys *)
| ERoleNotFound                               (* role not found or is a system role *)
| EUserNotFound                               (* user not found *)
| EDb.                                        (* a wrapped database error *)

(** ** server/api/respond.go *)

Inductive ErrMsg := Lit (s : string) | OfErr (e : GoError).

(** [tokenListItem]: a token without its hash. *)
Record TokenItem := {
  ti_id : string;
  ti_created_by : string;
  ti_scope : option APIScope;
  ti_used_at : option Z;
  ti_expires_at : Z;
  ti_created_at : Z;
}.

(** The envelope of a paginated list. *)
Record Pagination := { pg_next_cursor : string; pg_has_more : bool; pg_limit : Z }.

(** [initiateUploadResponse], [chunkResponse], [fileDownloadResponse]. *)
Record initiateUploadResponse := {
  iu_file_id : string;
  iu_upload_id : string;
  iu_chunk_size_bytes : Z;
  iu_total_chunks : Z;
  iu_uploaded_chunks : list Z;
  iu_expires_at : Z;
}.

Record chunkResponse := {
  ch_chunk_index : Z;
  ch_received : bool;
  ch_uploaded_chunks : list Z;
  ch_remaining_chunks : Z;
}.

Record fileDownloadResponse := {
  fd_url : string;
  fd_size_bytes : Z;
  fd_chunk_size_bytes : Z;
  fd_total_chunks : Z;
  fd_sha256 : string;
  fd_signature : string;
  fd_signature_key_id : string;
  fd_expires_at : Z;
}.

(** JSON bodies of the successful responses. *)
Inductive Body :=
| BEmpty
| BJobsCreated (job_ids : list string) (target_device_count : nat)
| BJobID (job_id : string)
| BCheckin (timestamp : Z) (jobs : list JobDispatch)
| BJob (id : string) (j : Job) (result : option JobResult)
| BJobList (jobs : list JobBrief)
| BEnroll (agent_id certificate ca_chain : string) (poll_interval_seconds : Z)
| BRenew (certificate ca_chain : string)
| BToken (id raw : string) (expires_at : Z) (scope : option APIScope)
| BTokenList (tokens : list TokenItem)
| BRole (id : string) (r : Role)
| BRoleList (roles : list (string * Role))
| BUser (user : option (string * User))
| BAPIKey (id : string) (k : APIKey) (key : string)      (* the hash is not serialised *)
| BAPIKeyList (keys : list (string * APIKey))
| BDevice (id : string) (d : Device) (groups tags sites : list string)
| BDeviceList (devices : list (string * Device))
| BContainer (id : string) (c : option Container)
| BContainerList (items : list (string * Container))
| BTenant (id : string) (t : Tenant) (config : option TenantConfig)
| BInventory (hardware : option Hardware) (packages : list (string * Package))
| BSigningKey (id : string) (k : SigningKey)
| BSigningKeyList (keys : list (string * SigningKey))
| BPublicKey (public_key : string)
| BUpload (r : initiateUploadResponse)
| BChunk (r : chunkResponse)
| BUploadStatus (id : string) (u : FileUpload)
| BFile (id : string) (f : option File)                  (* [None]: the row could not be read back *)
| BFileList (files : list (string * File)) (p : Pagination)
| BDownload (r : fileDownloadResponse)
| BBytes (filename data : string)
| BVersion (id : string) (v : AgentVersion) (binaries : list (string * AgentVersionBinary))
| BVersionList (versions : list (string * AgentVersion * list (string * AgentVersionBinary))) (p : Pagination)
| BPolicy (id : string) (p : AgentUpdatePolicy)
| BPolicyList (policies : list (string * AgentUpdatePolicy))
| BRollout (id : string) (r : Rollout)
| BInstaller (id : string) (i : Installer)
| BInstallerList (items : list (string * Installer))
| BScheduledJob (sj : option (string * ScheduledJob))
| BScheduledJobList (items : list (string * ScheduledJob))
| BAlertRule (ar : option (string * AlertRule))
| BAlertRuleList (items : list (string * AlertRule))
| BUserList (users : list (string * User)) (p : Pagination)
| BAuditList (entries : list AuditEntry) (p : Pagination)
| BDeviceJob (job_id device_id type status : string)
| BText (text : string)
| BSignature (key_id signature : string)
| BScript (os base_url token version sha256 arch : string)   (* the places filled in the generated script *)
| BCommand (command : string) (expires_at : Z) (token_id : string).

Inductive Response :=
| RErr (status : Z) (code : string) (msg : ErrMsg)
| ROk (status : Z) (body : Body).

Definition resp_status (r : Response) : Z :=
  match r with RErr st _ _ => st | ROk st _ => st end.

Definition httpCodeToErrorCode (status : Z) : string :=
  if (status =? 400)%Z then "bad_request"
  else if (status =? 401)%Z then "unauthorized"
  else if (status =? 403)%Z then "forbidden"
  else if (status =? 404)%Z then "not_found"
  else if (status =? 405)%Z then "method_not_allowed"
  else if (status =? 409)%Z then "conflict"
  else if (status =? 429)%Z then "rate_limited"
  else "internal_error".

Definition JSON (status : Z) (b : Body) : Response := ROk status b.
Definition Error (status : Z) (msg : string) : Response :=
  RErr status (httpCodeToErrorCode status) (Lit msg).
Definition ErrorWithCode (status : Z) (code : string) (msg : ErrMsg) : Response :=
  RErr status code msg.
Definition NoContent : Response := ROk 204 BEmpty.

(** ** The identity an authentication middleware attaches to a request
    (server/auth: the [ContextKey...] values) *)

Record Ctx := {
  ctx_tenant : string;
  ctx_agent : string;
  ctx_user : string;
  ctx_is_admin : bool;
  ctx_scope : option APIScope;
  ctx_permissions : list string;
}.
