(* ===== verification/JobState.v ===== *)
(** * Job state machine and job types

    [server/jobs/state.go] and [server/jobs/types.go]: the table of allowed
    transitions, the predicates on statuses, the recognised job types and their
    default retry policies. *)

From stdpp Require Import relations.
From S2P Require Import Prelude Models.

(** ** server/jobs/state.go *)

(** The map [validTransitions], as an association list (its keys are distinct). *)
Definition validTransitions : list (string * list string) :=
  [ (JobStatusPending,      [JobStatusQueued; JobStatusCancelled]);
    (JobStatusQueued,       [JobStatusDispatched; JobStatusCDMHold; JobStatusCancelled]);
    (JobStatusCDMHold,      [JobStatusDispatched; JobStatusCancelled]);
    (JobStatusDispatched,   [JobStatusAcknowledged; JobStatusQueued; JobStatusCancelled]);
    (JobStatusAcknowledged, [JobStatusRunning; JobStatusQueued]);
    (JobStatusRunning,      [JobStatusCompleted; JobStatusFailed; JobStatusTimedOut]) ].

Fixpoint assoc {A} (k : string) (l : list (string * A)) : option A :=
  match l with
  | [] => None
  | (k', a) :: l' => if k =s k' then Some a else assoc k l'
  end.

(** [for _, t := range l { if t == x { return true } }; return false]. *)
Fixpoint str_in (x : string) (l : list string) : bool :=
  match l with
  | [] => false
  | y :: l' => if y =s x then true else str_in x l'
  end.

(** [None] is a nil error. *)
Definition ValidateTransition (from to : string) : option GoError :=
  match assoc from validTransitions with
  | None =>
      if IsTerminalStatus from then Some (ETerminalState from) else Some (EUnknownState from)
  | Some targets => if str_in to targets then None else Some (EInvalidTransition from to)
  end.

Definition AllStatuses : list string :=
  [ JobStatusPending; JobStatusQueued; JobStatusCDMHold; JobStatusDispatched;
    JobStatusAcknowledged; JobStatusRunning; JobStatusCompleted; JobStatusFailed;
    JobStatusTimedOut; JobStatusCancelled ].

Definition CancellableStatuses : list string :=
  [ JobStatusPending; JobStatusQueued; JobStatusCDMHold; JobStatusDispatched ].

Definition IsCancellable (status : string) : bool := str_in status CancellableStatuses.

Definition IsRetryable (status : string) : bool :=
  (status =s JobStatusFailed) || (status =s JobStatusTimedOut).

(** ** server/jobs/types.go *)

Definition allJobTypes : list string :=
  [ JobTypeExec; JobTypePackageInstall; JobTypePackageRemove; JobTypePackageUpdate;
    JobTypeInventoryFull; JobTypeFileTransfer; JobTypeAgentUpdate; JobTypeAgentRollback ].

Definition ValidateType (jobType : string) : option GoError :=
  if str_in jobType allJobTypes then None else Some (EUnknownJobType jobType).

Definition defaultRetryPolicies : list (string * RetryPolicy) :=
  [ (JobTypePackageInstall, {| MaxRetries := 3; RetryDelaySeconds := 300 |});
    (JobTypePackageRemove,  {| MaxRetries := 3; RetryDelaySeconds := 300 |});
    (JobTypePackageUpdate,  {| MaxRetries := 3; RetryDelaySeconds := 300 |});
    (JobTypeInventoryFull,  {| MaxRetries := 5; RetryDelaySeconds := 60 |});
    (JobTypeFileTransfer,   {| MaxRetries := 3; RetryDelaySeconds := 300 |});
    (JobTypeAgentUpdate,    {| MaxRetries := 2; RetryDelaySeconds := 600 |}) ].

Definition DefaultRetryPolicy (jobType : string) : option RetryPolicy :=
  assoc jobType defaultRetryPolicies.

Definition ShouldRetry (status : string) (retryCount maxRetries : Z) : bool :=
  IsRetryable status && (retryCount <? maxRetries)%Z.

(** ** The abstract state machine

    The lifecycle the design documents draw, as a relation on an enumeration;
    [ValidateTransition] is proved to decide it. *)

Inductive status :=
| Pending | Queued | CDMHold | Dispatched | Acknowledged | Running
| Completed | Failed | TimedOut | Cancelled.

#[export] Instance status_eq_dec : EqDecision status.
Proof. solve_decision. Defined.

Definition show (s : status) : string :=
  match s with
  | Pending => JobStatusPending | Queued => JobStatusQueued | CDMHold => JobStatusCDMHold
  | Dispatched => JobStatusDispatched | Acknowledged => JobStatusAcknowledged
  | Running => JobStatusRunning | Completed => JobStatusCompleted | Failed => JobStatusFailed
  | TimedOut => JobStatusTimedOut | Cancelled => JobStatusCancelled
  end.

Inductive transition : status -> status -> Prop :=
| tr_submit : transition Pending Queued
| tr_dispatch : transition Queued Dispatched
| tr_hold : transition Queued CDMHold
| tr_release : transition CDMHold Dispatched
| tr_ack : transition Dispatched Acknowledged
| tr_missed : transition Dispatched Queued
| tr_start : transition Acknowledged Running
| tr_requeue : transition Acknowledged Queued
| tr_complete : transition Running Completed
| tr_fail : transition Running Failed
| tr_timeout : transition Running TimedOut
| tr_cancel s : s = Pending \/ s = Queued \/ s = CDMHold \/ s = Dispatched -> transition s Cancelled.

Definition terminal (s : status) : Prop :=
  match s with Completed | Failed | TimedOut | Cancelled => True | _ => False end.

(** ** Lemmas *)

Lemma str_in_elem x l : str_in x l = true <-> x ∈ l.
Proof.
  induction l as [|y l IH]; simpl; [split; [done|set_solver]|].
  destruct (seqb y x) eqn:E; reflect_bools; rewrite elem_of_cons; naive_solver.
Qed.

Lemma assoc_elem {A} k (l : list (string * A)) a : assoc k l = Some a -> (k, a) ∈ l.
Proof.
  induction l as [|[k' a'] l IH]; simpl; [done|].
  destruct (seqb k k') eqn:E; reflect_bools; intros; simplify_eq; set_solver.
Qed.

Lemma show_terminal s : IsTerminalStatus (show s) = true <-> terminal s.
Proof. destruct s; vm_compute; naive_solver. Qed.

Lemma terminal_no_transition s s' : terminal s -> ~ transition s s'.
Proof. intros Ht H. destruct H; naive_solver. Qed.

(** A status outside the table is refused as a source. *)
Lemma validate_source from to :
  ValidateTransition from to = None -> exists s, from = show s.
Proof.
  unfold ValidateTransition. destruct (assoc from _) as [ts|] eqn:E; [|by case_match].
  intros _. apply assoc_elem in E. unfold validTransitions in E.
  repeat (apply elem_of_cons in E as [[= -> ->]|E];
    [by (exists Pending + exists Queued + exists CDMHold + exists Dispatched
         + exists Acknowledged + exists Running)|]).
  by apply elem_of_nil in E.
Qed.

Lemma validate_target from to :
  ValidateTransition from to = None -> exists s', to = show s'.
Proof.
  unfold ValidateTransition. destruct (assoc from _) as [ts|] eqn:E; [|by case_match].
  case_match eqn:Hin; [|done]. intros _. apply assoc_elem in E. apply str_in_elem in Hin.
  unfold validTransitions in E.
  assert (to ∈ AllStatuses) as Hall.
  { repeat (apply elem_of_cons in E as [[= -> ->]|E]; [set_solver|]). set_solver. }
  unfold AllStatuses in Hall.
  repeat (apply elem_of_cons in Hall as [->|Hall];
    [by (exists Pending + exists Queued + exists CDMHold + exists Dispatched + exists Acknowledged
         + exists Running + exists Completed + exists Failed + exists TimedOut + exists Cancelled)|]).
  by apply elem_of_nil in Hall.
Qed.

Lemma validate_show s s' : ValidateTransition (show s) (show s') = None <-> transition s s'.
Proof.
  split.
  - destruct s, s'; vm_compute; intros H; try discriminate; constructor; auto.
  - destruct 1; try reflexivity. destruct_or!; subst; reflexivity.
Qed.

(** An accepted transition is an edge of the diagram. *)
Lemma validate_edge from to :
  ValidateTransition from to = None -> exists s s', from = show s /\ to = show s' /\ transition s s'.
Proof.
  intros H. destruct (validate_source _ _ H) as [s ->]. destruct (validate_target _ _ H) as [s' ->].
  exists s, s'. split_and!; [done..|]. by apply validate_show.
Qed.

Lemma cancel_edge st : IsCancellable st = true -> ValidateTransition st JobStatusCancelled = None.
Proof.
  unfold IsCancellable. rewrite str_in_elem. unfold CancellableStatuses. intros H.
  repeat (apply elem_of_cons in H as [->|H]; [reflexivity|]). by apply elem_of_nil in H.
Qed.

(** ** Properties *)

(** [ValidateTransition] accepts exactly the edges of the lifecycle diagram; in
    particular an unknown status is never accepted on either side. *)
Theorem validate_refines_transition from to :
  ValidateTransition from to = None <->
  exists s s', from = show s /\ to = show s' /\ transition s s'.
Proof.
  split; [apply validate_edge|]. intros (s & s' & -> & -> & H). by apply validate_show.
Qed.

(** The separate list [CancellableStatuses] agrees with the transition table. *)
Theorem cancellable_agrees st :
  IsCancellable st = true <-> ValidateTransition st JobStatusCancelled = None.
Proof.
  split; [apply cancel_edge|]. intros H. destruct (validate_source _ _ H) as [s ->].
  change JobStatusCancelled with (show Cancelled) in H. apply validate_show in H.
  inversion H; subst. destruct_or!; subst; reflexivity.
Qed.

(** From every non-terminal status a terminal one can be reached by accepted
    transitions, and from a terminal status nothing is accepted. *)
Theorem lifecycle_progress s :
  (~ terminal s -> exists s', terminal s' /\ tc transition s s') /\
  (terminal s -> forall to, ValidateTransition (show s) to = Some (ETerminalState (show s))).
Proof.
  split.
  - intros Hn.
    assert (transition Running Completed) by constructor.
    assert (transition Acknowledged Running) by constructor.
    destruct s; try (by destruct Hn);
      first [exists Cancelled; split; [exact I|apply tc_once; constructor; by auto]
            |exists Completed; split; [exact I|]; eauto using tc_once, tc_l].
  - intros Ht to. destruct s; try done; reflexivity.
Qed.
