(* ===== verification/Database.v ===== *)
(** * The database

    The tables of [server/migrate/sql] the modelled
    components use, with the constraints whose violation makes a statement
    fail, and the SQL forms shared by several components.  A table with a
    primary key is a [gmap] from the key to the row; a pure membership table is
    a [gset] of pairs; [audit_log], which the schema makes append-only, is a
    list.  A SELECT without ORDER BY enumerates rows in the map's order: SQL
    leaves that order open, and no theorem depends on it. *)

From stdpp Require Import relations.
From S2P Require Import Prelude Prog Models.

Record DB := {
  tenants : gmap string Tenant;
  users : gmap string User;
  roles : gmap string Role;
  api_keys : gmap string APIKey;
  devices : gmap string Device;
  groups : gmap string Container;
  tags : gmap string Container;
  sites : gmap string Container;
  device_groups : gset (string * string);
  device_tags : gset (string * string);
  device_sites : gset (string * string);
  inventory_hardware : gmap string Hardware;
  inventory_packages : gmap string Package;
  jobs : gmap string Job;
  job_results : gmap string JobResult;
  scheduled_jobs : gmap string ScheduledJob;
  alert_rules : gmap string AlertRule;
  agent_certificates : gmap string AgentCertificate;
  enrollment_tokens : gmap string EnrollmentToken;
  signing_keys : gmap string SigningKey;
  files : gmap string File;
  file_uploads : gmap string FileUpload;
  agent_versions : gmap string AgentVersion;
  agent_version_binaries : gmap string AgentVersionBinary;
  agent_update_policies : gmap string AgentUpdatePolicy;
  installers : gmap string Installer;
  agent_rollouts : gmap string Rollout;
  device_logs : gmap string DeviceLog;
  audit_log : list AuditEntry;
}.

Definition set_tenants (x : gmap string Tenant) (db : DB) : DB :=
    {| tenants := x; users := users db; roles := roles db; api_keys := api_keys db; devices :=
     devices db; groups := groups db; tags := tags db; sites := sites db; device_groups :=
     device_groups db; device_tags := device_tags db; device_sites := device_sites db;
     inventory_hardware := inventory_hardware db; inventory_packages := inventory_packages db;
     jobs := jobs db; job_results := job_results db; scheduled_jobs := scheduled_jobs db;
     alert_rules := alert_rules db; agent_certificates := agent_certificates db; enrollment_tokens
     := enrollment_tokens db; signing_keys := signing_keys db; files := files db; file_uploads :=
     file_uploads db; agent_versions := agent_versions db; agent_version_binaries :=
     agent_version_binaries db; agent_update_policies := agent_update_policies db; installers :=
     installers db; agent_rollouts := agent_rollouts db; device_logs := device_logs db; audit_log
     := audit_log db |}.

Definition set_groups (x : gmap string Container) (db : DB) : DB :=
    {| tenants := tenants db; users := users db; roles := roles db; api_keys := api_keys db;
     devices := devices db; groups := x; tags := tags db; sites := sites db; device_groups :=
     device_groups db; device_tags := device_tags db; device_sites := device_sites db;
     inventory_hardware := inventory_hardware db; inventory_packages := inventory_packages db;
     jobs := jobs db; job_results := job_results db; scheduled_jobs := scheduled_jobs db;
     alert_rules := alert_rules db; agent_certificates := agent_certificates db; enrollment_tokens
     := enrollment_tokens db; signing_keys := signing_keys db; files := files db; file_uploads :=
     file_uploads db; agent_versions := agent_versions db; agent_version_binaries :=
     agent_version_binaries db; agent_update_policies := agent_update_policies db; installers :=
     installers db; agent_rollouts := agent_rollouts db; device_logs := device_logs db; audit_log
     := audit_log db |}.

Definition set_tags (x : gmap string Container) (db : DB) : DB :=
    {| tenants := tenants db; users := users db; roles := roles db; api_keys := api_keys db;
     devices := devices db; groups := groups db; tags := x; sites := sites db; device_groups :=
     device_groups db; device_tags := device_tags db; device_sites := device_sites db;
     inventory_hardware := inventory_hardware db; inventory_packages := inventory_packages db;
     jobs := jobs db; job_results := job_results db; scheduled_jobs := scheduled_jobs db;
     alert_rules := alert_rules db; agent_certificates := agent_certificates db; enrollment_tokens
     := enrollment_tokens db; signing_keys := signing_keys db; files := files db; file_uploads :=
     file_uploads db; agent_versions := agent_versions db; agent_version_binaries :=
     agent_version_binaries db; agent_update_policies := agent_update_policies db; installers :=
     installers db; agent_rollouts := agent_rollouts db; device_logs := device_logs db; audit_log
     := audit_log db |}.

Definition set_sites (x : gmap string Container) (db : DB) : DB :=
    {| tenants := tenants db; users := users db; roles := roles db; api_keys := api_keys db;
     devices := devices db; groups := groups db; tags := tags db; sites := x; device_groups :=
     device_groups db; device_tags := device_tags db; device_sites := device_sites db;
     inventory_hardware := inventory_hardware db; inventory_packages := inventory_packages db;
     jobs := jobs db; job_results := job_results db; scheduled_jobs := scheduled_jobs db;
     alert_rules := alert_rules db; agent_certificates := agent_certificates db; enrollment_tokens
     := enrollment_tokens db; signing_keys := signing_keys db; files := files db; file_uploads :=
     file_uploads db; agent_versions := agent_versions db; agent_version_binaries :=
     agent_version_binaries db; agent_update_policies := agent_update_policies db; installers :=
     installers db; agent_rollouts := agent_rollouts db; device_logs := device_logs db; audit_log
     := audit_log db |}.

Definition set_alert_rules (x : gmap string AlertRule) (db : DB) : DB :=
    {| tenants := tenants db; users := users db; roles := roles db; api_keys := api_keys db;
     devices := devices db; groups := groups db; tags := tags db; sites := sites db; device_groups
     := device_groups db; device_tags := device_tags db; device_sites := device_sites db;
     inventory_hardware := inventory_hardware db; inventory_packages := inventory_packages db;
     jobs := jobs db; job_results := job_results db; scheduled_jobs := scheduled_jobs db;
     alert_rules := x; agent_certificates := agent_certificates db; enrollment_tokens :=
     enrollment_tokens db; signing_keys := signing_keys db; files := files db; file_uploads :=
     file_uploads db; agent_versions := agent_versions db; agent_version_binaries :=
     agent_version_binaries db; agent_update_policies := agent_update_policies db; installers :=
     installers db; agent_rollouts := agent_rollouts db; device_logs := device_logs db; audit_log
     := audit_log db |}.

Definition set_signing_keys (x : gmap string SigningKey) (db : DB) : DB :=
    {| tenants := tenants db; users := users db; roles := roles db; api_keys := api_keys db;
     devices := devices db; groups := groups db; tags := tags db; sites := sites db; device_groups
     := device_groups db; device_tags := device_tags db; device_sites := device_sites db;
     inventory_hardware := inventory_hardware db; inventory_packages := inventory_packages db;
     jobs := jobs db; job_results := job_results db; scheduled_jobs := scheduled_jobs db;
     alert_rules := alert_rules db; agent_certificates := agent_certificates db; enrollment_tokens
     := enrollment_tokens db; signing_keys := x; files := files db; file_uploads := file_uploads
     db; agent_versions := agent_versions db; agent_version_binaries := agent_version_binaries db;
     agent_update_policies := agent_update_policies db; installers := installers db;
     agent_rollouts := agent_rollouts db; device_logs := device_logs db; audit_log := audit_log db
     |}.

Definition set_files (x : gmap string File) (db : DB) : DB :=
    {| tenants := tenants db; users := users db; roles := roles db; api_keys := api_keys db;
     devices := devices db; groups := groups db; tags := tags db; sites := sites db; device_groups
     := device_groups db; device_tags := device_tags db; device_sites := device_sites db;
     inventory_hardware := inventory_hardware db; inventory_packages := inventory_packages db;
     jobs := jobs db; job_results := job_results db; scheduled_jobs := scheduled_jobs db;
     alert_rules := alert_rules db; agent_certificates := agent_certificates db; enrollment_tokens
     := enrollment_tokens db; signing_keys := signing_keys db; files := x; file_uploads :=
     file_uploads db; agent_versions := agent_versions db; agent_version_binaries :=
     agent_version_binaries db; agent_update_policies := agent_update_policies db; installers :=
     installers db; agent_rollouts := agent_rollouts db; device_logs := device_logs db; audit_log
     := audit_log db |}.

Definition set_file_uploads (x : gmap string FileUpload) (db : DB) : DB :=
    {| tenants := tenants db; users := users db; roles := roles db; api_keys := api_keys db;
     devices := devices db; groups := groups db; tags := tags db; sites := sites db; device_groups
     := device_groups db; device_tags := device_tags db; device_sites := device_sites db;
     inventory_hardware := inventory_hardware db; inventory_packages := inventory_packages db;
     jobs := jobs db; job_results := job_results db; scheduled_jobs := scheduled_jobs db;
     alert_rules := alert_rules db; agent_certificates := agent_certificates db; enrollment_tokens
     := enrollment_tokens db; signing_keys := signing_keys db; files := files db; file_uploads :=
     x; agent_versions := agent_versions db; agent_version_binaries := agent_version_binaries db;
     agent_update_policies := agent_update_policies db; installers := installers db;
     agent_rollouts := agent_rollouts db; device_logs := device_logs db; audit_log := audit_log db
     |}.

Definition set_agent_versions (x : gmap string AgentVersion) (db : DB) : DB :=
    {| tenants := tenants db; users := users db; roles := roles db; api_keys := api_keys db;
     devices := devices db; groups := groups db; tags := tags db; sites := sites db; device_groups
     := device_groups db; device_tags := device_tags db; device_sites := device_sites db;
     inventory_hardware := inventory_hardware db; inventory_packages := inventory_packages db;
     jobs := jobs db; job_results := job_results db; scheduled_jobs := scheduled_jobs db;
     alert_rules := alert_rules db; agent_certificates := agent_certificates db; enrollment_tokens
     := enrollment_tokens db; signing_keys := signing_keys db; files := files db; file_uploads :=
     file_uploads db; agent_versions := x; agent_version_binaries := agent_version_binaries db;
     agent_update_policies := agent_update_policies db; installers := installers db;
     agent_rollouts := agent_rollouts db; device_logs := device_logs db; audit_log := audit_log db
     |}.

Definition set_agent_version_binaries (x : gmap string AgentVersionBinary) (db : DB) : DB :=
    {| tenants := tenants db; users := users db; roles := roles db; api_keys := api_keys db;
     devices := devices db; groups := groups db; tags := tags db; sites := sites db; device_groups
     := device_groups db; device_tags := device_tags db; device_sites := device_sites db;
     inventory_hardware := inventory_hardware db; inventory_packages := inventory_packages db;
     jobs := jobs db; job_results := job_results db; scheduled_jobs := scheduled_jobs db;
     alert_rules := alert_rules db; agent_certificates := agent_certificates db; enrollment_tokens
     := enrollment_tokens db; signing_keys := signing_keys db; files := files db; file_uploads :=
     file_uploads db; agent_versions := agent_versions db; agent_version_binaries := x;
     agent_update_policies := agent_update_policies db; installers := installers db;
     agent_rollouts := agent_rollouts db; device_logs := device_logs db; audit_log := audit_log db
     |}.

Definition set_agent_update_policies (x : gmap string AgentUpdatePolicy) (db : DB) : DB :=
    {| tenants := tenants db; users := users db; roles := roles db; api_keys := api_keys db;
     devices := devices db; groups := groups db; tags := tags db; sites := sites db; device_groups
     := device_groups db; device_tags := device_tags db; device_sites := device_sites db;
     inventory_hardware := inventory_hardware db; inventory_packages := inventory_packages db;
     jobs := jobs db; job_results := job_results db; scheduled_jobs := scheduled_jobs db;
     alert_rules := alert_rules db; agent_certificates := agent_certificates db; enrollment_tokens
     := enrollment_tokens db; signing_keys := signing_keys db; files := files db; file_uploads :=
     file_uploads db; agent_versions := agent_versions db; agent_version_binaries :=
     agent_version_binaries db; agent_update_policies := x; installers := installers db;
     agent_rollouts := agent_rollouts db; device_logs := device_logs db; audit_log := audit_log db
     |}.

Definition set_installers (x : gmap string Installer) (db : DB) : DB :=
    {| tenants := tenants db; users := users db; roles := roles db; api_keys := api_keys db;
     devices := devices db; groups := groups db; tags := tags db; sites := sites db; device_groups
     := device_groups db; device_tags := device_tags db; device_sites := device_sites db;
     inventory_hardware := inventory_hardware db; inventory_packages := inventory_packages db;
     jobs := jobs db; job_results := job_results db; scheduled_jobs := scheduled_jobs db;
     alert_rules := alert_rules db; agent_certificates := agent_certificates db; enrollment_tokens
     := enrollment_tokens db; signing_keys := signing_keys db; files := files db; file_uploads :=
     file_uploads db; agent_versions := agent_versions db; agent_version_binaries :=
     agent_version_binaries db; agent_update_policies := agent_update_policies db; installers :=
     x; agent_rollouts := agent_rollouts db; device_logs := device_logs db; audit_log := audit_log
     db |}.

Definition set_agent_rollouts (x : gmap string Rollout) (db : DB) : DB :=
    {| tenants := tenants db; users := users db; roles := roles db; api_keys := api_keys db;
     devices := devices db; groups := groups db; tags := tags db; sites := sites db; device_groups
     := device_groups db; device_tags := device_tags db; device_sites := device_sites db;
     inventory_hardware := inventory_hardware db; inventory_packages := inventory_packages db;
     jobs := jobs db; job_results := job_results db; scheduled_jobs := scheduled_jobs db;
     alert_rules := alert_rules db; agent_certificates := agent_certificates db; enrollment_tokens
     := enrollment_tokens db; signing_keys := signing_keys db; files := files db; file_uploads :=
     file_uploads db; agent_versions := agent_versions db; agent_version_binaries :=
     agent_version_binaries db; agent_update_policies := agent_update_policies db; installers :=
     installers db; agent_rollouts := x; device_logs := device_logs db; audit_log := audit_log db
     |}.

Definition set_device_logs (x : gmap string DeviceLog) (db : DB) : DB :=
    {| tenants := tenants db; users := users db; roles := roles db; api_keys := api_keys db;
     devices := devices db; groups := groups db; tags := tags db; sites := sites db; device_groups
     := device_groups db; device_tags := device_tags db; device_sites := device_sites db;
     inventory_hardware := inventory_hardware db; inventory_packages := inventory_packages db;
     jobs := jobs db; job_results := job_results db; scheduled_jobs := scheduled_jobs db;
     alert_rules := alert_rules db; agent_certificates := agent_certificates db; enrollment_tokens
     := enrollment_tokens db; signing_keys := signing_keys db; files := files db; file_uploads :=
     file_uploads db; agent_versions := agent_versions db; agent_version_binaries :=
     agent_version_binaries db; agent_update_policies := agent_update_policies db; installers :=
     installers db; agent_rollouts := agent_rollouts db; device_logs := x; audit_log := audit_log
     db |}.

Definition set_users (x : gmap string User) (db : DB) : DB :=
    {| tenants := tenants db; users := x; roles := roles db; api_keys := api_keys db; devices :=
     devices db; groups := groups db; tags := tags db; sites := sites db; device_groups :=
     device_groups db; device_tags := device_tags db; device_sites := device_sites db;
     inventory_hardware := inventory_hardware db; inventory_packages := inventory_packages db;
     jobs := jobs db; job_results := job_results db; scheduled_jobs := scheduled_jobs db;
     alert_rules := alert_rules db; agent_certificates := agent_certificates db; enrollment_tokens
     := enrollment_tokens db; signing_keys := signing_keys db; files := files db; file_uploads :=
     file_uploads db; agent_versions := agent_versions db; agent_version_binaries :=
     agent_version_binaries db; agent_update_policies := agent_update_policies db; installers :=
     installers db; agent_rollouts := agent_rollouts db; device_logs := device_logs db; audit_log
     := audit_log db |}.

Definition set_roles (x : gmap string Role) (db : DB) : DB :=
    {| tenants := tenants db; users := users db; roles := x; api_keys := api_keys db; devices :=
     devices db; groups := groups db; tags := tags db; sites := sites db; device_groups :=
     device_groups db; device_tags := device_tags db; device_sites := device_sites db;
     inventory_hardware := inventory_hardware db; inventory_packages := inventory_packages db;
     jobs := jobs db; job_results := job_results db; scheduled_jobs := scheduled_jobs db;
     alert_rules := alert_rules db; agent_certificates := agent_certificates db; enrollment_tokens
     := enrollment_tokens db; signing_keys := signing_keys db; files := files db; file_uploads :=
     file_uploads db; agent_versions := agent_versions db; agent_version_binaries :=
     agent_version_binaries db; agent_update_policies := agent_update_policies db; installers :=
     installers db; agent_rollouts := agent_rollouts db; device_logs := device_logs db; audit_log
     := audit_log db |}.

Definition set_api_keys (x : gmap string APIKey) (db : DB) : DB :=
    {| tenants := tenants db; users := users db; roles := roles db; api_keys := x; devices :=
     devices db; groups := groups db; tags := tags db; sites := sites db; device_groups :=
     device_groups db; device_tags := device_tags db; device_sites := device_sites db;
     inventory_hardware := inventory_hardware db; inventory_packages := inventory_packages db;
     jobs := jobs db; job_results := job_results db; scheduled_jobs := scheduled_jobs db;
     alert_rules := alert_rules db; agent_certificates := agent_certificates db; enrollment_tokens
     := enrollment_tokens db; signing_keys := signing_keys db; files := files db; file_uploads :=
     file_uploads db; agent_versions := agent_versions db; agent_version_binaries :=
     agent_version_binaries db; agent_update_policies := agent_update_policies db; installers :=
     installers db; agent_rollouts := agent_rollouts db; device_logs := device_logs db; audit_log
     := audit_log db |}.

Definition set_devices (x : gmap string Device) (db : DB) : DB :=
    {| tenants := tenants db; users := users db; roles := roles db; api_keys := api_keys db;
     devices := x; groups := groups db; tags := tags db; sites := sites db; device_groups :=
     device_groups db; device_tags := device_tags db; device_sites := device_sites db;
     inventory_hardware := inventory_hardware db; inventory_packages := inventory_packages db;
     jobs := jobs db; job_results := job_results db; scheduled_jobs := scheduled_jobs db;
     alert_rules := alert_rules db; agent_certificates := agent_certificates db; enrollment_tokens
     := enrollment_tokens db; signing_keys := signing_keys db; files := files db; file_uploads :=
     file_uploads db; agent_versions := agent_versions db; agent_version_binaries :=
     agent_version_binaries db; agent_update_policies := agent_update_policies db; installers :=
     installers db; agent_rollouts := agent_rollouts db; device_logs := device_logs db; audit_log
     := audit_log db |}.

Definition set_device_groups (x : gset (string * string)) (db : DB) : DB :=
    {| tenants := tenants db; users := users db; roles := roles db; api_keys := api_keys db;
     devices := devices db; groups := groups db; tags := tags db; sites := sites db; device_groups
     := x; device_tags := device_tags db; device_sites := device_sites db; inventory_hardware :=
     inventory_hardware db; inventory_packages := inventory_packages db; jobs := jobs db;
     job_results := job_results db; scheduled_jobs := scheduled_jobs db; alert_rules :=
     alert_rules db; agent_certificates := agent_certificates db; enrollment_tokens :=
     enrollment_tokens db; signing_keys := signing_keys db; files := files db; file_uploads :=
     file_uploads db; agent_versions := agent_versions db; agent_version_binaries :=
     agent_version_binaries db; agent_update_policies := agent_update_policies db; installers :=
     installers db; agent_rollouts := agent_rollouts db; device_logs := device_logs db; audit_log
     := audit_log db |}.

Definition set_device_tags (x : gset (string * string)) (db : DB) : DB :=
    {| tenants := tenants db; users := users db; roles := roles db; api_keys := api_keys db;
     devices := devices db; groups := groups db; tags := tags db; sites := sites db; device_groups
     := device_groups db; device_tags := x; device_sites := device_sites db; inventory_hardware :=
     inventory_hardware db; inventory_packages := inventory_packages db; jobs := jobs db;
     job_results := job_results db; scheduled_jobs := scheduled_jobs db; alert_rules :=
     alert_rules db; agent_certificates := agent_certificates db; enrollment_tokens :=
     enrollment_tokens db; signing_keys := signing_keys db; files := files db; file_uploads :=
     file_uploads db; agent_versions := agent_versions db; agent_version_binaries :=
     agent_version_binaries db; agent_update_policies := agent_update_policies db; installers :=
     installers db; agent_rollouts := agent_rollouts db; device_logs := device_logs db; audit_log
     := audit_log db |}.

Definition set_device_sites (x : gset (string * string)) (db : DB) : DB :=
    {| tenants := tenants db; users := users db; roles := roles db; api_keys := api_keys db;
     devices := devices db; groups := groups db; tags := tags db; sites := sites db; device_groups
     := device_groups db; device_tags := device_tags db; device_sites := x; inventory_hardware :=
     inventory_hardware db; inventory_packages := inventory_packages db; jobs := jobs db;
     job_results := job_results db; scheduled_jobs := scheduled_jobs db; alert_rules :=
     alert_rules db; agent_certificates := agent_certificates db; enrollment_tokens :=
     enrollment_tokens db; signing_keys := signing_keys db; files := files db; file_uploads :=
     file_uploads db; agent_versions := agent_versions db; agent_version_binaries :=
     agent_version_binaries db; agent_update_policies := agent_update_policies db; installers :=
     installers db; agent_rollouts := agent_rollouts db; device_logs := device_logs db; audit_log
     := audit_log db |}.

Definition set_inventory_hardware (x : gmap string Hardware) (db : DB) : DB :=
    {| tenants := tenants db; users := users db; roles := roles db; api_keys := api_keys db;
     devices := devices db; groups := groups db; tags := tags db; sites := sites db; device_groups
     := device_groups db; device_tags := device_tags db; device_sites := device_sites db;
     inventory_hardware := x; inventory_packages := inventory_packages db; jobs := jobs db;
     job_results := job_results db; scheduled_jobs := scheduled_jobs db; alert_rules :=
     alert_rules db; agent_certificates := agent_certificates db; enrollment_tokens :=
     enrollment_tokens db; signing_keys := signing_keys db; files := files db; file_uploads :=
     file_uploads db; agent_versions := agent_versions db; agent_version_binaries :=
     agent_version_binaries db; agent_update_policies := agent_update_policies db; installers :=
     installers db; agent_rollouts := agent_rollouts db; device_logs := device_logs db; audit_log
     := audit_log db |}.

Definition set_inventory_packages (x : gmap string Package) (db : DB) : DB :=
    {| tenants := tenants db; users := users db; roles := roles db; api_keys := api_keys db;
     devices := devices db; groups := groups db; tags := tags db; sites := sites db; device_groups
     := device_groups db; device_tags := device_tags db; device_sites := device_sites db;
     inventory_hardware := inventory_hardware db; inventory_packages := x; jobs := jobs db;
     job_results := job_results db; scheduled_jobs := scheduled_jobs db; alert_rules :=
     alert_rules db; agent_certificates := agent_certificates db; enrollment_tokens :=
     enrollment_tokens db; signing_keys := signing_keys db; files := files db; file_uploads :=
     file_uploads db; agent_versions := agent_versions db; agent_version_binaries :=
     agent_version_binaries db; agent_update_policies := agent_update_policies db; installers :=
     installers db; agent_rollouts := agent_rollouts db; device_logs := device_logs db; audit_log
     := audit_log db |}.

Definition set_jobs (x : gmap string Job) (db : DB) : DB :=
    {| tenants := tenants db; users := users db; roles := roles db; api_keys := api_keys db;
     devices := devices db; groups := groups db; tags := tags db; sites := sites db; device_groups
     := device_groups db; device_tags := device_tags db; device_sites := device_sites db;
     inventory_hardware := inventory_hardware db; inventory_packages := inventory_packages db;
     jobs := x; job_results := job_results db; scheduled_jobs := scheduled_jobs db; alert_rules :=
     alert_rules db; agent_certificates := agent_certificates db; enrollment_tokens :=
     enrollment_tokens db; signing_keys := signing_keys db; files := files db; file_uploads :=
     file_uploads db; agent_versions := agent_versions db; agent_version_binaries :=
     agent_version_binaries db; agent_update_policies := agent_update_policies db; installers :=
     installers db; agent_rollouts := agent_rollouts db; device_logs := device_logs db; audit_log
     := audit_log db |}.

Definition set_job_results (x : gmap string JobResult) (db : DB) : DB :=
    {| tenants := tenants db; users := users db; roles := roles db; api_keys := api_keys db;
     devices := devices db; groups := groups db; tags := tags db; sites := sites db; device_groups
     := device_groups db; device_tags := device_tags db; device_sites := device_sites db;
     inventory_hardware := inventory_hardware db; inventory_packages := inventory_packages db;
     jobs := jobs db; job_results := x; scheduled_jobs := scheduled_jobs db; alert_rules :=
     alert_rules db; agent_certificates := agent_certificates db; enrollment_tokens :=
     enrollment_tokens db; signing_keys := signing_keys db; files := files db; file_uploads :=
     file_uploads db; agent_versions := agent_versions db; agent_version_binaries :=
     agent_version_binaries db; agent_update_policies := agent_update_policies db; installers :=
     installers db; agent_rollouts := agent_rollouts db; device_logs := device_logs db; audit_log
     := audit_log db |}.

Definition set_scheduled_jobs (x : gmap string ScheduledJob) (db : DB) : DB :=
    {| tenants := tenants db; users := users db; roles := roles db; api_keys := api_keys db;
     devices := devices db; groups := groups db; tags := tags db; sites := sites db; device_groups
     := device_groups db; device_tags := device_tags db; device_sites := device_sites db;
     inventory_hardware := inventory_hardware db; inventory_packages := inventory_packages db;
     jobs := jobs db; job_results := job_results db; scheduled_jobs := x; alert_rules :=
     alert_rules db; agent_certificates := agent_certificates db; enrollment_tokens :=
     enrollment_tokens db; signing_keys := signing_keys db; files := files db; file_uploads :=
     file_uploads db; agent_versions := agent_versions db; agent_version_binaries :=
     agent_version_binaries db; agent_update_policies := agent_update_policies db; installers :=
     installers db; agent_rollouts := agent_rollouts db; device_logs := device_logs db; audit_log
     := audit_log db |}.

Definition set_agent_certificates (x : gmap string AgentCertificate) (db : DB) : DB :=
    {| tenants := tenants db; users := users db; roles := roles db; api_keys := api_keys db;
     devices := devices db; groups := groups db; tags := tags db; sites := sites db; device_groups
     := device_groups db; device_tags := device_tags db; device_sites := device_sites db;
     inventory_hardware := inventory_hardware db; inventory_packages := inventory_packages db;
     jobs := jobs db; job_results := job_results db; scheduled_jobs := scheduled_jobs db;
     alert_rules := alert_rules db; agent_certificates := x; enrollment_tokens :=
     enrollment_tokens db; signing_keys := signing_keys db; files := files db; file_uploads :=
     file_uploads db; agent_versions := agent_versions db; agent_version_binaries :=
     agent_version_binaries db; agent_update_policies := agent_update_policies db; installers :=
     installers db; agent_rollouts := agent_rollouts db; device_logs := device_logs db; audit_log
     := audit_log db |}.

Definition set_enrollment_tokens (x : gmap string EnrollmentToken) (db : DB) : DB :=
    {| tenants := tenants db; users := users db; roles := roles db; api_keys := api_keys db;
     devices := devices db; groups := groups db; tags := tags db; sites := sites db; device_groups
     := device_groups db; device_tags := device_tags db; device_sites := device_sites db;
     inventory_hardware := inventory_hardware db; inventory_packages := inventory_packages db;
     jobs := jobs db; job_results := job_results db; scheduled_jobs := scheduled_jobs db;
     alert_rules := alert_rules db; agent_certificates := agent_certificates db; enrollment_tokens
     := x; signing_keys := signing_keys db; files := files db; file_uploads := file_uploads db;
     agent_versions := agent_versions db; agent_version_binaries := agent_version_binaries db;
     agent_update_policies := agent_update_policies db; installers := installers db;
     agent_rollouts := agent_rollouts db; device_logs := device_logs db; audit_log := audit_log db
     |}.

Definition set_audit_log (x : list AuditEntry) (db : DB) : DB :=
    {| tenants := tenants db; users := users db; roles := roles db; api_keys := api_keys db;
     devices := devices db; groups := groups db; tags := tags db; sites := sites db; device_groups
     := device_groups db; device_tags := device_tags db; device_sites := device_sites db;
     inventory_hardware := inventory_hardware db; inventory_packages := inventory_packages db;
     jobs := jobs db; job_results := job_results db; scheduled_jobs := scheduled_jobs db;
     alert_rules := alert_rules db; agent_certificates := agent_certificates db; enrollment_tokens
     := enrollment_tokens db; signing_keys := signing_keys db; files := files db; file_uploads :=
     file_uploads db; agent_versions := agent_versions db; agent_version_binaries :=
     agent_version_binaries db; agent_update_policies := agent_update_policies db; installers :=
     installers db; agent_rollouts := agent_rollouts db; device_logs := device_logs db; audit_log
     := x |}.

(** Column assignments of [UPDATE jobs SET ...]. *)
Definition set_job_status (x : string) (j : Job) : Job :=
    {| job_tenant := job_tenant j; job_device := job_device j; job_parent := job_parent j;
     job_type := job_type j; job_status := x; job_payload := job_payload j; job_retry_policy :=
     job_retry_policy j; job_retry_count := job_retry_count j; job_max_retries := job_max_retries
     j; job_last_error := job_last_error j; job_created_by := job_created_by j; job_created_at :=
     job_created_at j; job_dispatched_at := job_dispatched_at j; job_acknowledged_at :=
     job_acknowledged_at j; job_started_at := job_started_at j; job_completed_at :=
     job_completed_at j |}.

Definition set_job_last_error (x : option string) (j : Job) : Job :=
    {| job_tenant := job_tenant j; job_device := job_device j; job_parent := job_parent j;
     job_type := job_type j; job_status := job_status j; job_payload := job_payload j;
     job_retry_policy := job_retry_policy j; job_retry_count := job_retry_count j; job_max_retries
     := job_max_retries j; job_last_error := x; job_created_by := job_created_by j; job_created_at
     := job_created_at j; job_dispatched_at := job_dispatched_at j; job_acknowledged_at :=
     job_acknowledged_at j; job_started_at := job_started_at j; job_completed_at :=
     job_completed_at j |}.

Definition set_job_dispatched_at (x : option Z) (j : Job) : Job :=
    {| job_tenant := job_tenant j; job_device := job_device j; job_parent := job_parent j;
     job_type := job_type j; job_status := job_status j; job_payload := job_payload j;
     job_retry_policy := job_retry_policy j; job_retry_count := job_retry_count j; job_max_retries
     := job_max_retries j; job_last_error := job_last_error j; job_created_by := job_created_by j;
     job_created_at := job_created_at j; job_dispatched_at := x; job_acknowledged_at :=
     job_acknowledged_at j; job_started_at := job_started_at j; job_completed_at :=
     job_completed_at j |}.

Definition set_job_acknowledged_at (x : option Z) (j : Job) : Job :=
    {| job_tenant := job_tenant j; job_device := job_device j; job_parent := job_parent j;
     job_type := job_type j; job_status := job_status j; job_payload := job_payload j;
     job_retry_policy := job_retry_policy j; job_retry_count := job_retry_count j; job_max_retries
     := job_max_retries j; job_last_error := job_last_error j; job_created_by := job_created_by j;
     job_created_at := job_created_at j; job_dispatched_at := job_dispatched_at j;
     job_acknowledged_at := x; job_started_at := job_started_at j; job_completed_at :=
     job_completed_at j |}.

Definition set_job_started_at (x : option Z) (j : Job) : Job :=
    {| job_tenant := job_tenant j; job_device := job_device j; job_parent := job_parent j;
     job_type := job_type j; job_status := job_status j; job_payload := job_payload j;
     job_retry_policy := job_retry_policy j; job_retry_count := job_retry_count j; job_max_retries
     := job_max_retries j; job_last_error := job_last_error j; job_created_by := job_created_by j;
     job_created_at := job_created_at j; job_dispatched_at := job_dispatched_at j;
     job_acknowledged_at := job_acknowledged_at j; job_started_at := x; job_completed_at :=
     job_completed_at j |}.

Definition set_job_completed_at (x : option Z) (j : Job) : Job :=
    {| job_tenant := job_tenant j; job_device := job_device j; job_parent := job_parent j;
     job_type := job_type j; job_status := job_status j; job_payload := job_payload j;
     job_retry_policy := job_retry_policy j; job_retry_count := job_retry_count j; job_max_retries
     := job_max_retries j; job_last_error := job_last_error j; job_created_by := job_created_by j;
     job_created_at := job_created_at j; job_dispatched_at := job_dispatched_at j;
     job_acknowledged_at := job_acknowledged_at j; job_started_at := job_started_at j;
     job_completed_at := x |}.

Definition Handler := prog DB Response.

(** ** Generic SQL forms *)

(** [UPDATE t SET ... WHERE p]: every row that satisfies [p] becomes [f row]. *)
Definition update_where {V} (p : string -> V -> bool) (f : V -> V) (t : gmap string V) : gmap string V :=
  map_imap (fun k v => Some (if p k v then f v else v)) t.

(** Rows affected by an [UPDATE] or [DELETE]. *)
Definition count_where {V} (p : string -> V -> bool) (t : gmap string V) : nat :=
  size (filter (fun kv : string * V => p kv.1 kv.2 = true) t).

(** [DELETE FROM t WHERE p]. *)
Definition delete_where {V} (p : string -> V -> bool) (t : gmap string V) : gmap string V :=
  filter (fun kv : string * V => p kv.1 kv.2 = false) t.

(** [SELECT ... FROM t WHERE p]. *)
Definition select_where {V} (p : string -> V -> bool) (t : gmap string V) : list (string * V) :=
  filter (fun kv : string * V => p kv.1 kv.2 = true) (map_to_list t).

(** [INSERT INTO t]: a duplicate primary key is an error. *)
Definition insert_new {V} (k : string) (v : V) (t : gmap string V) : option (gmap string V) :=
  match t !! k with Some _ => None | None => Some (<[k := v]> t) end.

(** [REFERENCES parent(id)] on a NOT NULL and on a nullable column. *)
Definition fk {V} (t : gmap string V) (k : string) : bool := bool_decide (is_Some (t !! k)).
Definition fk_opt {V} (t : gmap string V) (k : option string) : bool :=
  match k with None => true | Some k => fk t k end.

(** [INSERT INTO jobs]: primary key, foreign keys and column widths. *)
Definition insert_job (id : string) (j : Job) (db : DB) : option DB :=
  if fk (tenants db) (job_tenant j) && fk (devices db) (job_device j)
     && fk_opt (jobs db) (job_parent j) && fk_opt (users db) (job_created_by j)
     && int4_ok (job_retry_count j) && int4_ok (job_max_retries j)
  then t ← insert_new id j (jobs db); Some (set_jobs t db)
  else None.

(** [UPDATE jobs SET ... WHERE ...]. *)
Definition update_jobs (p : string -> Job -> bool) (f : Job -> Job) (db : DB) : DB :=
  set_jobs (update_where p f (jobs db)) db.

(** [INSERT INTO audit_log]. *)
Definition insert_audit (a : AuditEntry) (db : DB) : option DB :=
  if fk (tenants db) (au_tenant a) && forallb (fun b => negb (au_id b =s au_id a)) (audit_log db)
  then Some (set_audit_log (audit_log db ++ [a]) db) else None.

(** A statement with no RETURNING clause, as an [exec] argument. *)
Definition stmt (f : DB -> DB) (db : DB) : option (DB * unit) := Some (f db, tt).
Definition stmt_opt (f : DB -> option DB) (db : DB) : option (DB * unit) :=
  match f db with Some db' => Some (db', tt) | None => None end.

(** [audit.Logger.Log]: stamps the entry with an id and the time and inserts it;
    [None] is an error. *)
Definition Log {R} (entry : AuditEntry) : prog DB R (option unit) :=
  id ← new_id "aud";
  now ← time_now;
  exec (stmt_opt (insert_audit
    {| au_id := id; au_tenant := au_tenant entry; au_actor := au_actor entry;
       au_actor_type := au_actor_type entry; au_action := au_action entry;
       au_resource_type := au_resource_type entry; au_resource_id := au_resource_id entry;
       au_metadata := au_metadata entry; au_ip_address := au_ip_address entry; au_created_at := now |})).

(** [audit.Logger.LogAction]: a failed write is logged, counted and swallowed.
    The handlers pass string maps, which always marshal. *)
Definition LogAction {R} (tenantID actorID actorType action resourceType resourceID : string)
    (metadata : list (string * string)) : prog DB R unit :=
  _ ← Log {| au_id := ""; au_tenant := tenantID; au_actor := actorID; au_actor_type := actorType;
             au_action := action; au_resource_type := resourceType; au_resource_id := resourceID;
             au_metadata := metadata; au_ip_address := ""; au_created_at := 0 |};
  mret tt.

(** The membership queries of target and scope resolution:
    [SELECT m.device_id FROM m JOIN devices d ON d.id = m.device_id
     WHERE m.parent_id = $1 AND d.tenant_id = $2]. *)
Definition in_tenant (db : DB) (tenantID dev : string) : bool :=
  match devices db !! dev with Some d => dev_tenant d =s tenantID | None => false end.

Definition members (rel : gset (string * string)) (db : DB) (tenantID parent : string) : list string :=
  map fst (filter (fun dp : string * string => (dp.2 =s parent) && in_tenant db tenantID dp.1 = true)
                  (elements rel)).

(** ** Lemmas on the SQL forms *)

Lemma lookup_update_where {V} p f (t : gmap string V) k :
  update_where p f t !! k = (fun v => if p k v then f v else v) <$> t !! k.
Proof. unfold update_where. rewrite map_lookup_imap. by destruct (t !! k). Qed.

Lemma lookup_delete_where {V} p (t : gmap string V) k v :
  delete_where p t !! k = Some v <-> t !! k = Some v /\ p k v = false.
Proof. unfold delete_where. by rewrite map_lookup_filter_Some. Qed.

Lemma elem_of_select_where {V} p (t : gmap string V) k v :
  (k, v) ∈ select_where p t <-> t !! k = Some v /\ p k v = true.
Proof.
  unfold select_where. rewrite list_elem_of_filter. simpl.
  rewrite elem_of_map_to_list. tauto.
Qed.

Lemma insert_new_Some {V} k (v : V) t t' :
  insert_new k v t = Some t' <-> t !! k = None /\ t' = <[k := v]> t.
Proof. unfold insert_new. destruct (t !! k); naive_solver. Qed.

Lemma fk_spec {V} (t : gmap string V) k : fk t k = true <-> is_Some (t !! k).
Proof. apply bool_decide_eq_true. Qed.

Lemma insert_job_Some id j db db' :
  insert_job id j db = Some db' ->
  jobs db !! id = None /\ db' = set_jobs (<[id := j]> (jobs db)) db.
Proof.
  unfold insert_job. case_match; [|done]. intros Hb.
  apply bind_Some in Hb as (t & Ht & [= <-]). apply insert_new_Some in Ht as [? ->]. done.
Qed.

Lemma elem_of_members rel db T parent d :
  d ∈ members rel db T parent <->
  (d, parent) ∈ rel /\ exists dv, devices db !! d = Some dv /\ dev_tenant dv = T.
Proof.
  unfold members. rewrite list_elem_of_In, in_map_iff. split.
  - intros ([d' p'] & Hd & Hin). simpl in Hd. subst d'.
    apply list_elem_of_In, list_elem_of_filter in Hin as [Hp Hin]. simpl in Hp.
    reflect_bools. subst. apply elem_of_elements in Hin. unfold in_tenant in *.
    case_match; [|done]. reflect_bools. eauto.
  - intros (Hin & dv & Hd & HT). exists (d, parent). split; [done|].
    apply list_elem_of_In, list_elem_of_filter. simpl. split; [|by apply elem_of_elements].
    unfold in_tenant. rewrite Hd, HT, !seqb_refl. done.
Qed.

(** *** Audit entries *)

Lemma insert_audit_Some a db db' : insert_audit a db = Some db' -> db' = set_audit_log (audit_log db ++ [a]) db.
Proof. unfold insert_audit. case_match; naive_solver. Qed.

Lemma stmt_Some f db db' (u : unit) : stmt f db = Some (db', u) -> db' = f db.
Proof. by intros [= <- _]. Qed.

Lemma stmt_opt_Some f db db' (u : unit) : stmt_opt f db = Some (db', u) -> f db = Some db'.
Proof. unfold stmt_opt. case_match; [|done]. by intros [= <- _]. Qed.

(** An audit write, whatever comes of it, touches the audit log only. *)
Lemma LogAction_any_guar {R : Type} (G : relation DB) `{!Reflexive G} T a at' ac rt ri m :
  (forall l s, G s (set_audit_log l s)) -> guar G (LogAction T a at' ac rt ri m : prog DB R unit).
Proof.
  intros HG. unfold LogAction, Log. guar_all. by intros Hi%stmt_opt_Some%insert_audit_Some; subst.
Qed.

Lemma LogAction_any_rg {R : Type} (E : Env -> Prop) (G : relation DB) `{!Reflexive G}
    T a at' ac rt ri m (Q : R + unit -> DB -> Prop) db :
  (forall l, G db (set_audit_log l db)) -> (forall l, Q (inr tt) (set_audit_log l db)) ->
  rg E (=) G (LogAction T a at' ac rt ri m) Q db.
Proof.
  intros HG HQ. assert (Q (inr tt) db) as Hdb by (specialize (HQ (audit_log db)); by destruct db).
  unfold LogAction, Log. do 6 rg_step; [done|].
  destruct (stmt_opt _ db) as [[db' u]|] eqn:Hi; [|done].
  apply stmt_opt_Some, insert_audit_Some in Hi as ->. split; [apply HG|]. apply HQ.
Qed.

(** An [UPDATE ... WHERE id = k]. *)
Lemma update_id {V : Type} k (f : V -> V) (t : gmap string V) v :
  t !! k = Some v -> update_where (fun i _ => i =s k) f t = <[k := f v]> t.
Proof.
  intros Hk. apply map_eq. intros i. rewrite lookup_update_where. destruct (decide (i = k)) as [->|Hn].
  - rewrite Hk, lookup_insert_eq. simpl. by rewrite seqb_refl.
  - rewrite lookup_insert_ne by done. destruct (t !! i); simpl; [|done].
    apply seqb_neq in Hn. by rewrite Hn.
Qed.
