(* ===== verification/Scope.v ===== *)
(** * API key scopes

    [server/auth/scope.go]: resolution of a scope to the devices it allows, the
    membership tests the handlers use, scope inclusion for delegated
    credentials, and tenant validation of the ids a scope names. *)

From S2P Require Import Prelude Prog Models JobState Database.

(** ** Operations *)

(** [allowed[id] = struct{}{}] for a list of ids. *)
Definition allow_all (allowed : gset string) (ids : list string) : gset string :=
  foldl (fun acc id => {[id]} ∪ acc) allowed ids.

(** One expansion loop of [ResolveScope] (groups, tags or sites). *)
Definition expand_scope (rel : DB -> gset (string * string)) (tenantID : string)
    (ids : list string) (allowed : gset string) : prog DB (option (option (gset string))) (gset string) :=
  for_each ids allowed (fun acc id =>
    r ← query (fun db => members (rel db) db tenantID id);
    match r with
    | None => stop None
    | Some rows => mret (allow_all acc rows)
    end).

(** [None] is an error; [Some None] is the nil map of an unscoped key. *)
Definition ResolveScope {R : Type} (tenantID : string) (scope : option APIScope)
    : prog DB R (option (option (gset string))) :=
  call (match scope with
  | None => mret (Some None)
  | Some sc =>
      a1 ← expand_scope device_groups tenantID (sc_group_ids sc) (allow_all ∅ (sc_device_ids sc));
      a2 ← expand_scope device_tags tenantID (sc_tag_ids sc) a1;
      a3 ← expand_scope device_sites tenantID (sc_site_ids sc) a2;
      mret (Some (Some a3))
  end).

Definition DeviceInScope (allowed : option (gset string)) (deviceID : string) : bool :=
  match allowed with None => true | Some al => bool_decide (deviceID ∈ al) end.

Fixpoint filter_ids (allowed : gset string) (deviceIDs : list string) : list string :=
  match deviceIDs with
  | [] => []
  | id :: ids => if bool_decide (id ∈ allowed) then id :: filter_ids allowed ids else filter_ids allowed ids
  end.

Definition FilterDeviceIDs (allowed : option (gset string)) (deviceIDs : list string) : list string :=
  match allowed with None => deviceIDs | Some al => filter_ids al deviceIDs end.

Definition nonempty {A} (l : list A) : bool := match l with [] => false | _ => true end.

Definition ScopeHasField (scope : option APIScope) (field : string) : bool :=
  match scope with
  | None => false
  | Some sc =>
      if field =s "groups" then nonempty (sc_group_ids sc)
      else if field =s "tags" then nonempty (sc_tag_ids sc)
      else if field =s "sites" then nonempty (sc_site_ids sc)
      else if field =s "devices" then nonempty (sc_device_ids sc)
      else false
  end.

(** [allInSet] and [anyInSet] build a set of [allowed] and scan [candidates]. *)
Definition allInSet (candidates allowed : list string) : bool :=
  if negb (nonempty candidates) then true
  else if negb (nonempty allowed) then false
  else let set := allow_all ∅ allowed in forallb (fun id => bool_decide (id ∈ set)) candidates.

Definition anyInSet (candidates allowed : list string) : bool :=
  let set := allow_all ∅ allowed in existsb (fun id => bool_decide (id ∈ set)) candidates.

Definition field_blocks (scope_ids target_ids : list string) : bool :=
  nonempty scope_ids && nonempty target_ids && negb (anyInSet target_ids scope_ids).

Definition TargetOverlapsScope (scope : option APIScope) (target : option JobTarget) : bool :=
  match scope, target with
  | Some sc, Some tg =>
      if field_blocks (sc_group_ids sc) (tgt_group_ids tg) then false
      else if field_blocks (sc_tag_ids sc) (tgt_tag_ids tg) then false
      else if field_blocks (sc_site_ids sc) (tgt_site_ids tg) then false
      else if field_blocks (sc_device_ids sc) (tgt_device_ids tg) then false
      else true
  | _, _ => true
  end.

Definition ScopeIsSubset (outer inner : option APIScope) : bool :=
  match outer with
  | None => true
  | Some o =>
      match inner with
      | None => false
      | Some i => allInSet (sc_group_ids i) (sc_group_ids o) && allInSet (sc_tag_ids i) (sc_tag_ids o)
                  && allInSet (sc_site_ids i) (sc_site_ids o) && allInSet (sc_device_ids i) (sc_device_ids o)
      end
  end.

(** The [check] loop of [ValidateScopeTenant] over one table. *)
Definition check_ids (table : string) (lookup_tenant : DB -> string -> option string)
    (tenantID : string) (ids : list string) : prog DB (option GoError) unit :=
  for_each ids tt (fun _ id =>
    r ← query (fun db => bool_decide (lookup_tenant db id = Some tenantID));
    match r with
    | None => stop (Some EDb)
    | Some false => stop (Some (ENotInTenant table id))
    | Some true => mret tt
    end).

Definition group_tenant (db : DB) (id : string) : option string := ct_tenant <$> groups db !! id.
Definition tag_tenant (db : DB) (id : string) : option string := ct_tenant <$> tags db !! id.
Definition site_tenant (db : DB) (id : string) : option string := ct_tenant <$> sites db !! id.
Definition device_tenant (db : DB) (id : string) : option string := dev_tenant <$> devices db !! id.

Definition ValidateScopeTenant {R : Type} (tenantID : string) (scope : option APIScope) : prog DB R (option GoError) :=
  call (match scope with
  | None => mret None
  | Some sc =>
      _ ← check_ids "groups" group_tenant tenantID (sc_group_ids sc);
      _ ← check_ids "tags" tag_tenant tenantID (sc_tag_ids sc);
      _ ← check_ids "sites" site_tenant tenantID (sc_site_ids sc);
      _ ← check_ids "devices" device_tenant tenantID (sc_device_ids sc);
      mret None
  end).

Definition IDInScopeField (scope : option APIScope) (field id : string) : bool :=
  match scope with
  | None => true
  | Some sc =>
      let ids := if field =s "groups" then sc_group_ids sc
                 else if field =s "tags" then sc_tag_ids sc
                 else if field =s "sites" then sc_site_ids sc
                 else if field =s "devices" then sc_device_ids sc
                 else [] in
      if negb (nonempty ids) then true else str_in id ids
  end.

(** ** Specification *)

Definition via (rel : gset (string * string)) (db : DB) (T : string) (parents : list string) (d : string) : Prop :=
  exists p, p ∈ parents /\ d ∈ members rel db T p.

(** The devices a scope stands for: the union of its four fields. *)
Definition in_scope (db : DB) (T : string) (sc : APIScope) (d : string) : Prop :=
  d ∈ sc_device_ids sc \/ via (device_groups db) db T (sc_group_ids sc) d
  \/ via (device_tags db) db T (sc_tag_ids sc) d \/ via (device_sites db) db T (sc_site_ids sc) d.

(** ** Lemmas *)

Lemma elem_of_allow_all ids : forall al x, x ∈ allow_all al ids <-> x ∈ al \/ x ∈ ids.
Proof. induction ids as [|y ids IH]; intros al x; simpl; [set_solver|]. rewrite IH. set_solver. Qed.

Lemma elem_of_filter_ids al ids x : x ∈ filter_ids al ids <-> x ∈ ids /\ x ∈ al.
Proof.
  induction ids as [|y ids IH]; simpl; [set_solver|].
  destruct (bool_decide (y ∈ al)) eqn:E; reflect_bools; set_solver.
Qed.

Lemma filter_ids_NoDup al ids : NoDup ids -> NoDup (filter_ids al ids).
Proof.
  induction 1 as [|y ids Hy Hn IH]; simpl; [constructor|]. case_match; [|done].
  constructor; [|done]. rewrite elem_of_filter_ids. tauto.
Qed.

Lemma filter_ids_length al ids : length (filter_ids al ids) <= length ids.
Proof. induction ids; simpl; [done|]. case_match; simpl; lia. Qed.

Lemma via_snoc rel db T ps p d : via rel db T (ps ++ [p]) d <-> via rel db T ps d \/ d ∈ members rel db T p.
Proof. unfold via. setoid_rewrite elem_of_app. setoid_rewrite list_elem_of_singleton. naive_solver. Qed.

Lemma nonempty_false {A} (l : list A) : nonempty l = false <-> l = [].
Proof. by destruct l. Qed.

Lemma allInSet_spec cs al : allInSet cs al = true <-> cs ⊆ al.
Proof.
  unfold allInSet. destruct (nonempty cs) eqn:Ec; [|apply nonempty_false in Ec; set_solver].
  destruct (nonempty al) eqn:Ea; simpl.
  2:{ apply nonempty_false in Ea as ->. split; [done|]. destruct cs; set_solver. }
  rewrite forallb_forall.
  setoid_rewrite bool_decide_eq_true. setoid_rewrite elem_of_allow_all.
  setoid_rewrite <-list_elem_of_In. set_solver.
Qed.

Lemma anyInSet_spec cs al : anyInSet cs al = true <-> exists x, x ∈ cs /\ x ∈ al.
Proof.
  unfold anyInSet. rewrite existsb_exists. setoid_rewrite bool_decide_eq_true.
  setoid_rewrite elem_of_allow_all. setoid_rewrite <-list_elem_of_In. set_solver.
Qed.

(** One expansion loop adds exactly the members, or reports an error. *)
Lemma expand_scope_rg (E : Env -> Prop) (Q : option (option (gset string)) + gset string -> DB -> Prop) rel T ids al db :
  (may_fault E -> Q (inl None) db) ->
  (forall al', (forall d, d ∈ al' <-> d ∈ al \/ via (rel db) db T ids d) -> Q (inr al') db) ->
  rg E (=) (=) (expand_scope rel T ids al) Q db.
Proof.
  intros Hn Hs. unfold expand_scope.
  eapply (rg_for_each _ _ _ _ _
    (fun ys acc s => s = db /\ forall d, d ∈ acc <-> d ∈ al \/ via (rel db) db T ys d) _ []).
  - split; [done|]. unfold via. set_solver.
  - intros ys x zs acc s _ [-> Hacc]. do 2 rg_step; [done|]. split; [done|]. intros d.
    rewrite elem_of_allow_all, Hacc, via_snoc. tauto.
  - intros b s [-> Hb]. by apply Hs.
Qed.

(** [ResolveScope] reads only, and resolves to exactly the devices in scope. *)
Lemma ResolveScope_rg {R : Type} (E : Env -> Prop) (Q : R + option (option (gset string)) -> DB -> Prop) T sc db :
  (may_fault E -> Q (inr None) db) ->
  (sc = None -> Q (inr (Some None)) db) ->
  (forall s al, sc = Some s -> (forall d, d ∈ al <-> in_scope db T s d) -> Q (inr (Some (Some al))) db) ->
  rg E (=) (=) (ResolveScope T sc) Q db.
Proof.
  intros Herr Hnone Hsome. unfold ResolveScope. rg_step.
  destruct sc as [sc|]; [|by apply Hnone]. rg_step.
  apply expand_scope_rg; [done|]. intros a1 H1. rg_step.
  apply expand_scope_rg; [done|]. intros a2 H2. rg_step.
  apply expand_scope_rg; [done|]. intros a3 H3. simpl. eapply Hsome; [done|].
  intros d. rewrite H3, H2, H1, elem_of_allow_all. unfold in_scope. set_solver.
Qed.

Lemma ResolveScope_guar {R : Type} (G : relation DB) `{!Reflexive G} T sc :
  guar G (ResolveScope T sc : prog DB R _).
Proof. unfold ResolveScope, expand_scope. guar_all. Qed.

Lemma check_ids_rg (E : Env -> Prop) (Q : option GoError + unit -> DB -> Prop) table lt T ids db :
  (may_fault E -> Q (inl (Some EDb)) db) ->
  (forall id, id ∈ ids -> lt db id <> Some T -> Q (inl (Some (ENotInTenant table id))) db) ->
  ((forall id, id ∈ ids -> lt db id = Some T) -> Q (inr tt) db) ->
  rg E (=) (=) (check_ids table lt T ids) Q db.
Proof.
  intros Herr Hbad Hok. unfold check_ids.
  eapply (rg_for_each _ _ _ _ _
    (fun ys _ s => s = db /\ forall id, id ∈ ys -> lt db id = Some T) _ []).
  - split; [done|]. set_solver.
  - intros ys x zs acc s Hys [-> Hacc]. do 2 rg_step; [done|]. case_match eqn:Eb; reflect_bools; simpl.
    + split; [done|]. set_solver.
    + apply Hbad; [|done]. simpl in Hys. rewrite Hys. set_solver.
  - intros [] s [-> Hb]. by apply Hok.
Qed.

Definition scope_in_tenant (db : DB) (T : string) (sc : APIScope) : Prop :=
  (forall id, id ∈ sc_group_ids sc -> group_tenant db id = Some T) /\
  (forall id, id ∈ sc_tag_ids sc -> tag_tenant db id = Some T) /\
  (forall id, id ∈ sc_site_ids sc -> site_tenant db id = Some T) /\
  (forall id, id ∈ sc_device_ids sc -> device_tenant db id = Some T).

Lemma ValidateScopeTenant_rg {R : Type} (E : Env -> Prop) (Q : R + option GoError -> DB -> Prop) T sc db :
  (may_fault E -> Q (inr (Some EDb)) db) ->
  (forall table id, Q (inr (Some (ENotInTenant table id))) db) ->
  ((forall s, sc = Some s -> scope_in_tenant db T s) -> Q (inr None) db) ->
  rg E (=) (=) (ValidateScopeTenant T sc) Q db.
Proof.
  intros Herr Hbad Hok. unfold ValidateScopeTenant. rg_step.
  destruct sc as [sc|]; [|by apply Hok].
  do 4 (rg_step; apply check_ids_rg; [done|intros; apply Hbad|intros ?]).
  apply Hok. intros s [= <-]. by unfold scope_in_tenant.
Qed.

Lemma ValidateScopeTenant_guar {R : Type} (G : relation DB) `{!Reflexive G} T sc :
  guar G (ValidateScopeTenant T sc : prog DB R _).
Proof. unfold ValidateScopeTenant, check_ids. guar_all. Qed.

#[export] Hint Resolve ResolveScope_guar ValidateScopeTenant_guar : moebius.

(** ** Properties *)

(** A scope narrowed with [ScopeIsSubset] never reaches a device its parent
    scope does not reach: delegation cannot widen access. *)
Theorem subset_never_widens db T outer inner d :
  ScopeIsSubset (Some outer) (Some inner) = true ->
  in_scope db T inner d -> in_scope db T outer d.
Proof.
  simpl. intros H. reflect_bools.
  repeat match goal with H : allInSet _ _ = true |- _ => apply allInSet_spec in H end.
  unfold in_scope, via. set_solver.
Qed.

(** [ScopeIsSubset] is a preorder on scopes with the nil scope on top: repeated
    delegation is still bounded by the first scope. *)
Theorem subset_preorder :
  (forall s, ScopeIsSubset s s = true) /\
  (forall a b c, ScopeIsSubset a b = true -> ScopeIsSubset b c = true -> ScopeIsSubset a c = true) /\
  (forall s, ScopeIsSubset None s = true) /\ (forall s, ScopeIsSubset (Some s) None = false).
Proof.
  split_and!; [..|done|done].
  - intros [s|]; [|done]. simpl. by rewrite !andb_true_iff, !allInSet_spec.
  - intros [a|] [b|] [c|]; try done. simpl.
    rewrite !andb_true_iff, !allInSet_spec. set_solver.
Qed.
