(* ===== verification/Quota.v ===== *)
(** * Per-tenant quotas

    [server/quota/quota.go]: the effective limits of a tenant, the checks that
    run before a device, a batch of jobs, an API key or a file is created, and
    [HandleQuotaError] of [server/api/respond.go]. *)

From S2P Require Import Prelude Prog Models JobState Database.

Record Defaults := {
  q_max_devices : Z;
  q_max_queued_jobs : Z;
  q_max_api_keys : Z;
  q_max_file_size_bytes : Z;
}.

(** A nil [*Resolver] is [None]. *)
Definition Resolver := option Defaults.

Definition ApplyOverride (def : Defaults) (o : TenantQuotas) : Defaults :=
  {| q_max_devices := if (tq_max_devices o =? 0)%Z then q_max_devices def else tq_max_devices o;
     q_max_queued_jobs := if (tq_max_queued_jobs o =? 0)%Z then q_max_queued_jobs def else tq_max_queued_jobs o;
     q_max_api_keys := if (tq_max_api_keys o =? 0)%Z then q_max_api_keys def else tq_max_api_keys o;
     q_max_file_size_bytes :=
       if (tq_max_file_size_bytes o =? 0)%Z then q_max_file_size_bytes def else tq_max_file_size_bytes o |}.

(** The limits of a tenant whose row is [t]: an unparsable configuration, or one
    without quotas, inherits the defaults. *)
Definition effective_of (d : Defaults) (t : Tenant) : Defaults :=
  match tn_config t with
  | Some j => match unmarshal j with Some c => from_option (ApplyOverride d) d (tc_quotas c) | None => d end
  | None => d
  end.

(** [None] is an error. *)
Definition Effective {R : Type} (r : Resolver) (tenantID : string) : prog DB R (option Defaults) :=
  match r with
  | None => mret (Some {| q_max_devices := -1; q_max_queued_jobs := -1; q_max_api_keys := -1;
                          q_max_file_size_bytes := -1 |})
  | Some d =>
      row ← query_row (fun db => tenants db !! tenantID);
      match row with
      | Row t => mret (Some (effective_of d t))
      | NoRows | DbErr => mret None
      end
  end.

(** [SELECT COUNT( * ) FROM devices WHERE tenant_id = $1] and its like. *)
Definition count_devices (db : DB) (tenantID : string) : Z :=
  Z.of_nat (count_where (fun _ d => dev_tenant d =s tenantID) (devices db)).
Definition is_queued (tenantID : string) (j : Job) : bool :=
  (job_tenant j =s tenantID) && ((job_status j =s "queued") || (job_status j =s "dispatched")).
Definition count_queued_jobs (db : DB) (tenantID : string) : Z :=
  Z.of_nat (count_where (fun _ j => is_queued tenantID j) (jobs db)).
Definition count_api_keys (db : DB) (tenantID : string) : Z :=
  Z.of_nat (count_where (fun _ k => key_tenant k =s tenantID) (api_keys db)).

(** The common shape of the counting checks: a negative limit disables the
    check, otherwise [count + incr > limit] is refused. *)
Definition check_count {R : Type} (limit_of : Defaults -> Z) (kind : QuotaKind) (count : DB -> Z)
    (incr attempted : Z) (r : Resolver) (tenantID : string) : prog DB R (option GoError) :=
  eff ← Effective r tenantID;
  match eff with
  | None => mret (Some EDb)
  | Some eff =>
      if (limit_of eff <? 0)%Z then mret None
      else
        c ← query count;
        match c with
        | None => mret (Some EDb)
        | Some c =>
            if (c + incr >? limit_of eff)%Z
            then mret (Some (EQuota {| ex_kind := kind; ex_limit := limit_of eff; ex_current := c;
                                       ex_attempted := attempted |}))
            else mret None
        end
  end.

Definition CheckDevices {R : Type} (r : Resolver) (tenantID : string) : prog DB R (option GoError) :=
  match r with
  | None => mret None
  | Some _ => check_count q_max_devices KindDevices (fun db => count_devices db tenantID) 1 0 r tenantID
  end.

Definition CheckQueuedJobs {R : Type} (r : Resolver) (tenantID : string) (incr : Z) : prog DB R (option GoError) :=
  if match r with None => true | Some _ => (incr <=? 0)%Z end then mret None
  else check_count q_max_queued_jobs KindQueuedJobs (fun db => count_queued_jobs db tenantID) incr incr r tenantID.

Definition CheckAPIKeys {R : Type} (r : Resolver) (tenantID : string) : prog DB R (option GoError) :=
  match r with
  | None => mret None
  | Some _ => check_count q_max_api_keys KindAPIKeys (fun db => count_api_keys db tenantID) 1 0 r tenantID
  end.

Definition CheckFileSize {R : Type} (r : Resolver) (tenantID : string) (sizeBytes : Z) : prog DB R (option GoError) :=
  match r with
  | None => mret None
  | Some _ =>
      eff ← Effective r tenantID;
      match eff with
      | None => mret (Some EDb)
      | Some eff =>
          if (q_max_file_size_bytes eff <? 0)%Z then mret None
          else if (sizeBytes >? q_max_file_size_bytes eff)%Z
          then mret (Some (EQuota {| ex_kind := KindFileSize; ex_limit := q_max_file_size_bytes eff;
                                     ex_current := 0; ex_attempted := sizeBytes |}))
          else mret None
      end
  end.

(** The handlers' use of a check: 409 for a quota violation, 500 otherwise. *)
Definition quota_guard {A : Type} (err : option GoError) (k : Handler A) : Handler A :=
  match err with
  | None => k
  | Some (EQuota e) => stop (ErrorWithCode 409 "quota_exceeded" (OfErr (EQuota e)))
  | Some _ => stop (Error 500 "failed to check quota")
  end.

(** ** Lemmas *)

(** The limit in force for a tenant, [None] when there is none. *)
Definition limit_in_force (limit_of : Defaults -> Z) (r : Resolver) (db : DB) (tenantID : string) : option Z :=
  d ← r; t ← tenants db !! tenantID;
  let l := limit_of (effective_of d t) in if (l <? 0)%Z then None else Some l.

Definition queued_limit : Resolver -> DB -> string -> option Z := limit_in_force q_max_queued_jobs.
Definition device_limit : Resolver -> DB -> string -> option Z := limit_in_force q_max_devices.

(** A passed check leaves room for the increment; a refusal states the truth. *)
Lemma check_count_rg {R : Type} (E : Env -> Prop) (Q : R + option GoError -> DB -> Prop)
    limit_of kind count incr attempted d T db :
  (may_fault E \/ tenants db !! T = None -> Q (inr (Some EDb)) db) ->
  (forall l, limit_in_force limit_of (Some d) db T = Some l -> (count db + incr > l)%Z ->
     Q (inr (Some (EQuota {| ex_kind := kind; ex_limit := l; ex_current := count db;
                             ex_attempted := attempted |}))) db) ->
  ((forall l, limit_in_force limit_of (Some d) db T = Some l -> (count db + incr <= l)%Z) -> Q (inr None) db) ->
  rg E (=) (=) (check_count limit_of kind count incr attempted (Some d) T) Q db.
Proof.
  intros Herr Hover Hok. unfold limit_in_force in *. simpl in Hover, Hok.
  unfold check_count, Effective. do 3 rg_step; [by intros; apply Herr; left|].
  destruct (tenants db !! T) as [t|] eqn:Et; simpl in Hover, Hok; [|by apply Herr; right].
  rg_step. destruct (limit_of (effective_of d t) <? 0)%Z eqn:El; [by apply Hok|].
  do 2 rg_step; [by intros; apply Herr; left|].
  rewrite Z.gtb_ltb. case_match eqn:Eb; reflect_bools; simpl.
  - apply Hover; [done|lia].
  - apply Hok. intros ? [= <-]. lia.
Qed.

Lemma CheckQueuedJobs_rg {R : Type} (E : Env -> Prop) (Q : R + option GoError -> DB -> Prop) r T incr db :
  (may_fault E \/ tenants db !! T = None -> Q (inr (Some EDb)) db) ->
  (forall l, queued_limit r db T = Some l -> (0 < incr)%Z -> (count_queued_jobs db T + incr > l)%Z ->
     Q (inr (Some (EQuota {| ex_kind := KindQueuedJobs; ex_limit := l;
                             ex_current := count_queued_jobs db T; ex_attempted := incr |}))) db) ->
  ((forall l, queued_limit r db T = Some l -> (0 < incr)%Z -> (count_queued_jobs db T + incr <= l)%Z) ->
     Q (inr None) db) ->
  rg E (=) (=) (CheckQueuedJobs r T incr) Q db.
Proof.
  intros Herr Hover Hok. unfold CheckQueuedJobs. destruct r as [d|]; [|by apply Hok].
  destruct (incr <=? 0)%Z eqn:Ei; reflect_bools; [apply Hok; lia|].
  apply check_count_rg; auto.
Qed.

Lemma CheckDevices_rg {R : Type} (E : Env -> Prop) (Q : R + option GoError -> DB -> Prop) r T db :
  (may_fault E \/ tenants db !! T = None -> Q (inr (Some EDb)) db) ->
  (forall l, device_limit r db T = Some l -> (count_devices db T + 1 > l)%Z ->
     Q (inr (Some (EQuota {| ex_kind := KindDevices; ex_limit := l;
                             ex_current := count_devices db T; ex_attempted := 0 |}))) db) ->
  ((forall l, device_limit r db T = Some l -> (count_devices db T + 1 <= l)%Z) -> Q (inr None) db) ->
  rg E (=) (=) (CheckDevices r T) Q db.
Proof.
  intros Herr Hover Hok. unfold CheckDevices. destruct r as [d|]; [|by apply Hok].
  apply check_count_rg; auto.
Qed.

Lemma quota_guards {R : Type} (G : relation DB) `{!Reflexive G} r T n :
  guar G (CheckDevices r T : prog DB R _) /\ guar G (CheckQueuedJobs r T n : prog DB R _)
  /\ guar G (CheckAPIKeys r T : prog DB R _) /\ guar G (CheckFileSize r T n : prog DB R _).
Proof.
  unfold CheckDevices, CheckQueuedJobs, CheckAPIKeys, CheckFileSize, check_count, Effective.
  split_and!; guar_all.
Qed.

Lemma CheckQueuedJobs_guar {R : Type} (G : relation DB) `{!Reflexive G} r T n :
  guar G (CheckQueuedJobs r T n : prog DB R _).
Proof. by apply quota_guards. Qed.

Lemma CheckDevices_guar {R : Type} (G : relation DB) `{!Reflexive G} r T :
  guar G (CheckDevices r T : prog DB R _).
Proof. by apply (quota_guards G r T 0). Qed.

#[export] Hint Resolve CheckQueuedJobs_guar CheckDevices_guar : moebius.

(** ** Properties *)

(** Overlaying a tenant's overrides: a zero field inherits, any other value
    (also -1, unlimited) replaces, field by field; overlaying twice the same
    overrides changes nothing more. *)
Theorem override_spec d o :
  q_max_queued_jobs (ApplyOverride d o) =
    (if decide (tq_max_queued_jobs o = 0%Z) then q_max_queued_jobs d else tq_max_queued_jobs o) /\
  ApplyOverride (ApplyOverride d o) o = ApplyOverride d o /\
  ApplyOverride d {| tq_max_devices := 0; tq_max_queued_jobs := 0; tq_max_api_keys := 0;
                     tq_max_file_size_bytes := 0 |} = d.
Proof.
  split_and!.
  - simpl. case_decide; destruct (Z.eqb_spec (tq_max_queued_jobs o) 0); congruence.
  - unfold ApplyOverride; simpl. f_equal; by case_match.
  - by destruct d.
Qed.
