(* ===== verification/JobSteps.v ===== *)
(** * How statements change the job table

    Every data-modifying statement of the server that touches [jobs] inserts a
    row or applies one [job_change] to the rows of its WHERE clause.  The file
    gives the row transformations, the status conditions the WHERE clauses
    ([sql_pre]) and the handlers' own checks ([guard_pre]) impose, and the
    relation [jobs_step] that all handlers are shown to stay within, with the
    invariants of that relation. *)

From stdpp Require Import relations.
From S2P Require Import Prelude Prog Models JobState Database.

(** ** Row transformations *)

Inductive job_change :=
| CDispatch (now : Z)            (* check-in: hand the job to the agent *)
| CRequeue                       (* dispatched but missed: back to the queue *)
| CHold                          (* check-in without a CDM session *)
| CRelease                       (* check-in with a CDM session *)
| CAck (now : Z)                 (* the agent acknowledged *)
| CFinish (st : string) (now : Z) (err : string) (started : option Z)   (* result submitted *)
| CTimeout (now : Z)             (* the reaper gave up on the agent *)
| CCancel (now : Z)              (* cancelled by a user *)
| CRevoke                        (* cancelled because its device was revoked *)
| CRollback (err : string) (now : Z).   (* the agent reports a failed update *)

Definition reaper_error : string :=
  "reaper: agent never reported completion within inflight timeout".

(** [COALESCE(a, b)]. *)
Definition coalesce {A} (a b : option A) : option A := match a with Some _ => a | None => b end.

Definition apply_change (c : job_change) (j : Job) : Job :=
  match c with
  | CDispatch now => set_job_dispatched_at (Some now) (set_job_status JobStatusDispatched j)
  | CRequeue => set_job_dispatched_at None (set_job_status JobStatusQueued j)
  | CHold => set_job_status JobStatusCDMHold j
  | CRelease => set_job_status JobStatusQueued j
  | CAck now => set_job_acknowledged_at (Some now) (set_job_status JobStatusAcknowledged j)
  | CFinish st now err started =>
      set_job_started_at (coalesce (job_started_at j) started)
        (set_job_last_error (Some err) (set_job_completed_at (Some now) (set_job_status st j)))
  | CTimeout now =>
      set_job_last_error (Some reaper_error)
        (set_job_completed_at (Some now) (set_job_status JobStatusTimedOut j))
  | CCancel now => set_job_completed_at (Some now) (set_job_status JobStatusCancelled j)
  | CRevoke => set_job_status JobStatusCancelled j
  | CRollback err now =>
      set_job_completed_at (Some now) (set_job_last_error (Some err) (set_job_status JobStatusFailed j))
  end.

(** What the statement's own WHERE clause requires of the old status. *)
Definition sql_pre (c : job_change) (st : string) : bool :=
  match c with
  | CRequeue => st =s JobStatusDispatched
  | CHold => st =s JobStatusQueued
  | CRelease => st =s JobStatusCDMHold
  | CTimeout _ => (st =s JobStatusAcknowledged) || (st =s JobStatusRunning)
  | CRevoke => (st =s JobStatusPending) || (st =s JobStatusQueued) || (st =s JobStatusDispatched)
  | CRollback _ _ => negb (st =s JobStatusFailed)
  | CFinish st' _ _ _ => (st' =s JobStatusCompleted) || (st' =s JobStatusFailed) || (st' =s JobStatusTimedOut)
  | CDispatch _ | CAck _ | CCancel _ => true
  end.

(** What WHERE clause and handler check together require, when the handler runs
    without interference. *)
Definition guard_pre (c : job_change) (st : string) : bool :=
  sql_pre c st &&
  match c with
  | CDispatch _ => st =s JobStatusQueued
  | CAck _ => st =s JobStatusDispatched
  | CFinish _ _ _ _ => (st =s JobStatusAcknowledged) || (st =s JobStatusRunning)
  | CCancel _ => IsCancellable st
  | _ => true
  end.

(** The same without the report of a failed agent update. *)
Definition normal_pre (c : job_change) (st : string) : bool :=
  guard_pre c st && match c with CRollback _ _ => false | _ => true end.

(** The kinds of changes, and the changes of some kinds. *)
Inductive change_kind :=
| KDispatch | KRequeue | KHold | KRelease | KAck | KFinish (st : string) | KTimeout | KCancel | KRevoke | KRollback.

#[export] Instance change_kind_eq_dec : EqDecision change_kind.
Proof. solve_decision. Defined.

Definition kind_of (c : job_change) : change_kind :=
  match c with
  | CDispatch _ => KDispatch | CRequeue => KRequeue | CHold => KHold | CRelease => KRelease | CAck _ => KAck
  | CFinish st _ _ _ => KFinish st | CTimeout _ => KTimeout | CCancel _ => KCancel | CRevoke => KRevoke | CRollback _ _ => KRollback
  end.

(** [guard_pre], for changes of the given kinds only. *)
Definition within (ks : list change_kind) (c : job_change) (st : string) : bool :=
  guard_pre c st && bool_decide (kind_of c ∈ ks).

(** A row as the INSERT statements of the handlers write it. *)
Definition new_job_ok (j : Job) : Prop :=
  job_status j = JobStatusQueued /\ job_dispatched_at j = None /\ job_acknowledged_at j = None
  /\ job_started_at j = None /\ job_completed_at j = None /\ job_last_error j = None.

Definition row_step (pre : job_change -> string -> bool) (o o' : option Job) : Prop :=
  match o, o' with
  | Some j, Some j' => j' = j \/ exists c, pre c (job_status j) = true /\ j' = apply_change c j
  | None, Some j' => new_job_ok j'
  | None, None => True
  | Some _, None => False
  end.

(** One statement: rows change by a job change, appear queued, never vanish. *)
Definition jobs_step (pre : job_change -> string -> bool) (db db' : DB) : Prop :=
  forall id, row_step pre (jobs db !! id) (jobs db' !! id).

(** Any statement, under any interleaving of handlers. *)
Definition any_step : relation DB := jobs_step sql_pre.
(** A statement of a handler that runs without interference, other than the
    report of a failed agent update. *)
Definition normal_step : relation DB := jobs_step normal_pre.

(** ** Lemmas *)

#[export] Instance jobs_step_refl pre : Reflexive (jobs_step pre).
Proof. intros db id. unfold row_step. destruct (jobs db !! id); auto. Qed.

#[export] Instance any_step_refl : Reflexive any_step.
Proof. apply jobs_step_refl. Qed.

#[export] Instance normal_step_refl : Reflexive normal_step.
Proof. apply jobs_step_refl. Qed.

Lemma jobs_step_same pre db db' : jobs db' = jobs db -> jobs_step pre db db'.
Proof. intros E id. rewrite E. apply (jobs_step_refl pre db id). Qed.

Lemma guard_sql c st : guard_pre c st = true -> sql_pre c st = true.
Proof. unfold guard_pre. rewrite andb_true_iff. tauto. Qed.

Lemma jobs_step_mono (p1 p2 : job_change -> string -> bool) db db' :
  (forall c st, p1 c st = true -> p2 c st = true) -> jobs_step p1 db db' -> jobs_step p2 db db'.
Proof.
  intros Hp H id. specialize (H id). unfold row_step in *. repeat case_match; try done.
  destruct H as [->|(c & Hc & ->)]; eauto 6.
Qed.

Lemma within_spec ks c st : within ks c st = true <-> guard_pre c st = true /\ kind_of c ∈ ks.
Proof. unfold within. by rewrite andb_true_iff, bool_decide_eq_true. Qed.

Lemma within_guard ks c st : within ks c st = true -> guard_pre c st = true.
Proof. by intros [? _]%within_spec. Qed.

Lemma within_mono ks ks' db db' : (forall k, k ∈ ks -> k ∈ ks') -> jobs_step (within ks) db db' -> jobs_step (within ks') db db'.
Proof. intros Hk. apply jobs_step_mono. intros c st. rewrite !within_spec. naive_solver. Qed.

Lemma within_any ks db db' : jobs_step (within ks) db db' -> any_step db db'.
Proof. apply jobs_step_mono. intros c st H. by apply guard_sql, (within_guard ks). Qed.

(** An UPDATE whose WHERE clause implies the status condition of its change. *)
Lemma update_jobs_step pre p c db :
  (forall id j, jobs db !! id = Some j -> p id j = true -> pre c (job_status j) = true) ->
  jobs_step pre db (update_jobs p (apply_change c) db).
Proof.
  intros Hp id. unfold update_jobs, row_step; simpl. rewrite lookup_update_where.
  destruct (jobs db !! id) as [j|] eqn:Hj; simpl; [|done].
  destruct (p id j) eqn:E; eauto 6.
Qed.

(** A single-row UPDATE, when the row's status allows the change. *)
Lemma update_one pre id c j db :
  jobs db !! id = Some j -> pre c (job_status j) = true ->
  jobs_step pre db (update_jobs (fun k _ => k =s id) (apply_change c) db).
Proof.
  intros Hj Hc. apply update_jobs_step. intros k j' Hj' Hk. reflect_bools. naive_solver.
Qed.

Lemma insert_job_step pre id j db db' :
  new_job_ok j -> insert_job id j db = Some db' -> jobs_step pre db db'.
Proof.
  intros Hj Hi. apply insert_job_Some in Hi as [Hn ->]. intros k. simpl.
  destruct (decide (k = id)) as [->|Hk].
  - rewrite Hn, lookup_insert_eq. done.
  - rewrite lookup_insert_ne by done. apply (jobs_step_refl pre db k).
Qed.

Lemma insert_audit_jobs a db db' : insert_audit a db = Some db' -> jobs db' = jobs db.
Proof. unfold insert_audit. case_match; [|done]. by intros [= <-]. Qed.

Lemma LogAction_guar {R : Type} pre T a at' ac rt ri m :
  guar (jobs_step pre) (LogAction T a at' ac rt ri m : prog DB R unit).
Proof. apply LogAction_any_guar; [apply _|]. intros. by apply jobs_step_same. Qed.

Lemma LogAction_guar_normal {R : Type} T a at' ac rt ri m :
  guar normal_step (LogAction T a at' ac rt ri m : prog DB R unit).
Proof. apply LogAction_guar. Qed.

Lemma LogAction_guar_any {R : Type} T a at' ac rt ri m :
  guar any_step (LogAction T a at' ac rt ri m : prog DB R unit).
Proof. apply LogAction_guar. Qed.

(** An audit write, whatever comes of it, leaves the jobs alone. *)
Lemma LogAction_rg {R : Type} (E : Env -> Prop) pre T a at' ac rt ri m (Q : R + unit -> DB -> Prop) db :
  (forall db', jobs db' = jobs db -> Q (inr tt) db') ->
  rg E (=) (jobs_step pre) (LogAction T a at' ac rt ri m) Q db.
Proof.
  intros HQ. apply LogAction_any_rg; [apply _|intros; by apply jobs_step_same|intros; by apply HQ].
Qed.

#[export] Hint Resolve LogAction_guar LogAction_guar_any LogAction_guar_normal : moebius.

(** ** Row invariants *)

(** The timestamps that the reapers' cutoffs read are present whenever the
    status needs them, and a finished job has the time at which it ended; a
    cancelled one need not, since revoking a device sets only the status. *)
Definition timestamps_ok (j : Job) : Prop :=
  (job_status j = JobStatusDispatched -> is_Some (job_dispatched_at j)) /\
  (job_status j = JobStatusAcknowledged -> is_Some (job_acknowledged_at j)) /\
  (IsTerminalStatus (job_status j) = true -> job_status j <> JobStatusCancelled -> is_Some (job_completed_at j)).

(** The statuses the server ever stores: never [pending], never [running]. *)
Definition stored_status (st : string) : bool :=
  str_in st [JobStatusQueued; JobStatusCDMHold; JobStatusDispatched; JobStatusAcknowledged;
             JobStatusCompleted; JobStatusFailed; JobStatusTimedOut; JobStatusCancelled].

Definition job_ok (j : Job) : Prop := timestamps_ok j /\ stored_status (job_status j) = true.

Definition jobs_ok (db : DB) : Prop := forall id j, jobs db !! id = Some j -> job_ok j.

(** The columns no statement ever assigns. *)
Definition same_identity (j j' : Job) : Prop :=
  job_tenant j' = job_tenant j /\ job_device j' = job_device j /\ job_parent j' = job_parent j
  /\ job_type j' = job_type j /\ job_payload j' = job_payload j
  /\ job_retry_policy j' = job_retry_policy j /\ job_retry_count j' = job_retry_count j
  /\ job_max_retries j' = job_max_retries j /\ job_created_by j' = job_created_by j
  /\ job_created_at j' = job_created_at j.

Definition jobs_grow (db db' : DB) : Prop :=
  forall id j, jobs db !! id = Some j -> exists j', jobs db' !! id = Some j' /\ same_identity j j'.

#[export] Instance jobs_grow_preorder : PreOrder jobs_grow.
Proof.
  split.
  - intros db id j Hj. exists j. split; [done|]. by repeat split.
  - intros a b c Hab Hbc id j Hj. destruct (Hab id j Hj) as (j1 & H1 & S1).
    destruct (Hbc id j1 H1) as (j2 & H2 & S2). exists j2. split; [done|].
    unfold same_identity in *. destruct_and!. split_and!; congruence.
Qed.

(** A job seen earlier: still there, with the same identity. *)
Definition present (id : string) (j : Job) (db : DB) : Prop :=
  exists j', jobs db !! id = Some j' /\ same_identity j j'.

Lemma same_identity_refl j : same_identity j j.
Proof. by repeat split. Qed.

Lemma same_identity_trans j1 j2 j3 : same_identity j1 j2 -> same_identity j2 j3 -> same_identity j1 j3.
Proof. unfold same_identity. intros. destruct_and!. split_and!; congruence. Qed.

Lemma present_read id j db : jobs db !! id = Some j -> present id j db.
Proof. intros Hj. exists j. auto using same_identity_refl. Qed.

Lemma present_stable id j a b : jobs_grow a b -> present id j a -> present id j b.
Proof.
  intros HG (j' & Hj' & Hid). destruct (HG id j' Hj') as (j2 & Hj2 & Hid2).
  exists j2. eauto using same_identity_trans.
Qed.

Lemma apply_change_identity c j : same_identity j (apply_change c j).
Proof. destruct c; by repeat split. Qed.

Lemma any_step_grow db db' : any_step db db' -> jobs_grow db db'.
Proof.
  intros H id j Hj. specialize (H id). rewrite Hj in H. simpl in H.
  destruct (jobs db' !! id) as [j'|]; [|done].
  destruct H as [->|(c & _ & ->)]; eauto using apply_change_identity.
  exists j. split; [done|]. by repeat split.
Qed.

(** Closes a goal with an absurd equation between two closed statuses. *)
Ltac absurd_status := intros; exfalso;
  match goal with H : _ = _ |- _ => vm_compute in H; discriminate H end.

Lemma apply_change_ok c j :
  sql_pre c (job_status j) = true -> job_ok j -> job_ok (apply_change c j).
Proof.
  intros Hp [(Hd & Ha & Hc) Hs]. unfold job_ok, timestamps_ok.
  destruct c; simpl in *; try (split; [|reflexivity]; split_and!; first [absurd_status | eauto; fail | by intros _ []]).
  rewrite !orb_true_iff in Hp. destruct Hp as [[Hp|Hp]|Hp]; apply seqb_eq in Hp as ->;
    (split; [|reflexivity]; split_and!; first [absurd_status | eauto; fail | by intros _ []]).
Qed.

Lemma new_job_ok_ok j : new_job_ok j -> job_ok j.
Proof.
  intros (Hs & _). unfold job_ok, timestamps_ok. rewrite Hs.
  split; [|reflexivity]. split_and!; absurd_status.
Qed.

Lemma any_step_ok db db' : any_step db db' -> jobs_ok db -> jobs_ok db'.
Proof.
  intros H Hok id j' Hj'. specialize (H id). rewrite Hj' in H. simpl in H.
  destruct (jobs db !! id) as [j|] eqn:Hj; simpl in H; [|by apply new_job_ok_ok].
  destruct H as [->|(c & Hc & ->)]; eauto using apply_change_ok.
Qed.
