(* ===== verification/JobsApi.v ===== *)
(** * Job endpoints for users

    [server/api/jobs.go]: target resolution and the handlers [Create], [Get],
    [List], [Cancel] and [Retry]. *)

From stdpp Require Import relations.
From S2P Require Import Prelude Prog Models JobState Database Scope Quota JobSteps.

(** ** Target resolution *)

(** One expansion loop of [resolveTargets] (groups, tags or sites). *)
Definition expand_targets (rel : DB -> gset (string * string)) (tenantID : string)
    (ids deviceIDs : list string) : prog DB (option (list string)) (list string) :=
  for_each ids deviceIDs (fun acc id =>
    r ← query (fun db => members (rel db) db tenantID id);
    match r with
    | None => stop None
    | Some rows => mret (add_all acc rows)
    end).

(** [None] is an error. *)
Definition resolveTargets {R : Type} (tenantID : string) (target : JobTarget) : prog DB R (option (list string)) :=
  call (d1 ← expand_targets device_groups tenantID (tgt_group_ids target) (add_all [] (tgt_device_ids target));
        d2 ← expand_targets device_tags tenantID (tgt_tag_ids target) d1;
        d3 ← expand_targets device_sites tenantID (tgt_site_ids target) d2;
        mret (Some d3)).

(** ** POST /v1/jobs *)

Record CreateRequest := {
  cq_type : string;
  cq_target : JobTarget;
  cq_payload : string;
  cq_retry_policy : option RetryPolicy;
}.

(** The row [INSERT INTO jobs] of [Create] writes. *)
Definition created_job (tenantID deviceID type payload : string) (retry : option RetryPolicy)
    (maxRetries : Z) (createdBy : string) (now : Z) : Job :=
  {| job_tenant := tenantID; job_device := deviceID; job_parent := None; job_type := type;
     job_status := JobStatusQueued; job_payload := payload; job_retry_policy := JValid <$> retry;
     job_retry_count := 0; job_max_retries := maxRetries; job_last_error := None;
     job_created_by := Some createdBy; job_created_at := now; job_dispatched_at := None;
     job_acknowledged_at := None; job_started_at := None; job_completed_at := None |}.

(** The scope enforcement block of [Create]. *)
Definition restrict_to_scope (ctx : Ctx) (deviceIDs : list string) : Handler (list string) :=
  if ctx_is_admin ctx then mret deviceIDs
  else match ctx_scope ctx with
       | None => mret deviceIDs
       | Some sc =>
           r ← ResolveScope (ctx_tenant ctx) (Some sc);
           match r with
           | None => stop (Error 500 "failed to resolve scope")
           | Some allowed =>
               let ids := FilterDeviceIDs allowed deviceIDs in
               if nonempty ids then mret ids
               else stop (ErrorWithCode 403 "scope_violation" (Lit "target devices are outside this key's scope"))
           end
       end.

(** The insertion loop of [Create]. *)
Definition insert_jobs (mk : string -> Job) (deviceIDs : list string) : Handler (list string) :=
  for_each deviceIDs [] (fun jobIDs deviceID =>
    jobID ← new_id "job";
    r ← exec (stmt_opt (insert_job jobID (mk deviceID)));
    match r with
    | None => stop (Error 500 "failed to create job")
    | Some _ => mret (jobIDs ++ [jobID])
    end).

Definition Create (audit : bool) (quota : Resolver) (ctx : Ctx) (body : option CreateRequest) : Handler unit :=
  match body with
  | None => stop (Error 400 "invalid request body")
  | Some req =>
      match ValidateType (cq_type req) with
      | Some e => stop (ErrorWithCode 400 "invalid_job_type" (OfErr e))
      | None =>
          if cq_payload req =s "" then stop (Error 400 "payload is required")
          else
            r ← resolveTargets (ctx_tenant ctx) (cq_target req);
            match r with
            | None => stop (Error 500 "failed to resolve targets")
            | Some deviceIDs =>
                if negb (nonempty deviceIDs)
                then stop (ErrorWithCode 400 "no_targets" (Lit "no devices matched the target specification"))
                else
                  deviceIDs ← restrict_to_scope ctx deviceIDs;
                  e ← CheckQueuedJobs quota (ctx_tenant ctx) (Z.of_nat (length deviceIDs));
                  quota_guard e (
                    let retryPolicy := match cq_retry_policy req with
                                       | Some rp => Some rp
                                       | None => DefaultRetryPolicy (cq_type req) end in
                    let maxRetries := match retryPolicy with Some rp => MaxRetries rp | None => 0%Z end in
                    now ← time_now;
                    jobIDs ← insert_jobs (fun deviceID =>
                               created_job (ctx_tenant ctx) deviceID (cq_type req) (cq_payload req)
                                 retryPolicy maxRetries (ctx_user ctx) now) deviceIDs;
                    _ ← (if audit then
                           LogAction (ctx_tenant ctx) (ctx_user ctx) ActorTypeUser "job.create" "job"
                             (default "" (head jobIDs))
                             [("type", cq_type req); ("device_count", pretty (length deviceIDs))]
                         else mret tt);
                    stop (JSON 201 (BJobsCreated jobIDs (length deviceIDs))))
            end
      end
  end.

(** ** Scope enforcement on one job: an error of [ResolveScope] skips it *)
Definition job_in_scope (ctx : Ctx) (deviceID : string) : Handler bool :=
  if ctx_is_admin ctx then mret true
  else
    r ← ResolveScope (ctx_tenant ctx) (ctx_scope ctx);
    match r with
    | None => mret true
    | Some allowed => mret (DeviceInScope allowed deviceID)
    end.

Definition find_job (jobID tenantID : string) (db : DB) : option Job :=
  match jobs db !! jobID with
  | Some j => if job_tenant j =s tenantID then Some j else None
  | None => None
  end.

(** ** GET /v1/jobs/{job_id}

    [scan_null] is what the driver's [Scan] gives for a NULL column read into a
    Go string: [None] when it refuses, as pgx documents, [Some s] otherwise. *)
Definition scan_string (scan_null : option string) (col : option string) : option string :=
  match col with Some s => Some s | None => scan_null end.

(** The row as it is shown: the scanned strings, and no retry policy when the
    column does not unmarshal. *)
Definition decoded_job (lastError createdBy : string) (j : Job) : Job :=
  {| job_tenant := job_tenant j; job_device := job_device j; job_parent := job_parent j;
     job_type := job_type j; job_status := job_status j; job_payload := job_payload j;
     job_retry_policy := match job_retry_policy j with
                         | Some (JValid rp) => Some (JValid rp)
                         | _ => None
                         end;
     job_retry_count := job_retry_count j; job_max_retries := job_max_retries j;
     job_last_error := Some lastError; job_created_by := Some createdBy;
     job_created_at := job_created_at j; job_dispatched_at := job_dispatched_at j;
     job_acknowledged_at := job_acknowledged_at j; job_started_at := job_started_at j;
     job_completed_at := job_completed_at j |}.

Definition GetJob (scan_null : option string) (ctx : Ctx) (jobID : string) : Handler unit :=
  row ← query_row (find_job jobID (ctx_tenant ctx));
  match row with
  | NoRows => stop (Error 404 "job not found")
  | DbErr => stop (Error 500 "failed to get job")
  | Row j =>
      match scan_string scan_null (job_last_error j), scan_string scan_null (job_created_by j) with
      | Some lastError, Some createdBy =>
          ok ← job_in_scope ctx (job_device j);
          if negb ok then stop (Error 404 "job not found")
          else
            res ← (if IsTerminalStatus (job_status j) then
                     r ← query_row (fun db =>
                           snd <$> head (select_where (fun _ jr => jr_job jr =s jobID) (job_results db)));
                     mret (match r with Row x => Some x | _ => None end)
                   else mret None);
            stop (JSON 200 (BJob jobID (decoded_job lastError createdBy j) res))
      | _, _ => stop (Error 500 "failed to get job")
      end
  end.

(** ** GET /v1/jobs *)

Record ListQuery := { lq_status : string; lq_type : string; lq_device : string }.

(** [AND col = $n], present only when the filter is not empty. *)
Definition opt_filter (f col : string) : bool := (f =s "") || (col =s f).

Definition newest_first (a b : JobBrief) : Prop := (jb_created_at b <= jb_created_at a)%Z.
#[export] Instance newest_first_dec : RelDecision newest_first.
Proof. intros a b. unfold newest_first. apply _. Defined.

Definition list_jobs (tenantID : string) (scope : option (gset string)) (q : ListQuery) (db : DB) : list JobBrief :=
  take 100 (merge_sort newest_first (map brief (select_where (fun _ j =>
    (job_tenant j =s tenantID) && DeviceInScope scope (job_device j)
    && opt_filter (lq_status q) (job_status j) && opt_filter (lq_type q) (job_type j)
    && opt_filter (lq_device q) (job_device j)) (jobs db)))).

Definition ListJobs (ctx : Ctx) (q : ListQuery) : Handler unit :=
  scope ← (if ctx_is_admin ctx then mret None
           else match ctx_scope ctx with
                | None => mret None
                | Some sc =>
                    r ← ResolveScope (ctx_tenant ctx) (Some sc);
                    match r with
                    | None => stop (Error 500 "failed to resolve scope")
                    | Some None => mret None
                    | Some (Some al) =>
                        if decide (al = ∅) then stop (JSON 200 (BJobList [])) else mret (Some al)
                    end
                end);
  rows ← query (list_jobs (ctx_tenant ctx) scope q);
  match rows with
  | None => stop (Error 500 "failed to list jobs")
  | Some l => stop (JSON 200 (BJobList l))
  end.

(** ** POST /v1/jobs/{job_id}/cancel *)
Definition Cancel (audit : bool) (ctx : Ctx) (jobID : string) : Handler unit :=
  now ← time_now;
  row ← query_row (find_job jobID (ctx_tenant ctx));
  match row with
  | NoRows => stop (Error 404 "job not found")
  | DbErr => stop (Error 500 "failed to get job")
  | Row j =>
      ok ← job_in_scope ctx (job_device j);
      if negb ok then
        stop (ErrorWithCode 403 "scope_violation" (Lit "job target device is outside this key's scope"))
      else if negb (IsCancellable (job_status j)) then
        stop (ErrorWithCode 409 "not_cancellable"
                (Lit (String.append "job in state " (String.append (job_status j) " cannot be cancelled"))))
      else
        r ← exec (stmt (update_jobs (fun id _ => id =s jobID) (apply_change (CCancel now))));
        match r with
        | None => stop (Error 500 "failed to cancel job")
        | Some _ =>
            _ ← (if audit then LogAction (ctx_tenant ctx) (ctx_user ctx) ActorTypeUser "job.cancel" "job" jobID []
                 else mret tt);
            stop NoContent
        end
  end.

(** ** POST /v1/jobs/{job_id}/retry *)

(** The row a retry inserts, by a user ([Retry]) or automatically. *)
Definition retry_job (tenantID deviceID parentID type payload : string)
    (retryPolicy : option (Json RetryPolicy)) (retryCount maxRetries : Z)
    (createdBy : option string) (now : Z) : Job :=
  {| job_tenant := tenantID; job_device := deviceID; job_parent := Some parentID;
     job_type := type; job_status := JobStatusQueued; job_payload := payload;
     job_retry_policy := retryPolicy; job_retry_count := retryCount;
     job_max_retries := maxRetries; job_last_error := None;
     job_created_by := createdBy; job_created_at := now; job_dispatched_at := None;
     job_acknowledged_at := None; job_started_at := None; job_completed_at := None |}.

Definition Retry (audit : bool) (quota : Resolver) (ctx : Ctx) (jobID : string) : Handler unit :=
  now ← time_now;
  row ← query_row (find_job jobID (ctx_tenant ctx));
  match row with
  | NoRows => stop (Error 404 "job not found")
  | DbErr => stop (Error 500 "failed to get job")
  | Row j =>
      ok ← job_in_scope ctx (job_device j);
      if negb ok then
        stop (ErrorWithCode 403 "scope_violation" (Lit "job target device is outside this key's scope"))
      else if negb (IsRetryable (job_status j)) then
        stop (ErrorWithCode 409 "not_retryable"
                (Lit (String.append "job in state " (String.append (job_status j) " cannot be retried"))))
      else
        e ← CheckQueuedJobs quota (ctx_tenant ctx) 1;
        quota_guard e (
          retryJobID ← new_id "job";
          r ← exec (stmt_opt (insert_job retryJobID
                 (retry_job (ctx_tenant ctx) (job_device j) jobID (job_type j) (job_payload j)
                    (job_retry_policy j) (wrap64 (job_retry_count j + 1)) (job_max_retries j)
                    (job_created_by j) now)));
          match r with
          | None => stop (Error 500 "failed to create retry job")
          | Some _ =>
              _ ← (if audit then LogAction (ctx_tenant ctx) (ctx_user ctx) ActorTypeUser "job.retry" "job" retryJobID
                                   [("parent_job_id", jobID)]
                   else mret tt);
              stop (JSON 201 (BJobID retryJobID))
          end)
  end.

(** ** Specification of target resolution *)

Definition targeted (db : DB) (T : string) (tg : JobTarget) (d : string) : Prop :=
  d ∈ tgt_device_ids tg \/ via (device_groups db) db T (tgt_group_ids tg) d
  \/ via (device_tags db) db T (tgt_tag_ids tg) d \/ via (device_sites db) db T (tgt_site_ids tg) d.

(** ** Lemmas *)

Lemma expand_targets_rg (E : Env -> Prop) (Q : option (list string) + list string -> DB -> Prop) rel T ids l db :
  NoDup l -> (may_fault E -> Q (inl None) db) ->
  (forall l', NoDup l' -> (forall d, d ∈ l' <-> d ∈ l \/ via (rel db) db T ids d) -> Q (inr l') db) ->
  rg E (=) (=) (expand_targets rel T ids l) Q db.
Proof.
  intros Hl Hn Hs. unfold expand_targets.
  eapply (rg_for_each _ _ _ _ _
    (fun ys acc s => s = db /\ NoDup acc /\ forall d, d ∈ acc <-> d ∈ l \/ via (rel db) db T ys d) _ []).
  - split_and!; [done..|]. unfold via. set_solver.
  - intros ys x zs acc s _ (-> & Hnd & Hacc). do 2 rg_step; [done|].
    split_and!; [done|by apply add_all_NoDup|]. intros d.
    rewrite add_all_elem, Hacc, via_snoc. tauto.
  - intros b s (-> & ? & Hb). by apply Hs.
Qed.

Lemma resolveTargets_rg {R : Type} (E : Env -> Prop) (Q : R + option (list string) -> DB -> Prop) T tg db :
  (may_fault E -> Q (inr None) db) ->
  (forall l, NoDup l -> (forall d, d ∈ l <-> targeted db T tg d) -> Q (inr (Some l)) db) ->
  rg E (=) (=) (resolveTargets T tg) Q db.
Proof.
  intros Herr Hsome. unfold resolveTargets. do 2 rg_step.
  apply expand_targets_rg; [by apply add_all_NoDup, NoDup_nil_2|done|]. intros d1 N1 H1. rg_step.
  apply expand_targets_rg; [done..|]. intros d2 N2 H2. rg_step.
  apply expand_targets_rg; [done..|]. intros d3 N3 H3. rg_step. apply Hsome; [done|].
  intros d. rewrite H3, H2, H1, add_all_elem. unfold targeted. set_solver.
Qed.

Lemma resolveTargets_guar {R : Type} (G : relation DB) `{!Reflexive G} T tg :
  guar G (resolveTargets T tg : prog DB R _).
Proof. unfold resolveTargets, expand_targets. guar_all. Qed.

Lemma job_in_scope_guar (G : relation DB) `{!Reflexive G} ctx d : guar G (job_in_scope ctx d).
Proof. unfold job_in_scope. guar_all. Qed.

#[export] Hint Resolve resolveTargets_guar job_in_scope_guar : moebius.

Lemma insert_jobs_guar pre mk ids :
  (forall d, new_job_ok (mk d)) -> guar (jobs_step pre) (insert_jobs mk ids).
Proof.
  intros Hmk. unfold insert_jobs. guar_all. intros H. apply stmt_opt_Some in H.
  eapply insert_job_step; eauto.
Qed.

Lemma quota_guard_guar {A : Type} (G : relation DB) e (k : Handler A) :
  guar G k -> guar G (quota_guard e k).
Proof. intros. destruct e as [[]|]; done. Qed.

(** *** The handlers' statements *)

Lemma Create_guar pre audit quota ctx body : guar (jobs_step pre) (Create audit quota ctx body).
Proof.
  unfold Create, restrict_to_scope. guar_all; try (apply quota_guard_guar); guar_all.
  apply insert_jobs_guar. by repeat split.
Qed.

Lemma GetJob_guar (G : relation DB) `{!Reflexive G} sn ctx id : guar G (GetJob sn ctx id).
Proof. unfold GetJob. guar_all. Qed.

Lemma ListJobs_guar (G : relation DB) `{!Reflexive G} ctx q : guar G (ListJobs ctx q).
Proof. unfold ListJobs. guar_all. Qed.

Lemma Cancel_guar audit ctx id : guar any_step (Cancel audit ctx id).
Proof.
  unfold Cancel. guar_all. intros ->%stmt_Some. by apply update_jobs_step.
Qed.

Lemma Retry_guar pre audit quota ctx id : guar (jobs_step pre) (Retry audit quota ctx id).
Proof.
  unfold Retry. guar_all; try (apply quota_guard_guar); guar_all.
  intros H%stmt_opt_Some. eapply insert_job_step; eauto. by repeat split.
Qed.
