(* ===== verification/Requests.v ===== *)
(** * Requests of the agent to the server

    A request is one of the server's handlers run on the server's part of the
    state; the network may lose the request, or the answer after the handler
    has run. *)

From stdpp Require Import relations.
From S2P Require Import Prelude Prog Models JobState Database Scope Quota JobSteps JobsApi.

Section Requests.
Context {S R : Type} (get : S -> DB) (put : DB -> S -> S).

(** The answer of a handler; one that ends without an explicit answer sends 200. *)
Definition answer (r : Response + unit) : Response :=
  match r with inl resp => resp | inr _ => ROk 200 BEmpty end.

(** A request served on the server's database. *)
Definition remote (h : Handler unit) : prog S R Response :=
  r ← zoom get put (caught h);
  mret (answer r).

Definition delivered : prog S R bool := PStep (fun e s => (s, negb (e_fault e))) PRet.

(** [client.Do]: [None] when the request or the answer is lost. *)
Definition do_request (h : Handler unit) : prog S R (option Response) :=
  sent ← delivered;
  if negb sent then mret None
  else
    r ← remote h;
    got ← delivered;
    mret (if got : bool then Some r else None).

Context (put_get : forall s, put (get s) s = s) (get_put : forall t s, get (put t s) = t).
Context (put_put : forall t t' s, put t (put t' s) = put t s).

Lemma run_remote h env n s :
  run (remote h) env n s =
  (put (run h env n (get s)).1.1 s, (run h env n (get s)).1.2, inr (answer (run h env n (get s)).2)).
Proof. unfold remote. by rewrite run_bind, run_zoom, run_caught. Qed.

Lemma run_request h env n s :
  exists s' n' o, run (do_request h) env n s = (s', n', inr o) /\
  ((s' = s /\ o = None /\ e_fault (env n) = true) \/
   exists env', s' = put (run_store h env' (get s)) s /\
     (o = None \/ o = Some (answer (run_result h env' (get s))))).
Proof.
  unfold do_request. rewrite run_bind. cbn [run delivered fst snd].
  destruct (e_fault (env n)) eqn:Ef; cbn [negb]; [by eexists _, _, _; eauto|].
  rewrite run_bind, run_remote, run_bind. cbn [run delivered fst snd mret prog_ret].
  destruct (run_shift h env (Datatypes.S n) (get s)) as [-> ->]. eexists _, _, _. split; [done|]. right.
  exists (fun k => env (Datatypes.S n + k)). split; [done|]. clear Ef. destruct (e_fault _); simpl; auto.
Qed.

(** The same as a triple: what holds however the handler runs holds of the request. *)
Lemma rg_request E (h : Handler unit) (Q : R + option Response -> S -> Prop) s :
  (may_fault E -> Q (inr None) s) ->
  rg E (=) (fun _ _ => True) h (fun r db => (may_fault E -> Q (inr None) (put db s)) /\ Q (inr (Some (answer r))) (put db s)) (get s) ->
  rg E (=) (fun _ _ => True) (do_request h) Q s.
Proof.
  intros Hlost Hh. unfold do_request. rg_step. intros s1 e He <-. split; [done|]. cbn [fst snd rg].
  destruct (e_fault e) eqn:Ef; cbn [negb]; [apply Hlost; by exists e|].
  rg_step. unfold remote. rg_step. apply rg_zoom; [done..|].
  assert (forall A F (p : prog DB F A) (Q' : F + A -> DB -> Prop) db, rg E (=) (fun _ _ => True) p Q' db ->
    rg E (=) (fun _ _ => True) (caught p : prog DB R (F + A)) (fun r db => match r with inr o => Q' o db | inl _ => False end) db) as Hc.
  { intros A F p Q'. induction p as [a|r|X f k IH]; intros db; simpl; [done..|].
    intros Hp db1 e1 He1 <-. split; [done|]. apply IH. by apply (Hp db e1 He1 eq_refl). }
  eapply rg_mono; [|apply Hc, Hh]. intros [?|r] db; [done|]. intros [Hn Hs]. rg_step. rg_step.
  intros s2 e2 He2 <-. split; [done|]. cbn [fst snd rg]. destruct (e_fault e2) eqn:Ef2; cbn [negb]; [apply Hn; by exists e2|done].
Qed.

End Requests.
