(* ===== verification/AgentJobs.v ===== *)
(** * Job endpoints for agents

    [server/api/agent_jobs.go]: acknowledging a dispatched job, submitting its
    result, storing a full inventory, and the automatic retry. *)

From stdpp Require Import relations.
From S2P Require Import Prelude Prog Models JobState Database Scope Quota JobSteps JobsApi.

Definition find_agent_job (jobID agentID tenantID : string) (db : DB) : option Job :=
  match jobs db !! jobID with
  | Some j => if (job_device j =s agentID) && (job_tenant j =s tenantID) then Some j else None
  | None => None
  end.

(** ** POST /v1/agents/jobs/{job_id}/acknowledge *)
Definition Acknowledge (audit : bool) (ctx : Ctx) (jobID : string) : Handler unit :=
  now ← time_now;
  row ← query_row (find_agent_job jobID (ctx_agent ctx) (ctx_tenant ctx));
  match row with
  | NoRows => stop (Error 404 "job not found")
  | DbErr => stop (Error 500 "failed to get job")
  | Row j =>
      match ValidateTransition (job_status j) JobStatusAcknowledged with
      | Some e => stop (ErrorWithCode 409 "invalid_transition" (OfErr e))
      | None =>
          r ← exec (stmt (update_jobs (fun id _ => id =s jobID) (apply_change (CAck now))));
          match r with
          | None => stop (Error 500 "failed to acknowledge job")
          | Some _ =>
              _ ← (if audit then LogAction (ctx_tenant ctx) (ctx_agent ctx) ActorTypeAgent
                                   "job.acknowledge" "job" jobID []
                   else mret tt);
              stop NoContent
          end
      end
  end.

(** ** POST /v1/agents/jobs/{job_id}/result *)

Record FullInventoryHW := { fi_cpu : string; fi_ram_mb : Z; fi_disks : string; fi_nics : string }.
Record FullInventory := { fi_hardware : option FullInventoryHW; fi_packages : list PackageRef }.

(** [json.Marshal] of a [json.RawMessage]. *)
Definition marshal_raw (raw : string) : string := if raw =s "" then "null" else raw.

Definition int4_opt_ok (z : option Z) : bool := match z with Some z => int4_ok z | None => true end.

(** [INSERT INTO job_results]. *)
Definition insert_result (id : string) (r : JobResult) (db : DB) : option DB :=
  if fk (jobs db) (jr_job r) && int4_opt_ok (jr_exit_code r)
  then t ← insert_new id r (job_results db); Some (set_job_results t db)
  else None.

(** [INSERT INTO inventory_hardware]. *)
Definition insert_hardware (id : string) (h : Hardware) (db : DB) : option DB :=
  if fk (devices db) (hw_device h)
  then t ← insert_new id h (inventory_hardware db); Some (set_inventory_hardware t db)
  else None.

(** [INSERT INTO inventory_packages]; only the primary key is unique. *)
Definition insert_package (id : string) (p : Package) (db : DB) : option DB :=
  if fk (devices db) (pkg_device p)
  then t ← insert_new id p (inventory_packages db); Some (set_inventory_packages t db)
  else None.

Definition package_row (deviceID : string) (p : PackageRef) (now : Z) : Package :=
  {| pkg_device := deviceID; pkg_name := pr_name p; pkg_version := pr_version p;
     pkg_manager := pr_manager p; pkg_installed_at := None; pkg_last_seen_at := now |}.

(** [None] is an error; [decode] is [json.Unmarshal] of the agent's output. *)
Definition processFullInventory {R : Type} (decode : string -> option FullInventory)
    (deviceID resultData : string) : prog DB R (option unit) :=
  call (match decode resultData with
  | None => stop None
  | Some inv =>
      now ← time_now;
      _ ← match fi_hardware inv with
          | None => mret tt
          | Some hw =>
              _ ← exec (stmt (fun db => set_inventory_hardware
                     (delete_where (fun _ h => hw_device h =s deviceID) (inventory_hardware db)) db));
              hwID ← new_id "ihw";
              r ← exec (stmt_opt (insert_hardware hwID
                     {| hw_device := deviceID; hw_collected_at := now; hw_cpu := marshal_raw (fi_cpu hw);
                        hw_ram_mb := fi_ram_mb hw; hw_disks := marshal_raw (fi_disks hw);
                        hw_network_interfaces := marshal_raw (fi_nics hw) |}));
              match r with None => stop None | Some _ => mret tt end
          end;
      _ ← (if nonempty (fi_packages inv) then
             _ ← exec (stmt (fun db => set_inventory_packages
                    (delete_where (fun _ p => pkg_device p =s deviceID) (inventory_packages db)) db));
             for_each (fi_packages inv) tt (fun _ p =>
               pkgID ← new_id "ipk";
               r ← exec (stmt_opt (insert_package pkgID (package_row deviceID p now)));
               match r with None => stop None | Some _ => mret tt end)
           else mret tt);
      mret (Some tt)
  end).

Definition createRetryJob {R : Type} (parentJobID tenantID deviceID jobType : string)
    (retryCount maxRetries : Z) : prog DB R unit :=
  now ← time_now;
  row ← query_row (fun db => jobs db !! parentJobID);
  match row with
  | NoRows | DbErr => mret tt
  | Row j =>
      retryJobID ← new_id "job";
      _ ← exec (stmt_opt (insert_job retryJobID
             (retry_job tenantID deviceID parentJobID jobType (job_payload j) (job_retry_policy j)
                retryCount maxRetries (job_created_by j) now)));
      mret tt
  end.

(** The switch on the submitted status. *)
Definition target_status (st : string) : option string :=
  if st =s "completed" then Some JobStatusCompleted
  else if st =s "failed" then Some JobStatusFailed
  else if st =s "timed_out" then Some JobStatusTimedOut
  else None.

Definition SubmitResult (decode : string -> option FullInventory) (audit : bool) (ctx : Ctx)
    (jobID : string) (body : option JobResultSubmission) : Handler unit :=
  now ← time_now;
  match body with
  | None => stop (Error 400 "invalid request body")
  | Some req =>
      match target_status (sub_status req) with
      | None => stop (Error 400 "invalid status: must be completed, failed, or timed_out")
      | Some targetStatus =>
          row ← query_row (find_agent_job jobID (ctx_agent ctx) (ctx_tenant ctx));
          match row with
          | NoRows => stop (Error 404 "job not found")
          | DbErr => stop (Error 500 "failed to get job")
          | Row j =>
              let currentStatus := if job_status j =s JobStatusAcknowledged then JobStatusRunning
                                   else job_status j in
              match ValidateTransition currentStatus targetStatus with
              | Some e => stop (ErrorWithCode 409 "invalid_transition" (OfErr e))
              | None =>
                  resultID ← new_id "jrs";
                  r ← exec (stmt_opt (insert_result resultID
                        {| jr_job := jobID; jr_exit_code := sub_exit_code req; jr_stdout := sub_stdout req;
                           jr_stderr := sub_stderr req; jr_started_at := sub_started_at req;
                           jr_completed_at := sub_completed_at req |}));
                  match r with
                  | None => stop (Error 500 "failed to store result")
                  | Some _ =>
                      r ← exec (stmt (update_jobs (fun id _ => id =s jobID)
                             (apply_change (CFinish targetStatus now (sub_message req) (sub_started_at req)))));
                      match r with
                      | None => stop (Error 500 "failed to update job")
                      | Some _ =>
                          _ ← (if (job_type j =s JobTypeInventoryFull) && (targetStatus =s JobStatusCompleted)
                               then _ ← processFullInventory decode (ctx_agent ctx) (sub_stdout req); mret tt
                               else mret tt);
                          _ ← (if audit then LogAction (ctx_tenant ctx) (ctx_agent ctx) ActorTypeAgent
                                               "job.result" "job" jobID [("status", targetStatus)]
                               else mret tt);
                          _ ← (if ShouldRetry targetStatus (job_retry_count j) (job_max_retries j)
                               then createRetryJob jobID (ctx_tenant ctx) (ctx_agent ctx) (job_type j)
                                      (wrap64 (job_retry_count j + 1)) (job_max_retries j)
                               else mret tt);
                          stop NoContent
                      end
                  end
              end
          end
      end
  end.

(** ** Lemmas *)

Lemma insert_result_jobs id r db db' : insert_result id r db = Some db' -> jobs db' = jobs db.
Proof. unfold insert_result. case_match; [|done]. by intros (t & _ & [= <-])%bind_Some. Qed.

Lemma insert_hardware_jobs id h db db' : insert_hardware id h db = Some db' -> jobs db' = jobs db.
Proof. unfold insert_hardware. case_match; [|done]. by intros (t & _ & [= <-])%bind_Some. Qed.

Lemma insert_package_jobs id p db db' : insert_package id p db = Some db' -> jobs db' = jobs db.
Proof. unfold insert_package. case_match; [|done]. by intros (t & _ & [= <-])%bind_Some. Qed.

#[export] Hint Resolve insert_result_jobs insert_hardware_jobs insert_package_jobs jobs_step_same : moebius.

Lemma processFullInventory_guar {R : Type} pre decode d data :
  guar (jobs_step pre) (processFullInventory decode d data : prog DB R _).
Proof.
  unfold processFullInventory. guar_all;
    (intros H; first [apply stmt_Some in H as -> | apply stmt_opt_Some in H]; eauto with moebius).
Qed.

Lemma createRetryJob_guar {R : Type} pre p t d ty rc mr :
  guar (jobs_step pre) (createRetryJob p t d ty rc mr : prog DB R _).
Proof.
  unfold createRetryJob. guar_all. intros H%stmt_opt_Some.
  eapply insert_job_step; eauto. by repeat split.
Qed.

#[export] Hint Resolve processFullInventory_guar createRetryJob_guar : moebius.

Lemma Acknowledge_guar audit ctx id : guar any_step (Acknowledge audit ctx id).
Proof. unfold Acknowledge. guar_all. intros ->%stmt_Some. by apply update_jobs_step. Qed.

Lemma target_status_ok st st' : target_status st = Some st' ->
  st' = JobStatusCompleted \/ st' = JobStatusFailed \/ st' = JobStatusTimedOut.
Proof. unfold target_status. repeat case_match; naive_solver. Qed.

Lemma finish_pre st st' st0 now err sa : target_status st = Some st' ->
  sql_pre (CFinish st' now err sa) st0 = true.
Proof. intros [->|[->| ->]]%target_status_ok; reflexivity. Qed.

Lemma SubmitResult_guar decode audit ctx id body : guar any_step (SubmitResult decode audit ctx id body).
Proof.
  unfold SubmitResult. guar_step; [guar_all|]. destruct body as [req|]; [|done].
  destruct (target_status (sub_status req)) as [st|] eqn:Hst; [|done].
  guar_all; try (apply processFullInventory_guar || apply createRetryJob_guar || apply LogAction_guar).
  - intros H%stmt_opt_Some. apply jobs_step_same. eauto with moebius.
  - intros ->%stmt_Some. apply update_jobs_step. eauto using finish_pre.
Qed.
