(* ===== verification/Checkin.v ===== *)
(** * Agent check-in

    [server/api/checkin.go]: the device record update, the report of a failed
    agent update, the inventory delta, the requeue of missed jobs, the CDM hold
    and release, and the dispatch of queued jobs. *)

From stdpp Require Import relations.
From S2P Require Import Prelude Prog Models JobState Database Scope Quota JobSteps JobsApi AgentJobs.

(** ** Statements *)

Definition checkin_device (now : Z) (req : CheckinRequest) (d : Device) : Device :=
  {| dev_tenant := dev_tenant d; dev_hostname := dev_hostname d; dev_os := dev_os d;
     dev_os_version := dev_os_version d; dev_arch := dev_arch d;
     dev_agent_version := as_agent_version (cr_status req); dev_status := DeviceStatusOnline;
     dev_last_seen_at := Some now; dev_registered_at := dev_registered_at d;
     dev_cdm_enabled := as_cdm_enabled (cr_status req);
     dev_cdm_session_active := as_cdm_session_active (cr_status req);
     dev_cdm_session_expires_at := as_cdm_session_expires_at (cr_status req);
     dev_sequence_last := cr_sequence req |}.

(** [status = $2 AND dispatched_at < $3]; a NULL timestamp is never smaller. *)
Definition before (t : option Z) (cutoff : Z) : bool :=
  match t with Some t => (t <? cutoff)%Z | None => false end.

Definition of_agent (agentID tenantID : string) (j : Job) : bool :=
  (job_device j =s agentID) && (job_tenant j =s tenantID).

Definition second : Z := 1000000000.

Definition sql_requeue_missed (agentID tenantID : string) (now : Z) : DB -> DB :=
  update_jobs (fun _ j => of_agent agentID tenantID j && (job_status j =s JobStatusDispatched)
                          && before (job_dispatched_at j) (now - 60 * second)) (apply_change CRequeue).

Definition sql_hold (agentID tenantID : string) : DB -> DB :=
  update_jobs (fun _ j => of_agent agentID tenantID j && (job_status j =s JobStatusQueued)) (apply_change CHold).

Definition sql_release (agentID tenantID : string) : DB -> DB :=
  update_jobs (fun _ j => of_agent agentID tenantID j && (job_status j =s JobStatusCDMHold)) (apply_change CRelease).

Definition sql_dispatch (jobID : string) (now : Z) : DB -> DB :=
  update_jobs (fun id _ => id =s jobID) (apply_change (CDispatch now)).

Definition sql_rollback (jobID tenantID err : string) (now : Z) : DB -> DB :=
  update_jobs (fun id j => (id =s jobID) && (job_tenant j =s tenantID)
                           && negb (job_status j =s JobStatusFailed)) (apply_change (CRollback err now)).

(** ** Dispatchable jobs *)

Definition oldest_first (a b : JobBrief) : Prop := (jb_created_at a <= jb_created_at b)%Z.
#[export] Instance oldest_first_dec : RelDecision oldest_first.
Proof. intros a b. unfold oldest_first. apply _. Defined.

Definition queued_jobs (agentID tenantID : string) (db : DB) : list JobBrief :=
  take 10 (merge_sort oldest_first (map brief
    (select_where (fun _ j => of_agent agentID tenantID j && (job_status j =s JobStatusQueued)) (jobs db)))).

(** [None] is an error. *)
Definition fetchDispatchableJobs {R : Type} (agentID tenantID : string)
    (cdmEnabled cdmSessionActive : bool) : prog DB R (option (list JobBrief)) :=
  if cdmEnabled && negb cdmSessionActive then
    r ← exec (stmt (sql_hold agentID tenantID));
    mret (match r with None => None | Some _ => Some [] end)
  else
    _ ← (if cdmEnabled && cdmSessionActive
         then _ ← exec (stmt (sql_release agentID tenantID)); mret tt
         else mret tt);
    query (queued_jobs agentID tenantID).

(** ** Inventory delta *)

Definition same_package (deviceID name manager : string) (p : Package) : bool :=
  (pkg_device p =s deviceID) && (pkg_name p =s name) && (pkg_manager p =s manager).

Definition set_version (version : string) (now : Z) (p : Package) : Package :=
  {| pkg_device := pkg_device p; pkg_name := pkg_name p; pkg_version := version;
     pkg_manager := pkg_manager p; pkg_installed_at := pkg_installed_at p; pkg_last_seen_at := now |}.

(** [INSERT ... ON CONFLICT DO NOTHING]: a taken id inserts nothing. *)
Definition insert_package_nothing (id : string) (p : Package) (db : DB) : option DB :=
  if fk (devices db) (pkg_device p)
  then Some (match inventory_packages db !! id with
             | Some _ => db
             | None => set_inventory_packages (<[id := p]> (inventory_packages db)) db
             end)
  else None.

Definition sql_update_package (deviceID : string) (p : PackageRef) (now : Z) (db : DB) : DB :=
  set_inventory_packages (update_where (fun _ q => same_package deviceID (pr_name p) (pr_manager p) q)
    (set_version (pr_version p) now) (inventory_packages db)) db.

Definition sql_delete_package (deviceID : string) (p : PackageRef) (db : DB) : DB :=
  set_inventory_packages (delete_where (fun _ q => same_package deviceID (pr_name p) (pr_manager p) q)
    (inventory_packages db)) db.

(** [None] is an error. *)
Definition processPackageDelta {R : Type} (deviceID : string) (delta : PackageDelta) : prog DB R (option unit) :=
  call (now ← time_now;
        _ ← for_each (pd_added delta) tt (fun _ p =>
              pkgID ← new_id "ipk";
              r ← exec (stmt_opt (insert_package_nothing pkgID (package_row deviceID p now)));
              match r with None => stop None | Some _ => mret tt end);
        _ ← for_each (pd_updated delta) tt (fun _ p =>
              r ← exec (stmt (sql_update_package deviceID p now));
              match r with None => stop None | Some _ => mret tt end);
        _ ← for_each (pd_removed delta) tt (fun _ p =>
              r ← exec (stmt (sql_delete_package deviceID p));
              match r with None => stop None | Some _ => mret tt end);
        mret (Some tt)).

(** ** POST /v1/agents/checkin *)

(** The block that handles a failed-update report. *)
Definition report_rollback {R : Type} (agentID tenantID : string) (st : AgentStatus) (now : Z) : prog DB R unit :=
  if as_last_update_failed st && negb (as_last_update_job_id st =s "") then
    r ← exec (stmt (sql_rollback (as_last_update_job_id st) tenantID (as_last_update_error st) now));
    match r with
    | None => mret tt
    | Some _ => LogAction tenantID agentID "agent" "agent_update.rollback" "job" (as_last_update_job_id st)
                  [("error", as_last_update_error st)]
    end
  else mret tt.

(** The loop that marks the fetched jobs as dispatched; a failed update is
    skipped. *)
Definition dispatch_jobs {R : Type} (now : Z) (js : list JobBrief) : prog DB R (list JobDispatch) :=
  for_each js [] (fun acc j =>
    r ← exec (stmt (sql_dispatch (jb_id j) now));
    match r with
    | None => mret acc
    | Some _ => mret (acc ++ [{| jd_job_id := jb_id j; jd_type := jb_type j; jd_payload := jb_payload j;
                                 jd_created_at := jb_created_at j |}])
    end).

Definition Checkin (ctx : Ctx) (body : option CheckinRequest) : Handler unit :=
  if (ctx_agent ctx =s "") || (ctx_tenant ctx =s "") then stop (Error 401 "agent identity not found")
  else match body with
  | None => stop (Error 400 "invalid request body")
  | Some req =>
      now ← time_now;
      r ← exec (stmt (fun db => set_devices
            (update_where (fun id d => (id =s ctx_agent ctx) && (dev_tenant d =s ctx_tenant ctx))
               (checkin_device now req) (devices db)) db));
      match r with
      | None => stop (Error 500 "failed to update device")
      | Some _ =>
          _ ← report_rollback (ctx_agent ctx) (ctx_tenant ctx) (cr_status req) now;
          _ ← match cr_delta req with
              | Some delta => _ ← processPackageDelta (ctx_agent ctx) delta; mret tt
              | None => mret tt
              end;
          _ ← exec (stmt (sql_requeue_missed (ctx_agent ctx) (ctx_tenant ctx) now));
          js ← fetchDispatchableJobs (ctx_agent ctx) (ctx_tenant ctx)
                 (as_cdm_enabled (cr_status req)) (as_cdm_session_active (cr_status req));
          match js with
          | None => stop (Error 500 "failed to fetch jobs")
          | Some js =>
              dispatched ← dispatch_jobs now js;
              stop (JSON 200 (BCheckin now dispatched))
          end
      end
  end.

(** ** Lemmas *)

Lemma insert_package_nothing_jobs id p db db' :
  insert_package_nothing id p db = Some db' -> jobs db' = jobs db.
Proof. unfold insert_package_nothing. case_match; [|done]. intros [= <-]. by case_match. Qed.

#[export] Hint Resolve insert_package_nothing_jobs : moebius.

Lemma processPackageDelta_guar {R : Type} pre d delta :
  guar (jobs_step pre) (processPackageDelta d delta : prog DB R _).
Proof.
  unfold processPackageDelta. guar_all;
    (intros H; first [apply stmt_Some in H as -> | apply stmt_opt_Some in H]; eauto with moebius).
Qed.

Ltac jobs_update :=
  let Hk := fresh in intros Hk; apply update_jobs_step; intros; apply within_spec; (split; [|exact Hk]);
  unfold guard_pre, sql_pre in *; reflect_bools; subst;
  rewrite ?andb_true_r; try rewrite negb_true_iff; by (apply seqb_eq || apply seqb_neq).

Lemma sql_requeue_step ks a t now db : KRequeue ∈ ks -> jobs_step (within ks) db (sql_requeue_missed a t now db).
Proof. jobs_update. Qed.
Lemma sql_hold_step ks a t db : KHold ∈ ks -> jobs_step (within ks) db (sql_hold a t db).
Proof. jobs_update. Qed.
Lemma sql_release_step ks a t db : KRelease ∈ ks -> jobs_step (within ks) db (sql_release a t db).
Proof. jobs_update. Qed.
Lemma sql_rollback_step ks id t err now db : KRollback ∈ ks -> jobs_step (within ks) db (sql_rollback id t err now db).
Proof. jobs_update. Qed.

(** The kinds of changes a check-in makes, by what the agent reports: with CDM on and
    no session the queue is held, with a session what was held is released. *)
Definition checkin_kinds (rep en act : bool) : list change_kind :=
  (if rep then [KRollback] else []) ++ [KRequeue] ++
  (if en && negb act then [KHold] else [KDispatch] ++ if en && act then [KRelease] else []).

Lemma sql_any_requeue a t now db : any_step db (sql_requeue_missed a t now db).
Proof. apply (within_any [KRequeue]), sql_requeue_step. set_solver. Qed.
Lemma sql_any_hold a t db : any_step db (sql_hold a t db).
Proof. apply (within_any [KHold]), sql_hold_step. set_solver. Qed.
Lemma sql_any_release a t db : any_step db (sql_release a t db).
Proof. apply (within_any [KRelease]), sql_release_step. set_solver. Qed.
Lemma sql_any_rollback id t err now db : any_step db (sql_rollback id t err now db).
Proof. apply (within_any [KRollback]), sql_rollback_step. set_solver. Qed.

#[export] Hint Resolve processPackageDelta_guar : moebius.
#[export] Hint Resolve sql_any_requeue sql_any_hold sql_any_release sql_any_rollback : moebius.

Lemma Checkin_guar ctx body : guar any_step (Checkin ctx body).
Proof.
  unfold Checkin, report_rollback, fetchDispatchableJobs, dispatch_jobs.
  guar_all; try (apply processPackageDelta_guar || apply LogAction_guar);
    intros ->%stmt_Some; solve [by apply jobs_step_same | eauto with moebius | by apply update_jobs_step].
Qed.

(** *** The queue *)

Definition to_dispatch (j : JobBrief) : JobDispatch :=
  {| jd_job_id := jb_id j; jd_type := jb_type j; jd_payload := jb_payload j; jd_created_at := jb_created_at j |}.

#[export] Instance oldest_first_total : Total oldest_first.
Proof. intros a b. unfold oldest_first. lia. Qed.
#[export] Instance oldest_first_trans : Transitive oldest_first.
Proof. intros a b c. unfold oldest_first. lia. Qed.

(** All candidates in dispatch order, before the limit. *)
Definition candidates (a t : string) (db : DB) : list JobBrief :=
  merge_sort oldest_first (map brief
    (select_where (fun _ j => of_agent a t j && (job_status j =s JobStatusQueued)) (jobs db))).

Lemma candidates_elem a t db b :
  b ∈ candidates a t db <->
  exists id j, jobs db !! id = Some j /\ job_device j = a /\ job_tenant j = t
               /\ job_status j = JobStatusQueued /\ b = brief (id, j).
Proof.
  unfold candidates. rewrite merge_sort_Permutation, list_elem_of_In, in_map_iff. split.
  - intros ([id j] & <- & Hin). apply list_elem_of_In, elem_of_select_where in Hin as [Hj Hp].
    unfold of_agent in Hp. reflect_bools. naive_solver.
  - intros (id & j & Hj & Hd & Ht & Hs & ->). exists (id, j). split; [done|].
    apply list_elem_of_In, elem_of_select_where. split; [done|].
    unfold of_agent. by rewrite Hd, Ht, Hs, !seqb_refl.
Qed.

Lemma candidates_NoDup a t db : NoDup (map jb_id (candidates a t db)).
Proof.
  unfold candidates. rewrite merge_sort_Permutation, map_map. simpl.
  unfold select_where. generalize (NoDup_fst_map_to_list (jobs db)).
  induction (map_to_list (jobs db)) as [|[k j] l IH]; simpl; [constructor|].
  intros [Hk Hl]%NoDup_cons. rewrite filter_cons. case_decide; simpl; [|auto].
  constructor; [|auto]. intros Hin. apply Hk. apply list_elem_of_In, in_map_iff in Hin as ([k' j'] & <- & Hin).
  apply list_elem_of_In, list_elem_of_filter in Hin as [_ Hin]. apply list_elem_of_fmap. eauto.
Qed.

Lemma queued_jobs_elem a t db b : b ∈ queued_jobs a t db -> b ∈ candidates a t db.
Proof. unfold queued_jobs. intros H. eapply subseteq_take; exact H. Qed.

Lemma queued_jobs_NoDup a t db : NoDup (map jb_id (queued_jobs a t db)).
Proof.
  unfold queued_jobs. rewrite <-(firstn_map jb_id). eapply sublist_NoDup; [apply (candidates_NoDup a t db)|].
  apply sublist_take.
Qed.

Definition dispatched_in (now : Z) (ids : list string) (db s : DB) : Prop :=
  forall id, jobs s !! id = if decide (id ∈ ids) then apply_change (CDispatch now) <$> jobs db !! id
                            else jobs db !! id.

(** The dispatch loop marks exactly the jobs it reports, each from [queued]. *)
Lemma dispatch_jobs_rg {R : Type} (E : Env -> Prop) now js db (Q : R + list JobDispatch -> DB -> Prop) :
  NoDup (map jb_id js) ->
  (forall b, b ∈ js -> exists j, jobs db !! jb_id b = Some j /\ job_status j = JobStatusQueued) ->
  (forall ds s, ds `sublist_of` map to_dispatch js -> (~ may_fault E -> ds = map to_dispatch js) ->
     dispatched_in now (map jd_job_id ds) db s -> Q (inr ds) s) ->
  rg E (=) (jobs_step (within [KDispatch])) (dispatch_jobs now js) Q db.
Proof.
  intros Hnd Hq HQ. unfold dispatch_jobs.
  eapply (rg_for_each _ _ _ _ _ (fun ys ds s => ds `sublist_of` map to_dispatch ys /\
     (~ may_fault E -> ds = map to_dispatch ys) /\ dispatched_in now (map jd_job_id ds) db s) _ []).
  - split_and!; [done..|]. intros id. destruct (decide _) as [Hin|]; [by apply elem_of_nil in Hin|done].
  - intros ys x zs ds s Hys (Hsub & Hall & Hd). simpl in Hys. subst js.
    assert (jb_id x ∉ map jd_job_id ds) as Hx.
    { intros Hin. rewrite map_app in Hnd. apply NoDup_app in Hnd as (_ & Hdis & _).
      apply (Hdis (jb_id x)); [|set_solver].
      apply (elem_of_sublist _ _ _ Hin).
      replace (map jb_id ys) with (map jd_job_id (map to_dispatch ys)) by by rewrite map_map.
      by apply (fmap_sublist jd_job_id). }
    destruct (Hq x) as (j & Hj & Hst); [set_solver|].
    assert (jobs s !! jb_id x = Some j) as Hsx by by rewrite (Hd (jb_id x)), decide_False.
    do 2 rg_step.
    + intros Hf. rg_step. split_and!; [|done|done].
      rewrite map_app. by apply sublist_inserts_r.
    + split; [eapply update_one; [done|]; apply within_spec; unfold guard_pre; rewrite Hst; (split; [done|set_solver])|].
      rg_step. rewrite !map_app. simpl. split_and!.
      * by apply sublist_app.
      * intros Hf. by rewrite (Hall Hf).
      * intros id. unfold sql_dispatch, update_jobs. simpl.
        rewrite lookup_update_where, (Hd id).
        destruct (seqb id (jb_id x)) eqn:Eid; reflect_bools.
        -- subst id. rewrite decide_False by done. rewrite decide_True by set_solver.
           by destruct (jobs db !! jb_id x).
        -- destruct (decide (id ∈ map jd_job_id ds)) as [Hi|Hi].
           ++ rewrite decide_True by (apply elem_of_app; auto). by destruct (jobs db !! id).
           ++ rewrite decide_False by (rewrite elem_of_app, list_elem_of_singleton; tauto).
              by destruct (jobs db !! id).
  - intros ds s (? & ? & ?). by apply HQ.
Qed.

(** *** The handler, block by block *)

(** A report of a failed update: the block writes only then. *)
Definition reported (st : AgentStatus) : bool :=
  as_last_update_failed st && negb (as_last_update_job_id st =s "").

Section Blocks.
Context (rep en act : bool).
Notation kinds := (checkin_kinds rep en act).

(** A fact about the jobs that the statements of a block keep is kept by it. *)
Lemma report_rollback_rg {R : Type} (E : Env -> Prop) (P : DB -> Prop) a t st now (Q : R + unit -> DB -> Prop) db :
  (forall s s', jobs s' = jobs s -> P s -> P s') ->
  reported st = rep ->
  (forall s, reported st = true -> P s ->
     P (sql_rollback (as_last_update_job_id st) t (as_last_update_error st) now s)) ->
  P db -> (forall s, P s -> Q (inr tt) s) ->
  rg E (=) (jobs_step (within kinds)) (report_rollback a t st now) Q db.
Proof.
  intros Hj <- Hr HP HQ. unfold report_rollback. fold (reported st).
  destruct (reported st) eqn:Ef; [|by apply HQ].
  do 2 rg_step; [intros _; by apply HQ|]. simpl.
  split; [apply sql_rollback_step; set_solver|].
  apply LogAction_rg. intros s Hs. apply HQ. eapply Hj; [done|]. by apply Hr.
Qed.

Lemma processPackageDelta_rg {R : Type} (E : Env -> Prop) (P : DB -> Prop) d delta (Q : R + option unit -> DB -> Prop) db :
  (forall s s', jobs s' = jobs s -> P s -> P s') ->
  P db -> (forall r s, P s -> Q (inr r) s) ->
  rg E (=) (jobs_step (within kinds)) (processPackageDelta d delta) Q db.
Proof.
  intros Hj HP HQ. unfold processPackageDelta. apply rg_call.
  apply (rg_weaken_G _ _ (fun x y => jobs y = jobs x)); [intros; by apply jobs_step_same|].
  eapply rg_mono; [|eapply (guar_rg_stable _ _ _ P); [by intros ? ? ->|eauto| |done]].
  - intros [b|b] s Hs; auto.
  - assert (Reflexive (fun x y : DB => jobs y = jobs x)) by done.
    guar_all; (intros Hst; first [apply stmt_Some in Hst as -> | apply stmt_opt_Some in Hst]; eauto with moebius).
Qed.

(** The fetch: held back entirely without a session, the queue otherwise. *)
Lemma fetch_rg {R : Type} (E : Env -> Prop) (P : DB -> Prop) a t (Q : R + option (list JobBrief) -> DB -> Prop) db :
  (forall s, P s -> P (sql_release a t s)) ->
  P db ->
  (forall s, P s -> may_fault E -> Q (inr None) s) ->
  (en && negb act = true -> Q (inr (Some [])) (sql_hold a t db)) ->
  (en && negb act = false -> forall s, P s -> Q (inr (Some (queued_jobs a t s))) s) ->
  rg E (=) (jobs_step (within kinds)) (fetchDispatchableJobs a t en act) Q db.
Proof.
  intros Hrel HP Herr Hhold Hok. unfold fetchDispatchableJobs.
  unfold checkin_kinds. destruct (en && negb act) eqn:Eh.
  - do 2 rg_step; [intros; rg_step; auto|]. unfold stmt; cbv beta iota.
    split; [apply sql_hold_step; set_solver|]. rg_step. auto.
  - rg_step. destruct (en && act).
    + do 2 rg_step.
      * intros _. rg_step. rg_step; [intros; by apply Herr|by apply Hok].
      * unfold stmt; cbv beta iota. split; [apply sql_release_step; set_solver|]. rg_step. rg_step; [intros|]; auto.
    + rg_step. rg_step; [intros; by apply Herr|by apply Hok].
Qed.

(** The fetch and the dispatch loop. *)
Lemma fetch_dispatch_rg (E : Env -> Prop) (P : DB -> Prop) a t now (Q : Response + unit -> DB -> Prop) db :
  (forall s, P s -> P (sql_release a t s)) ->
  P db ->
  (forall r s, may_fault E -> resp_status r = 500%Z -> Q (inl r) s) ->
  (en && negb act = true -> forall s, P s -> Q (inl (JSON 200 (BCheckin now []))) (sql_hold a t s)) ->
  (en && negb act = false -> forall s ds s', P s ->
     ds `sublist_of` map to_dispatch (queued_jobs a t s) ->
     (~ may_fault E -> ds = map to_dispatch (queued_jobs a t s)) ->
     dispatched_in now (map jd_job_id ds) s s' -> Q (inl (JSON 200 (BCheckin now ds))) s') ->
  rg E (=) (jobs_step (within kinds))
    (js ← fetchDispatchableJobs a t en act;
     match js with
     | None => stop (Error 500 "failed to fetch jobs")
     | Some js => dispatched ← dispatch_jobs now js; stop (JSON 200 (BCheckin now dispatched))
     end) Q db.
Proof.
  intros Hrel HP Herr Hhold Hok. rg_step. apply (fetch_rg E P); [done..| | |].
  - intros s _ Hf. rg_step. by apply Herr.
  - intros He. by apply Hhold.
  - intros He s HPs. rg_step.
    apply (rg_weaken_G _ _ (jobs_step (within [KDispatch]))).
    { intros x y. apply within_mono. unfold checkin_kinds. rewrite He. set_solver. }
    apply dispatch_jobs_rg.
    + apply queued_jobs_NoDup.
    + intros b (id & j & Hj & _ & _ & Hs & ->)%queued_jobs_elem%candidates_elem. eauto.
    + intros ds s' ???. rg_step. by eapply Hok.
Qed.

End Blocks.

(** The kinds of changes of the check-in with a given report. *)
Definition status_kinds (st : AgentStatus) : list change_kind :=
  checkin_kinds (reported st) (as_cdm_enabled st) (as_cdm_session_active st).

(** The whole handler for an identified agent: what the response can be, and
    how it relates to the store when the queue was read. *)
Lemma Checkin_rg (E : Env -> Prop) (P : DB -> Prop) ctx req a t st (Q : Response + unit -> DB -> Prop) db :
  ctx_agent ctx = a -> ctx_tenant ctx = t -> cr_status req = st ->
  a <> "" -> t <> "" ->
  (forall s s', jobs s' = jobs s -> P s -> P s') ->
  (forall s now, reported st = true -> P s ->
     P (sql_rollback (as_last_update_job_id st) t (as_last_update_error st) now s)) ->
  (forall s now, P s -> P (sql_requeue_missed a t now s)) ->
  (forall s, P s -> P (sql_release a t s)) ->
  P db ->
  (forall r s, may_fault E -> resp_status r = 500%Z -> Q (inl r) s) ->
  (as_cdm_enabled st && negb (as_cdm_session_active st) = true -> forall s now,
     P s -> Q (inl (JSON 200 (BCheckin now []))) (sql_hold a t s)) ->
  (as_cdm_enabled st && negb (as_cdm_session_active st) = false -> forall s now ds s', P s ->
     ds `sublist_of` map to_dispatch (queued_jobs a t s) ->
     (~ may_fault E -> ds = map to_dispatch (queued_jobs a t s)) ->
     dispatched_in now (map jd_job_id ds) s s' -> Q (inl (JSON 200 (BCheckin now ds))) s') ->
  rg E (=) (jobs_step (within (status_kinds st))) (Checkin ctx (Some req)) Q db.
Proof.
  intros Ea Et Est Ha Ht Hjobs Hroll Hreq Hrel HP Herr Hhold Hok. unfold Checkin.
  rewrite Ea, Et, Est. apply seqb_neq in Ha as ->. apply seqb_neq in Ht as ->. cbv beta iota delta [orb].
  do 4 rg_step; [intros; by apply Herr|]. unfold stmt at 1. cbv beta iota.
  split; [by apply jobs_step_same|]. rg_step.
  apply (report_rollback_rg _ _ _ E P); [done|done|auto|by apply (Hjobs db)|]. intros s1 HP1. rg_step.
  eapply (rg_mono _ _ _ _ (fun r s' => match r with inl _ => False | inr _ => P s' end)).
  2:{ destruct (cr_delta req); [|done]. rg_step.
      apply (processPackageDelta_rg _ _ _ E P); [done..|]. intros r s' HPs'. by rg_step. }
  intros [r|u] s2; [done|]. intros HP2. do 2 rg_step.
  - intros _. eapply (fetch_dispatch_rg _ _ _ E P); eauto.
  - unfold stmt at 1. cbv beta iota. split; [apply sql_requeue_step; unfold status_kinds, checkin_kinds; set_solver|].
    eapply (fetch_dispatch_rg _ _ _ E P); eauto.
Qed.

(** ** Properties *)

Lemma hold_no_queued a t db id j :
  jobs (sql_hold a t db) !! id = Some j -> job_device j = a -> job_tenant j = t ->
  job_status j <> JobStatusQueued.
Proof.
  intros Hj Hd Ht Hs. unfold sql_hold, update_jobs in Hj. simpl in Hj.
  rewrite lookup_update_where in Hj. destruct (jobs db !! id) as [j0|]; [|done]. simpl in Hj.
  destruct (of_agent a t j0 && _) eqn:Eo; injection Hj as <-; [by vm_compute in Hs|].
  unfold of_agent in Eo. by rewrite Hs, Hd, Ht, !seqb_refl in Eo.
Qed.

(** What a successful check-in hands out. *)
Lemma dispatch_run env ctx req db now ds :
  run_result (Checkin ctx (Some req)) env db = inl (JSON 200 (BCheckin now ds)) ->
  let db' := run_store (Checkin ctx (Some req)) env db in
  length ds <= 10 /\ NoDup (map jd_job_id ds) /\
  (forall d, d ∈ ds -> exists j, jobs db' !! jd_job_id d = Some j
     /\ job_device j = ctx_agent ctx /\ job_tenant j = ctx_tenant ctx
     /\ job_status j = JobStatusDispatched /\ job_dispatched_at j = Some now
     /\ job_type j = jd_type d /\ job_payload j = jd_payload d) /\
  (as_cdm_enabled (cr_status req) && negb (as_cdm_session_active (cr_status req)) = true ->
     ds = [] /\ forall id j, jobs db' !! id = Some j -> job_device j = ctx_agent ctx ->
       job_tenant j = ctx_tenant ctx -> job_status j <> JobStatusQueued).
Proof.
  intros Hres db'. revert Hres. unfold db', run_result, run_store.
  destruct ((ctx_agent ctx =s "") || (ctx_tenant ctx =s "")) eqn:Eid.
  { unfold Checkin. rewrite Eid. done. }
  apply orb_false_iff in Eid as [Ha Ht]. apply seqb_neq in Ha, Ht.
  by_rg any_env (jobs_step (within (status_kinds (cr_status req)))); [done|].
  eapply (Checkin_rg any_env (fun _ => True)); [done..| | |].
  - intros r s _ Hr [= ->]. done.
  - intros He s now' _ [= <- <-]. split_and!; [simpl; lia|constructor|set_solver|].
    intros _. split; [done|]. apply hold_no_queued.
  - intros He s now' ds' s' _ Hsub _ Hd [= <- <-].
    assert (forall d, d ∈ ds' -> exists b, b ∈ queued_jobs (ctx_agent ctx) (ctx_tenant ctx) s /\ d = to_dispatch b) as Hin.
    { intros d Hd'. eapply elem_of_sublist in Hsub; [|done]. apply list_elem_of_fmap in Hsub. naive_solver. }
    split_and!; [| | |by rewrite He].
    + apply sublist_length in Hsub. rewrite length_map in Hsub. unfold queued_jobs in Hsub.
      rewrite length_take in Hsub. lia.
    + eapply (sublist_NoDup _ (map jb_id (queued_jobs (ctx_agent ctx) (ctx_tenant ctx) s))).
      * apply queued_jobs_NoDup.
      * apply (fmap_sublist jd_job_id) in Hsub. unfold fmap in Hsub. simpl in Hsub.
        by rewrite map_map in Hsub.
    + intros d Hd'. destruct (Hin d Hd') as (b & (id & j & Hj & Hdev & Hten & Hst & ->)%queued_jobs_elem%candidates_elem & ->).
      exists (apply_change (CDispatch now') j). rewrite (Hd _), decide_True.
      * simpl. by rewrite Hj.
      * apply list_elem_of_fmap. eauto.
Qed.

(** C16: A check-in hands out at most ten jobs, without repetition; each is a job of
    this agent in this tenant, with the type and payload stored, and is stored
    as dispatched at the response's time.  While CDM is on without a session it
    hands out nothing and leaves no job of the agent queued. *)
Theorem checkin_dispatch env ctx req db now ds :
  run_result (Checkin ctx (Some req)) env db = inl (JSON 200 (BCheckin now ds)) ->
  let db' := run_store (Checkin ctx (Some req)) env db in
  length ds <= 10 /\ NoDup (map jd_job_id ds) /\
  (forall d, d ∈ ds -> exists j, jobs db' !! jd_job_id d = Some j
     /\ job_device j = ctx_agent ctx /\ job_tenant j = ctx_tenant ctx
     /\ job_status j = JobStatusDispatched /\ job_dispatched_at j = Some now
     /\ job_type j = jd_type d /\ job_payload j = jd_payload d) /\
  (as_cdm_enabled (cr_status req) && negb (as_cdm_session_active (cr_status req)) = true ->
     ds = [] /\ forall id j, jobs db' !! id = Some j -> job_device j = ctx_agent ctx ->
       job_tenant j = ctx_tenant ctx -> job_status j <> JobStatusQueued).
Proof. apply dispatch_run. Qed.

Lemma update_jobs_other p c db id j :
  jobs db !! id = Some j -> p id j = false -> jobs (update_jobs p (apply_change c) db) !! id = Some j.
Proof. intros Hj Hp. simpl. rewrite lookup_update_where, Hj. simpl. by rewrite Hp. Qed.

(** A check-in in which nothing fails. *)
Lemma fifo_run env ctx req db id j :
  (forall n, ok_env (env n)) -> ctx_agent ctx <> "" -> ctx_tenant ctx <> "" ->
  as_cdm_enabled (cr_status req) && negb (as_cdm_session_active (cr_status req)) = false ->
  as_last_update_failed (cr_status req) = false ->
  jobs db !! id = Some j -> job_device j = ctx_agent ctx -> job_tenant j = ctx_tenant ctx ->
  job_status j = JobStatusQueued ->
  exists now ds, run_result (Checkin ctx (Some req)) env db = inl (JSON 200 (BCheckin now ds)) /\
    (id ∈ map jd_job_id ds \/
     length ds = 10 /\ forall d, d ∈ ds -> (jd_created_at d <= job_created_at j)%Z).
Proof.
  intros Henv Ha Ht Hcdm Hup Hj Hd Hten Hst. by_rg ok_env (jobs_step (within (status_kinds (cr_status req)))); [done|].
  assert (reported (cr_status req) = false) as Hr by (unfold reported; by rewrite Hup).
  apply (Checkin_rg ok_env (fun s => jobs s !! id = Some j) ctx req _ _ _ _ db
           eq_refl eq_refl eq_refl Ha Ht); rewrite ?Hr, ?Hcdm; try discriminate; [by intros s s' ->|..|done| |].
  - intros s now Hs. apply update_jobs_other; [done|]. by rewrite Hst, andb_false_r.
  - intros s Hs. apply update_jobs_other; [done|]. by rewrite Hst, andb_false_r.
  - intros r s Hf. by destruct (ok_env_no_fault Hf).
  - intros _ s now ds s' Hs _ Hall _. rewrite (Hall ok_env_no_fault). eexists _, _. split; [done|].
    assert (brief (id, j) ∈ candidates (ctx_agent ctx) (ctx_tenant ctx) s) as Hc.
    { apply candidates_elem. eauto 10. }
    change (queued_jobs (ctx_agent ctx) (ctx_tenant ctx) s)
      with (take 10 (candidates (ctx_agent ctx) (ctx_tenant ctx) s)).
    set (l := candidates _ _ s) in *.
    destruct (sorted_take oldest_first 10 l (brief (id, j))) as [Hin|[Hlen Hold]];
      [apply StronglySorted_merge_sort; apply _|done|left|right].
    + apply list_elem_of_fmap. exists (to_dispatch (brief (id, j))). split; [done|].
      by apply (list_elem_of_fmap_2 to_dispatch).
    + rewrite length_map. split; [done|]. intros d Hin.
      apply list_elem_of_fmap in Hin as (b & -> & Hb). by apply Hold.
Qed.

(** C17: Dispatch is fair by age: in a check-in in which no access fails, that reports
    the CDM mode off or a session active, and that reports no failed update, a
    queued job of the agent is either handed out or ten jobs at least as old are. *)
Theorem checkin_fifo env ctx req db id j :
  (forall n, ok_env (env n)) -> ctx_agent ctx <> "" -> ctx_tenant ctx <> "" ->
  as_cdm_enabled (cr_status req) && negb (as_cdm_session_active (cr_status req)) = false ->
  as_last_update_failed (cr_status req) = false ->
  jobs db !! id = Some j -> job_device j = ctx_agent ctx -> job_tenant j = ctx_tenant ctx ->
  job_status j = JobStatusQueued ->
  exists now ds, run_result (Checkin ctx (Some req)) env db = inl (JSON 200 (BCheckin now ds)) /\
    (id ∈ map jd_job_id ds \/
     length ds = 10 /\ forall d, d ∈ ds -> (jd_created_at d <= job_created_at j)%Z).
Proof. apply fifo_run. Qed.
