(* ===== verification/Scheduler.v ===== *)
(** * Scheduler

    [server/scheduler/scheduler.go] and the queries of
    [server/store/scheduled_jobs.go] it uses: one tick evaluates the due
    scheduled jobs, evaluates the alert rules and reaps stuck jobs and expired
    enrollment tokens.  The cron library is a parameter: [cron_next expr now] is
    the next activation, [None] when [expr] does not parse. *)

From stdpp Require Import relations.
From S2P Require Import Prelude Prog Models JobState Database Scope Quota JobSteps JobsApi AgentJobs Checkin.

(** ** Configuration *)

Record Config := {
  TickSeconds : Z;
  ReaperDispatchedTimeoutSec : Z;
  ReaperInflightTimeoutSec : Z;
}.

Record Sched := { s_tick : Z; s_dispatchedTimeout : Z; s_inflightTimeout : Z }.

Definition or_default (x d : Z) : Z := if (x <=? 0)%Z then d else x.

(** Durations are int64 nanoseconds. *)
Definition seconds (x : Z) : Z := wrap64 (x * second).

Definition New (cfg : Config) : Sched :=
  {| s_tick := seconds (or_default (TickSeconds cfg) 30);
     s_dispatchedTimeout := seconds (or_default (ReaperDispatchedTimeoutSec cfg) 300);
     s_inflightTimeout := seconds (or_default (ReaperInflightTimeoutSec cfg) 3600) |}.

(** ** Reapers *)

Definition sql_reap_dispatched (cutoff : Z) : DB -> DB :=
  update_jobs (fun _ j => (job_status j =s JobStatusDispatched) && before (job_dispatched_at j) cutoff)
    (apply_change CRequeue).

Definition sql_reap_inflight (now cutoff : Z) : DB -> DB :=
  update_jobs (fun _ j => ((job_status j =s JobStatusAcknowledged) || (job_status j =s JobStatusRunning))
                          && before (coalesce (job_started_at j) (job_acknowledged_at j)) cutoff)
    (apply_change (CTimeout now)).

Definition sql_reap_tokens (now : Z) (db : DB) : DB :=
  set_enrollment_tokens (delete_where (fun _ t =>
    match tok_used_at t with None => (tok_expires_at t <? now)%Z | Some _ => false end)
    (enrollment_tokens db)) db.

Definition reapStuckDispatchedJobs {R : Type} (s : Sched) (now : Z) : prog DB R unit :=
  _ ← exec (stmt (sql_reap_dispatched (now - s_dispatchedTimeout s))); mret tt.

Definition reapStuckInflightJobs {R : Type} (s : Sched) (now : Z) : prog DB R unit :=
  _ ← exec (stmt (sql_reap_inflight now (now - s_inflightTimeout s))); mret tt.

Definition reapExpiredEnrollmentTokens {R : Type} (now : Z) : prog DB R unit :=
  _ ← exec (stmt (sql_reap_tokens now)); mret tt.

(** ** Target resolution: the scheduler's own copy *)

(** One of its three expansion loops. *)
Definition sched_expand (rel : DB -> gset (string * string)) (tenantID : string)
    (ids deviceIDs : list string) : prog DB (option (list string)) (list string) :=
  for_each ids deviceIDs (fun acc id =>
    r ← query (fun db => members (rel db) db tenantID id);
    match r with
    | None => stop None
    | Some rows => mret (foldl add_seen acc rows)
    end).

Definition sched_resolveTargets {R : Type} (tenantID : string) (target : JobTarget)
    : prog DB R (option (list string)) :=
  call (d1 ← sched_expand device_groups tenantID (tgt_group_ids target)
               (foldl add_seen [] (tgt_device_ids target));
        d2 ← sched_expand device_tags tenantID (tgt_tag_ids target) d1;
        d3 ← sched_expand device_sites tenantID (tgt_site_ids target) d2;
        mret (Some d3)).

(** ** Scheduled jobs *)

(** [store.ListDueScheduledJobs]. *)
Definition due_first (a b : string * ScheduledJob) : Prop :=
  (default 0%Z (sj_next_run_at a.2) <= default 0%Z (sj_next_run_at b.2))%Z.
#[export] Instance due_first_dec : RelDecision due_first.
Proof. intros a b. unfold due_first. apply _. Defined.

Definition is_due (now : Z) (sj : ScheduledJob) : bool :=
  sj_enabled sj && match sj_next_run_at sj with Some t => (t <=? now)%Z | None => false end.

Definition due_jobs (now : Z) (db : DB) : list (string * ScheduledJob) :=
  merge_sort due_first (select_where (fun _ sj => is_due now sj) (scheduled_jobs db)).

(** [store.MarkScheduledJobRun]. *)
Definition set_run (lastRun nextRun : Z) (sj : ScheduledJob) : ScheduledJob :=
  {| sj_tenant := sj_tenant sj; sj_name := sj_name sj; sj_job_type := sj_job_type sj;
     sj_payload := sj_payload sj; sj_target := sj_target sj; sj_cron_expr := sj_cron_expr sj;
     sj_retry_policy := sj_retry_policy sj; sj_enabled := sj_enabled sj;
     sj_last_run_at := Some lastRun; sj_next_run_at := Some nextRun |}.

Definition sql_mark_run (id : string) (lastRun nextRun : Z) (db : DB) : DB :=
  set_scheduled_jobs (update_where (fun k _ => k =s id) (set_run lastRun nextRun) (scheduled_jobs db)) db.

(** A column that fails to unmarshal leaves the struct's pointer nil. *)
Definition load_json {A} (col : option (Json A)) : option A := j ← col; unmarshal j.

Definition scheduled_row (id : string) (sj : ScheduledJob) (deviceID : string) (now : Z) : Job :=
  created_job (sj_tenant sj) deviceID (sj_job_type sj) (sj_payload sj) (load_json (sj_retry_policy sj))
    (match load_json (sj_retry_policy sj) with Some rp => MaxRetries rp | None => 0%Z end)
    (String.append "scheduler:" id) now.

(** [None] is an error. *)
Definition dispatchScheduledJob {R : Type} (id : string) (sj : ScheduledJob) (now : Z)
    : prog DB R (option unit) :=
  call (match load_json (sj_target sj) with
  | None => stop None
  | Some target =>
      r ← sched_resolveTargets (sj_tenant sj) target;
      match r with
      | None => stop None
      | Some deviceIDs =>
          if negb (nonempty deviceIDs) then stop (Some tt)
          else
            _ ← for_each deviceIDs tt (fun _ deviceID =>
                  jobID ← new_id "job";
                  r ← exec (stmt_opt (insert_job jobID (scheduled_row id sj deviceID now)));
                  match r with None => stop None | Some _ => mret tt end);
            mret (Some tt)
      end
  end).

Definition evaluateScheduledJobs {R : Type} (cron_next : string -> Z -> option Z) (now : Z) : prog DB R unit :=
  due ← query (due_jobs now);
  match due with
  | None => mret tt
  | Some due =>
      for_each due tt (fun _ isj =>
        let '(id, sj) := isj in
        r ← dispatchScheduledJob id sj now;
        match r with
        | None => mret tt
        | Some _ =>
            match cron_next (sj_cron_expr sj) now with
            | None => mret tt
            | Some nextRun => _ ← exec (stmt (sql_mark_run id now nextRun)); mret tt
            end
        end)
  end.

(** ** Alert rules *)

(** What [notifier.Send] is given. *)
Record Alert := { al_rule : string; al_type : string; al_message : string }.

(** [truncateList]: at most [n] items joined by commas. *)
Fixpoint join (items : list string) : string :=
  match items with
  | [] => ""
  | [x] => x
  | x :: xs => String.append x (String.append ", " (join xs))
  end.

Definition truncateList (items : list string) (n : nat) : string :=
  if (length items <=? n)%nat then join items else String.append (join (take n items)) ", ...".

Definition minute : Z := 60 * second.

Definition offline_devices (tenantID : string) (threshold : Z) (deviceIDs : list string) (db : DB)
    : list (string * Device) :=
  select_where (fun id d => (dev_tenant d =s tenantID) && negb (dev_status d =s "revoked")
                            && before (dev_last_seen_at d) threshold
                            && (if nonempty deviceIDs then str_in id deviceIDs else true)) (devices db).

Definition has_targets (t : JobTarget) : bool :=
  (0 <? length (tgt_device_ids t) + length (tgt_group_ids t)
        + length (tgt_tag_ids t) + length (tgt_site_ids t))%nat.

Definition offline_message (devs : list (string * Device)) (minutes : Z) : string :=
  String.append (pretty (length devs)) (String.append " device(s) offline for >"
    (String.append (pretty minutes) (String.append " minutes: "
      (truncateList (map (fun d => String.append (dev_hostname d.2)
         (String.append " (" (String.append d.1 ")"))) devs) 10)))).

(** [None]: nothing is sent. *)
Definition evaluateAgentOffline {R : Type} (ruleID : string) (rule : AlertRule) (cond : AlertCondition) (now : Z)
    : prog DB R (option Alert) :=
  let threshold := (now + wrap64 (- ac_threshold_minutes cond * minute))%Z in
  call (
    deviceIDs ← match ac_scope cond with
                | Some sc =>
                    if has_targets sc then
                      r ← sched_resolveTargets (ar_tenant rule) sc;
                      match r with None => stop None | Some ids => mret ids end
                    else mret []
                | None => mret []
                end;
    rows ← query (offline_devices (ar_tenant rule) threshold deviceIDs);
    match rows with
    | None => stop None
    | Some [] => stop None
    | Some devs => mret (Some {| al_rule := ruleID; al_type := ac_type cond;
                                 al_message := offline_message devs (ac_threshold_minutes cond) |})
    end).

Definition evaluateAlertRules {R : Type} (now : Z) : prog DB R (list Alert) :=
  rules ← query (fun db => select_where (fun _ r => ar_enabled r) (alert_rules db));
  match rules with
  | None => mret []
  | Some rules =>
      for_each rules [] (fun sent ir =>
        match unmarshal (ar_condition ir.2) with
        | None => mret sent
        | Some cond =>
            if ac_type cond =s "agent_offline" then
              a ← evaluateAgentOffline ir.1 ir.2 cond now;
              mret (sent ++ match a with Some a => [a] | None => [] end)
            else mret sent
        end)
  end.

(** ** One tick; its value is the list of alerts sent *)
Definition runTick {R : Type} (cron_next : string -> Z -> option Z) (s : Sched) : prog DB R (list Alert) :=
  now ← time_now;
  _ ← evaluateScheduledJobs cron_next now;
  alerts ← evaluateAlertRules now;
  _ ← reapStuckDispatchedJobs s now;
  _ ← reapStuckInflightJobs s now;
  _ ← reapExpiredEnrollmentTokens now;
  mret alerts.

(** ** Lemmas *)

(** What a tick does to jobs that are there. *)
Notation tick_kinds := [KRequeue; KTimeout].

Lemma sql_reap_dispatched_step cutoff db : jobs_step (within tick_kinds) db (sql_reap_dispatched cutoff db).
Proof. assert (KRequeue ∈ tick_kinds) as Hk by set_solver. revert Hk. jobs_update. Qed.

Lemma sql_reap_inflight_step now cutoff db : jobs_step (within tick_kinds) db (sql_reap_inflight now cutoff db).
Proof.
  apply update_jobs_step. intros id j _ H. apply andb_true_iff in H as [H _].
  apply within_spec. split; [|set_solver]. unfold guard_pre. simpl. by rewrite H.
Qed.

#[export] Hint Resolve sql_reap_dispatched_step sql_reap_inflight_step : moebius.

Lemma sched_resolveTargets_guar {R : Type} (G : relation DB) `{!Reflexive G} T tg :
  guar G (sched_resolveTargets T tg : prog DB R _).
Proof. unfold sched_resolveTargets, sched_expand. guar_all. Qed.

#[export] Hint Resolve sched_resolveTargets_guar : moebius.

Lemma dispatchScheduledJob_guar {R : Type} pre id sj now :
  guar (jobs_step pre) (dispatchScheduledJob id sj now : prog DB R _).
Proof.
  unfold dispatchScheduledJob. guar_all. intros H%stmt_opt_Some.
  eapply insert_job_step; eauto. by repeat split.
Qed.

Lemma evaluateAlertRules_guar {R : Type} (G : relation DB) `{!Reflexive G} now :
  guar G (evaluateAlertRules now : prog DB R _).
Proof. unfold evaluateAlertRules, evaluateAgentOffline. guar_all. Qed.

#[export] Hint Resolve dispatchScheduledJob_guar evaluateAlertRules_guar : moebius.

Lemma runTick_guar {R : Type} cron_next s : guar (jobs_step (within tick_kinds)) (runTick cron_next s : prog DB R _).
Proof.
  unfold runTick, evaluateScheduledJobs, reapStuckDispatchedJobs, reapStuckInflightJobs,
    reapExpiredEnrollmentTokens.
  guar_all; try apply dispatchScheduledJob_guar;
    intros ->%stmt_Some; first [by apply jobs_step_same | solve [eauto with moebius]].
Qed.

(** The scheduler's copy of target resolution computes what the API's does. *)
Lemma sched_resolve_same {R : Type} T tg :
  sched_resolveTargets T tg = (resolveTargets T tg : prog DB R _).
Proof. reflexivity. Qed.

(** ** What a tick does to the jobs *)

(** Stored rows are kept as they are; new ones may appear. *)
Definition rows_kept : relation DB := fun a b => forall id j, jobs a !! id = Some j -> jobs b !! id = Some j.
#[export] Instance rows_kept_preorder : PreOrder rows_kept.
Proof. split; [by intros ???|]. intros a b c Hab Hbc id j Hj. auto. Qed.

Lemma rows_kept_insert id j s s' : insert_job id j s = Some s' -> rows_kept s s'.
Proof.
  intros [Hn ->]%insert_job_Some k jk Hk. simpl. rewrite lookup_insert_ne; [done|congruence].
Qed.

Lemma evaluateScheduledJobs_kept {R : Type} cron_next now :
  guar rows_kept (evaluateScheduledJobs cron_next now : prog DB R _).
Proof.
  unfold evaluateScheduledJobs, dispatchScheduledJob. guar_all.
  - intros Hi%stmt_opt_Some. by eapply rows_kept_insert.
  - by intros ->%stmt_Some id j.
Qed.

(** The row a tick at time [now] leaves of a job. *)
Definition reaped (s : Sched) (now : Z) (j : Job) : Job :=
  if (job_status j =s JobStatusDispatched) && before (job_dispatched_at j) (now - s_dispatchedTimeout s)
  then apply_change CRequeue j
  else if ((job_status j =s JobStatusAcknowledged) || (job_status j =s JobStatusRunning))
          && before (coalesce (job_started_at j) (job_acknowledged_at j)) (now - s_inflightTimeout s)
  then apply_change (CTimeout now) j
  else j.

Lemma reap_both s now id j db :
  jobs db !! id = Some j ->
  jobs (sql_reap_inflight now (now - s_inflightTimeout s) (sql_reap_dispatched (now - s_dispatchedTimeout s) db)) !! id
  = Some (reaped s now j).
Proof.
  intros Hj. unfold sql_reap_inflight, sql_reap_dispatched, update_jobs, reaped. simpl.
  rewrite !lookup_update_where, Hj. simpl. destruct (_ && before (job_dispatched_at j) _); [|by case_match].
  done.
Qed.

(** No access fails and the clock reads [now]. *)
Definition at_time (now : Z) (e : Env) : Prop := ok_env e /\ e_now e = now.

Lemma at_time_no_fault now : ~ may_fault (at_time now).
Proof. intros (e & [[He _] _] & Hf). congruence. Qed.

(** Reads and inserts, then what follows: stored rows are still there. *)
Lemma rg_kept {A B : Type} (E : Env -> Prop) (p : prog DB Empty_set A) (g : A -> prog DB Empty_set B)
    (Q : Empty_set + B -> DB -> Prop) db :
  guar rows_kept p -> (forall a s, rows_kept db s -> rg E (=) (fun _ _ => True) (g a) Q s) ->
  rg E (=) (fun _ _ => True) (p ≫= g) Q db.
Proof.
  intros Hp Hg. apply rg_bind, (rg_weaken_G _ _ rows_kept); [done|].
  eapply rg_mono; [|apply (guar_rg_stable E (=) rows_kept (rows_kept db)); [by intros ? ? ->|by intros; etrans|done|done]].
  intros [[]|a] s Hs. by apply Hg.
Qed.

Lemma rg_now_env {S R : Type} (E : Env -> Prop) (G : relation S) (Q : R + Z -> S -> Prop) s :
  Reflexive G -> (forall e, E e -> Q (inr (e_now e)) s) -> rg E (=) G time_now Q s.
Proof. intros HG H s1 e HE <-. split; [apply HG|by apply H]. Qed.

Lemma runTick_rows cron_next s env now db id j :
  (forall n, at_time now (env n)) -> jobs db !! id = Some j ->
  jobs (run_store (runTick cron_next s : prog DB Empty_set _) env db) !! id = Some (reaped s now j).
Proof.
  intros Henv Hj. by_rg (at_time now) (fun _ _ : DB => True); [done|]. unfold runTick.
  apply rg_bind, rg_now_env; [done|]. intros e [_ ->].
  apply rg_kept; [apply evaluateScheduledJobs_kept|]. intros _ s1 H1.
  apply rg_kept; [apply evaluateAlertRules_guar, _|]. intros alerts s2 H2.
  unfold reapStuckDispatchedJobs, reapStuckInflightJobs, reapExpiredEnrollmentTokens.
  do 3 rg_step; [intros Hf; by destruct (at_time_no_fault _ Hf)|]. unfold stmt at 1. cbv beta iota. split; [done|].
  do 4 rg_step; [intros Hf; by destruct (at_time_no_fault _ Hf)|]. unfold stmt at 1. cbv beta iota. split; [done|].
  do 4 rg_step; [intros Hf; by destruct (at_time_no_fault _ Hf)|]. unfold stmt at 1. cbv beta iota. split; [done|].
  do 2 rg_step. apply reap_both. auto.
Qed.

(** *** Scheduled jobs *)

(** No user is called like the creator the scheduler writes. *)
Definition no_scheduler_user (db : DB) : Prop := forall k, users db !! String.append "scheduler:" k = None.

Definition blocked : relation DB := fun a b =>
  no_scheduler_user a -> jobs b = jobs a /\ users b = users a.
#[export] Instance blocked_preorder : PreOrder blocked.
Proof.
  split; [by intros ??|]. intros a b c Hab Hbc Ha. destruct (Hab Ha) as [E1 E2].
  destruct Hbc as [E3 E4]; [|split; congruence]. unfold no_scheduler_user. by rewrite E2.
Qed.

Lemma insert_scheduled_fails nid id sj d now db :
  no_scheduler_user db -> insert_job nid (scheduled_row id sj d now) db = None.
Proof.
  intros Hu. unfold insert_job. assert (fk (users db) (String.append "scheduler:" id) = false) as Hf.
  { unfold fk. apply bool_decide_eq_false. rewrite (Hu id). by intros []. }
  replace (fk_opt (users db) (job_created_by (scheduled_row id sj d now))) with false by (symmetry; exact Hf).
  by rewrite andb_false_r.
Qed.

Lemma evaluateScheduledJobs_blocked {R : Type} cron_next now :
  guar blocked (evaluateScheduledJobs cron_next now : prog DB R _).
Proof.
  unfold evaluateScheduledJobs, dispatchScheduledJob. guar_all.
  - intros Hi%stmt_opt_Some Hu. by rewrite insert_scheduled_fails in Hi.
  - by intros ->%stmt_Some _.
Qed.

(** *** Offline alerts *)

(** A device the rule watches: any when the rule names no targets, otherwise the
    targeted ones, but again any when the targets stand for no device. *)
Definition watched (db : DB) (T : string) (scope : option JobTarget) (d : string) : Prop :=
  match scope with
  | Some sc => has_targets sc = true -> targeted db T sc d \/ forall d', ~ targeted db T sc d'
  | None => True
  end.

Definition offline (db : DB) (T : string) (threshold : Z) (d : string) : Prop :=
  exists dv, devices db !! d = Some dv /\ dev_tenant dv = T /\ dev_status dv <> "revoked"
             /\ before (dev_last_seen_at dv) threshold = true.

Lemma offline_devices_elem T th ids db d dv :
  (d, dv) ∈ offline_devices T th ids db <->
  devices db !! d = Some dv /\ dev_tenant dv = T /\ dev_status dv <> "revoked"
  /\ before (dev_last_seen_at dv) th = true /\ (ids = [] \/ d ∈ ids).
Proof.
  unfold offline_devices. rewrite elem_of_select_where, !andb_true_iff, seqb_eq, negb_true_iff, seqb_neq.
  destruct ids; simpl nonempty; cbv iota; [|rewrite str_in_elem]; naive_solver.
Qed.

Lemma offline_query_rg (E : Env -> Prop) rid ty mins T th ids db (Q : option Alert + option Alert -> DB -> Prop) :
  (may_fault E -> Q (inl None) db) ->
  (forall a, (exists d, offline db T th d /\ (ids = [] \/ d ∈ ids)) -> Q (inr (Some a)) db) ->
  ((~ exists d, offline db T th d /\ (ids = [] \/ d ∈ ids)) -> Q (inl None) db) ->
  rg E (=) (=)
    (rows ← query (offline_devices T th ids);
     match rows with
     | None => stop None
     | Some [] => stop None
     | Some devs => mret (Some {| al_rule := rid; al_type := ty; al_message := offline_message devs mins |})
     end) Q db.
Proof.
  intros Hf Hs Hn. do 2 rg_step; [done|].
  destruct (offline_devices T th ids db) as [|[d dv] l] eqn:El.
  - rg_step. apply Hn. intros (d & (dv & ? & ? & ? & ?) & Hin).
    assert ((d, dv) ∈ offline_devices T th ids db) as Hin' by (apply offline_devices_elem; auto).
    rewrite El in Hin'. by apply elem_of_nil in Hin'.
  - rg_step. apply Hs. assert ((d, dv) ∈ offline_devices T th ids db) as Hin by (rewrite El; constructor).
    apply offline_devices_elem in Hin as (? & ? & ? & ? & ?). exists d. unfold offline. eauto 10.
Qed.

(** ** Properties *)

(** One tick of the scheduler at time [now], when no access fails: every stored
    job becomes exactly its reaped form (dispatched longer ago than the dispatch
    timeout: queued again; in flight longer than the in-flight timeout, counted
    from its start or else its acknowledgement: timed out; otherwise untouched),
    whatever schedules and alert rules the tick evaluated before. *)
Theorem tick_reaps cron_next s env now db id j :
  (forall n, at_time now (env n)) -> jobs db !! id = Some j ->
  jobs (run_store (runTick cron_next s : prog DB Empty_set _) env db) !! id = Some (reaped s now j).
Proof. apply runTick_rows. Qed.

(** C22: No job is stuck with an agent that went away: for every stored dispatched or
    acknowledged job there is a time after which any tick that meets no error
    puts it back in the queue or times it out. *)
Theorem no_job_stuck s db id j :
  jobs_ok db -> jobs db !! id = Some j ->
  job_status j = JobStatusDispatched \/ job_status j = JobStatusAcknowledged ->
  exists deadline, forall cron_next env now, (deadline < now)%Z -> (forall n, at_time now (env n)) ->
    exists j', jobs (run_store (runTick cron_next s : prog DB Empty_set _) env db) !! id = Some j' /\
      (job_status j = JobStatusDispatched /\ job_status j' = JobStatusQueued \/
       job_status j = JobStatusAcknowledged /\ job_status j' = JobStatusTimedOut).
Proof.
  intros Hok Hj Hst. destruct (Hok id j Hj) as [(Hd & Ha & _) _].
  destruct Hst as [Hst|Hst].
  - destruct (Hd Hst) as [t Ht]. exists (t + s_dispatchedTimeout s)%Z. intros cn env now Hnow Henv.
    eexists. split; [by apply runTick_rows|]. left. split; [done|].
    unfold reaped. rewrite Hst, Ht. simpl. by rewrite (proj2 (Z.ltb_lt t _)) by lia.
  - destruct (Ha Hst) as [t Ht]. exists (default t (job_started_at j) + s_inflightTimeout s)%Z.
    intros cn env now Hnow Henv. eexists. split; [by apply runTick_rows|]. right. split; [done|].
    unfold reaped. rewrite Hst, Ht. simpl.
    destruct (job_started_at j) as [t'|]; simpl in *; by rewrite (proj2 (Z.ltb_lt _ _)) by lia.
Qed.

(** C40: Scheduled jobs cannot be dispatched: the creator the scheduler records
    ("scheduler:<id>") is not a user, the schema requires one, and so no tick
    creates a job, whatever is due. *)
Theorem scheduled_jobs_blocked cron_next now env db :
  no_scheduler_user db ->
  jobs (run_store (evaluateScheduledJobs cron_next now : prog DB Empty_set _) env db) = jobs db.
Proof.
  intros Hu. by apply (guar_run_preorder blocked (evaluateScheduledJobs cron_next now) env 0 db
    (evaluateScheduledJobs_blocked cron_next now)).
Qed.

(** An offline rule fires exactly when a device of the tenant that it watches is
    not revoked and was last seen before the threshold. *)
Theorem offline_alert_spec env rid rule cond now db :
  (forall n, ok_env (env n)) ->
  let r := run_result (evaluateAgentOffline rid rule cond now : prog DB Empty_set _) env db in
  let th := (now + wrap64 (- ac_threshold_minutes cond * minute))%Z in
  (exists a, r = inr (Some a)) <->
  exists d, offline db (ar_tenant rule) th d /\ watched db (ar_tenant rule) (ac_scope cond) d.
Proof.
  intros Henv r th. unfold r. by_rg ok_env (=@{DB}); [done|].
  unfold evaluateAgentOffline. fold th. cbv zeta. do 2 rg_step. unfold watched.
  destruct (ac_scope cond) as [sc|]; [destruct (has_targets sc)|].
  - rg_step. rewrite sched_resolve_same. apply resolveTargets_rg; [intros Hf; by destruct (ok_env_no_fault Hf)|].
    intros ids _ Hids. rg_step. apply offline_query_rg.
    + intros Hf; by destruct (ok_env_no_fault Hf).
    + intros a (d & Ho & Hd). split; [|eauto]. intros _. exists d. split; [done|]. intros _.
      destruct Hd as [->|Hd]; [right; intros d'; rewrite <-Hids; apply not_elem_of_nil|left; by apply Hids].
    + intros Hn. split; [by intros []|]. intros (d & Ho & Hw). destruct Hn. exists d. split; [done|].
      destruct (Hw eq_refl) as [Ht|Ht]; [right; by apply Hids|left].
      destruct ids as [|x l]; [done|]. destruct (Ht x). apply Hids. constructor.
  - rg_step. apply offline_query_rg.
    + intros Hf; by destruct (ok_env_no_fault Hf).
    + intros a (d & Ho & Hd). split; [|eauto]. intros _. by exists d.
    + intros Hn. split; [by intros []|]. intros (d & Ho & Hw). destruct Hn. eauto.
  - rg_step. apply offline_query_rg.
    + intros Hf; by destruct (ok_env_no_fault Hf).
    + intros a (d & Ho & Hd). split; [|eauto]. intros _. by exists d.
    + intros Hn. split; [by intros []|]. intros (d & Ho & Hw). destruct Hn. eauto.
Qed.
