(* ===== verification/Enrollment.v ===== *)
(** * Enrollment of agents

    [server/pki/ca.go] (signing an agent's CSR), [server/auth/enrollment.go]
    (the life of an enrollment token), [server/api/enroll.go] (the enrollment
    handler with its transaction) and [server/api/enrollment_tokens.go].

    The X.509 and hash functions of Go's standard library are the fields of
    [X509]; random draws come from the environment of the access. *)

From stdpp Require Import relations.
From S2P Require Import Prelude Prog Models JobState Database Scope Quota JobSteps JobsApi.

(** ** server/pki/ca.go *)

Inductive PublicKey :=
| ECDSA (curve point : string)
| OtherKey (type : string).

Record CSR := { csr_key : PublicKey; csr_body : string }.

(** The template handed to [x509.CreateCertificate]. *)
Record Template := {
  tpl_serial : string;           (* hex of the serial number *)
  tpl_common_name : string;
  tpl_dns_names : list string;
  tpl_not_before : Z;
  tpl_not_after : Z;
}.

Record X509 := {
  pem_decode : string -> option string;
  pem_encode : string -> string;
  parse_csr : string -> option CSR;
  check_signature : CSR -> bool;
  create_certificate : Template -> PublicKey -> option string;
  sha256_hex : string -> string;
  ca_raw : string;               (* ca.Cert.Raw *)
}.

(** [true] is a nil error. *)
Definition validateAgentPublicKey (k : PublicKey) : bool :=
  match k with
  | OtherKey _ => false
  | ECDSA curve _ => curve =s "P-256"
  end.

(** A random value in hexadecimal: [rand.Read], [rand.Int]; [None] is an error. *)
Definition random_hex {S R : Type} : prog S R (option string) :=
  PStep (fun e s => (s, if e_fault e then None else Some (e_id e))) PRet.

Record Signed := { sg_pem : string; sg_serial : string; sg_fingerprint : string }.

(** [None] is an error. *)
Definition SignCSR {S R : Type} (x : X509) (csrPEM agentID : string) (validity : Z) : prog S R (option Signed) :=
  call (match pem_decode x csrPEM with
  | None => stop None
  | Some block =>
      match parse_csr x block with
      | None => stop None
      | Some csr =>
          if negb (check_signature x csr) then stop None
          else if negb (validateAgentPublicKey (csr_key csr)) then stop None
          else
            serial ← random_hex;
            match serial with
            | None => stop None
            | Some serial =>
                now ← time_now;
                match create_certificate x
                        {| tpl_serial := serial; tpl_common_name := agentID; tpl_dns_names := [agentID];
                           tpl_not_before := now; tpl_not_after := now + validity |} (csr_key csr) with
                | None => stop None
                | Some der => mret (Some {| sg_pem := pem_encode x der; sg_serial := serial;
                                            sg_fingerprint := sha256_hex x der |})
                end
            end
      end
  end).

Definition CAChainPEM (x : X509) : string := pem_encode x (ca_raw x).

(** ** server/auth/enrollment.go *)

Definition hour : Z := 3600 * 1000000000.
Definition defaultTokenExpiry : Z := 24 * hour.

Definition hashToken (x : X509) (raw : string) : string := sha256_hex x raw.

(** [UNIQUE (token_hash)] and the foreign keys. *)
Definition insert_token (id : string) (t : EnrollmentToken) (db : DB) : option DB :=
  if fk (tenants db) (tok_tenant t) && fk (users db) (tok_created_by t)
     && negb (nonempty (select_where (fun _ t' => tok_hash t' =s tok_hash t) (enrollment_tokens db)))
  then ts ← insert_new id t (enrollment_tokens db); Some (set_enrollment_tokens ts db)
  else None.

Record CreateTokenResult := { ctr_id : string; ctr_token : EnrollmentToken; ctr_raw : string }.

(** [None] is an error. *)
Definition CreateToken {R : Type} (x : X509) (tenantID createdBy : string) (scope : option APIScope)
    (expiry : Z) : prog DB R (option CreateTokenResult) :=
  call (
    let expiry := if (expiry =? 0)%Z then defaultTokenExpiry else expiry in
    raw ← random_hex;
    match raw with
    | None => stop None
    | Some raw =>
        now ← time_now;
        id ← new_id "enr";
        let token := {| tok_tenant := tenantID; tok_hash := hashToken x raw; tok_created_by := createdBy;
                        tok_scope := JValid <$> scope; tok_used_at := None;
                        tok_expires_at := now + expiry; tok_created_at := now |} in
        r ← exec (stmt_opt (insert_token id token));
        match r with
        | None => stop None
        | Some _ => mret (Some {| ctr_id := id; ctr_token := token; ctr_raw := raw |})
        end
    end).

(** [token_hash = $1 AND used_at IS NULL AND expires_at > $2]. *)
Definition token_valid (hash : string) (now : Z) (t : EnrollmentToken) : bool :=
  (tok_hash t =s hash) && match tok_used_at t with None => true | Some _ => false end
  && (now <? tok_expires_at t)%Z.

Definition set_used (now : Z) (t : EnrollmentToken) : EnrollmentToken :=
  {| tok_tenant := tok_tenant t; tok_hash := tok_hash t; tok_created_by := tok_created_by t;
     tok_scope := tok_scope t; tok_used_at := Some now; tok_expires_at := tok_expires_at t;
     tok_created_at := tok_created_at t |}.

(** A token as the service returns it: the scope is decoded. *)
Record Token := { tk_id : string; tk_tenant : string; tk_scope : option APIScope }.

(** [None]: the stored scope does not decode. *)
Definition load_token (row : string * EnrollmentToken) : option Token :=
  match tok_scope row.2 with
  | None => Some {| tk_id := row.1; tk_tenant := tok_tenant row.2; tk_scope := None |}
  | Some j =>
      match unmarshal j with
      | None => None
      | Some sc => Some {| tk_id := row.1; tk_tenant := tok_tenant row.2; tk_scope := Some sc |}
      end
  end.

(** [None] is an error. *)
Definition Peek {R : Type} (x : X509) (rawToken : string) : prog DB R (option Token) :=
  now ← time_now;
  row ← query_row (fun db => head (select_where (fun _ t => token_valid (hashToken x rawToken) now t)
                                     (enrollment_tokens db)));
  match row with
  | Row r => mret (load_token r)
  | NoRows | DbErr => mret None
  end.

(** [UPDATE ... WHERE ... RETURNING]: the rows marked, and the first of them. *)
Definition sql_consume (hash : string) (now : Z) (db : DB) : option (DB * option (string * EnrollmentToken)) :=
  Some (set_enrollment_tokens (update_where (fun _ t => token_valid hash now t) (set_used now) (enrollment_tokens db)) db,
        (fun r => (r.1, set_used now r.2)) <$>
          head (select_where (fun _ t => token_valid hash now t) (enrollment_tokens db))).

(** [None] is an error. *)
Definition ValidateAndConsume {R : Type} (x : X509) (rawToken : string) : prog DB R (option Token) :=
  now ← time_now;
  row ← exec (sql_consume (hashToken x rawToken) now);
  match row with
  | None | Some None => mret None
  | Some (Some r) => mret (load_token r)
  end.

(** ** server/api/enroll.go *)

Definition defaultCertValidity : Z := 90 * 24 * hour.

Definition new_device (tenantID : string) (req : EnrollRequest) (now : Z) : Device :=
  {| dev_tenant := tenantID; dev_hostname := er_hostname req; dev_os := er_os req;
     dev_os_version := er_os_version req; dev_arch := er_arch req; dev_agent_version := er_agent_version req;
     dev_status := DeviceStatusOnline; dev_last_seen_at := None; dev_registered_at := now;
     dev_cdm_enabled := false; dev_cdm_session_active := false; dev_cdm_session_expires_at := None;
     dev_sequence_last := 0 |}.

(** [INSERT INTO devices]. *)
Definition insert_device (id : string) (d : Device) (db : DB) : option DB :=
  if fk (tenants db) (dev_tenant d)
  then t ← insert_new id d (devices db); Some (set_devices t db)
  else None.

(** A membership table with its parent table: the arguments of the closure
    [insert] of [applyScope]. *)
Record MemberTable := {
  mt_get : DB -> gset (string * string);
  mt_set : gset (string * string) -> DB -> DB;
  mt_parent_tenant : DB -> string -> option string;
}.

Definition group_table := {| mt_get := device_groups; mt_set := set_device_groups; mt_parent_tenant := group_tenant |}.
Definition tag_table := {| mt_get := device_tags; mt_set := set_device_tags; mt_parent_tenant := tag_tenant |}.
Definition site_table := {| mt_get := device_sites; mt_set := set_device_sites; mt_parent_tenant := site_tenant |}.

(** The closure [insert]: a missing or foreign parent row is the fatal case, an
    existing membership is not. *)
Definition add_member (m : MemberTable) (deviceID tenantID id : string) (db : DB) : option DB :=
  if bool_decide (mt_parent_tenant m db id = Some tenantID)
  then Some (mt_set m ({[(deviceID, id)]} ∪ mt_get m db) db) else None.

(** The statements of [applyScope], in order. *)
Definition applyScope (deviceID tenantID : string) (scope : APIScope) : list (DB -> option DB) :=
  map (add_member group_table deviceID tenantID) (sc_group_ids scope)
  ++ map (add_member tag_table deviceID tenantID) (sc_tag_ids scope)
  ++ map (add_member site_table deviceID tenantID) (sc_site_ids scope).

Definition scope_stmts (deviceID tenantID : string) (scope : option APIScope) : list (DB -> option DB) :=
  match scope with Some sc => applyScope deviceID tenantID sc | None => [] end.

(** [INSERT INTO agent_certificates]: serial number and fingerprint are UNIQUE. *)
Definition insert_cert (id : string) (c : AgentCertificate) (db : DB) : option DB :=
  if fk (devices db) (crt_device c)
     && negb (nonempty (select_where (fun _ c' => (crt_serial_number c' =s crt_serial_number c)
                                                  || (crt_fingerprint c' =s crt_fingerprint c))
                          (agent_certificates db)))
  then t ← insert_new id c (agent_certificates db); Some (set_agent_certificates t db)
  else None.

Definition new_cert (deviceID : string) (sg : Signed) (now : Z) : AgentCertificate :=
  {| crt_device := deviceID; crt_serial_number := sg_serial sg; crt_fingerprint := sg_fingerprint sg;
     crt_issued_at := now; crt_expires_at := now + defaultCertValidity; crt_revoked_at := None;
     crt_revocation_reason := None |}.

(** The response of the transaction by what failed: the device, a scope
    statement, the certificate, the commit. *)
Definition tx_failure (nscope i : nat) : Response :=
  if (i =? 0)%nat then Error 500 "failed to create device"
  else if (i <=? nscope)%nat
       then ErrorWithCode 400 "invalid_scope" (Lit "token scope references unknown or cross-tenant resources")
  else if (i =? Datatypes.S nscope)%nat then Error 500 "failed to store certificate"
  else Error 500 "failed to enroll".

(** What follows the consumed token. *)
Definition enroll_device (x : X509) (audit : bool) (quota : Resolver) (req : EnrollRequest) (token : Token)
    : Handler unit :=
  e ← CheckDevices quota (tk_tenant token);
  quota_guard e (
    deviceID ← new_id "dev";
    now ← time_now;
    sg ← SignCSR x (er_csr req) deviceID defaultCertValidity;
    match sg with
    | None => stop (Error 400 "invalid CSR")
    | Some sg =>
        begin ← query (fun _ => tt);
        match begin with
        | None => stop (Error 500 "failed to enroll")
        | Some _ =>
            certID ← new_id "crt";
            let scope := scope_stmts deviceID (tk_tenant token) (tk_scope token) in
            r ← transact ([insert_device deviceID (new_device (tk_tenant token) req now)]
                          ++ scope ++ [insert_cert certID (new_cert deviceID sg now)]);
            match r with
            | Some i => stop (tx_failure (length scope) i)
            | None =>
                _ ← (if audit then
                       LogAction (tk_tenant token) deviceID ActorTypeAgent "device.enroll" "device" deviceID
                         [("hostname", er_hostname req); ("token_id", tk_id token); ("cert_serial", sg_serial sg)]
                     else mret tt);
                stop (JSON 200 (BEnroll deviceID (sg_pem sg) (CAChainPEM x) 30))
            end
        end
    end).

Definition Enroll (x : X509) (audit : bool) (quota : Resolver) (method : string) (body : option EnrollRequest)
    : Handler unit :=
  if negb (method =s "POST") then stop (Error 405 "method not allowed")
  else match body with
  | None => stop (Error 400 "invalid request body")
  | Some req =>
      if (er_token req =s "") || (er_csr req =s "") || (er_hostname req =s "")
      then stop (Error 400 "enrollment_token, csr, and hostname are required")
      else
        token ← ValidateAndConsume x (er_token req);
        match token with
        | None => stop (Error 401 "invalid or expired enrollment token")
        | Some token => enroll_device x audit quota req token
        end
  end.

(** ** server/api/enrollment_tokens.go *)

Record createTokenRequest := { ct_expires_in_seconds : Z; ct_scope : option APIScope }.

(** [body]: no content, content that does not decode, or a request. *)
Definition CreateEnrollmentToken (x : X509) (audit : bool) (ctx : Ctx) (body : option (option createTokenRequest))
    : Handler unit :=
  match match body with
        | None => Some {| ct_expires_in_seconds := 0; ct_scope := None |}
        | Some b => b
        end with
  | None => stop (Error 400 "invalid request body")
  | Some req =>
      if negb (ctx_is_admin ctx) && match ctx_scope ctx with Some _ => true | None => false end
         && negb (ScopeIsSubset (ctx_scope ctx) (ct_scope req))
      then stop (ErrorWithCode 403 "scope_violation"
                   (Lit "enrollment token scope must be a subset of the API key's scope"))
      else
        e ← ValidateScopeTenant (ctx_tenant ctx) (ct_scope req);
        match e with
        | Some err => stop (ErrorWithCode 400 "invalid_scope" (OfErr err))
        | None =>
            let expiry := if (0 <? ct_expires_in_seconds req)%Z
                          then wrap64 (ct_expires_in_seconds req * 1000000000) else (24 * hour)%Z in
            r ← CreateToken x (ctx_tenant ctx) (ctx_user ctx) (ct_scope req) expiry;
            match r with
            | None => stop (Error 500 "failed to create enrollment token")
            | Some res =>
                _ ← (if audit then LogAction (ctx_tenant ctx) (ctx_user ctx) ActorTypeUser
                                     "enrollment_token.create" "enrollment_token" (ctr_id res) []
                     else mret tt);
                stop (JSON 201 (BToken (ctr_id res) (ctr_raw res) (tok_expires_at (ctr_token res)) (ct_scope req)))
            end
        end
  end.

Definition newest_token (a b : string * EnrollmentToken) : Prop := (tok_created_at b.2 <= tok_created_at a.2)%Z.
#[export] Instance newest_token_dec : RelDecision newest_token.
Proof. intros a b. unfold newest_token. apply _. Defined.

Definition token_item (row : string * EnrollmentToken) : TokenItem :=
  {| ti_id := row.1; ti_created_by := tok_created_by row.2;
     ti_scope := (j ← tok_scope row.2; unmarshal j); ti_used_at := tok_used_at row.2;
     ti_expires_at := tok_expires_at row.2; ti_created_at := tok_created_at row.2 |}.

Definition ListEnrollmentTokens (ctx : Ctx) : Handler unit :=
  rows ← query (fun db => take 100 (merge_sort newest_token
           (select_where (fun _ t => tok_tenant t =s ctx_tenant ctx) (enrollment_tokens db))));
  match rows with
  | None => stop (Error 500 "failed to list enrollment tokens")
  | Some l => stop (JSON 200 (BTokenList (map token_item l)))
  end.

Definition DeleteEnrollmentToken (audit : bool) (ctx : Ctx) (tokenID : string) : Handler unit :=
  let p := fun id t => (id =s tokenID) && (tok_tenant t =s ctx_tenant ctx) in
  r ← exec (fun db => Some (set_enrollment_tokens (delete_where p (enrollment_tokens db)) db,
                            count_where p (enrollment_tokens db)));
  match r with
  | None => stop (Error 500 "failed to delete enrollment token")
  | Some affected =>
      if (affected =? 0)%nat then stop (Error 404 "enrollment token not found")
      else
        _ ← (if audit then LogAction (ctx_tenant ctx) (ctx_user ctx) ActorTypeUser
                             "enrollment_token.delete" "enrollment_token" tokenID []
             else mret tt);
        stop NoContent
  end.

(** ** Lemmas *)

Lemma random_hex_guar {S R : Type} (G : relation S) `{!Reflexive G} : guar G (random_hex : prog S R _).
Proof. split; [intros e s; apply reflexivity|by intros x]. Qed.
#[export] Hint Resolve random_hex_guar : moebius.

Lemma SignCSR_guar {S R : Type} (G : relation S) `{!Reflexive G} x csr a v :
  guar G (SignCSR x csr a v : prog S R _).
Proof. unfold SignCSR. guar_all. Qed.
#[export] Hint Resolve SignCSR_guar : moebius.

(** A signed certificate: of the requester's own P-256 key, in the agent's name
    only, under the serial number and fingerprint the server records. *)
Definition issued (x : X509) (csrPEM agentID : string) (validity : Z) (sg : Signed) : Prop :=
  exists block csr now der, pem_decode x csrPEM = Some block /\ parse_csr x block = Some csr
    /\ check_signature x csr = true /\ (exists point, csr_key csr = ECDSA "P-256" point)
    /\ create_certificate x {| tpl_serial := sg_serial sg; tpl_common_name := agentID; tpl_dns_names := [agentID];
                               tpl_not_before := now; tpl_not_after := now + validity |} (csr_key csr) = Some der
    /\ sg_pem sg = pem_encode x der /\ sg_fingerprint sg = sha256_hex x der.

Lemma rg_random_hex {S R : Type} (E : Env -> Prop) (G : relation S) (Q : R + option string -> S -> Prop) s :
  G s s -> (forall r, Q (inr r) s) -> rg E (=) G random_hex Q s.
Proof. intros HG HQ s1 e _ <-. split; [done|apply HQ]. Qed.

(** [SignCSR] fails, or issues such a certificate. *)
Lemma SignCSR_rg {S R : Type} (E : Env -> Prop) (G : relation S) `{!Reflexive G} x csr a v (Q : R + option Signed -> S -> Prop) s :
  Q (inr None) s -> (forall sg, issued x csr a v sg -> Q (inr (Some sg)) s) -> rg E (=) G (SignCSR x csr a v) Q s.
Proof.
  intros Hno Hyes. unfold SignCSR. rg_step.
  destruct (pem_decode x csr) as [block|] eqn:Eb; [|by rg_step].
  destruct (parse_csr x block) as [c|] eqn:Ec; [|by rg_step].
  destruct (check_signature x c) eqn:Es; cbn [negb]; [|by rg_step].
  destruct (validateAgentPublicKey (csr_key c)) eqn:Ek; cbn [negb]; [|by rg_step].
  rg_step. apply rg_random_hex; [done|]. intros [serial|]; [|by rg_step]. rg_step. apply rg_now.
  intros s1 now <-. split; [done|]. destruct (create_certificate _ _ _) as [der|] eqn:Ed; [|by rg_step].
  rg_step. apply Hyes. exists block, c, now, der. simpl. split_and!; try done.
  unfold validateAgentPublicKey in Ek. destruct (csr_key c) as [curve point|]; [|done]. exists point. by reflect_bools; subst.
Qed.

(** The statements of a transaction without faults. *)
Fixpoint run_stmts (stmts : list (DB -> option DB)) (s : DB) : option DB :=
  match stmts with
  | [] => Some s
  | f :: fs => s' ← f s; run_stmts fs s'
  end.

Lemma tx_run_inl fault stmts : forall i s s',
  tx_run fault i stmts s = inl s' -> run_stmts stmts s = Some s'.
Proof.
  induction stmts as [|f fs IH]; intros i s s'; simpl; [case_match; naive_solver|].
  case_match; [done|]. destruct (f s) as [s1|]; [|done]. simpl. apply IH.
Qed.

Lemma run_stmts_app fs gs s : run_stmts (fs ++ gs) s = (s' ← run_stmts fs s; run_stmts gs s').
Proof. revert s. induction fs as [|f fs IH]; intros s; simpl; [done|]. destruct (f s); simpl; auto. Qed.

(** The tables an enrollment writes, the token aside. *)
Definition fleet (db : DB) :=
  (devices db, device_groups db, device_tags db, device_sites db, agent_certificates db).

(** The memberships a scope stands for. *)
Definition pairs (d : string) (ids : list string) : gset (string * string) :=
  list_to_set (map (fun id => (d, id)) ids).

Definition with_memberships (d : string) (sc : APIScope) (db : DB) : DB :=
  set_device_sites (pairs d (sc_site_ids sc) ∪ device_sites db)
    (set_device_tags (pairs d (sc_tag_ids sc) ∪ device_tags db)
      (set_device_groups (pairs d (sc_group_ids sc) ∪ device_groups db) db)).

(** What the expansion loops rely on of a membership table. *)
Class MemberLaws (m : MemberTable) : Prop := {
  ml_get_set : forall x db, mt_get m (mt_set m x db) = x;
  ml_set_set : forall x y db, mt_set m x (mt_set m y db) = mt_set m x db;
  ml_set_get : forall db, mt_set m (mt_get m db) db = db;
  ml_tenant : forall x db id, mt_parent_tenant m (mt_set m x db) id = mt_parent_tenant m db id;
}.

#[export] Instance group_laws : MemberLaws group_table.
Proof. split; intros; try done. by destruct db. Qed.
#[export] Instance tag_laws : MemberLaws tag_table.
Proof. split; intros; try done. by destruct db. Qed.
#[export] Instance site_laws : MemberLaws site_table.
Proof. split; intros; try done. by destruct db. Qed.

Lemma add_members_spec m `{!MemberLaws m} d T ids : forall db db',
  run_stmts (map (add_member m d T) ids) db = Some db' ->
  (forall id, id ∈ ids -> mt_parent_tenant m db id = Some T) /\
  db' = mt_set m (pairs d ids ∪ mt_get m db) db.
Proof.
  induction ids as [|id ids IH]; intros db db'; simpl.
  - intros [= <-]. split; [intros id Hid; by apply elem_of_nil in Hid|]. unfold pairs. simpl.
    by rewrite (left_id_L ∅ (∪)), ml_set_get.
  - intros (s1 & Hs1 & Hrest)%bind_Some. unfold add_member in Hs1. case_bool_decide; [|done].
    injection Hs1 as <-. apply IH in Hrest as [Hids ->]. split.
    + intros k [->|Hk]%elem_of_cons; [done|]. rewrite <-(Hids k Hk). by rewrite ml_tenant.
    + rewrite ml_set_set, ml_get_set. f_equal. unfold pairs. simpl. set_solver.
Qed.

Definition scope_ids_in_tenant (db : DB) (T : string) (sc : APIScope) : Prop :=
  (forall id, id ∈ sc_group_ids sc -> group_tenant db id = Some T) /\
  (forall id, id ∈ sc_tag_ids sc -> tag_tenant db id = Some T) /\
  (forall id, id ∈ sc_site_ids sc -> site_tenant db id = Some T).

Lemma applyScope_spec d T sc db db' :
  run_stmts (applyScope d T sc) db = Some db' ->
  scope_ids_in_tenant db T sc /\ db' = with_memberships d sc db.
Proof.
  unfold applyScope. rewrite run_stmts_app.
  intros (s1 & [H1 ->]%(add_members_spec group_table) & H2)%bind_Some. rewrite run_stmts_app in H2.
  apply bind_Some in H2 as (s2 & [H2 ->]%(add_members_spec tag_table) & [H3 ->]%(add_members_spec site_table)).
  split; [|done]. by split_and!.
Qed.

Lemma insert_device_Some id d db db' :
  insert_device id d db = Some db' -> devices db !! id = None /\ db' = set_devices (<[id := d]> (devices db)) db.
Proof.
  unfold insert_device. case_match; [|done]. intros (t & Ht & [= <-])%bind_Some.
  by apply insert_new_Some in Ht as [? ->].
Qed.

Lemma insert_cert_Some id c db db' :
  insert_cert id c db = Some db' ->
  agent_certificates db !! id = None /\
  (forall k c', agent_certificates db !! k = Some c' -> crt_serial_number c' <> crt_serial_number c) /\
  db' = set_agent_certificates (<[id := c]> (agent_certificates db)) db.
Proof.
  unfold insert_cert. case_match eqn:Ec; [|done]. intros (t & Ht & [= <-])%bind_Some.
  apply insert_new_Some in Ht as [? ->]. split_and!; [done| |done]. intros k c' Hk Hs.
  apply andb_true_iff in Ec as [_ Ec]. apply negb_true_iff, nonempty_false in Ec.
  assert ((k, c') ∈ select_where (fun _ c' => (crt_serial_number c' =s crt_serial_number c)
     || (crt_fingerprint c' =s crt_fingerprint c)) (agent_certificates db)) as Hin.
  { apply elem_of_select_where. split; [done|]. by rewrite Hs, seqb_refl. }
  rewrite Ec in Hin. by apply elem_of_nil in Hin.
Qed.

(** The whole transaction. *)
Definition enrolled (d T : string) (req : EnrollRequest) (sc : option APIScope) (cid : string) (sg : Signed)
    (now : Z) (db : DB) : DB :=
  let db1 := set_devices (<[d := new_device T req now]> (devices db)) db in
  let db2 := match sc with Some sc => with_memberships d sc db1 | None => db1 end in
  set_agent_certificates (<[cid := new_cert d sg now]> (agent_certificates db)) db2.

Lemma enroll_tx d T req sc cid sg now db db' :
  run_stmts ([insert_device d (new_device T req now)] ++ scope_stmts d T sc ++ [insert_cert cid (new_cert d sg now)]) db
    = Some db' ->
  devices db !! d = None /\ agent_certificates db !! cid = None /\
  (forall s, sc = Some s -> scope_ids_in_tenant db T s) /\
  (forall k c, agent_certificates db !! k = Some c -> crt_serial_number c <> sg_serial sg) /\
  db' = enrolled d T req sc cid sg now db.
Proof.
  rewrite run_stmts_app. simpl run_stmts at 1.
  intros (s1 & (s0 & [Hd ->]%insert_device_Some & [= <-])%bind_Some & Hrest)%bind_Some.
  rewrite run_stmts_app in Hrest. apply bind_Some in Hrest as (s2 & Hsc & Hc). simpl in Hc.
  apply bind_Some in Hc as (s3 & Hc & [= <-]).
  destruct sc as [sc|]; simpl in Hsc.
  - apply applyScope_spec in Hsc as [Hin ->]. apply insert_cert_Some in Hc as (Hcid & Hser & ->).
    split_and!; [done|done| |exact Hser|done]. by intros s [= <-].
  - injection Hsc as <-. apply insert_cert_Some in Hc as (Hcid & Hser & ->). by split_and!.
Qed.

Lemma enrolled_tokens d T req sc cid sg now db :
  enrollment_tokens (enrolled d T req sc cid sg now db) = enrollment_tokens db.
Proof. by destruct sc. Qed.

(** The audit entry and the response at the end of a handler. *)
Lemma audit_stop_rg (E : Env -> Prop) (audit : bool) T a at' ac rt ri m r db (Q : Response + unit -> DB -> Prop) :
  (forall l, Q (inl r) (set_audit_log l db)) ->
  rg E (=) (fun _ _ => True)
    (_ ← (if audit then LogAction T a at' ac rt ri m else mret tt); stop r) Q db.
Proof.
  intros HQ. assert (Q (inl r) db) as Hdb by (specialize (HQ (audit_log db)); by destruct db).
  rg_step. destruct audit; [|done]. by apply LogAction_any_rg.
Qed.

Lemma head_select_where {V} p (t : gmap string V) k v :
  head (select_where p t) = Some (k, v) -> t !! k = Some v /\ p k v = true.
Proof.
  intros Hh. apply elem_of_select_where. destruct (select_where p t) as [|x l]; [done|].
  injection Hh as ->. constructor.
Qed.

(** After the token: the fleet changes by one complete enrollment, or not at
    all. *)
Lemma enroll_device_rg (E : Env -> Prop) x audit quota req token db (Q : Response + unit -> DB -> Prop) :
  (forall r s, resp_status r <> 200%Z -> fleet s = fleet db -> Q (inl r) s) ->
  (forall d cid sg now s, devices db !! d = None -> agent_certificates db !! cid = None ->
     (forall sc, tk_scope token = Some sc -> scope_ids_in_tenant db (tk_tenant token) sc) ->
     (forall l, device_limit quota db (tk_tenant token) = Some l -> (count_devices db (tk_tenant token) + 1 <= l)%Z) ->
     (forall k c, agent_certificates db !! k = Some c -> crt_serial_number c <> sg_serial sg) ->
     issued x (er_csr req) d defaultCertValidity sg -> enrollment_tokens s = enrollment_tokens db ->
     fleet s = fleet (enrolled d (tk_tenant token) req (tk_scope token) cid sg now db) ->
     Q (inl (JSON 200 (BEnroll d (sg_pem sg) (CAChainPEM x) 30))) s) ->
  rg E (=) (fun _ _ => True) (enroll_device x audit quota req token) Q db.
Proof.
  intros Hno Hyes. unfold enroll_device. rg_step.
  apply (rg_weaken_G _ _ (=)); [done|].
  apply CheckDevices_rg; [intros _; by apply Hno|intros; by apply Hno|]. intros Hq.
  unfold quota_guard. do 5 rg_step. apply SignCSR_rg; [done|by apply Hno|]. intros sg Hsg.
  do 2 rg_step; [intros _; by apply Hno|]. do 3 rg_step. apply rg_transact.
  intros s1 e _ <-. destruct (tx_run _ 0 _ db) as [db'|n] eqn:Htx; split; try done.
  - apply tx_run_inl, enroll_tx in Htx as (Hd & Hc & Hsc & Hser & ->).
    apply audit_stop_rg. intros l. eapply Hyes; try done. apply enrolled_tokens.
  - apply Hno; [|done]. unfold tx_failure. by repeat case_match.
Qed.

(** *** Tokens *)

Definition hash_unique (db : DB) : Prop := forall i j t t',
  enrollment_tokens db !! i = Some t -> enrollment_tokens db !! j = Some t' -> tok_hash t = tok_hash t' -> i = j.

Definition token_spent (h : string) (db : DB) : Prop := forall i t,
  enrollment_tokens db !! i = Some t -> tok_hash t = h -> tok_used_at t <> None.

Notation keeps_token h := (keeps_spent hash_unique (token_spent h)).

Lemma keeps_same_tokens h a b : enrollment_tokens b = enrollment_tokens a -> keeps_token h a b.
Proof. intros Hab. unfold keeps_spent, hash_unique, token_spent. by rewrite Hab. Qed.

Lemma keeps_delete h p db : keeps_token h db (set_enrollment_tokens (delete_where p (enrollment_tokens db)) db).
Proof.
  intros Hu. split.
  - intros i j t t' [Hi _]%lookup_delete_where [Hj _]%lookup_delete_where. eauto.
  - intros Hs i t [Hi _]%lookup_delete_where. eauto.
Qed.

Lemma lookup_consume h now db i t' :
  update_where (fun _ t => token_valid h now t) (set_used now) (enrollment_tokens db) !! i = Some t' ->
  exists t, enrollment_tokens db !! i = Some t /\ tok_hash t' = tok_hash t /\
    (if token_valid h now t then tok_used_at t' = Some now else t' = t).
Proof.
  rewrite lookup_update_where. destruct (enrollment_tokens db !! i) as [t|]; [|done]. intros [= <-].
  exists t. by destruct (token_valid h now t).
Qed.

Lemma keeps_consume h h' now db :
  keeps_token h db (set_enrollment_tokens
    (update_where (fun _ t => token_valid h' now t) (set_used now) (enrollment_tokens db)) db).
Proof.
  intros Hu. split.
  - intros i j t t' (t1 & Hi & E1 & _)%lookup_consume (t2 & Hj & E2 & _)%lookup_consume Heq.
    apply (Hu i j t1 t2); congruence.
  - intros Hs i t (t1 & Hi & E1 & Hc)%lookup_consume Hh.
    destruct (token_valid h' now t1); [by rewrite Hc|]. subst t1. eauto.
Qed.

(** The winning access: the token was there unused, and is used after it. *)
Lemma consume_spends h now db tid t :
  hash_unique db -> enrollment_tokens db !! tid = Some t -> token_valid h now t = true ->
  ~ token_spent h db /\
  token_spent h (set_enrollment_tokens
    (update_where (fun _ t => token_valid h now t) (set_used now) (enrollment_tokens db)) db).
Proof.
  intros Hu Ht Hv. assert (tok_hash t = h /\ tok_used_at t = None) as [Hh Hn].
  { unfold token_valid in Hv. reflect_bools. by case_match. }
  split; [intros Hs; by apply (Hs tid t)|].
  intros i t' (t1 & Hi & E1 & Hc)%lookup_consume Hh'.
  assert (i = tid) as -> by (eapply Hu; [exact Hi|exact Ht|congruence]).
  assert (t1 = t) as -> by congruence. rewrite Hv in Hc. by rewrite Hc.
Qed.

Lemma LogAction_tokens {R : Type} h T a at' ac rt ri m :
  guar (keeps_token h) (LogAction T a at' ac rt ri m : prog DB R unit).
Proof.
  apply LogAction_any_guar; [apply _|]. intros. by apply keeps_same_tokens.
Qed.
#[export] Hint Resolve LogAction_tokens : moebius.

Lemma Enroll_tokens h x audit quota method body : guar (keeps_token h) (Enroll x audit quota method body).
Proof.
  unfold Enroll, ValidateAndConsume, enroll_device. guar_all; try (apply quota_guard_guar; guar_all).
  - unfold sql_consume. intros [= <- _]. apply keeps_consume.
  - apply guar_transact; [apply _|]. intros fault s0 s1 Htx%tx_run_inl.
    apply enroll_tx in Htx as (_ & _ & _ & _ & ->). apply keeps_same_tokens, enrolled_tokens.
Qed.

Definition is_enrolled (r : Response) : bool :=
  match r with ROk _ (BEnroll _ _ _ _) => true | _ => false end.

(** An enrollment that lost the token cannot succeed. *)
Lemma Enroll_fresh x audit quota method body raw :
  (forall req, body = Some req -> er_token req = raw) ->
  fresh hash_unique (token_spent (hashToken x raw)) is_enrolled (Enroll x audit quota method body).
Proof.
  intros Hraw. unfold Enroll. case_match; [done|]. destruct body as [req|]; [|done].
  case_match; [done|]. rewrite (Hraw req eq_refl).
  intros e s Hu. left. intros e' s' Hu'. simpl.
  destruct (e_fault e'); [by left|]. simpl.
  destruct (head _) as [[tid tk]|] eqn:Eh; simpl; [|by left].
  apply head_select_where in Eh as [Ht Hv]. right. by eapply consume_spends.
Qed.

(** ** Properties *)

(** C8: Enrollment is all or nothing, whatever database accesses fail.  A 200 means:
    the token existed, was unused and unexpired, every group, tag and site of
    its scope belongs to the token's tenant, the tenant's device quota had room,
    and the fleet gained exactly the new device of that tenant, its memberships
    and one certificate for it, of the requester's P-256 key in the device's
    name.  With any other answer no device, membership or
    certificate was added. *)
Theorem enroll_atomic x audit quota method env body db :
  let r := run_result (Enroll x audit quota method body) env db in
  let db' := run_store (Enroll x audit quota method body) env db in
  (exists req tid t token d cid sg now now',
     r = inl (JSON 200 (BEnroll d (sg_pem sg) (CAChainPEM x) 30)) /\ body = Some req
     /\ enrollment_tokens db !! tid = Some t /\ token_valid (hashToken x (er_token req)) now t = true
     /\ load_token (tid, t) = Some token
     /\ (forall sc, tk_scope token = Some sc -> scope_ids_in_tenant db (tok_tenant t) sc)
     /\ (forall l, device_limit quota db (tok_tenant t) = Some l -> (count_devices db (tok_tenant t) + 1 <= l)%Z)
     /\ devices db !! d = None /\ agent_certificates db !! cid = None
     /\ issued x (er_csr req) d defaultCertValidity sg
     /\ fleet db' = fleet (enrolled d (tok_tenant t) req (tk_scope token) cid sg now' db)) \/
  (exists resp, r = inl resp /\ resp_status resp <> 200%Z /\ fleet db' = fleet db).
Proof.
  intros r db'. unfold r, db'. by_rg any_env (fun _ _ : DB => True); [done|]. unfold Enroll.
  case_match; [right; by eexists|]. destruct body as [req|]; [|right; by eexists].
  case_match; [right; by eexists|].
  rg_step. unfold ValidateAndConsume. do 4 rg_step; [intros _; right; by eexists|].
  unfold sql_consume. cbv beta iota. split; [done|].
  destruct (head _) as [[tid tk]|] eqn:Eh; simpl fmap; cbv beta iota; [|rg_step; right; by eexists].
  apply head_select_where in Eh as [Ht Hv]. rg_step.
  match goal with |- context [load_token ?row] => change (load_token row) with (load_token (tid, tk)) end.
  destruct (load_token (tid, tk)) as [token|] eqn:El; [|right; by eexists].
  assert (tk_tenant token = tok_tenant tk) as ET.
  { unfold load_token in El. simpl in El. repeat case_match; naive_solver. }
  apply enroll_device_rg; [intros resp s Hs Hf; right; by eexists|]. rewrite ET.
  intros d cid sg now s Hd Hc Hsc Hq _ Hsg _ Hf. left.
  exists req, tid, tk, token, d, cid, sg. eexists _, now. split_and!;
    [done|done|exact Ht|exact Hv|exact El|exact Hsc|exact Hq|exact Hd|exact Hc|exact Hsg|].
  rewrite Hf. by destruct (tk_scope token).
Qed.

(** C7: An enrollment token enrolls at most one agent, however requests interleave:
    among any number of concurrent enrollment requests with the same raw token,
    running together with other requests that do not create tokens, at most one
    is answered with an enrollment. *)
Theorem token_single_use x raw reqs others db db' pool i j ri rj :
  hash_unique db ->
  Forall (fun q : bool * Resolver * string * option EnrollRequest =>
            forall req, q.2 = Some req -> er_token req = raw) reqs ->
  Forall (guar (keeps_token (hashToken x raw))) others ->
  rtc pstep (db, map (fun q => Enroll x q.1.1.1 q.1.1.2 q.1.2 q.2) reqs ++ others) (db', pool) ->
  i < length reqs -> j < length reqs ->
  pool !! i = Some (PStop ri) -> pool !! j = Some (PStop rj) ->
  is_enrolled ri = true -> is_enrolled rj = true -> i = j.
Proof.
  intros Hu Hreqs Hothers Hs Hi Hj.
  set (c := (db, _)) in Hs.
  apply (one_winner hash_unique (token_spent (hashToken x raw)) is_enrolled (length reqs) c (db', pool) i j ri rj);
    [exact Hu| | |exact Hs|done|done].
  - simpl. apply Forall_app. split; [|exact Hothers]. apply Forall_map, Forall_forall. intros q _. apply Enroll_tokens.
  - simpl. intros k p Hk Hp. rewrite lookup_app_l in Hp by (by rewrite length_map).
    apply list_lookup_fmap_Some in Hp as (q & -> & Hq). apply Enroll_fresh.
    rewrite Forall_forall in Hreqs. apply Hreqs. by eapply list_elem_of_lookup_2.
Qed.
