(* ===== verification/AgentAuth.v ===== *)
(** * Authentication of agents

    [server/auth/mtls.go] (the client-certificate middleware),
    [server/auth/proxy.go] (the header sanitizer in front of it) and
    [server/api/renew.go] (certificate renewal). *)

From stdpp Require Import relations.
From S2P Require Import Prelude Prog Models JobState Database Scope Quota JobSteps JobsApi Enrollment.

(** ** server/auth/mtls.go *)

(** What the middleware reads of an [x509.Certificate]; the serial number is in
    hexadecimal. *)
Record PeerCert := {
  pc_common_name : string;
  pc_serial : string;
  pc_not_before : Z;
  pc_not_after : Z;
}.

(** Library functions the header fallback calls. *)
Record HeaderLib := {
  query_unescape : string -> option string;
  hdr_pem_decode : string -> option string;
  parse_certificate : string -> option PeerCert;
  verify_chain : PeerCert -> bool;
}.

(** [None] is an error, [Some None] is nil without an error (no header). *)
Definition certFromHeader (lib : HeaderLib) (raw : string) : option (option PeerCert) :=
  if raw =s "" then Some None
  else
    let decoded := default raw (query_unescape lib raw) in
    match hdr_pem_decode lib decoded with
    | None => None
    | Some block =>
        match parse_certificate lib block with
        | None => None
        | Some cert => if verify_chain lib cert then Some (Some cert) else None
        end
    end.

Record AgentRequest := {
  ar_peer_certs : list PeerCert;       (* r.TLS.PeerCertificates; empty also for r.TLS = nil *)
  ar_client_cert_header : string;      (* X-Client-Cert *)
}.

(** The certificate the middleware goes on with. *)
Definition client_cert (lib : HeaderLib) (caPool : bool) (r : AgentRequest) : option PeerCert :=
  match ar_peer_certs r with
  | c :: _ => Some c
  | [] => if caPool then match certFromHeader lib (ar_client_cert_header r) with Some c => c | None => None end
          else None
  end.

(** [SELECT d.tenant_id, d.status, ac.revoked_at FROM devices d JOIN
    agent_certificates ac ON ac.device_id = d.id WHERE d.id = $1 AND
    ac.serial_number = $2]. *)
Definition find_identity (agentID serial : string) (db : DB) : option (string * string * option Z) :=
  d ← devices db !! agentID;
  c ← head (select_where (fun _ c => (crt_device c =s agentID) && (crt_serial_number c =s serial))
              (agent_certificates db));
  Some (dev_tenant d, dev_status d, crt_revoked_at c.2).

Definition as_agent (ctx : Ctx) (agentID tenantID : string) : Ctx :=
  {| ctx_tenant := tenantID; ctx_agent := agentID; ctx_user := ctx_user ctx; ctx_is_admin := ctx_is_admin ctx;
     ctx_scope := ctx_scope ctx; ctx_permissions := ctx_permissions ctx |}.

Definition MTLS {A : Type} (lib : HeaderLib) (caPool : bool) (next : Ctx -> Handler A) (ctx : Ctx) (r : AgentRequest)
    : Handler A :=
  match client_cert lib caPool r with
  | None => stop (ErrorWithCode 401 "missing_cert" (Lit "client certificate required"))
  | Some cert =>
      if pc_common_name cert =s "" then
        stop (ErrorWithCode 401 "no_agent_id" (Lit "certificate missing agent identity"))
      else
        now ← time_now;
        if (now <? pc_not_before cert)%Z || (pc_not_after cert <? now)%Z
        then stop (ErrorWithCode 401 "cert_expired" (Lit "certificate expired"))
        else
          row ← query_row (find_identity (pc_common_name cert) (pc_serial cert));
          match row with
          | NoRows => stop (ErrorWithCode 401 "unknown_device" (Lit "unknown device or certificate"))
          | DbErr => stop (ErrorWithCode 500 "" (Lit "internal error"))
          | Row (tenantID, status, revokedAt) =>
              if match revokedAt with Some _ => true | None => false end
              then stop (ErrorWithCode 401 "cert_revoked" (Lit "certificate revoked"))
              else if status =s "revoked"
              then stop (ErrorWithCode 401 "device_revoked" (Lit "device revoked"))
              else next (as_agent ctx (pc_common_name cert) tenantID)
          end
  end.

(** ** server/auth/proxy.go *)

(** Networks and addresses are parsed by [net]. *)
Record NetLib := {
  Network : Type;
  parse_cidr : string -> option Network;
  host_of : string -> option string;     (* net.SplitHostPort *)
  parse_ip : string -> option string;
  contains : Network -> string -> bool;
}.

(** The loop of [NewProxyCertSanitizer]; [None] is an error. *)
Fixpoint parse_trusted (net : NetLib) (raws : list string) (acc : list (Network net)) : option (list (Network net)) :=
  match raws with
  | [] => Some acc
  | raw :: raws' =>
      let raw := TrimSpace raw in
      if raw =s "" then parse_trusted net raws' acc
      else match parse_cidr net raw with
           | None => None
           | Some n => parse_trusted net raws' (acc ++ [n])
           end
  end.

Definition NewProxyCertSanitizer (net : NetLib) (cidrs : string) : option (list (Network net)) :=
  parse_trusted net (split_comma cidrs) [].

Definition isTrusted (net : NetLib) (trusted : list (Network net)) (remoteAddr : string) : bool :=
  match parse_ip net (default remoteAddr (host_of net remoteAddr)) with
  | None => false
  | Some ip => existsb (fun n => contains net n ip) trusted
  end.

Definition Sanitize (net : NetLib) (trusted : list (Network net)) (remoteAddr : string) (r : AgentRequest)
    : AgentRequest :=
  if negb (ar_client_cert_header r =s "") && negb (isTrusted net trusted remoteAddr)
  then {| ar_peer_certs := ar_peer_certs r; ar_client_cert_header := "" |}
  else r.

(** ** server/api/renew.go *)

(** [UPDATE agent_certificates SET revoked_at, revocation_reason WHERE device_id
    = $2 AND id <> $3 AND revoked_at IS NULL]. *)
Definition superseded (agentID certID : string) (id : string) (c : AgentCertificate) : bool :=
  (crt_device c =s agentID) && negb (id =s certID)
  && match crt_revoked_at c with None => true | Some _ => false end.

Definition revoke_cert (now : Z) (reason : string) (c : AgentCertificate) : AgentCertificate :=
  {| crt_device := crt_device c; crt_serial_number := crt_serial_number c; crt_fingerprint := crt_fingerprint c;
     crt_issued_at := crt_issued_at c; crt_expires_at := crt_expires_at c;
     crt_revoked_at := Some now; crt_revocation_reason := Some reason |}.

Definition sql_supersede (agentID certID : string) (now : Z) (db : DB) : option DB :=
  Some (set_agent_certificates (update_where (superseded agentID certID)
          (revoke_cert now "superseded_by_renewal") (agent_certificates db)) db).

Definition Renew (x : X509) (audit : bool) (method : string) (ctx : Ctx) (body : option string) : Handler unit :=
  if negb (method =s "POST") then stop (Error 405 "method not allowed")
  else if ctx_agent ctx =s "" then stop (Error 401 "agent identity required")
  else match body with
  | None => stop (Error 400 "invalid request body")
  | Some csr =>
      if csr =s "" then stop (Error 400 "csr is required")
      else
        sg ← SignCSR x csr (ctx_agent ctx) defaultCertValidity;
        match sg with
        | None => stop (Error 400 "invalid CSR")
        | Some sg =>
            now ← time_now;
            certID ← new_id "crt";
            begin ← query (fun _ => tt);
            match begin with
            | None => stop (Error 500 "failed to store certificate")
            | Some _ =>
                r ← transact_obs [insert_cert certID (new_cert (ctx_agent ctx) sg now);
                                  sql_supersede (ctx_agent ctx) certID now]
                      (fun db => count_where (superseded (ctx_agent ctx) certID) (agent_certificates db));
                match r with
                | inr _ => stop (Error 500 "failed to store certificate")
                | inl affected =>
                    _ ← (if audit then
                           LogAction (ctx_tenant ctx) (ctx_agent ctx) ActorTypeAgent "cert.renew" "agent_certificate" certID
                             [("cert_serial", sg_serial sg); ("superseded_certs", pretty affected);
                              ("revocation_reason", "superseded_by_renewal")]
                         else mret tt);
                    stop (JSON 200 (BRenew (sg_pem sg) (CAChainPEM x)))
                end
            end
        end
  end.

(** ** Lemmas *)

Definition live (a : string) (db : DB) (id : string) (c : AgentCertificate) : Prop :=
  agent_certificates db !! id = Some c /\ crt_device c = a /\ crt_revoked_at c = None.

Lemma find_identity_Some a serial db T st rev :
  find_identity a serial db = Some (T, st, rev) ->
  exists d id c, devices db !! a = Some d /\ dev_tenant d = T /\ dev_status d = st
    /\ agent_certificates db !! id = Some c /\ crt_device c = a /\ crt_serial_number c = serial
    /\ crt_revoked_at c = rev.
Proof.
  unfold find_identity. intros (d & Hd & ([id c] & Hc & [= <- <- <-])%bind_Some)%bind_Some.
  apply head_select_where in Hc as [Hc Hp]. reflect_bools. eauto 10.
Qed.

(** The certificates after a committed renewal. *)
Definition renewed (a certID : string) (sg : Signed) (now : Z) (certs : gmap string AgentCertificate)
    : gmap string AgentCertificate :=
  update_where (superseded a certID) (revoke_cert now "superseded_by_renewal")
    (<[certID := new_cert a sg now]> certs).

Lemma renew_rg (E : Env -> Prop) x audit method ctx body db (Q : Response + unit -> DB -> Prop) :
  (forall r, resp_status r <> 200%Z -> Q (inl r) db) ->
  (forall csr certID sg now s, body = Some csr -> issued x csr (ctx_agent ctx) defaultCertValidity sg ->
     ctx_agent ctx <> "" -> agent_certificates db !! certID = None ->
     (forall k c, agent_certificates db !! k = Some c -> crt_serial_number c <> sg_serial sg) ->
     devices s = devices db -> agent_certificates s = renewed (ctx_agent ctx) certID sg now (agent_certificates db) ->
     Q (inl (JSON 200 (BRenew (sg_pem sg) (CAChainPEM x)))) s) ->
  rg E (=) (fun _ _ => True) (Renew x audit method ctx body) Q db.
Proof.
  intros Hno Hyes. unfold Renew. case_match; [by apply Hno|]. case_match eqn:Ea; [by apply Hno|].
  reflect_bools. destruct body as [csr|]; [|by apply Hno]. case_match; [by apply Hno|].
  rg_step. apply SignCSR_rg; [done|by apply Hno|]. intros sg Hsg.
  do 6 rg_step; [intros _; by apply Hno|]. rg_step. apply rg_transact_obs.
  intros s1 e _ <-. destruct (tx_run _ 0 _ db) as [db'|n] eqn:Htx; split; try done; [|by apply Hno].
  apply tx_run_inl in Htx. simpl in Htx. apply bind_Some in Htx as (db1 & Hc & Hs).
  apply insert_cert_Some in Hc as (Hn & Hser & ->). injection Hs as <-.
  apply audit_stop_rg. intros l. by eapply Hyes.
Qed.

Lemma lookup_renewed a certID sg now certs id c' :
  renewed a certID sg now certs !! id = Some c' ->
  (id = certID /\ c' = new_cert a sg now) \/
  (id <> certID /\ exists c, certs !! id = Some c /\
     c' = if superseded a certID id c then revoke_cert now "superseded_by_renewal" c else c).
Proof.
  unfold renewed. rewrite lookup_update_where. destruct (decide (id = certID)) as [->|Hne].
  - rewrite lookup_insert_eq. unfold superseded. simpl. rewrite !seqb_refl. simpl. intros [= <-]. auto.
  - rewrite lookup_insert_ne by done. destruct (certs !! id) as [c|] eqn:Hc; [|done].
    intros [= <-]. right. eauto.
Qed.

(** After a renewal the agent's only live certificate is the new one. *)
Lemma renewed_only_live a certID sg now certs id c :
  renewed a certID sg now certs !! id = Some c -> crt_device c = a -> crt_revoked_at c = None ->
  id = certID /\ c = new_cert a sg now.
Proof.
  intros [[-> ->]|(Hne & c0 & Hc0 & ->)]%lookup_renewed Hd Hr; [done|].
  unfold superseded in *. apply seqb_neq in Hne. rewrite Hne in *.
  destruct (crt_device c0 =s a) eqn:Ed; simpl in *; [|by apply seqb_neq in Ed].
  by destruct (crt_revoked_at c0) eqn:Er; rewrite ?Er in Hr.
Qed.

(** A certificate recorded under a serial number no other row has. *)
Lemma find_identity_unique a serial db d id c :
  devices db !! a = Some d -> agent_certificates db !! id = Some c -> crt_device c = a ->
  crt_serial_number c = serial ->
  (forall k c', agent_certificates db !! k = Some c' -> crt_serial_number c' = serial -> c' = c) ->
  find_identity a serial db = Some (dev_tenant d, dev_status d, crt_revoked_at c).
Proof.
  intros Hd Hc Hdev Hser Huniq. unfold find_identity. rewrite Hd. simpl.
  set (p := fun (_ : string) c0 => (crt_device c0 =s a) && (crt_serial_number c0 =s serial)).
  assert ((id, c) ∈ select_where p (agent_certificates db)) as Hin.
  { apply elem_of_select_where. split; [done|]. unfold p. by rewrite Hdev, Hser, !seqb_refl. }
  destruct (head (select_where p (agent_certificates db))) as [[k c']|] eqn:Eh.
  - simpl. apply head_select_where in Eh as [Hk Hp]. unfold p in Hp. reflect_bools.
    by rewrite (Huniq k c').
  - destruct (select_where _ _); [by apply elem_of_nil in Hin|done].
Qed.

(** A certificate without a live row, or of a revoked device, is refused. *)
Lemma MTLS_refused {A : Type} lib caPool (next : Ctx -> Handler A) env ctx req db cert :
  client_cert lib caPool req = Some cert ->
  (forall d id c, devices db !! pc_common_name cert = Some d -> live (pc_common_name cert) db id c ->
     crt_serial_number c = pc_serial cert -> dev_status d = "revoked") ->
  exists r, run_result (MTLS lib caPool next ctx req) env db = inl r /\ (401 <= resp_status r)%Z.
Proof.
  intros Hcert Hlive. unfold run_result, MTLS. rewrite Hcert. case_match; [by eexists|]. simpl.
  destruct (_ || _); [by eexists|]. simpl. destruct (e_fault (env 1)); [by eexists|].
  destruct (find_identity _ _ db) as [[[T st] rev]|] eqn:Hf; [|by eexists].
  apply find_identity_Some in Hf as (d & id & c & Hd & <- & <- & Hc & Hcd & Hcs & <-). simpl.
  destruct (crt_revoked_at c) eqn:Hr; [by eexists|].
  rewrite (Hlive d id c Hd) by (done || by split_and!). by eexists.
Qed.

(** A certificate the server accepts for device [id] of tenant [T]. *)
Definition valid_identity (id : string) (cert : PeerCert) (T : string) (db : DB) : Prop :=
  pc_common_name cert = id /\ id <> "" /\
  exists st, find_identity id (pc_serial cert) db = Some (T, st, None) /\ st <> "revoked".

Lemma MTLS_passes {A : Type} lib caPool (next : Ctx -> Handler A) env n ctx req db id cert T :
  valid_identity id cert T db -> client_cert lib caPool req = Some cert ->
  (pc_not_before cert <= e_now (env n) <= pc_not_after cert)%Z -> e_fault (env (S n)) = false ->
  run (MTLS lib caPool next ctx req) env n db = run (next (as_agent ctx id T)) env (S (S n)) db.
Proof.
  intros (Hcn & Hne & st & Hf & Hst) Hcert Hnow Hok. unfold MTLS. rewrite Hcert, Hcn.
  apply seqb_neq in Hne as ->. simpl. rewrite (proj2 (Z.ltb_ge _ _)), (proj2 (Z.ltb_ge _ _)) by lia. simpl.
  rewrite Hok, Hf. simpl. by apply seqb_neq in Hst as ->.
Qed.

(** As a triple: an identity that does not hold is refused, one that holds may
    reach the handler. *)
Lemma MTLS_rg (E : Env -> Prop) lib caPool next ctx req db cert (Q : Response + unit -> DB -> Prop) :
  client_cert lib caPool req = Some cert ->
  (forall r, resp_status r <> 200%Z -> Q (inl r) db) ->
  (forall T, valid_identity (pc_common_name cert) cert T db ->
     rg E (=) (fun _ _ => True) (next (as_agent ctx (pc_common_name cert) T)) Q db) ->
  rg E (=) (fun _ _ => True) (MTLS lib caPool next ctx req) Q db.
Proof.
  intros Hcert Hno Hyes. unfold MTLS. rewrite Hcert. case_match eqn:Ecn; [by apply Hno|]. reflect_bools.
  do 2 rg_step. case_match; [by apply Hno|]. do 2 rg_step; [intros _; by apply Hno|].
  destruct (find_identity _ _ db) as [[[T st] rev]|] eqn:Hf; [|by apply Hno].
  destruct rev; [by apply Hno|]. case_match eqn:Est; [by apply Hno|]. reflect_bools.
  apply Hyes. split_and!; try done. by exists st.
Qed.

(** Enrollment, with the identity a success creates. *)
Lemma enroll_rg (E : Env -> Prop) x audit quota method body db (Q : Response + unit -> DB -> Prop) :
  (forall r s, resp_status r <> 200%Z -> fleet s = fleet db -> Q (inl r) s) ->
  (forall req d sg dv s, body = Some req -> (hash_unique db -> token_spent (hashToken x (er_token req)) s) ->
     issued x (er_csr req) d defaultCertValidity sg -> devices s !! d = Some dv ->
     find_identity d (sg_serial sg) s = Some (dev_tenant dv, DeviceStatusOnline, None) ->
     Q (inl (JSON 200 (BEnroll d (sg_pem sg) (CAChainPEM x) 30))) s) ->
  rg E (=) (fun _ _ => True) (Enroll x audit quota method body) Q db.
Proof.
  intros Hno Hyes. unfold Enroll.
  case_match; [by apply Hno|]. destruct body as [req|]; [|by apply Hno]. case_match; [by apply Hno|].
  rg_step. unfold ValidateAndConsume. do 4 rg_step; [intros _; by apply Hno|]. unfold sql_consume. cbv beta iota. split; [done|].
  destruct (head _) as [[tid tk]|] eqn:Eh; simpl fmap; cbv beta iota; [|rg_step; by apply Hno].
  apply head_select_where in Eh as [Ht Hv]. rg_step.
  destruct (load_token _) as [token|]; [|by apply Hno].
  apply enroll_device_rg; [intros r s Hr Hf; by apply Hno|].
  intros d cid sg now s Hd Hc _ _ Hser Hsg Htok Hf.
  assert (devices s = <[d := new_device (tk_tenant token) req now]> (devices db) /\
          agent_certificates s = <[cid := new_cert d sg now]> (agent_certificates db)) as [Hsd Hsc].
  { unfold fleet in Hf. injection Hf as -> _ _ _ ->. by destruct (tk_scope token). }
  eapply (Hyes req d sg (new_device (tk_tenant token) req now)); [done| |done|by rewrite Hsd, lookup_insert_eq|].
  - intros Hu. destruct (consume_spends _ _ _ _ _ Hu Ht Hv) as [_ Hsp]. intros i t0 Hi. rewrite Htok in Hi. by apply (Hsp i t0).
  - apply (find_identity_unique d (sg_serial sg) s (new_device (tk_tenant token) req now) cid (new_cert d sg now));
      try done; [by rewrite Hsd, lookup_insert_eq|by rewrite Hsc, lookup_insert_eq|].
    intros k c'. rewrite Hsc. intros [[-> <-]|[Hk Hck]]%lookup_insert_Some Hs'; [done|]. by destruct (Hser k c' Hck).
Qed.

(** ** Properties *)

(** The middleware at any point of a run. *)
Lemma MTLS_cases {A : Type} lib caPool (next : Ctx -> Handler A) env n ctx req db :
  let out := run (MTLS lib caPool next ctx req) env n db in
  (exists r, out = (db, out.1.2, inl r) /\ (401 <= resp_status r)%Z) \/
  (exists cert d id c now,
     client_cert lib caPool req = Some cert /\ (pc_not_before cert <= now <= pc_not_after cert)%Z
     /\ devices db !! pc_common_name cert = Some d /\ dev_status d <> "revoked"
     /\ live (pc_common_name cert) db id c /\ crt_serial_number c = pc_serial cert
     /\ out = run (next (as_agent ctx (pc_common_name cert) (dev_tenant d))) env (S (S n)) db).
Proof.
  cbv zeta. unfold MTLS. destruct (client_cert lib caPool req) as [cert|]; [|left; by eexists].
  case_match; [left; by eexists|]. simpl.
  destruct (_ || _) eqn:Et; [left; by eexists|]. apply orb_false_iff in Et as [Hb Ha]. simpl.
  destruct (e_fault (env (S n))); [left; by eexists|].
  destruct (find_identity _ _ db) as [[[T st] rev]|] eqn:Hf; [|left; by eexists].
  apply find_identity_Some in Hf as (d & id & c & Hd & <- & <- & Hc & Hcd & Hcs & <-). simpl.
  destruct (crt_revoked_at c) eqn:Hr; [left; by eexists|].
  destruct (dev_status d =s "revoked") eqn:Hs; [left; by eexists|]. reflect_bools. right.
  exists cert, d, id, c, (e_now (env n)). unfold live. split_and!; try done; lia.
Qed.

(** The client-certificate middleware lets a request through to the handler only
    with a certificate that is within its validity, recorded for the device its
    common name names, unrevoked, of a device that is not revoked; the handler
    then runs with that device as its agent and the device's tenant as its
    tenant.  Every other request is answered with an error and changes nothing. *)
Theorem mtls_sound {A : Type} lib caPool (next : Ctx -> Handler A) env ctx req db :
  (exists r, run (MTLS lib caPool next ctx req) env 0 db = (db, (run (MTLS lib caPool next ctx req) env 0 db).1.2, inl r)
     /\ (401 <= resp_status r)%Z) \/
  (exists cert d id c now,
     client_cert lib caPool req = Some cert /\ (pc_not_before cert <= now <= pc_not_after cert)%Z
     /\ devices db !! pc_common_name cert = Some d /\ dev_status d <> "revoked"
     /\ live (pc_common_name cert) db id c /\ crt_serial_number c = pc_serial cert
     /\ run (MTLS lib caPool next ctx req) env 0 db
        = run (next (as_agent ctx (pc_common_name cert) (dev_tenant d))) env 2 db).
Proof. apply MTLS_cases. Qed.

(** Renewal, whatever database accesses fail: after a 200 the agent has exactly
    one unrevoked certificate, the one just issued, and certificates of other
    devices are untouched; after any other answer all certificates are. *)
Theorem renew_supersedes x audit method env ctx body db :
  let r := run_result (Renew x audit method ctx body) env db in
  let db' := run_store (Renew x audit method ctx body) env db in
  (exists csr certID sg now, r = inl (JSON 200 (BRenew (sg_pem sg) (CAChainPEM x)))
     /\ body = Some csr /\ issued x csr (ctx_agent ctx) defaultCertValidity sg
     /\ agent_certificates db !! certID = None
     /\ (forall id c, live (ctx_agent ctx) db' id c <-> id = certID /\ c = new_cert (ctx_agent ctx) sg now)
     /\ (forall id c, crt_device c <> ctx_agent ctx ->
           agent_certificates db' !! id = Some c <-> agent_certificates db !! id = Some c)) \/
  (exists resp, r = inl resp /\ resp_status resp <> 200%Z /\ db' = db).
Proof.
  intros r db'. unfold r, db'. by_rg any_env (fun _ _ : DB => True); [done|].
  apply renew_rg; [intros resp Hr; right; by eexists|].
  intros csr certID sg now s Hb Hsg Ha Hn _ Hdev Hcerts. left. exists csr, certID, sg, now.
  split_and!; [done|done|done|done| |].
  - intros id c. unfold live. rewrite Hcerts. split.
    + intros (Hc & Hd & Hr). by apply renewed_only_live in Hc.
    + intros [-> ->]. split_and!; [|done|done]. unfold renewed. rewrite lookup_update_where, lookup_insert_eq. simpl.
      unfold superseded. by rewrite !seqb_refl.
  - intros id c Hd. rewrite Hcerts. split.
    + intros [[-> ->]|(Hne & c0 & Hc0 & ->)]%lookup_renewed; [done|].
      destruct (superseded _ _ _ c0) eqn:Es; [|done]. unfold superseded in Es. by reflect_bools.
    + intros Hc. assert (id <> certID) by congruence. unfold renewed.
      rewrite lookup_update_where, lookup_insert_ne, Hc by done. simpl. unfold superseded.
      apply seqb_neq in Hd as ->. done.
Qed.

(** A stolen certificate is useless after the renewal: no request with another
    certificate of the agent than the renewed one reaches a handler. *)
Theorem renewal_locks_out x audit method env ctx body db cpem chain :
  run_result (Renew x audit method ctx body) env db = inl (JSON 200 (BRenew cpem chain)) ->
  let db' := run_store (Renew x audit method ctx body) env db in
  exists csr sg, cpem = sg_pem sg /\ issued x csr (ctx_agent ctx) defaultCertValidity sg /\
  forall lib caPool (next : Ctx -> Handler unit) env' ctx' req cert,
    client_cert lib caPool req = Some cert -> pc_common_name cert = ctx_agent ctx ->
    pc_serial cert <> sg_serial sg ->
    exists r, run_result (MTLS lib caPool next ctx' req) env' db' = inl r /\ (401 <= resp_status r)%Z.
Proof.
  intros Hres db'. revert Hres. unfold db'. by_rg any_env (fun _ _ : DB => True); [done|].
  apply renew_rg; [intros resp Hr [= ->]; done|].
  intros csr certID sg now s _ Hsg Ha Hn _ Hdev Hcerts [= <- _]. exists csr, sg. split; [done|]. split; [done|].
  intros lib caPool next env' ctx' req cert Hcert Hcn Hser. eapply MTLS_refused; [done|].
  rewrite Hcn. intros d id c _ (Hc & Hcd & Hr) Hcs. rewrite Hcerts in Hc.
  apply renewed_only_live in Hc as [-> ->]; [|congruence|done]. done.
Qed.

(** Enrollment gives a working identity: after a 200 the agent that presents the
    issued certificate within its validity is let through to every agent
    endpoint, as the new device in the device's tenant. *)
Theorem enrolled_agent_authenticates x audit quota method env body db d cpem chain poll :
  run_result (Enroll x audit quota method body) env db = inl (JSON 200 (BEnroll d cpem chain poll)) ->
  let db' := run_store (Enroll x audit quota method body) env db in
  exists csr sg dv, cpem = sg_pem sg /\ issued x csr d defaultCertValidity sg /\ devices db' !! d = Some dv /\
  forall lib caPool (next : Ctx -> Handler unit) env' ctx req cert,
    client_cert lib caPool req = Some cert -> pc_common_name cert = d -> d <> "" ->
    pc_serial cert = sg_serial sg ->
    (pc_not_before cert <= e_now (env' 0%nat) <= pc_not_after cert)%Z -> e_fault (env' 1) = false ->
    run (MTLS lib caPool next ctx req) env' 0 db' = run (next (as_agent ctx d (dev_tenant dv))) env' 2 db'.
Proof.
  intros Hres db'. revert Hres. unfold db'. by_rg any_env (fun _ _ : DB => True); [done|].
  apply enroll_rg; [intros r s Hr _ [= ->]; done|].
  intros req d' sg dv s _ _ Hsg Hd Hf [= <- <- _ _]. exists (er_csr req), sg, dv. split_and!; [done|done|done|].
  intros lib caPool next env' ctx r cert Hcert Hcn Hne Hs Hnow Hok.
  apply (MTLS_passes lib caPool next env' 0 ctx r s d' cert); try done. rewrite <-Hs in Hf. by split_and!; eauto.
Qed.

(** A certificate in the X-Client-Cert header counts only when it comes from a
    trusted proxy: without a TLS client certificate, a request from elsewhere is
    refused whatever its header says. *)
Theorem untrusted_header_refused net trusted addr lib caPool (next : Ctx -> Handler unit) ctx req env db :
  isTrusted net trusted addr = false -> ar_peer_certs req = [] ->
  run_result (MTLS lib caPool next ctx (Sanitize net trusted addr req)) env db
  = inl (ErrorWithCode 401 "missing_cert" (Lit "client certificate required")).
Proof.
  intros Ht Hp. unfold Sanitize. rewrite Ht, andb_true_r.
  unfold run_result, MTLS, client_cert.
  destruct (ar_client_cert_header req =s "") eqn:Eh; simpl; rewrite Hp.
  - unfold certFromHeader. rewrite Eh. by destruct caPool.
  - by destruct caPool.
Qed.
