(* ===== verification/Tenancy.v ===== *)
(** * Ownership of rows

    Most tables carry a [tenant_id].  [Owned] names the owner of a row, [kept]
    says that a table changed only in rows of given tenants, and [tenant_frame]
    is the same for the whole database: the relation the handlers of users are
    proved to stay within, whatever they are interleaved with. *)

From stdpp Require Import relations.
From S2P Require Import Prelude Prog Models Database.

Class Owned (V : Type) := owner : V -> string.

#[export] Instance owned_device : Owned Device := dev_tenant.
#[export] Instance owned_container : Owned Container := ct_tenant.
#[export] Instance owned_job : Owned Job := job_tenant.
#[export] Instance owned_scheduled_job : Owned ScheduledJob := sj_tenant.
#[export] Instance owned_alert_rule : Owned AlertRule := ar_tenant.
#[export] Instance owned_user : Owned User := usr_tenant.
#[export] Instance owned_api_key : Owned APIKey := key_tenant.
#[export] Instance owned_token : Owned EnrollmentToken := tok_tenant.
#[export] Instance owned_signing_key : Owned SigningKey := sgk_tenant.
#[export] Instance owned_file : Owned File := fil_tenant.
#[export] Instance owned_upload : Owned FileUpload := upl_tenant.
#[export] Instance owned_policy : Owned AgentUpdatePolicy := aup_tenant.
#[export] Instance owned_rollout : Owned Rollout := ro_tenant.
#[export] Instance owned_log : Owned DeviceLog := dl_tenant.

(** ** One table *)

Section Kept.
Context (P : string -> Prop) {V : Type} `{!Owned V}.

(** Every row that changed, appeared or went belongs to a tenant in [P]. *)
Definition kept : relation (gmap string V) := fun t t' =>
  forall k, t' !! k = t !! k \/
    (forall v, t !! k = Some v -> P (owner v)) /\ (forall v, t' !! k = Some v -> P (owner v)).

#[export] Instance kept_preorder : PreOrder kept.
Proof.
  split; [by left|]. intros t1 t2 t3 H12 H23 k.
  destruct (H12 k) as [E12|[??]], (H23 k) as [E23|[??]].
  - left. congruence.
  - right. rewrite <-E12. auto.
  - right. rewrite E23. auto.
  - auto.
Qed.

Lemma kept_insert k v t t' : insert_new k v t = Some t' -> P (owner v) -> kept t t'.
Proof.
  intros [Hn ->]%insert_new_Some Hv k'. destruct (decide (k' = k)) as [->|Hne].
  - right. rewrite Hn, lookup_insert_eq. split; intros ? [=]. by subst.
  - left. by rewrite lookup_insert_ne.
Qed.

Lemma kept_put k v t : (forall v', t !! k = Some v' -> P (owner v')) -> P (owner v) -> kept t (<[k := v]> t).
Proof.
  intros Hv' Hv k'. destruct (decide (k' = k)) as [->|Hne].
  - right. rewrite lookup_insert_eq. split; [done|]. intros ? [=]. by subst.
  - left. by rewrite lookup_insert_ne.
Qed.

Lemma kept_update p f t :
  (forall k v, t !! k = Some v -> p k v = true -> P (owner v) /\ owner (f v) = owner v) ->
  kept t (update_where p f t).
Proof.
  intros Hp k. rewrite lookup_update_where. destruct (t !! k) as [v|] eqn:Hk; [|by left]. simpl.
  destruct (p k v) eqn:E; [|by left]. destruct (Hp k v Hk E) as [Hv Ho].
  right. split; intros ? [= <-]; [done|by rewrite Ho].
Qed.

Lemma kept_delete p t :
  (forall k v, t !! k = Some v -> p k v = true -> P (owner v)) -> kept t (delete_where p t).
Proof.
  intros Hp k. destruct (t !! k) as [v|] eqn:Hk.
  - destruct (p k v) eqn:E.
    + right. split; [intros ? [= <-]; eauto|]. intros v' [Hv' Hf]%lookup_delete_where. simplify_eq. congruence.
    + left. by apply lookup_delete_where.
  - left. apply eq_None_not_Some. intros [v' [Hv' _]%lookup_delete_where]. congruence.
Qed.

(** A row of another tenant is still there, and none appeared. *)
Lemma kept_foreign t t' k v : kept t t' -> ~ P (owner v) -> (t' !! k = Some v <-> t !! k = Some v).
Proof. intros H Hv. destruct (H k) as [->|[H1 H2]]; [done|]. split; intros Hk; exfalso; eauto. Qed.
End Kept.

(** ** The database *)

Section Frame.
Context (P : string -> Prop).

(** The device, if it exists, belongs to a tenant in [P]. *)
Definition mine (db : DB) (d : string) : Prop := forall dv, devices db !! d = Some dv -> P (dev_tenant dv).

Definition certs_kept (a b : DB) : Prop :=
  forall k, agent_certificates b !! k = agent_certificates a !! k \/
    (forall c, agent_certificates a !! k = Some c -> mine a (crt_device c)) /\
    (forall c, agent_certificates b !! k = Some c -> mine a (crt_device c)).

(** Everything a tenant owns, the memberships of devices apart; roles, agent
    versions with their binaries and installers stay as they are. *)
Record tenant_frame (a b : DB) : Prop := {
  tf_tenants : forall k, tenants b !! k = tenants a !! k \/ P k;
  tf_users : kept P (users a) (users b);
  tf_roles : roles b = roles a;
  tf_api_keys : kept P (api_keys a) (api_keys b);
  tf_devices : kept P (devices a) (devices b);
  tf_groups : kept P (groups a) (groups b);
  tf_tags : kept P (tags a) (tags b);
  tf_sites : kept P (sites a) (sites b);
  tf_hardware : inventory_hardware b = inventory_hardware a;
  tf_packages : inventory_packages b = inventory_packages a;
  tf_jobs : kept P (jobs a) (jobs b);
  tf_results : job_results b = job_results a;
  tf_scheduled : kept P (scheduled_jobs a) (scheduled_jobs b);
  tf_rules : kept P (alert_rules a) (alert_rules b);
  tf_certs : certs_kept a b;
  tf_tokens : kept P (enrollment_tokens a) (enrollment_tokens b);
  tf_signing_keys : kept P (signing_keys a) (signing_keys b);
  tf_files : kept P (files a) (files b);
  tf_uploads : kept P (file_uploads a) (file_uploads b);
  tf_versions : agent_versions b = agent_versions a;
  tf_binaries : agent_version_binaries b = agent_version_binaries a;
  tf_installers : installers b = installers a;
  tf_policies : kept P (agent_update_policies a) (agent_update_policies b);
  tf_rollouts : kept P (agent_rollouts a) (agent_rollouts b);
  tf_logs : kept P (device_logs a) (device_logs b);
  tf_audit : exists l, audit_log b = audit_log a ++ l /\ Forall (fun e => P (au_tenant e)) l;
}.

Lemma mine_back a b d : kept P (devices a) (devices b) -> mine b d -> mine a d.
Proof.
  intros Hk Hb dv Hd. destruct (Hk d) as [E|[H1 _]]; [|by apply H1]. apply Hb. by rewrite E.
Qed.

Lemma certs_kept_trans a b c :
  kept P (devices a) (devices b) -> certs_kept a b -> certs_kept b c -> certs_kept a c.
Proof.
  intros Hd H12 H23 k. destruct (H12 k) as [E12|[??]], (H23 k) as [E23|[H3 H4]].
  - left. congruence.
  - right. rewrite <-E12. split; intros; eapply mine_back; eauto.
  - right. rewrite E23. auto.
  - right. split; [auto|]. intros; eapply mine_back; eauto.
Qed.

#[export] Instance tenant_frame_preorder : PreOrder tenant_frame.
Proof.
  split.
  - intros a. split; try reflexivity; [by left|by left|]. exists []. by rewrite app_nil_r.
  - intros a b c H12 H23. destruct H12, H23.
    split; try (by etrans); try congruence; [|by eapply certs_kept_trans|].
    + intros k. destruct (tf_tenants0 k), (tf_tenants1 k); [left; congruence|auto..].
    + destruct tf_audit0 as (l1 & E1 & F1), tf_audit1 as (l2 & E2 & F2).
      exists (l1 ++ l2). rewrite E2, E1, app_assoc. split; [done|]. by apply Forall_app.
Qed.

(** An audit entry of the tenant. *)
Lemma insert_audit_frame e a b : insert_audit e a = Some b -> P (au_tenant e) -> tenant_frame a b.
Proof.
  intros ->%insert_audit_Some He. split; simpl; try reflexivity; [by left..|]. exists [e]. auto.
Qed.

Lemma LogAction_frame {R : Type} T u at' ac rt ri m :
  P T -> guar tenant_frame (LogAction T u at' ac rt ri m : prog DB R unit).
Proof.
  intros HT. unfold LogAction, Log. guar_all. intros Hx%stmt_opt_Some. by eapply insert_audit_frame.
Qed.

(** A membership is outside the frame. *)
Lemma groups_frame x a : tenant_frame a (set_device_groups x a).
Proof. split; simpl; try reflexivity; [by left..|]. exists []. by rewrite app_nil_r. Qed.
Lemma tags_frame x a : tenant_frame a (set_device_tags x a).
Proof. split; simpl; try reflexivity; [by left..|]. exists []. by rewrite app_nil_r. Qed.
Lemma sites_frame x a : tenant_frame a (set_device_sites x a).
Proof. split; simpl; try reflexivity; [by left..|]. exists []. by rewrite app_nil_r. Qed.
End Frame.

#[export] Hint Resolve LogAction_frame : moebius.

(** A statement that changed one table: what is left is that table. *)
Ltac frame_table :=
  split; simpl; try reflexivity;
  try (by left); try (exists []; rewrite app_nil_r; by split).
