(* ===== verification/Fleet.v ===== *)
(** * The fleet: devices, groups, sites, tags, tenants

    [server/api/devices.go], [groups.go], [sites.go], [tags.go], [tenants.go],
    [inventory.go] and [device_rollback.go] with the stores behind them
    ([server/store/devices.go], [groups.go], [sites.go], [tags.go],
    [tenants.go]).  Groups, sites and tags are three copies of the same code:
    [Kind] holds what differs, and each operation is an instance. *)

From stdpp Require Import relations.
From S2P Require Import Prelude Prog Models JobState Database Scope Quota JobSteps JobsApi AgentAuth Tenancy.

(** PostgreSQL's [text ILIKE pattern], whose case folding depends on the locale. *)
Definition Ilike := string -> string -> bool.

Definition audited (audit : bool) (ctx : Ctx) (action rtype rid : string) (meta : list (string * string)) : Handler unit :=
  if audit then LogAction (ctx_tenant ctx) (ctx_user ctx) ActorTypeUser action rtype rid meta else mret tt.

(** ** server/store/devices.go *)

Record DeviceFilters := {
  df_status : string;
  df_group_id : string;
  df_tag_id : string;
  df_site_id : string;
  df_os : string;
  df_search : string;
  df_scope_device_ids : list string;
}.

(** One optional clause of the query. *)
Definition clause (v : string) (test : bool) : bool := (v =s "") || test.

Definition device_matches (ilike : Ilike) (tenantID : string) (f : DeviceFilters) (db : DB) (id : string) (d : Device) : bool :=
  (dev_tenant d =s tenantID)
  && (negb (nonempty (df_scope_device_ids f)) || bool_decide (id ∈ df_scope_device_ids f))
  && clause (df_group_id f) (bool_decide ((id, df_group_id f) ∈ device_groups db))
  && clause (df_tag_id f) (bool_decide ((id, df_tag_id f) ∈ device_tags db))
  && clause (df_site_id f) (bool_decide ((id, df_site_id f) ∈ device_sites db))
  && clause (df_os f) (dev_os d =s df_os f)
  && clause (df_search f) (ilike (dev_hostname d) (String.append "%" (String.append (df_search f) "%")))
  && clause (df_status f) (dev_status d =s df_status f).

(** The columns of the list queries: all but [sequence_last]. *)
Definition list_columns (d : Device) : Device :=
  {| dev_tenant := dev_tenant d; dev_hostname := dev_hostname d; dev_os := dev_os d;
     dev_os_version := dev_os_version d; dev_arch := dev_arch d; dev_agent_version := dev_agent_version d;
     dev_status := dev_status d; dev_last_seen_at := dev_last_seen_at d; dev_registered_at := dev_registered_at d;
     dev_cdm_enabled := dev_cdm_enabled d; dev_cdm_session_active := dev_cdm_session_active d;
     dev_cdm_session_expires_at := dev_cdm_session_expires_at d; dev_sequence_last := 0 |}.

Definition registered_desc (a b : string * Device) : Prop := (dev_registered_at b.2 <= dev_registered_at a.2)%Z.
#[export] Instance registered_desc_dec : RelDecision registered_desc.
Proof. intros a b. unfold registered_desc. apply _. Defined.

Definition select_devices (ilike : Ilike) (tenantID : string) (f : DeviceFilters) (db : DB) : list (string * Device) :=
  map (fun kv => (kv.1, list_columns kv.2))
    (take 100 (merge_sort registered_desc (select_where (device_matches ilike tenantID f db) (devices db)))).

Definition ListDevices {R : Type} (ilike : Ilike) (tenantID : string) (f : DeviceFilters)
    : prog DB R (option (list (string * Device))) := query (select_devices ilike tenantID f).

Definition find_device (tenantID deviceID : string) (db : DB) : option Device :=
  d ← devices db !! deviceID; if dev_tenant d =s tenantID then Some d else None.

(** [SELECT g.name FROM groups g JOIN device_groups dg ON dg.group_id = g.id
    WHERE dg.device_id = $1] and its like; an error leaves the field empty. *)
Definition names_of (table : gmap string Container) (rel : gset (string * string)) (deviceID : string) : list string :=
  omap (fun dp : string * string => if dp.1 =s deviceID then ct_name <$> table !! dp.2 else None) (elements rel).

Record DeviceView := {
  dw_device : Device;
  dw_groups : list string;
  dw_tags : list string;
  dw_sites : list string;
}.

(** [None] is an error, [Some None] a nil device. *)
Definition GetDevice {R : Type} (tenantID deviceID : string) : prog DB R (option (option DeviceView)) :=
  row ← query_row (find_device tenantID deviceID);
  match row with
  | DbErr => mret None
  | NoRows => mret (Some None)
  | Row d =>
      gs ← query (fun db => names_of (groups db) (device_groups db) deviceID);
      ts ← query (fun db => names_of (tags db) (device_tags db) deviceID);
      ss ← query (fun db => names_of (sites db) (device_sites db) deviceID);
      mret (Some (Some {| dw_device := d; dw_groups := default [] gs; dw_tags := default [] ts;
                          dw_sites := default [] ss |}))
  end.

Definition set_hostname (h : string) (d : Device) : Device :=
  {| dev_tenant := dev_tenant d; dev_hostname := h; dev_os := dev_os d;
     dev_os_version := dev_os_version d; dev_arch := dev_arch d; dev_agent_version := dev_agent_version d;
     dev_status := dev_status d; dev_last_seen_at := dev_last_seen_at d; dev_registered_at := dev_registered_at d;
     dev_cdm_enabled := dev_cdm_enabled d; dev_cdm_session_active := dev_cdm_session_active d;
     dev_cdm_session_expires_at := dev_cdm_session_expires_at d; dev_sequence_last := dev_sequence_last d |}.

Definition set_status (st : string) (d : Device) : Device :=
  {| dev_tenant := dev_tenant d; dev_hostname := dev_hostname d; dev_os := dev_os d;
     dev_os_version := dev_os_version d; dev_arch := dev_arch d; dev_agent_version := dev_agent_version d;
     dev_status := st; dev_last_seen_at := dev_last_seen_at d; dev_registered_at := dev_registered_at d;
     dev_cdm_enabled := dev_cdm_enabled d; dev_cdm_session_active := dev_cdm_session_active d;
     dev_cdm_session_expires_at := dev_cdm_session_expires_at d; dev_sequence_last := dev_sequence_last d |}.

(** [WHERE id = $1 AND tenant_id = $2]. *)
Definition own_row {V} `{!Owned V} (tenantID rowID : string) (id : string) (v : V) : bool :=
  (id =s rowID) && (owner v =s tenantID).

(** [false] is an error, also when no row matched. *)
Definition affected_rows {R : Type} (f : DB -> option (DB * nat)) : prog DB R bool :=
  r ← exec f;
  mret (match r with None => false | Some n => negb (n =? 0)%nat end).

Definition UpdateDevice {R : Type} (tenantID deviceID hostname : string) : prog DB R bool :=
  affected_rows (fun db =>
    Some (set_devices (update_where (own_row tenantID deviceID) (set_hostname hostname) (devices db)) db,
          count_where (own_row tenantID deviceID) (devices db))).

(** The three statements of [RevokeDevice]; the first fails when it affects no
    row. *)
Definition sql_revoke_device (tenantID deviceID : string) (db : DB) : option DB :=
  if (count_where (own_row tenantID deviceID) (devices db) =? 0)%nat then None
  else Some (set_devices (update_where (own_row tenantID deviceID) (set_status DeviceStatusRevoked) (devices db)) db).

Definition active_cert_of (deviceID : string) (_ : string) (c : AgentCertificate) : bool :=
  (crt_device c =s deviceID) && match crt_revoked_at c with None => true | Some _ => false end.

Definition sql_revoke_certs (deviceID reason : string) (now : Z) (db : DB) : option DB :=
  Some (set_agent_certificates (update_where (active_cert_of deviceID) (revoke_cert now reason) (agent_certificates db)) db).

Definition cancellable (tenantID deviceID : string) (_ : string) (j : Job) : bool :=
  (job_device j =s deviceID) && (job_tenant j =s tenantID)
  && ((job_status j =s JobStatusPending) || (job_status j =s JobStatusQueued) || (job_status j =s JobStatusDispatched)).

Definition sql_cancel_jobs (tenantID deviceID : string) (db : DB) : option DB :=
  Some (update_jobs (cancellable tenantID deviceID) (set_job_status JobStatusCancelled) db).

Definition revoke_statements (tenantID deviceID reason : string) (now : Z) : list (DB -> option DB) :=
  [sql_revoke_device tenantID deviceID; sql_revoke_certs deviceID reason now; sql_cancel_jobs tenantID deviceID].

Definition RevokeDevice {R : Type} (tenantID deviceID reason : string) : prog DB R bool :=
  begin ← query (fun _ => tt);
  match begin with
  | None => mret false
  | Some _ =>
      now ← time_now;
      r ← transact (revoke_statements tenantID deviceID reason now);
      mret (match r with None => true | Some _ => false end)
  end.

(** ** server/api/devices.go *)

(** The scope check that [Revoke], [Get], [Update], the tag handlers and the
    inventory view share: an error of [ResolveScope] skips it. *)
Definition in_device_scope (ctx : Ctx) (deviceID : string) (deny : Response) (k : Handler unit) : Handler unit :=
  ok ← job_in_scope ctx deviceID;
  if negb ok then stop deny else k.

Definition revoke_not_found : Response :=
  ErrorWithCode 404 "device_not_found" (Lit "Device not found or already revoked").

(** [body]: [None] is an empty body ([ContentLength <= 0]), [Some None] one that
    does not decode. *)
Definition Revoke (audit : bool) (ctx : Ctx) (deviceID : string) (body : option (option string)) : Handler unit :=
  in_device_scope ctx deviceID revoke_not_found (
    match body with
    | Some None => stop (Error 400 "invalid request body")
    | _ =>
        let given := match body with Some (Some r) => r | _ => "" end in
        let reason := if given =s "" then "operator_revoked" else given in
        ok ← RevokeDevice (ctx_tenant ctx) deviceID reason;
        if negb ok then stop revoke_not_found
        else
          _ ← audited audit ctx "device.revoke" "device" deviceID [("reason", reason)];
          stop NoContent
    end).

Definition list_filters (q : DeviceFilters) (scope_ids : list string) : DeviceFilters :=
  {| df_status := df_status q; df_group_id := df_group_id q; df_tag_id := df_tag_id q; df_site_id := df_site_id q;
     df_os := df_os q; df_search := df_search q; df_scope_device_ids := scope_ids |}.

(** [q]: the query parameters (its scope field is not read). *)
Definition ListDevicesHandler (ilike : Ilike) (ctx : Ctx) (q : DeviceFilters) : Handler unit :=
  scopeDeviceIDs ←
    (if ctx_is_admin ctx then mret []
     else match ctx_scope ctx with
          | None => mret []
          | Some sc =>
              r ← ResolveScope (ctx_tenant ctx) (Some sc);
              match r with
              | None => stop (Error 500 "failed to resolve scope")
              | Some allowed =>
                  let ids := elements (default ∅ allowed) in
                  if negb (nonempty ids) then stop (JSON 200 (BDeviceList [])) else mret ids
              end
          end);
  r ← ListDevices ilike (ctx_tenant ctx) (list_filters q scopeDeviceIDs);
  match r with
  | None => stop (Error 500 "failed to list devices")
  | Some ds => stop (JSON 200 (BDeviceList ds))
  end.

Definition device_body (deviceID : string) (v : DeviceView) : Body :=
  BDevice deviceID (dw_device v) (dw_groups v) (dw_tags v) (dw_sites v).

Definition GetDeviceHandler (ctx : Ctx) (deviceID : string) : Handler unit :=
  in_device_scope ctx deviceID (Error 404 "device not found") (
    r ← GetDevice (ctx_tenant ctx) deviceID;
    match r with
    | None => stop (Error 500 "failed to get device")
    | Some None => stop (Error 404 "device not found")
    | Some (Some v) => stop (JSON 200 (device_body deviceID v))
    end).

Definition UpdateDeviceHandler (ctx : Ctx) (deviceID : string) (body : option string) : Handler unit :=
  in_device_scope ctx deviceID (Error 404 "device not found") (
    match body with
    | None => stop (Error 400 "invalid request body")
    | Some hostname =>
        if hostname =s "" then stop (Error 400 "hostname is required")
        else
          ok ← UpdateDevice (ctx_tenant ctx) deviceID hostname;
          if negb ok then stop (Error 404 "device not found")
          else
            r ← GetDevice (ctx_tenant ctx) deviceID;
            match r with
            | Some (Some v) => stop (JSON 200 (device_body deviceID v))
            | _ => stop (Error 500 "failed to get updated device")
            end
    end).

(** ** Groups, sites and tags *)

(** What differs between the three copies.  [k_used]: a row that a table without
    ON DELETE CASCADE still references ([agent_update_policies.group_id]). *)
Record Kind := {
  k_noun : string;
  k_field : string;          (* the scope field, and the plural of the messages *)
  k_prefix : string;
  k_table : DB -> gmap string Container;
  k_set_table : gmap string Container -> DB -> DB;
  k_rel : DB -> gset (string * string);
  k_set_rel : gset (string * string) -> DB -> DB;
  k_used : string -> DB -> bool;
}.

Definition GroupKind : Kind :=
  {| k_noun := "group"; k_field := "groups"; k_prefix := "grp"; k_table := groups; k_set_table := set_groups;
     k_rel := device_groups; k_set_rel := set_device_groups;
     k_used := fun id db => nonempty (select_where (fun _ p => bool_decide (aup_group p = Some id)) (agent_update_policies db)) |}.
Definition SiteKind : Kind :=
  {| k_noun := "site"; k_field := "sites"; k_prefix := "sit"; k_table := sites; k_set_table := set_sites;
     k_rel := device_sites; k_set_rel := set_device_sites; k_used := fun _ _ => false |}.
Definition TagKind : Kind :=
  {| k_noun := "tag"; k_field := "tags"; k_prefix := "tag"; k_table := tags; k_set_table := set_tags;
     k_rel := device_tags; k_set_rel := set_device_tags; k_used := fun _ _ => false |}.

Inductive KindName := Groups | Sites | Tags.

Definition kind (n : KindName) : Kind :=
  match n with Groups => GroupKind | Sites => SiteKind | Tags => TagKind end.

Definition by_name (a b : string * Container) : Prop := string_leb (ct_name a.2) (ct_name b.2) = true.
#[export] Instance by_name_dec : RelDecision by_name.
Proof. intros a b. unfold by_name. apply _. Defined.

Definition by_hostname (a b : string * Device) : Prop := string_leb (dev_hostname a.2) (dev_hostname b.2) = true.
#[export] Instance by_hostname_dec : RelDecision by_hostname.
Proof. intros a b. unfold by_hostname. apply _. Defined.

Section Store.
Context (k : Kind) {R : Type}.

Definition list_containers (tenantID : string) (db : DB) : list (string * Container) :=
  merge_sort by_name (select_where (fun _ c => ct_tenant c =s tenantID) (k_table k db)).

Definition find_container (tenantID id : string) (db : DB) : option Container :=
  c ← k_table k db !! id; if ct_tenant c =s tenantID then Some c else None.

(** [None] is an error, [Some None] a nil pointer. *)
Definition get_container (tenantID id : string) : prog DB R (option (option Container)) :=
  row ← query_row (find_container tenantID id);
  mret (match row with Row c => Some (Some c) | NoRows => Some None | DbErr => None end).

Definition insert_container (id : string) (c : Container) (db : DB) : option DB :=
  if fk (tenants db) (ct_tenant c)
  then t ← insert_new id c (k_table k db); Some (k_set_table k t db)
  else None.

Definition set_name (name : string) (location : option string) (c : Container) : Container :=
  {| ct_tenant := ct_tenant c; ct_name := name; ct_location := location |}.

Definition update_container (tenantID id name : string) (location : option string) : prog DB R bool :=
  affected_rows (fun db =>
    Some (k_set_table k (update_where (own_row tenantID id) (set_name name location) (k_table k db)) db,
          count_where (own_row tenantID id) (k_table k db))).

(** [DELETE], with its cascade to the memberships. *)
Definition drop_members (id : string) (rel : gset (string * string)) : gset (string * string) :=
  filter (fun dp : string * string => dp.2 <> id) rel.

Definition delete_container_row (tenantID id : string) (db : DB) : option (DB * nat) :=
  let n := count_where (own_row tenantID id) (k_table k db) in
  if (n =? 0)%nat then Some (db, 0%nat)
  else if k_used k id db then None
  else Some (k_set_rel k (drop_members id (k_rel k db))
               (k_set_table k (delete_where (own_row tenantID id) (k_table k db)) db), n).

Definition delete_container (tenantID id : string) : prog DB R bool :=
  affected_rows (delete_container_row tenantID id).

Definition list_container_devices (tenantID id : string) (db : DB) : list (string * Device) :=
  map (fun kv => (kv.1, list_columns kv.2))
    (merge_sort by_hostname
      (select_where (fun d dv => bool_decide ((d, id) ∈ k_rel k db) && (dev_tenant dv =s tenantID)) (devices db))).

(** [INSERT ... ON CONFLICT DO NOTHING], with the two foreign keys. *)
Definition insert_member (deviceID id : string) (db : DB) : option DB :=
  if fk (devices db) deviceID && fk (k_table k db) id
  then Some (k_set_rel k ({[(deviceID, id)]} ∪ k_rel k db) db) else None.

(** The insertion loops; the first error ends them and keeps what was inserted. *)
Definition add_members (pairs : list (string * string)) : prog DB R bool :=
  call (
    _ ← for_each pairs tt (fun _ p =>
          r ← exec (stmt_opt (insert_member p.1 p.2));
          match r with None => stop false | Some _ => mret tt end);
    mret true).

Definition remove_member (deviceID id : string) : prog DB R bool :=
  r ← exec (stmt (fun db => k_set_rel k (k_rel k db ∖ {[(deviceID, id)]}) db));
  mret (match r with None => false | Some _ => true end).
End Store.

(** Store operations under their own names ([tenantID] is not used by the
    membership statements, as in the source). *)
Definition ListGroups := list_containers GroupKind.
Definition ListSites := list_containers SiteKind.
Definition ListTags := list_containers TagKind.
Definition GetGroup {R : Type} := get_container (R := R) GroupKind.
Definition GetSite {R : Type} := get_container (R := R) SiteKind.
Definition CreateGroup := insert_container GroupKind.
Definition CreateSite := insert_container SiteKind.
Definition CreateTag := insert_container TagKind.
Definition UpdateGroup {R : Type} (T id name : string) := update_container (R := R) GroupKind T id name None.
Definition UpdateSite {R : Type} (T id name location : string) := update_container (R := R) SiteKind T id name (Some location).
Definition DeleteGroup {R : Type} := delete_container (R := R) GroupKind.
Definition DeleteSite {R : Type} := delete_container (R := R) SiteKind.
Definition DeleteTag {R : Type} := delete_container (R := R) TagKind.
Definition ListGroupDevices := list_container_devices GroupKind.
Definition ListSiteDevices := list_container_devices SiteKind.
Definition AddDevicesToGroup {R : Type} (tenantID groupID : string) (deviceIDs : list string) :=
  add_members (R := R) GroupKind (map (fun d => (d, groupID)) deviceIDs).
Definition AddDevicesToSite {R : Type} (tenantID siteID : string) (deviceIDs : list string) :=
  add_members (R := R) SiteKind (map (fun d => (d, siteID)) deviceIDs).
Definition AddTagsToDevice {R : Type} (tenantID deviceID : string) (tagIDs : list string) :=
  add_members (R := R) TagKind (map (fun t => (deviceID, t)) tagIDs).
Definition RemoveDeviceFromGroup {R : Type} (tenantID groupID deviceID : string) := remove_member (R := R) GroupKind deviceID groupID.
Definition RemoveDeviceFromSite {R : Type} (tenantID siteID deviceID : string) := remove_member (R := R) SiteKind deviceID siteID.
Definition RemoveTagFromDevice {R : Type} (tenantID deviceID tagID : string) := remove_member (R := R) TagKind deviceID tagID.

(** *** server/api/groups.go, sites.go, tags.go *)

Infix "+++" := String.append (at level 60, right associativity) : moebius_scope.

Section Api.
Context (k : Kind).

Definition not_found_in : Response := Error 404 (k_noun k +++ " not found").

(** The scope check on one container. *)
Definition in_field_scope (ctx : Ctx) (id : string) (next : Handler unit) : Handler unit :=
  if negb (ctx_is_admin ctx) && negb (IDInScopeField (ctx_scope ctx) (k_field k) id)
  then stop not_found_in else next.

Definition list_handler (ctx : Ctx) : Handler unit :=
  r ← query (list_containers k (ctx_tenant ctx));
  match r with
  | None => stop (Error 500 ("failed to list " +++ k_field k))
  | Some items =>
      stop (JSON 200 (BContainerList
        (if negb (ctx_is_admin ctx) && ScopeHasField (ctx_scope ctx) (k_field k)
         then filter (fun kv : string * Container => IDInScopeField (ctx_scope ctx) (k_field k) kv.1 = true) items
         else items)))
  end.

Definition get_handler (ctx : Ctx) (id : string) : Handler unit :=
  in_field_scope ctx id (
    r ← get_container k (ctx_tenant ctx) id;
    match r with
    | None => stop (Error 500 ("failed to get " +++ k_noun k))
    | Some None => stop not_found_in
    | Some (Some c) => stop (JSON 200 (BContainer id (Some c)))
    end).

(** [body]: the name and, for sites, the location. *)
Definition create_handler (audit : bool) (ctx : Ctx) (body : option (string * option string)) : Handler unit :=
  if negb (ctx_is_admin ctx) && ScopeHasField (ctx_scope ctx) (k_field k)
  then stop (ErrorWithCode 403 "scope_violation" (Lit ("scoped keys cannot create new " +++ k_field k)))
  else
    match body with
    | None => stop (Error 400 "invalid request body")
    | Some (name, location) =>
        if name =s "" then stop (Error 400 "name is required")
        else
          id ← new_id (k_prefix k);
          let c := {| ct_tenant := ctx_tenant ctx; ct_name := name; ct_location := location |} in
          r ← exec (stmt_opt (insert_container k id c));
          match r with
          | None => stop (Error 500 ("failed to create " +++ k_noun k))
          | Some _ =>
              _ ← audited audit ctx (k_noun k +++ ".create") (k_noun k) id [("name", name)];
              stop (JSON 201 (BContainer id (Some c)))
          end
    end.

(** The row read back at the end is sent as it is, nil included. *)
Definition update_handler (audit : bool) (ctx : Ctx) (id : string) (body : option (string * option string)) : Handler unit :=
  in_field_scope ctx id (
    match body with
    | None => stop (Error 400 "invalid request body")
    | Some (name, location) =>
        if name =s "" then stop (Error 400 "name is required")
        else
          ok ← update_container k (ctx_tenant ctx) id name location;
          if negb ok then stop not_found_in
          else
            _ ← audited audit ctx (k_noun k +++ ".update") (k_noun k) id [];
            r ← get_container k (ctx_tenant ctx) id;
            stop (JSON 200 (BContainer id (default None r)))
    end).

Definition delete_handler (audit : bool) (ctx : Ctx) (id : string) : Handler unit :=
  in_field_scope ctx id (
    ok ← delete_container k (ctx_tenant ctx) id;
    if negb ok then stop not_found_in
    else
      _ ← audited audit ctx (k_noun k +++ ".delete") (k_noun k) id [];
      stop NoContent).

Definition list_devices_handler (ctx : Ctx) (id : string) : Handler unit :=
  r ← query (list_container_devices k (ctx_tenant ctx) id);
  match r with
  | None => stop (Error 500 ("failed to list " +++ k_noun k +++ " devices"))
  | Some ds => stop (JSON 200 (BDeviceList ds))
  end.

Definition add_devices_handler (audit : bool) (ctx : Ctx) (id : string) (body : option (list string)) : Handler unit :=
  in_field_scope ctx id (
    match body with
    | None => stop (Error 400 "invalid request body")
    | Some deviceIDs =>
        if negb (nonempty deviceIDs) then stop (Error 400 "device_ids is required")
        else
          ok ← add_members k (map (fun d => (d, id)) deviceIDs);
          if negb ok then stop (Error 500 ("failed to add devices to " +++ k_noun k))
          else
            _ ← audited audit ctx (k_noun k +++ ".add_devices") (k_noun k) id
                  [("device_count", pretty (length deviceIDs))];
            stop NoContent
    end).

Definition remove_device_handler (audit : bool) (ctx : Ctx) (id deviceID : string) : Handler unit :=
  in_field_scope ctx id (
    ok ← remove_member k deviceID id;
    if negb ok then stop (Error 500 ("failed to remove device from " +++ k_noun k))
    else
      _ ← audited audit ctx (k_noun k +++ ".remove_device") (k_noun k) id [("device_id", deviceID)];
      stop NoContent).
End Api.

(** The handlers under their own names. *)
Definition GroupsHandler_List := list_handler GroupKind.
Definition GroupsHandler_Get := get_handler GroupKind.
Definition GroupsHandler_Create := create_handler GroupKind.
Definition GroupsHandler_Update := update_handler GroupKind.
Definition GroupsHandler_Delete := delete_handler GroupKind.
Definition GroupsHandler_ListDevices := list_devices_handler GroupKind.
Definition GroupsHandler_AddDevices := add_devices_handler GroupKind.
Definition GroupsHandler_RemoveDevice := remove_device_handler GroupKind.
Definition SitesHandler_List := list_handler SiteKind.
Definition SitesHandler_Get := get_handler SiteKind.
Definition SitesHandler_Create := create_handler SiteKind.
Definition SitesHandler_Update := update_handler SiteKind.
Definition SitesHandler_Delete := delete_handler SiteKind.
Definition SitesHandler_ListDevices := list_devices_handler SiteKind.
Definition SitesHandler_AddDevices := add_devices_handler SiteKind.
Definition SitesHandler_RemoveDevice := remove_device_handler SiteKind.
Definition TagsHandler_List := list_handler TagKind.
Definition TagsHandler_Create := create_handler TagKind.
Definition TagsHandler_Delete := delete_handler TagKind.

(** Tags are put on devices from the device's side, under the device's scope. *)
Definition AddToDevice (audit : bool) (ctx : Ctx) (deviceID : string) (body : option (list string)) : Handler unit :=
  in_device_scope ctx deviceID (Error 404 "device not found") (
    match body with
    | None => stop (Error 400 "invalid request body")
    | Some tagIDs =>
        if negb (nonempty tagIDs) then stop (Error 400 "tag_ids is required")
        else
          ok ← AddTagsToDevice (ctx_tenant ctx) deviceID tagIDs;
          if negb ok then stop (Error 500 "failed to add tags to device")
          else
            _ ← audited audit ctx "tag.add_to_device" "device" deviceID [("tag_count", pretty (length tagIDs))];
            stop NoContent
    end).

Definition RemoveFromDevice (audit : bool) (ctx : Ctx) (deviceID tagID : string) : Handler unit :=
  in_device_scope ctx deviceID (Error 404 "device not found") (
    ok ← RemoveTagFromDevice (ctx_tenant ctx) deviceID tagID;
    if negb ok then stop (Error 500 "failed to remove tag from device")
    else
      _ ← audited audit ctx "tag.remove_from_device" "device" deviceID [("tag_id", tagID)];
      stop NoContent).

(** ** server/store/tenants.go and server/api/tenants.go *)

(** The error of [json.Unmarshal] is ignored. *)
Definition tenant_config (t : Tenant) : option TenantConfig := unmarshal_into <$> tn_config t.

Definition GetTenant {R : Type} (tenantID : string) : prog DB R (option (option (Tenant * option TenantConfig))) :=
  row ← query_row (fun db => tenants db !! tenantID);
  mret (match row with Row t => Some (Some (t, tenant_config t)) | NoRows => Some None | DbErr => None end).

Definition set_tenant (name : string) (config : option TenantConfig) (t : Tenant) : Tenant :=
  {| tn_name := name; tn_slug := tn_slug t; tn_config := JValid <$> config; tn_created_at := tn_created_at t |}.

Definition UpdateTenant {R : Type} (tenantID name : string) (config : option TenantConfig) : prog DB R bool :=
  affected_rows (fun db =>
    Some (set_tenants (update_where (fun id _ => id =s tenantID) (set_tenant name config) (tenants db)) db,
          count_where (fun id _ => id =s tenantID) (tenants db))).

Definition GetTenantHandler (ctx : Ctx) : Handler unit :=
  r ← GetTenant (ctx_tenant ctx);
  match r with
  | None => stop (Error 500 "failed to get tenant")
  | Some None => stop (ErrorWithCode 404 "tenant_not_found" (Lit "Tenant not found"))
  | Some (Some (t, c)) => stop (JSON 200 (BTenant (ctx_tenant ctx) t c))
  end.

(** [body]: the new name, [""] when absent, and the new configuration. *)
Definition UpdateTenantHandler (audit : bool) (ctx : Ctx) (body : option (string * option TenantConfig)) : Handler unit :=
  r ← GetTenant (ctx_tenant ctx);
  match r with
  | Some (Some (t, c)) =>
      match body with
      | None => stop (Error 400 "invalid request body")
      | Some (name, config) =>
          let name := if name =s "" then tn_name t else name in
          let config := match config with Some c' => Some c' | None => c end in
          ok ← UpdateTenant (ctx_tenant ctx) name config;
          if negb ok then stop (Error 500 "failed to update tenant")
          else
            _ ← audited audit ctx "tenant.update" "tenant" (ctx_tenant ctx) [];
            stop (JSON 200 (BTenant (ctx_tenant ctx) (set_tenant name config t) config))
      end
  | _ => stop (Error 500 "failed to get tenant")
  end.

(** ** server/api/inventory.go *)

Definition collected_desc (a b : string * Hardware) : Prop := (hw_collected_at b.2 <= hw_collected_at a.2)%Z.
#[export] Instance collected_desc_dec : RelDecision collected_desc.
Proof. intros a b. unfold collected_desc. apply _. Defined.

Definition newest_hardware (deviceID : string) (db : DB) : option Hardware :=
  snd <$> head (merge_sort collected_desc
                  (select_where (fun _ h => hw_device h =s deviceID) (inventory_hardware db))).

Definition by_pkg_name (a b : string * Package) : Prop := string_leb (pkg_name a.2) (pkg_name b.2) = true.
#[export] Instance by_pkg_name_dec : RelDecision by_pkg_name.
Proof. intros a b. unfold by_pkg_name. apply _. Defined.

Definition device_packages (deviceID : string) (db : DB) : list (string * Package) :=
  merge_sort by_pkg_name (select_where (fun _ p => pkg_device p =s deviceID) (inventory_packages db)).

Definition GetDeviceInventory (ctx : Ctx) (deviceID : string) : Handler unit :=
  in_device_scope ctx deviceID (Error 404 "device not found") (
    e ← query (fun db => bool_decide (find_device (ctx_tenant ctx) deviceID db <> None));
    match e with
    | None | Some false => stop (Error 404 "device not found")
    | Some true =>
        hw ← query_row (newest_hardware deviceID);
        match hw with
        | DbErr => stop (Error 500 "failed to get hardware inventory")
        | _ =>
            ps ← query (device_packages deviceID);
            match ps with
            | None => stop (Error 500 "failed to get packages")
            | Some ps => stop (JSON 200 (BInventory (match hw with Row h => Some h | _ => None end) ps))
            end
        end
    end).

(** ** server/api/device_rollback.go *)

(** [payload]: [json.Marshal] of the reason. *)
Definition rollback_job (ctx : Ctx) (deviceID payload : string) (now : Z) : Job :=
  {| job_tenant := ctx_tenant ctx; job_device := deviceID; job_parent := None; job_type := JobTypeAgentRollback;
     job_status := JobStatusQueued; job_payload := payload; job_retry_policy := None; job_retry_count := 0;
     job_max_retries := 0; job_last_error := None; job_created_by := Some (ctx_user ctx); job_created_at := now;
     job_dispatched_at := None; job_acknowledged_at := None; job_started_at := None; job_completed_at := None |}.

Definition RollbackDevice (marshal_reason : string -> string) (ctx : Ctx) (deviceID : string) (body : option string)
    : Handler unit :=
  match body with
  | None => stop (Error 400 "invalid request body")
  | Some reason =>
      e ← query (fun db => bool_decide (find_device (ctx_tenant ctx) deviceID db <> None));
      match e with
      | None => stop (Error 500 "failed to verify device")
      | Some false => stop (Error 404 "device not found")
      | Some true =>
          now ← time_now;
          jobID ← new_id "job";
          r ← exec (stmt_opt (insert_job jobID (rollback_job ctx deviceID (marshal_reason reason) now)));
          match r with
          | None => stop (Error 500 "failed to create rollback job")
          | Some _ =>
              _ ← LogAction (ctx_tenant ctx) (ctx_user ctx) ActorTypeUser "device.rollback" "device" deviceID
                    [("job_id", jobID); ("reason", reason)];
              stop (JSON 201 (BDeviceJob jobID deviceID JobTypeAgentRollback JobStatusQueued))
          end
      end
  end.

(** ** All requests on the fleet *)

Inductive FleetRequest :=
| FRevoke (deviceID : string) (body : option (option string))
| FListDevices (q : DeviceFilters)
| FGetDevice (deviceID : string)
| FUpdateDevice (deviceID : string) (body : option string)
| FList (n : KindName)
| FGet (n : KindName) (id : string)
| FCreate (n : KindName) (body : option (string * option string))
| FUpdate (n : KindName) (id : string) (body : option (string * option string))
| FDelete (n : KindName) (id : string)
| FListMembers (n : KindName) (id : string)
| FAddMembers (n : KindName) (id : string) (body : option (list string))
| FRemoveMember (n : KindName) (id deviceID : string)
| FAddTags (deviceID : string) (body : option (list string))
| FRemoveTag (deviceID tagID : string)
| FGetTenant
| FUpdateTenant (body : option (string * option TenantConfig))
| FInventory (deviceID : string)
| FRollback (deviceID : string) (body : option string).

Record FleetWiring := { fw_audit : bool; fw_ilike : Ilike; fw_marshal : string -> string }.

Definition fleet_serve (w : FleetWiring) (ctx : Ctx) (q : FleetRequest) : Handler unit :=
  match q with
  | FRevoke d b => Revoke (fw_audit w) ctx d b
  | FListDevices f => ListDevicesHandler (fw_ilike w) ctx f
  | FGetDevice d => GetDeviceHandler ctx d
  | FUpdateDevice d b => UpdateDeviceHandler ctx d b
  | FList k => list_handler (kind k) ctx
  | FGet k id => get_handler (kind k) ctx id
  | FCreate k b => create_handler (kind k) (fw_audit w) ctx b
  | FUpdate k id b => update_handler (kind k) (fw_audit w) ctx id b
  | FDelete k id => delete_handler (kind k) (fw_audit w) ctx id
  | FListMembers k id => list_devices_handler (kind k) ctx id
  | FAddMembers k id b => add_devices_handler (kind k) (fw_audit w) ctx id b
  | FRemoveMember k id d => remove_device_handler (kind k) (fw_audit w) ctx id d
  | FAddTags d b => AddToDevice (fw_audit w) ctx d b
  | FRemoveTag d t => RemoveFromDevice (fw_audit w) ctx d t
  | FGetTenant => GetTenantHandler ctx
  | FUpdateTenant b => UpdateTenantHandler (fw_audit w) ctx b
  | FInventory d => GetDeviceInventory ctx d
  | FRollback d b => RollbackDevice (fw_marshal w) ctx d b
  end.

(** ** What a revocation commits *)

Lemma own_row_owner {V} `{!Owned V} T id k (v : V) : own_row T id k v = true -> owner v = T /\ k = id.
Proof. unfold own_row. intros H. by reflect_bools. Qed.

Definition revoked_db (T d reason : string) (now : Z) (db : DB) : DB :=
  update_jobs (cancellable T d) (set_job_status JobStatusCancelled)
    (set_agent_certificates (update_where (active_cert_of d) (revoke_cert now reason) (agent_certificates db))
      (set_devices (update_where (own_row T d) (set_status DeviceStatusRevoked) (devices db)) db)).

Lemma count_own_row {V} `{!Owned V} T id (t : gmap string V) :
  count_where (own_row T id) t <> 0%nat -> exists v, t !! id = Some v /\ owner v = T.
Proof.
  intros Hn. unfold count_where in Hn. apply map_size_ne_0_lookup in Hn as (i & v & Hv).
  apply map_lookup_filter_Some in Hv as [Hv Hp]. apply own_row_owner in Hp as [? <-]. eauto.
Qed.

(** A committed revocation is the three updates of a device of the tenant. *)
Lemma revoke_tx fault T d reason now s s' :
  tx_run fault 0 (revoke_statements T d reason now) s = inl s' ->
  s' = revoked_db T d reason now s /\ exists dv, devices s !! d = Some dv /\ dev_tenant dv = T.
Proof.
  simpl. destruct (fault 0); [done|]. unfold sql_revoke_device. destruct (_ =? _)%nat eqn:Hn; [done|].
  apply Nat.eqb_neq, count_own_row in Hn. do 3 (case_match; [done|]). intros [= <-]. split; [done|exact Hn].
Qed.

(** ** What the two requests do to jobs *)

Lemma job_in_scope_refl (G : relation DB) `{!Reflexive G} ctx d : guar G (job_in_scope ctx d).
Proof. unfold job_in_scope. guar_all. Qed.

(** A program after the device's scope check is what it is without it. *)
Lemma in_device_scope_guar (G : relation DB) `{!Reflexive G} ctx d deny k :
  guar G k -> guar G (in_device_scope ctx d deny k).
Proof. intros Hk. unfold in_device_scope. guar_step; [by apply job_in_scope_refl|]. guar_all. Qed.

(** [Revoke] is its transaction and an audit entry. *)
Lemma Revoke_all_guar (G : relation DB) `{!Reflexive G} audit ctx d body :
  (forall l db, G db (set_audit_log l db)) ->
  (forall reason now db dv, devices db !! d = Some dv -> dev_tenant dv = ctx_tenant ctx ->
     G db (revoked_db (ctx_tenant ctx) d reason now db)) ->
  guar G (Revoke audit ctx d body).
Proof.
  intros Hl Hr. unfold Revoke. apply in_device_scope_guar; [done|]. unfold audited, RevokeDevice. guar_all;
    first [by apply LogAction_any_guar | apply guar_transact; [done|]; intros fault x y (-> & dv & Hd & Ht)%revoke_tx; by eapply Hr].
Qed.

(** [RollbackDevice] is one insertion and an audit entry. *)
Lemma RollbackDevice_all_guar (G : relation DB) `{!Reflexive G} m ctx d body :
  (forall l db, G db (set_audit_log l db)) ->
  (forall id p now a b, insert_job id (rollback_job ctx d p now) a = Some b -> G a b) ->
  guar G (RollbackDevice m ctx d body).
Proof.
  intros Hl Hi. unfold RollbackDevice. guar_all; first [by apply LogAction_any_guar | intros Hx%stmt_opt_Some; by eapply Hi].
Qed.

Lemma revoked_db_step ks T d reason now db :
  KRevoke ∈ ks -> jobs_step (within ks) db (revoked_db T d reason now db).
Proof.
  intros Hk. unfold revoked_db.
  refine (update_jobs_step (within ks) (cancellable T d) CRevoke (set_agent_certificates _ (set_devices _ db)) _).
  intros id j _ Hj. apply within_spec. split; [|done]. unfold cancellable in Hj. apply andb_true_iff in Hj as [_ Hj].
  unfold guard_pre. simpl. by rewrite Hj.
Qed.

Lemma Revoke_guar audit ctx d body : guar (jobs_step (within [KRevoke])) (Revoke audit ctx d body).
Proof.
  apply Revoke_all_guar; [apply _|intros; by apply jobs_step_same|]. intros. apply revoked_db_step. set_solver.
Qed.

Lemma RollbackDevice_guar pre m ctx d body : guar (jobs_step pre) (RollbackDevice m ctx d body).
Proof.
  apply RollbackDevice_all_guar; [apply _|intros; by apply jobs_step_same|].
  intros. eapply insert_job_step; [|done]. by repeat split.
Qed.
