(* ===== verification/JobSystem.v ===== *)
(** * The job system as a whole

    All requests that write the job table, the reads of it and the scheduler's
    tick, as one system over the shared database: they run interleaved at the
    granularity of single statements ([pstep]), or one after the other
    ([history]).  The theorems say what no interleaving can break, what
    undisturbed handlers guarantee beyond that, and which request moves a job
    from which status to which. *)

From stdpp Require Import relations.
From S2P Require Import Prelude Prog Models JobState Database Scope Quota JobSteps JobsApi AgentJobs Checkin Scheduler Fleet.

(** What [cmd/api] and [cmd/scheduler] wire into the handlers. *)
Record Wiring := {
  wr_audit : bool;
  wr_quota : Resolver;
  wr_decode : string -> option FullInventory;
  wr_scan_null : option string;
  wr_marshal : string -> string;
  wr_cron_next : string -> Z -> option Z;
  wr_sched : Sched;
}.

(** Every request with a statement on [jobs], and the scheduler's tick. *)
Inductive Request :=
| QCreate (ctx : Ctx) (body : option CreateRequest)
| QGet (ctx : Ctx) (jobID : string)
| QList (ctx : Ctx) (q : ListQuery)
| QCancel (ctx : Ctx) (jobID : string)
| QRetry (ctx : Ctx) (jobID : string)
| QAcknowledge (ctx : Ctx) (jobID : string)
| QSubmit (ctx : Ctx) (jobID : string) (body : option JobResultSubmission)
| QCheckin (ctx : Ctx) (body : option CheckinRequest)
| QRevoke (ctx : Ctx) (deviceID : string) (body : option (option string))
| QRollbackDevice (ctx : Ctx) (deviceID : string) (body : option string)
| QTick.

Definition serve (w : Wiring) (q : Request) : Handler unit :=
  match q with
  | QCreate ctx b => Create (wr_audit w) (wr_quota w) ctx b
  | QGet ctx id => GetJob (wr_scan_null w) ctx id
  | QList ctx lq => ListJobs ctx lq
  | QCancel ctx id => Cancel (wr_audit w) ctx id
  | QRetry ctx id => Retry (wr_audit w) (wr_quota w) ctx id
  | QAcknowledge ctx id => Acknowledge (wr_audit w) ctx id
  | QSubmit ctx id b => SubmitResult (wr_decode w) (wr_audit w) ctx id b
  | QCheckin ctx b => Checkin ctx b
  | QRevoke ctx d b => Revoke (wr_audit w) ctx d b
  | QRollbackDevice ctx d b => RollbackDevice (wr_marshal w) ctx d b
  | QTick => _ ← runTick (wr_cron_next w) (wr_sched w); mret tt
  end.

(** Requests served one after the other, each without interference. *)
Inductive history (w : Wiring) : DB -> list Request -> DB -> Prop :=
| h_nil db : history w db [] db
| h_cons db q qs env db' :
    history w (run_store (serve w q) env db) qs db' -> history w db (q :: qs) db'.

(** ** What a request does to a job's status *)

Definition reports_rollback (q : Request) : bool :=
  match q with
  | QCheckin _ (Some req) => reported (cr_status req)
  | _ => false
  end.

(** The changes a request makes to jobs that are there. *)
Definition kinds (q : Request) : list change_kind :=
  match q with
  | QCancel _ _ => [KCancel]
  | QAcknowledge _ _ => [KAck]
  | QSubmit _ _ (Some req) => match target_status (sub_status req) with Some st => [KFinish st] | None => [] end
  | QCheckin _ (Some req) => status_kinds (cr_status req)
  | QRevoke _ _ _ => [KRevoke]
  | QTick => [KRequeue; KTimeout]
  | _ => []
  end.

(** A check-in, by what the agent reports: a failed update fails the job it names;
    with CDM on and no session a missed job is queued again and the queue is
    held; otherwise missed, queued and (in a session) held jobs are queued or
    handed out. *)
Definition checkin_moves (st : AgentStatus) (s s' : string) : Prop :=
  reported st = true /\ s' = JobStatusFailed \/
  if as_cdm_enabled st && negb (as_cdm_session_active st)
  then (s = JobStatusDispatched \/ s = JobStatusQueued) /\ (s' = JobStatusQueued \/ s' = JobStatusCDMHold)
  else (s = JobStatusDispatched \/ s = JobStatusQueued \/
          s = JobStatusCDMHold /\ as_cdm_enabled st = true) /\
       (s' = JobStatusQueued \/ s' = JobStatusDispatched).

(** The status of a job before and after a request; whatever is not listed leaves
    it as it is. *)
Definition moves (q : Request) (s s' : string) : Prop :=
  s' = s \/
  match q with
  | QCancel _ _ => IsCancellable s = true /\ s' = JobStatusCancelled
  | QAcknowledge _ _ => s = JobStatusDispatched /\ s' = JobStatusAcknowledged
  | QSubmit _ _ (Some req) =>
      (s = JobStatusAcknowledged \/ s = JobStatusRunning) /\ target_status (sub_status req) = Some s'
  | QCheckin _ (Some req) => checkin_moves (cr_status req) s s'
  | QRevoke _ _ _ =>
      (s = JobStatusPending \/ s = JobStatusQueued \/ s = JobStatusDispatched) /\ s' = JobStatusCancelled
  | QTick => s = JobStatusDispatched /\ s' = JobStatusQueued \/
      (s = JobStatusAcknowledged \/ s = JobStatusRunning) /\ s' = JobStatusTimedOut
  | _ => False
  end.

(** The status of a job through a list of requests, one move per request. *)
Inductive along : list Request -> string -> string -> Prop :=
| al_nil s : along [] s s
| al_cons q qs s s1 s2 : moves q s s1 -> along qs s1 s2 -> along (q :: qs) s s2.

(** ** Any interleaving *)

Lemma serve_guar w q : guar any_step (serve w q).
Proof.
  destruct q; unfold serve; eauto using Create_guar, GetJob_guar, ListJobs_guar, Cancel_guar, Retry_guar,
    Acknowledge_guar, SubmitResult_guar, Checkin_guar, RollbackDevice_guar, any_step_refl.
  - eapply guar_weaken; [|apply Revoke_guar]. apply within_any.
  - guar_step; [|done]. eapply guar_weaken; [|apply runTick_guar]. apply within_any.
Qed.

Lemma pool_guar w qs : Forall (guar any_step) (map (serve w) qs).
Proof. induction qs; simpl; constructor; eauto using serve_guar. Qed.

(** ** Undisturbed handlers *)

(** Walks a handler, keeping facts only across the accesses that need them. *)
Lemma rg_guar_then {A B : Type} (E : Env -> Prop) (Rl G : relation DB) (p : Handler A)
    (g : A -> Handler B) (Q : Response + B -> DB -> Prop) db :
  (forall r s, Q (inl r) s) -> guar G p -> (forall a s, rg E Rl G (g a) Q s) -> rg E Rl G (p ≫= g) Q db.
Proof.
  intros HQ Hp Hg. apply rg_bind. eapply rg_mono; [|by apply (guar_rg E Rl G)].
  intros [r|a] s _; auto.
Qed.

Definition safe (G : relation DB) (p : Handler unit) : Prop :=
  forall db, rg any_env (=) G p (fun _ _ => True) db.

Lemma guar_safe G p : guar G p -> safe G p.
Proof. intros Hp db. by apply guar_rg. Qed.

Lemma find_job_Some id T db j : find_job id T db = Some j <-> jobs db !! id = Some j /\ job_tenant j = T.
Proof.
  unfold find_job. destruct (jobs db !! id) as [j'|]; [|naive_solver].
  case_match eqn:E; reflect_bools; naive_solver.
Qed.

Lemma find_agent_job_Some id a T db j :
  find_agent_job id a T db = Some j <-> jobs db !! id = Some j /\ job_device j = a /\ job_tenant j = T.
Proof.
  unfold find_agent_job. destruct (jobs db !! id) as [j'|]; [|naive_solver].
  destruct (seqb (job_device j') a) eqn:E1, (seqb (job_tenant j') T) eqn:E2; simpl; reflect_bools; naive_solver.
Qed.

(** Ends a branch of a handler whose remaining accesses need no facts. *)
Ltac rest_guar :=
  apply guar_rg; guar_all; try (apply processFullInventory_guar || apply createRetryJob_guar
    || apply LogAction_guar || apply processPackageDelta_guar).

Lemma Cancel_safe audit ctx id : safe (jobs_step (within [KCancel])) (Cancel audit ctx id).
Proof.
  intros db. unfold Cancel. do 4 rg_step; [done|].
  destruct (find_job id (ctx_tenant ctx) db) as [j|] eqn:Hj; [|done].
  apply find_job_Some in Hj as [Hj _]. rg_step.
  apply rg_readonly; [apply _|apply job_in_scope_guar; apply _|]. intros [r|ok]; [done|].
  destruct ok; simpl negb; cbv beta iota; [|done].
  destruct (IsCancellable (job_status j)) eqn:Hc; simpl negb; cbv beta iota; [|done].
  do 2 rg_step; [done|]. split; [eapply update_one; [done|]|rest_guar].
  apply within_spec. split; [|set_solver]. unfold guard_pre. simpl. by rewrite Hc.
Qed.

Lemma Acknowledge_safe audit ctx id : safe (jobs_step (within [KAck])) (Acknowledge audit ctx id).
Proof.
  intros db. unfold Acknowledge. do 4 rg_step; [done|].
  destruct (find_agent_job id _ _ db) as [j|] eqn:Hj; [|done].
  apply find_agent_job_Some in Hj as [Hj _].
  destruct (ValidateTransition _ _) eqn:Hv; [done|].
  do 2 rg_step; [done|]. split; [eapply update_one; [done|]|rest_guar].
  apply validate_edge in Hv as (s & s' & Hs & Hs' & Ht).
  destruct Ht; try (vm_compute in Hs'; discriminate). rewrite Hs. reflexivity.
Qed.

Lemma SubmitResult_safe decode audit ctx id body :
  safe (jobs_step (within (kinds (QSubmit ctx id body)))) (SubmitResult decode audit ctx id body).
Proof.
  intros db. unfold SubmitResult. do 2 rg_step. destruct body as [req|]; [|done]. unfold kinds.
  destruct (target_status (sub_status req)) as [st|] eqn:Hst; [|done].
  do 2 rg_step; [done|].
  destruct (find_agent_job id _ _ db) as [j|] eqn:Hj; [|done].
  apply find_agent_job_Some in Hj as [Hj _].
  destruct (ValidateTransition _ _) eqn:Hv; [done|].
  do 4 rg_step; [done|].
  destruct (stmt_opt _ db) as [[db1 u]|] eqn:Hi; [|done]. apply stmt_opt_Some in Hi.
  apply insert_result_jobs in Hi. split; [by apply jobs_step_same|].
  do 2 rg_step; [done|]. split; [|rest_guar].
  eapply update_one; [by rewrite Hi|]. apply within_spec. split; [|set_solver].
  unfold guard_pre. rewrite (finish_pre _ _ _ _ _ _ Hst). simpl.
  destruct (seqb (job_status j) JobStatusAcknowledged) eqn:Ea; [done|]. simpl.
  apply seqb_eq. apply validate_edge in Hv as (s & s' & Hs & Hs' & Ht).
  apply target_status_ok in Hst. rewrite Hs.
  destruct Ht; try reflexivity; rewrite Hs' in Hst; vm_compute in Hst; naive_solver.
Qed.

Lemma Checkin_safe ctx body : safe (jobs_step (within (kinds (QCheckin ctx body)))) (Checkin ctx body).
Proof.
  intros db. destruct body as [req|]; [|unfold Checkin; by case_match].
  destruct ((ctx_agent ctx =s "") || (ctx_tenant ctx =s "")) eqn:Eid.
  { unfold Checkin. by rewrite Eid. }
  apply orb_false_iff in Eid as [Ha Ht]. apply seqb_neq in Ha, Ht.
  by apply (Checkin_rg any_env (fun _ => True) ctx req _ _ _ _ db eq_refl eq_refl eq_refl Ha Ht).
Qed.

(** Every request makes only the changes of its kinds. *)
Lemma serve_safe w q : safe (jobs_step (within (kinds q))) (serve w q).
Proof.
  destruct q; unfold serve; auto using Cancel_safe, Acknowledge_safe, SubmitResult_safe, Checkin_safe;
    apply guar_safe; eauto using Create_guar, GetJob_guar, ListJobs_guar, Retry_guar, Revoke_guar, RollbackDevice_guar, jobs_step_refl.
  guar_step; [|done]. apply runTick_guar.
Qed.

(** A request served alone is a sequence of statements of its kinds. *)
Lemma serve_steps w q env db : rtc (jobs_step (within (kinds q))) db (run_store (serve w q) env db).
Proof. eapply (rg_run_guar any_env); [done|]. apply serve_safe. Qed.

(** *** The status along the statements of one request *)

(** The edges of the kinds, as pairs of statuses. *)
Definition edge (k : change_kind) (s s' : string) : Prop :=
  match k with
  | KDispatch => s = JobStatusQueued /\ s' = JobStatusDispatched
  | KRequeue => s = JobStatusDispatched /\ s' = JobStatusQueued
  | KHold => s = JobStatusQueued /\ s' = JobStatusCDMHold
  | KRelease => s = JobStatusCDMHold /\ s' = JobStatusQueued
  | KAck => s = JobStatusDispatched /\ s' = JobStatusAcknowledged
  | KFinish st => (s = JobStatusAcknowledged \/ s = JobStatusRunning) /\ s' = st
  | KTimeout => (s = JobStatusAcknowledged \/ s = JobStatusRunning) /\ s' = JobStatusTimedOut
  | KCancel => IsCancellable s = true /\ s' = JobStatusCancelled
  | KRevoke => (s = JobStatusPending \/ s = JobStatusQueued \/ s = JobStatusDispatched) /\ s' = JobStatusCancelled
  | KRollback => s' = JobStatusFailed
  end.

Lemma change_edge ks c j :
  within ks c (job_status j) = true ->
  exists k, k ∈ ks /\ edge k (job_status j) (job_status (apply_change c j)).
Proof.
  intros [Hc Hk]%within_spec. exists (kind_of c). split; [done|]. clear Hk.
  unfold guard_pre in Hc. destruct c; simpl in *; rewrite ?andb_true_r, ?andb_true_iff, ?orb_true_iff, ?seqb_eq in Hc; tauto.
Qed.

(** Case analysis on statuses that are given by equations. *)
Ltac status_cases :=
  repeat match goal with
  | H : _ \/ _ |- _ => destruct H
  | H : _ /\ _ |- _ => destruct H
  | H : ?x = ?y |- _ => first [subst x | subst y | (vm_compute in H; discriminate H)]
  end; try tauto.

Lemma checkin_edge st k s s' : k ∈ status_kinds st -> edge k s s' -> checkin_moves st s s'.
Proof.
  unfold status_kinds, checkin_kinds, checkin_moves. intros Hk He.
  destruct (reported st), (as_cdm_enabled st), (as_cdm_session_active st); simpl in *;
    rewrite ?elem_of_cons, ?elem_of_nil in Hk; destruct_or! Hk; subst; try done; simpl in He; tauto.
Qed.

Lemma checkin_edge_after st k s s1 s2 :
  checkin_moves st s s1 -> k ∈ status_kinds st -> edge k s1 s2 -> checkin_moves st s s2.
Proof.
  unfold status_kinds, checkin_kinds, checkin_moves. intros Hm Hk He.
  destruct (reported st), (as_cdm_enabled st), (as_cdm_session_active st); simpl in *;
    rewrite ?elem_of_cons, ?elem_of_nil in Hk; destruct_or! Hk; subst; try done; simpl in He; status_cases.
Qed.

Lemma moves_edge q k s s1 s2 : moves q s s1 -> k ∈ kinds q -> edge k s1 s2 -> moves q s s2.
Proof.
  intros Hm Hk He. unfold moves in *.
  destruct q as [| | | | | |? ? [req|]|? [req|]| | |]; simpl in Hk; try (by apply elem_of_nil in Hk).
  4: { destruct Hm as [->|Hm].
       - right. by eapply checkin_edge.
       - right. by eapply checkin_edge_after. }
  3: destruct (target_status (sub_status req)) as [st|] eqn:Hst; [|by apply elem_of_nil in Hk];
     pose proof (target_status_ok _ _ Hst).
  all: rewrite ?elem_of_cons, ?elem_of_nil in Hk; destruct_or! Hk; subst; try done; simpl in He; (destruct Hm as [->|Hm]; [solve [tauto | naive_solver]|]).
  all: status_cases.
Qed.

Lemma rows_move q db db' id :
  rtc (jobs_step (within (kinds q))) db db' ->
  match jobs db !! id, jobs db' !! id with
  | Some j, Some j' => moves q (job_status j) (job_status j')
  | Some _, None => False
  | None, Some j' => moves q JobStatusQueued (job_status j')
  | None, None => True
  end.
Proof.
  apply (rtc_ind_r (fun x => match jobs db !! id, jobs x !! id with
    | Some j, Some j' => moves q (job_status j) (job_status j') | Some _, None => False
    | None, Some j' => moves q JobStatusQueued (job_status j') | None, None => True end) db).
  - destruct (jobs db !! id); [by left|done].
  - intros a b _ Hab IH. specialize (Hab id). unfold row_step in Hab.
    destruct (jobs db !! id) as [j|], (jobs a !! id) as [ja|], (jobs b !! id) as [jb|]; try done.
    + destruct Hab as [->|(c & Hc & ->)]; [done|]. destruct (change_edge _ _ _ Hc) as (k & ? & ?). eauto using moves_edge.
    + destruct Hab as [->|(c & Hc & ->)]; [done|]. destruct (change_edge _ _ _ Hc) as (k & ? & ?). eauto using moves_edge.
    + destruct Hab as (Hs & _). left. by rewrite Hs.
Qed.

Lemma normal_terminal c st : IsTerminalStatus st = true -> normal_pre c st = false.
Proof.
  unfold IsTerminalStatus. rewrite !orb_true_iff. intros Ht.
  destruct_or!; apply seqb_eq in Ht as ->; destruct c; try reflexivity; unfold normal_pre, guard_pre; simpl;
    by rewrite ?andb_false_r.
Qed.

Lemma terminal_rows_stay db db' id j :
  rtc normal_step db db' -> jobs db !! id = Some j -> IsTerminalStatus (job_status j) = true ->
  jobs db' !! id = Some j.
Proof.
  intros Hs Hj Ht. induction Hs as [|a b c Hab _ IH]; [done|]. apply IH.
  specialize (Hab id). rewrite Hj in Hab. simpl in Hab.
  destruct (jobs b !! id) as [j1|]; [|done].
  destruct Hab as [->|(ch & Hc & _)]; [done|]. by rewrite normal_terminal in Hc.
Qed.

(** Without a failed-update report there is no change of that kind. *)
Lemma kinds_normal q db db' :
  reports_rollback q = false -> jobs_step (within (kinds q)) db db' -> normal_step db db'.
Proof.
  intros Hr. apply jobs_step_mono. intros c st [Hc Hk]%within_spec. unfold normal_pre. rewrite Hc.
  destruct c; try done. exfalso. destruct q; simpl in *; repeat case_match; try set_solver.
  unfold status_kinds, checkin_kinds in Hk. rewrite Hr in Hk. repeat case_match; set_solver.
Qed.

Lemma history_normal w db qs db' :
  Forall (fun q => reports_rollback q = false) qs -> history w db qs db' -> rtc normal_step db db'.
Proof.
  intros Hr. induction 1 as [|db q qs env db' _ IH]; [done|]. apply Forall_cons in Hr as [Hq Hr].
  etrans; [|by apply IH]. eapply rtc_subrel; [|apply (serve_steps w q env)]. intros a b. by apply kinds_normal.
Qed.

(** ** Properties *)

(** C1: Safety under concurrency: whatever requests that touch jobs (the jobs API,
    the agent's acknowledgements, results and check-ins, the revocation and the
    rollback of a device) and scheduler ticks run, however their statements
    interleave and whichever of them fail, stored jobs stay well-formed (a
    status the server uses, never [pending] or [running], with the timestamps
    the reapers and clients read; only a cancelled job may lack the time at
    which it ended), no job disappears, and the identity of a job (tenant,
    device, parent, type, payload, retry columns, creator) never changes. *)
Theorem interleaving_safe w qs db db' pool :
  jobs_ok db -> rtc pstep (db, map (serve w) qs) (db', pool) -> jobs_ok db' /\ jobs_grow db db'.
Proof.
  intros Hok Hs. split.
  - apply (psteps_invariant any_step jobs_ok (db, map (serve w) qs) (db', pool));
      [apply any_step_ok|done|apply pool_guar|done].
  - apply (psteps_guar any_step) in Hs; [|apply pool_guar]. simpl in Hs. clear Hok.
    induction Hs as [|a b c Hab _ IH]; [reflexivity|]. etrans; [by apply any_step_grow|done].
Qed.

(** C5: Requests served one at a time move every job as their own rows of the table
    [moves] allow, one move per request: only Cancel, on a cancellable job, or
    the revocation of its device, on a pending, queued or dispatched one,
    cancels it; only Acknowledge, on a dispatched one, acknowledges; only
    SubmitResult, on an acknowledged or running one, ends it with the submitted
    status; a tick queues dispatched jobs again and times out acknowledged and
    running ones; a check-in requeues, holds, releases and dispatches by the CDM
    state it reports, and fails a job only with a failed-update report; every
    other request moves nothing.  A new job starts queued, and none disappears. *)
Theorem history_lifecycle w db qs db' id :
  history w db qs db' ->
  match jobs db !! id, jobs db' !! id with
  | Some j, Some j' => along qs (job_status j) (job_status j')
  | Some _, None => False
  | None, Some j' => exists qs1 q qs2, qs = qs1 ++ q :: qs2 /\ along (q :: qs2) JobStatusQueued (job_status j')
  | None, None => True
  end.
Proof.
  induction 1 as [db|db q qs env db' _ IH].
  { destruct (jobs db !! id); [constructor|done]. }
  pose proof (rows_move q _ _ id (serve_steps w q env db)) as Hq.
  destruct (jobs db !! id) as [j|], (jobs (run_store _ _ _) !! id) as [j1|], (jobs db' !! id) as [j'|]; try done.
  - by eapply al_cons.
  - exists [], q, qs. split; [done|]. by eapply al_cons.
  - destruct IH as (qs1 & q' & qs2 & -> & Ha). by exists (q :: qs1), q', qs2.
Qed.

(** C4: Finished jobs are immutable: without a failed-update report among the
    requests, no column of a job in a terminal status ever changes. *)
Theorem terminal_immutable w db qs db' id j :
  history w db qs db' -> Forall (fun q => reports_rollback q = false) qs ->
  jobs db !! id = Some j -> IsTerminalStatus (job_status j) = true -> jobs db' !! id = Some j.
Proof.
  intros Hh Hr. apply terminal_rows_stay. by eapply history_normal.
Qed.
