(* ===== verification/JobSpecs.v ===== *)
(** * What the job handlers do, request by request

    Functional specifications of [Create], [Cancel], [Retry] (server/api/jobs.go)
    and of [Acknowledge] and [SubmitResult] (server/api/agent_jobs.go): the
    response and the new job table on every branch. *)

From stdpp Require Import relations.
From S2P Require Import Prelude Prog Models JobState Database Scope Quota JobSteps JobsApi AgentJobs Checkin Scheduler JobSystem.

(** The caller may act on a device: an admin, an unscoped key, or a key whose
    scope contains it. *)
Definition device_allowed (ctx : Ctx) (db : DB) (d : string) : Prop :=
  ctx_is_admin ctx = true \/
  match ctx_scope ctx with None => True | Some sc => in_scope db (ctx_tenant ctx) sc d end.

(** ** Lemmas *)

Lemma update_by_id id f j db :
  jobs db !! id = Some j -> jobs (update_jobs (fun k _ => k =s id) f db) = <[id := f j]> (jobs db).
Proof.
  intros Hj. apply map_eq. intros k. unfold update_jobs. simpl. rewrite lookup_update_where.
  destruct (decide (k = id)) as [->|Hk].
  - rewrite Hj, lookup_insert_eq. simpl. by rewrite seqb_refl.
  - rewrite lookup_insert_ne by done. apply seqb_neq in Hk as ->. by destruct (jobs db !! k).
Qed.

(** The scope check of one job, when no access fails. *)
Lemma job_in_scope_rg (Q : Response + bool -> DB -> Prop) ctx d db :
  (device_allowed ctx db d -> Q (inr true) db) -> (~ device_allowed ctx db d -> Q (inr false) db) ->
  rg ok_env (=) (=) (job_in_scope ctx d) Q db.
Proof.
  intros Ht Hf. unfold job_in_scope, device_allowed in *.
  destruct (ctx_is_admin ctx); [apply Ht; by left|]. rg_step. apply ResolveScope_rg.
  - intros Hm. by destruct (ok_env_no_fault Hm).
  - intros E. rewrite E in Ht. rg_step. apply Ht. by right.
  - intros s al E Hal. rewrite E in Ht, Hf. rg_step. unfold DeviceInScope.
    destruct (bool_decide (d ∈ al)) eqn:Ed; reflect_bools; rewrite Hal in Ed; [apply Ht; by right|].
    apply Hf. naive_solver.
Qed.

Lemma no_fault (X : Prop) : may_fault ok_env -> X.
Proof. intros H. by destruct (ok_env_no_fault H). Qed.

(** The optional audit entry at the end of a handler, then its response. *)
Lemma audit_then_stop (E : Env -> Prop) (audit : bool) T a at' ac rt ri m r db (Q : Response + unit -> DB -> Prop) :
  (forall s, jobs s = jobs db -> Q (inl r) s) ->
  rg E (=) any_step
    (_ ← (if audit then LogAction T a at' ac rt ri m else mret tt); stop r) Q db.
Proof.
  intros HQ. rg_step. destruct audit; [|by apply HQ].
  apply LogAction_rg. intros s Hs. rg_step. by apply HQ.
Qed.

(** ** Cancel *)

(** POST /v1/jobs/{id}/cancel, when no database access fails: 404 for a job of
    another tenant, 403 outside the key's scope, 409 when the status is not
    cancellable, each with the database unchanged; otherwise 204 and exactly
    this job is cancelled. *)
Theorem cancel_spec audit env ctx id db :
  (forall n, ok_env (env n)) ->
  let r := run_result (Cancel audit ctx id) env db in
  let db' := run_store (Cancel audit ctx id) env db in
  match find_job id (ctx_tenant ctx) db with
  | None => r = inl (Error 404 "job not found") /\ db' = db
  | Some j =>
      (~ device_allowed ctx db (job_device j) ->
         r = inl (ErrorWithCode 403 "scope_violation" (Lit "job target device is outside this key's scope"))
         /\ db' = db) /\
      (device_allowed ctx db (job_device j) -> IsCancellable (job_status j) = false ->
         (exists msg, r = inl (ErrorWithCode 409 "not_cancellable" msg)) /\ db' = db) /\
      (device_allowed ctx db (job_device j) -> IsCancellable (job_status j) = true ->
         r = inl NoContent /\ exists now, jobs db' = <[id := apply_change (CCancel now) j]> (jobs db))
  end.
Proof.
  intros Henv r db'. unfold r, db'. by_rg ok_env any_step; [done|].
  unfold Cancel. do 4 rg_step; [apply no_fault|].
  destruct (find_job id _ db) as [j|] eqn:Hj; [|done]. apply find_job_Some in Hj as [Hj _].
  rg_step. apply (rg_weaken_G _ _ (=)); [by intros ? ? ->|].
  apply job_in_scope_rg; intros Ha; simpl negb; cbv beta iota; [|rg_step; naive_solver].
  destruct (IsCancellable (job_status j)) eqn:Ec; simpl negb; cbv beta iota; [|rg_step; naive_solver].
  do 2 rg_step; [apply no_fault|]. unfold stmt at 1. cbv beta iota. split; [by apply update_jobs_step|].
  apply audit_then_stop. intros s Hs. split_and!; [naive_solver..|]. intros _ _. split; [done|].
  eexists. rewrite Hs. by apply update_by_id.
Qed.

(** ** Acknowledge *)

(** Response [r] and store [db'] of an acknowledgement in [db]: a 204 for a
    dispatched job of this agent, which is then acknowledged, or another answer
    with the job table as it was. *)
Definition acknowledged (ctx : Ctx) (id : string) (db : DB) (r : Response + unit) (db' : DB) : Prop :=
  (r = inl NoContent /\ exists j now, find_agent_job id (ctx_agent ctx) (ctx_tenant ctx) db = Some j
     /\ job_status j = JobStatusDispatched
     /\ jobs db' = <[id := apply_change (CAck now) j]> (jobs db)) \/
  (exists resp, r = inl resp /\ (400 <= resp_status resp)%Z /\ jobs db' = jobs db).

Lemma acknowledge_run audit env ctx id db :
  let r := run_result (Acknowledge audit ctx id) env db in
  acknowledged ctx id db r (run_store (Acknowledge audit ctx id) env db) /\
  ((forall n, ok_env (env n)) -> forall j,
     find_agent_job id (ctx_agent ctx) (ctx_tenant ctx) db = Some j ->
     job_status j = JobStatusDispatched -> r = inl NoContent).
Proof.
  intros r. unfold r. by_rg (envs env) any_step; [by eexists|].
  assert (may_fault (envs env) -> ~ forall n, ok_env (env n)) as Hnf.
  { intros Hm Hok. by apply (envs_no_fault _ Hok). }
  unfold Acknowledge. do 4 rg_step; [intros; split; [right; by eexists|naive_solver]|].
  destruct (find_agent_job id _ _ db) as [j|] eqn:Hj; [|split; [right; by eexists|naive_solver]].
  pose proof Hj as (Hjid & _)%find_agent_job_Some.
  destruct (ValidateTransition _ _) eqn:Hv.
  { rg_step. split; [right; by eexists|]. intros _ j' [= <-] Hst. rewrite Hst in Hv. by vm_compute in Hv. }
  do 2 rg_step; [intros; split; [right; by eexists|naive_solver]|]. unfold stmt at 1. cbv beta iota.
  split; [by apply update_jobs_step|].
  apply audit_then_stop. intros s Hs. split; [|done]. left. split; [done|].
  apply validate_edge in Hv as (st & st' & Hst & Hst' & Htr).
  exists j. eexists. split_and!; [done| |rewrite Hs; by apply update_by_id].
  destruct Htr; try (vm_compute in Hst'; discriminate). exact Hst.
Qed.

(** POST /v1/agents/jobs/{id}/acknowledge: whatever fails, the job is
    acknowledged exactly when the answer is 204, which needs a dispatched job of
    this agent, and is the answer for one when nothing fails; any other answer
    is an error and leaves the job table as it was. *)
Theorem acknowledge_spec audit env ctx id db :
  let r := run_result (Acknowledge audit ctx id) env db in
  acknowledged ctx id db r (run_store (Acknowledge audit ctx id) env db) /\
  ((forall n, ok_env (env n)) -> forall j,
     find_agent_job id (ctx_agent ctx) (ctx_tenant ctx) db = Some j ->
     job_status j = JobStatusDispatched -> r = inl NoContent).
Proof. apply acknowledge_run. Qed.

(** ** SubmitResult *)

(** Statements after the job update that touch neither jobs nor results. *)
Definition keeps_jobs : relation DB := fun a b => jobs b = jobs a /\ job_results b = job_results a.
#[export] Instance keeps_jobs_preorder : PreOrder keeps_jobs.
Proof. split; [by intros|]. intros a b c [] []. split; congruence. Qed.

Lemma insert_hardware_keeps id h db db' : insert_hardware id h db = Some db' -> keeps_jobs db db'.
Proof. unfold insert_hardware. case_match; [|done]. by intros (t & _ & [= <-])%bind_Some. Qed.

Lemma insert_package_keeps id p db db' : insert_package id p db = Some db' -> keeps_jobs db db'.
Proof. unfold insert_package. case_match; [|done]. by intros (t & _ & [= <-])%bind_Some. Qed.

Lemma LogAction_keeps {R : Type} T a at' ac rt ri m :
  guar keeps_jobs (LogAction T a at' ac rt ri m : prog DB R unit).
Proof. by apply LogAction_any_guar; [apply _|]. Qed.

Ltac apply_keeps :=
  let Hx := fresh "Hx" in intros Hx;
  first [apply stmt_Some in Hx as ->; done
        |apply stmt_opt_Some in Hx; eauto using insert_hardware_keeps, insert_package_keeps].

(** The row the automatic retry inserts. *)
Definition auto_retry (id : string) (j : Job) (now : Z) : Job :=
  retry_job (job_tenant j) (job_device j) id (job_type j) (job_payload j) (job_retry_policy j)
    (wrap64 (job_retry_count j + 1)) (job_max_retries j) (job_created_by j) now.

(** At most a retry of [j] is new. *)
Definition retried (id : string) (j : Job) (a b : DB) : Prop :=
  job_results b = job_results a /\
  (jobs b = jobs a \/ exists nid now, jobs a !! nid = None /\ jobs b = <[nid := auto_retry id j now]> (jobs a)).

Lemma createRetryJob_rg {R : Type} (E : Env -> Prop) id j j' db (Q : R + unit -> DB -> Prop) :
  jobs db !! id = Some j' -> same_identity j j' ->
  (forall s, retried id j db s -> Q (inr tt) s) ->
  rg E (=) any_step (createRetryJob id (job_tenant j) (job_device j) (job_type j)
       (wrap64 (job_retry_count j + 1)) (job_max_retries j)) Q db.
Proof.
  intros Hj Hid HQ. assert (retried id j db db) as Hr by (split; auto).
  assert (job_payload j' = job_payload j /\ job_retry_policy j' = job_retry_policy j
          /\ job_created_by j' = job_created_by j) as (E1 & E2 & E3)
    by (unfold same_identity in Hid; by destruct_and!).
  unfold createRetryJob. do 4 rg_step; [intros; by apply HQ|]. rewrite Hj, E1, E2, E3.
  do 4 rg_step; [intros; by apply HQ|].
  destruct (stmt_opt _ db) as [[db1 u]|] eqn:Hi; [|by apply HQ]. apply stmt_opt_Some in Hi.
  split; [eapply insert_job_step; [|exact Hi]; by repeat split|]. rg_step. apply HQ.
  apply insert_job_Some in Hi as [Hn ->]. split; [done|]. right. by eexists _, _.
Qed.

Definition result_of (id : string) (req : JobResultSubmission) : JobResult :=
  {| jr_job := id; jr_exit_code := sub_exit_code req; jr_stdout := sub_stdout req;
     jr_stderr := sub_stderr req; jr_started_at := sub_started_at req;
     jr_completed_at := sub_completed_at req |}.

Lemma insert_result_Some rid r db db' :
  insert_result rid r db = Some db' ->
  job_results db !! rid = None /\ db' = set_job_results (<[rid := r]> (job_results db)) db.
Proof.
  unfold insert_result. case_match; [|done]. intros (t & Ht & [= <-])%bind_Some.
  by apply insert_new_Some in Ht as [? ->].
Qed.

(** A status a result is accepted in. *)
Lemma submit_status j st st' :
  target_status st = Some st' ->
  ValidateTransition (if job_status j =s JobStatusAcknowledged then JobStatusRunning else job_status j) st' = None ->
  job_status j = JobStatusAcknowledged \/ job_status j = JobStatusRunning.
Proof.
  intros Hst Hv. destruct (job_status j =s JobStatusAcknowledged) eqn:Ea; reflect_bools; [by left|right].
  apply validate_edge in Hv as (s & s' & Hs & Hs' & Ht). apply target_status_ok in Hst.
  rewrite Hs. destruct Ht; try reflexivity; rewrite Hs' in Hst; vm_compute in Hst; naive_solver.
Qed.

(** A part of the handler that neither stops it nor touches jobs and results. *)
Lemma submit_inventory_rg (E : Env -> Prop) (b : bool) decode a out db (Q : Response + unit -> DB -> Prop) :
  (forall s, keeps_jobs db s -> Q (inr tt) s) ->
  rg E (=) any_step (if b then _ ← processFullInventory decode a out; mret tt else mret tt) Q db.
Proof.
  intros HQ. destruct b; [|by apply HQ]. rg_step. unfold processFullInventory. apply rg_call.
  apply (rg_weaken_G _ _ keeps_jobs); [intros ? ? []; by apply jobs_step_same|].
  eapply rg_mono; [|apply (guar_rg_stable E (=) keeps_jobs (keeps_jobs db)); [by intros ? ? ->|by intros; etrans| |done]].
  - intros [u|u] s Hs; rg_step; auto.
  - guar_all; apply_keeps.
Qed.

Lemma submit_audit_rg (E : Env -> Prop) (audit : bool) T a at' ac rt ri m db (Q : Response + unit -> DB -> Prop) :
  (forall s, keeps_jobs db s -> Q (inr tt) s) ->
  rg E (=) any_step (if audit then LogAction T a at' ac rt ri m else mret tt) Q db.
Proof.
  intros HQ. destruct audit; [|by apply HQ].
  apply LogAction_any_rg; [apply _|intros; by apply jobs_step_same|intros; by apply HQ].
Qed.

(** After the job update: inventory, audit entry and retry. *)
Lemma submit_tail_rg (E : Env -> Prop) (b audit : bool) decode a out T ac st id j j' r db (Q : Response + unit -> DB -> Prop) :
  jobs db !! id = Some j' -> same_identity j j' ->
  (forall s, retried id j db s -> (ShouldRetry st (job_retry_count j) (job_max_retries j) = false -> jobs s = jobs db) ->
     Q (inl r) s) ->
  rg E (=) any_step
    (_ ← (if b then _ ← processFullInventory decode a out; mret tt else mret tt);
     _ ← (if audit then LogAction T a ActorTypeAgent ac "job" id [("status", st)] else mret tt);
     _ ← (if ShouldRetry st (job_retry_count j) (job_max_retries j)
          then createRetryJob id (job_tenant j) (job_device j) (job_type j)
                 (wrap64 (job_retry_count j + 1)) (job_max_retries j)
          else mret tt);
     stop r) Q db.
Proof.
  intros Hj Hid HQ.
  assert (forall s, keeps_jobs db s -> rg E (=) any_step
    (_ ← (if ShouldRetry st (job_retry_count j) (job_max_retries j)
          then createRetryJob id (job_tenant j) (job_device j) (job_type j)
                 (wrap64 (job_retry_count j + 1)) (job_max_retries j)
          else mret tt); stop r) Q s) as Hretry.
  { intros s [Hs1 Hs2]. rg_step. destruct (ShouldRetry _ _ _) eqn:Er.
    - eapply createRetryJob_rg; [by rewrite Hs1|done|]. intros s' [Hr1 Hr2]. rg_step. apply HQ; [|done].
      unfold retried in *. by rewrite <-Hs1, <-Hs2.
    - rg_step. rg_step. apply HQ; [|done]. split; [done|by left]. }
  rg_step. apply submit_inventory_rg. intros s1 Hs1. rg_step. apply submit_audit_rg.
  intros s2 Hs2. apply Hretry. by etrans.
Qed.

(** Response [r] and store [db'] of a submission in [db]. *)
Definition submitted (ctx : Ctx) (id : string) (body : option JobResultSubmission) (db : DB)
    (r : Response + unit) (db' : DB) : Prop :=
  (r = inl NoContent /\ exists req st j now,
     body = Some req /\ target_status (sub_status req) = Some st
     /\ find_agent_job id (ctx_agent ctx) (ctx_tenant ctx) db = Some j
     /\ (job_status j = JobStatusAcknowledged \/ job_status j = JobStatusRunning)
     /\ (exists rid, job_results db' = <[rid := result_of id req]> (job_results db))
     /\ let done_jobs := <[id := apply_change (CFinish st now (sub_message req) (sub_started_at req)) j]> (jobs db) in
        (jobs db' = done_jobs \/
         ShouldRetry st (job_retry_count j) (job_max_retries j) = true /\
         exists nid t, done_jobs !! nid = None /\ jobs db' = <[nid := auto_retry id j t]> done_jobs)) \/
  (exists resp, r = inl resp /\ (400 <= resp_status resp)%Z /\ jobs db' = jobs db /\
     (job_results db' = job_results db \/
      exists rid req, body = Some req /\ job_results db' = <[rid := result_of id req]> (job_results db))).

Lemma submit_run decode audit env ctx id body db :
  submitted ctx id body db (run_result (SubmitResult decode audit ctx id body) env db)
    (run_store (SubmitResult decode audit ctx id body) env db).
Proof.
  assert (forall resp db', (400 <= resp_status resp)%Z -> jobs db' = jobs db ->
    (job_results db' = job_results db \/ exists rid req, body = Some req /\ job_results db' = <[rid := result_of id req]> (job_results db)) ->
    submitted ctx id body db (inl resp) db') as Hrefused by (intros; right; by eauto 10).
  by_rg any_env any_step; [done|].
  unfold SubmitResult. do 2 rg_step. destruct body as [req|]; [|by apply Hrefused; auto].
  destruct (target_status (sub_status req)) as [st|] eqn:Hst; [|by apply Hrefused; auto].
  do 2 rg_step; [intros _; by apply Hrefused; auto|].
  destruct (find_agent_job id _ _ db) as [j|] eqn:Hj; [|by apply Hrefused; auto].
  pose proof Hj as (Hjid & Hd & Ht)%find_agent_job_Some.
  destruct (ValidateTransition _ _) eqn:Hv; [by apply Hrefused; eauto|]. apply (submit_status _ _ _ Hst) in Hv.
  do 4 rg_step; [intros _; by apply Hrefused; auto|].
  destruct (stmt_opt _ db) as [[db1 u]|] eqn:Hi; [|by apply Hrefused; auto]. apply stmt_opt_Some, insert_result_Some in Hi as [_ ->].
  split; [by apply jobs_step_same|]. do 2 rg_step; [intros _; by apply Hrefused; eauto|]. unfold stmt at 1. cbv beta iota.
  split; [apply update_jobs_step; intros; by eapply finish_pre|]. rewrite <-Hd, <-Ht.
  assert (jobs (set_job_results (<[i := result_of id req]> (job_results db)) db) !! id = Some j) as Hjid' by done.
  eapply submit_tail_rg; [rewrite (update_by_id _ _ _ _ Hjid'); apply lookup_insert_eq|apply apply_change_identity|].
  intros s [Hr1 Hr2] Hno. left. split; [done|]. rewrite (update_by_id _ _ _ _ Hjid') in Hr2.
  eexists req, st, j, _. split_and!; [done|done|done|done|exists i; exact Hr1|]. simpl.
  destruct (ShouldRetry _ _ _) eqn:Er; [destruct Hr2 as [Hr2|Hr2]; eauto|].
  left. rewrite (Hno eq_refl). exact (update_by_id _ _ _ _ Hjid').
Qed.

(** C19: POST /v1/agents/jobs/{id}/result, whatever database accesses fail.  A 204
    means: the status submitted was completed, failed or timed_out, the job was
    this agent's and in flight; the result is stored, the job finished with the
    submitted status and message, and no other job changed, except that at most
    one retry of this job appeared, and only when the policy allows another
    attempt.  Any other answer is
    an error and leaves the job table as it was (a result may have been stored). *)
Theorem submit_result_spec decode audit env ctx id body db :
  submitted ctx id body db (run_result (SubmitResult decode audit ctx id body) env db)
    (run_store (SubmitResult decode audit ctx id body) env db).
Proof. apply submit_run. Qed.

(** ** Create *)

(** The ids [ids] were fresh and are now the jobs [mk d] of the devices [ds], in
    order; nothing else changed. *)
Definition made (mk : string -> Job) (db : DB) (ids ds : list string) (s : DB) : Prop :=
  NoDup ids /\ Forall2 (fun id d => jobs db !! id = None /\ jobs s !! id = Some (mk d)) ids ds /\
  forall k, k ∉ ids -> jobs s !! k = jobs db !! k.

Lemma made_snoc mk db ids ds s nid d s' :
  made mk db ids ds s -> insert_job nid (mk d) s = Some s' -> made mk db (ids ++ [nid]) (ds ++ [d]) s'.
Proof.
  intros (Hnd & Hf & Hframe) [Hn ->]%insert_job_Some.
  assert (nid ∉ ids) as Hnew.
  { intros Hin. apply list_elem_of_lookup in Hin as [i Hi].
    destruct (Forall2_lookup_l _ _ _ _ _ Hf Hi) as (d' & _ & _ & Hs). congruence. }
  split_and!.
  - apply NoDup_app. split_and!; [done| |apply NoDup_singleton]. set_solver.
  - apply Forall2_app.
    + eapply Forall2_impl; [exact Hf|]. intros id d' [Hid Hs]. split; [done|]. simpl.
      rewrite lookup_insert_ne; [done|]. intros ->. congruence.
    + constructor; [|constructor]. split; [by rewrite <-Hframe|]. simpl. apply lookup_insert_eq.
  - intros k Hk. simpl. rewrite lookup_insert_ne; [apply Hframe|]; set_solver.
Qed.

Lemma insert_jobs_rg (E : Env -> Prop) mk ds db (Q : Response + list string -> DB -> Prop) :
  (forall d, new_job_ok (mk d)) ->
  (forall ids s, made mk db ids ds s -> Q (inr ids) s) ->
  (forall ids ds1 s, ds1 `prefix_of` ds -> made mk db ids ds1 s -> Q (inl (Error 500 "failed to create job")) s) ->
  rg E (=) any_step (insert_jobs mk ds) Q db.
Proof.
  intros Hmk Hok Hpart. unfold insert_jobs.
  eapply (rg_for_each _ _ _ _ _ (fun ys ids s => made mk db ids ys s) _ []).
  - split_and!; [constructor|constructor|done].
  - intros ys d zs ids s Hys Hm. simpl in Hys. assert (ys `prefix_of` ds) by (rewrite Hys; by eexists).
    do 4 rg_step; [intros _; rg_step; by eapply Hpart|].
    destruct (stmt_opt _ s) as [[s' u]|] eqn:Hi; [|rg_step; by eapply Hpart].
    apply stmt_opt_Some in Hi. split; [by eapply insert_job_step|]. rg_step. by eapply made_snoc.
  - done.
Qed.

(** Scope enforcement on the resolved targets. *)
Lemma restrict_to_scope_rg (E : Env -> Prop) ctx ds db (Q : Response + list string -> DB -> Prop) :
  NoDup ds -> ds <> [] ->
  (forall ds', NoDup ds' -> ds' <> [] -> (forall d, d ∈ ds' <-> d ∈ ds /\ device_allowed ctx db d) -> Q (inr ds') db) ->
  (forall r, (400 <= resp_status r)%Z -> Q (inl r) db) ->
  rg E (=) (=) (restrict_to_scope ctx ds) Q db.
Proof.
  intros Hnd Hne Hok Herr. unfold restrict_to_scope, device_allowed in *.
  destruct (ctx_is_admin ctx); [apply Hok; [done..|naive_solver]|].
  destruct (ctx_scope ctx) as [sc|]; [|apply Hok; [done..|naive_solver]].
  rg_step. apply ResolveScope_rg; [intros _; by apply Herr|done|]. intros s al [= <-] Hal.
  unfold FilterDeviceIDs. cbv beta iota zeta. destruct (nonempty (filter_ids al ds)) eqn:Ene.
  - apply Hok; [by apply filter_ids_NoDup|by intros H; rewrite H in Ene|].
    intros d. rewrite elem_of_filter_ids, Hal. naive_solver.
  - by apply Herr.
Qed.

(** What [Create] may have done to the jobs: new rows for targeted and allowed
    devices only. *)
Definition created_for (ctx : Ctx) (req : CreateRequest) (now : Z) (d : string) : Job :=
  let rp := match cq_retry_policy req with Some rp => Some rp | None => DefaultRetryPolicy (cq_type req) end in
  created_job (ctx_tenant ctx) d (cq_type req) (cq_payload req) rp
    (match rp with Some rp => MaxRetries rp | None => 0%Z end) (ctx_user ctx) now.

(** Every way [Create] can end. *)
Lemma create_run audit quota env ctx body db :
  let r := run_result (Create audit quota ctx body) env db in
  let db' := run_store (Create audit quota ctx body) env db in
  (exists req ds ids now, body = Some req /\ ValidateType (cq_type req) = None /\ cq_payload req <> ""
     /\ NoDup ds /\ ds <> []
     /\ (forall d, d ∈ ds <-> targeted db (ctx_tenant ctx) (cq_target req) d /\ device_allowed ctx db d)
     /\ (forall l, queued_limit quota db (ctx_tenant ctx) = Some l ->
           count_queued_jobs db (ctx_tenant ctx) + Z.of_nat (length ds) <= l)%Z
     /\ (r = inl (JSON 201 (BJobsCreated ids (length ds))) /\ made (created_for ctx req now) db ids ds db' \/
         r = inl (Error 500 "failed to create job") /\
         exists ds1, ds1 `prefix_of` ds /\ made (created_for ctx req now) db ids ds1 db')) \/
  (exists resp, r = inl resp /\ (400 <= resp_status resp)%Z /\ jobs db' = jobs db).
Proof.
  intros r db'. unfold r, db'. by_rg any_env any_step; [done|]. unfold Create.
  destruct body as [req|]; [|right; by eexists].
  destruct (ValidateType _) eqn:Hty; [right; by eexists|].
  destruct (cq_payload req =s "") eqn:Hpl; [right; by eexists|]. reflect_bools.
  assert (forall a b : DB, a = b -> any_step a b) as Hw by (by intros ? ? ->).
  rg_step. apply (rg_weaken_G _ _ (=)); [done|].
  apply resolveTargets_rg; [intros _; right; by eexists|]. intros ds0 Hnd0 Hds0.
  destruct (nonempty ds0) eqn:Hne; [|right; by eexists]. simpl negb. cbv beta iota.
  rg_step. apply (rg_weaken_G _ _ (=)); [done|].
  apply restrict_to_scope_rg; [done|by intros ->| |intros resp Hr; right; by eexists].
  intros ds Hnd Hnil Hds. rg_step. apply (rg_weaken_G _ _ (=)); [done|].
  apply CheckQueuedJobs_rg; [intros _; right; by eexists|intros; right; by eexists|]. intros Hq.
  unfold quota_guard. cbv zeta. do 3 rg_step.
  assert (forall d, d ∈ ds <-> targeted db (ctx_tenant ctx) (cq_target req) d /\ device_allowed ctx db d) as Hds'.
  { intros d. by rewrite Hds, Hds0. }
  assert (0 < Z.of_nat (length ds))%Z by (destruct ds; [done|simpl; lia]).
  apply insert_jobs_rg; [by repeat split| |].
  - intros ids s Hm. apply audit_then_stop. intros s' Hs'. left.
    exists req, ds, ids. eexists. split_and!; [done..|auto|left; split; [done|]].
    unfold made in *. rewrite Hs'. exact Hm.
  - intros ids ds1 s Hpre Hm. left. exists req, ds, ids. eexists. split_and!; [done..|auto|right].
    split; [done|]. exists ds1. by split.
Qed.

(** C18: POST /v1/jobs, whatever database accesses fail.  A 201 means: the type is
    known, the payload present, and there is exactly one new queued job per
    device that the target names (directly or through a group, tag or site of
    the tenant) and the key's scope allows, reported in order, within the
    tenant's quota of queued jobs, and nothing else changed.  An error other than a failed insert leaves
    the job table as it was; a failed insert leaves the jobs made so far. *)
Theorem create_spec audit quota env ctx body db :
  let r := run_result (Create audit quota ctx body) env db in
  let db' := run_store (Create audit quota ctx body) env db in
  (exists req ds ids now, body = Some req /\ ValidateType (cq_type req) = None /\ cq_payload req <> ""
     /\ NoDup ds /\ ds <> []
     /\ (forall d, d ∈ ds <-> targeted db (ctx_tenant ctx) (cq_target req) d /\ device_allowed ctx db d)
     /\ (forall l, queued_limit quota db (ctx_tenant ctx) = Some l ->
           count_queued_jobs db (ctx_tenant ctx) + Z.of_nat (length ds) <= l)%Z
     /\ (r = inl (JSON 201 (BJobsCreated ids (length ds))) /\ made (created_for ctx req now) db ids ds db' \/
         r = inl (Error 500 "failed to create job") /\
         exists ds1, ds1 `prefix_of` ds /\ made (created_for ctx req now) db ids ds1 db')) \/
  (exists resp, r = inl resp /\ (400 <= resp_status resp)%Z /\ jobs db' = jobs db).
Proof. apply create_run. Qed.

(** ** List *)

#[export] Instance newest_first_total : Total newest_first.
Proof. intros a b. unfold newest_first. lia. Qed.
#[export] Instance newest_first_trans : Transitive newest_first.
Proof. intros a b c. unfold newest_first. lia. Qed.

(** A job the request asks for and the caller may see. *)
Definition visible (ctx : Ctx) (q : ListQuery) (db : DB) (b : JobBrief) : Prop :=
  exists id j, jobs db !! id = Some j /\ b = brief (id, j) /\ job_tenant j = ctx_tenant ctx
    /\ device_allowed ctx db (job_device j)
    /\ (lq_status q = "" \/ job_status j = lq_status q) /\ (lq_type q = "" \/ job_type j = lq_type q)
    /\ (lq_device q = "" \/ job_device j = lq_device q).

Lemma opt_filter_spec f c : opt_filter f c = true <-> f = "" \/ c = f.
Proof. unfold opt_filter. by rewrite orb_true_iff, !seqb_eq. Qed.

(** The rows of the SELECT before its LIMIT. *)
Definition listed (T : string) (scope : option (gset string)) (q : ListQuery) (db : DB) : list JobBrief :=
  merge_sort newest_first (map brief (select_where (fun _ j =>
    (job_tenant j =s T) && DeviceInScope scope (job_device j)
    && opt_filter (lq_status q) (job_status j) && opt_filter (lq_type q) (job_type j)
    && opt_filter (lq_device q) (job_device j)) (jobs db))).

Lemma listed_visible ctx q scope db b :
  (forall d, DeviceInScope scope d = true <-> device_allowed ctx db d) ->
  b ∈ listed (ctx_tenant ctx) scope q db <-> visible ctx q db b.
Proof.
  intros Hsc. unfold listed, visible. rewrite merge_sort_Permutation, list_elem_of_In, in_map_iff. split.
  - intros ([id j] & <- & Hin). apply list_elem_of_In, elem_of_select_where in Hin as [Hj Hp].
    rewrite !andb_true_iff, seqb_eq, Hsc, !opt_filter_spec in Hp. destruct_and!. eauto 10.
  - intros (id & j & Hj & -> & Ht & Hd & H1 & H2 & H3). exists (id, j). split; [done|].
    apply list_elem_of_In, elem_of_select_where.
    rewrite !andb_true_iff, seqb_eq, Hsc, !opt_filter_spec. auto 10.
Qed.

Lemma list_answer ctx q scope db :
  (forall d, DeviceInScope scope d = true <-> device_allowed ctx db d) ->
  let l := list_jobs (ctx_tenant ctx) scope q db in
  length l <= 100 /\ StronglySorted newest_first l /\ (forall b, b ∈ l -> visible ctx q db b) /\
  (forall b, visible ctx q db b -> b ∈ l \/ length l = 100 /\ forall b', b' ∈ l -> newest_first b' b).
Proof.
  intros Hsc l. change l with (take 100 (listed (ctx_tenant ctx) scope q db)).
  destruct (limit_spec newest_first 100 (listed (ctx_tenant ctx) scope q db)) as (Hl & Hs & Hin & Hall);
    [apply StronglySorted_merge_sort; apply _|].
  split_and!; [done..| |].
  - intros b Hb. by apply (listed_visible ctx q scope), Hin.
  - intros b Hb. by apply Hall, listed_visible.
Qed.

(** GET /v1/jobs, whatever database accesses fail: a 200 lists, newest first,
    jobs of the caller's tenant on devices its scope allows that match the
    filters, at most 100 of them, and leaves none out that is newer than what
    it lists. *)
Theorem list_spec env ctx q db :
  match run_result (ListJobs ctx q) env db with
  | inl (ROk 200 (BJobList l)) =>
      length l <= 100 /\ StronglySorted newest_first l /\ (forall b, b ∈ l -> visible ctx q db b) /\
      (forall b, visible ctx q db b -> b ∈ l \/ length l = 100 /\ forall b', b' ∈ l -> newest_first b' b)
  | inl r => resp_status r = 500%Z
  | inr _ => False
  end /\ run_store (ListJobs ctx q) env db = db.
Proof.
  by_rg any_env (=@{DB}); [done|]. unfold ListJobs, device_allowed.
  assert (forall scope, (forall d, DeviceInScope scope d = true <-> device_allowed ctx db d) ->
    rg any_env (=) (=) (rows ← query (list_jobs (ctx_tenant ctx) scope q);
      match rows with
      | None => stop (Error 500 "failed to list jobs")
      | Some l => stop (JSON 200 (BJobList l))
      end)
     (fun (y : Response + unit) y0 => match y with
      | inl (ROk 200 (BJobList l)) =>
          length l <= 100 /\ StronglySorted newest_first l /\ (forall b, b ∈ l -> visible ctx q db b) /\
          (forall b, visible ctx q db b -> b ∈ l \/ length l = 100 /\ forall b', b' ∈ l -> newest_first b' b)
      | inl r => resp_status r = 500%Z
      | inr _ => False
      end /\ y0 = db) db) as Hq.
  { intros scope Hsc. do 2 rg_step; [done|]. rg_step. split; [|done]. by apply list_answer. }
  unfold device_allowed in Hq. rg_step. destruct (ctx_is_admin ctx) eqn:Ea; [apply Hq; naive_solver|].
  destruct (ctx_scope ctx) as [sc|] eqn:Es; [|apply Hq; naive_solver].
  rg_step. apply ResolveScope_rg; [done|done|]. intros s al [= <-] Hal.
  assert (forall d, DeviceInScope (Some al) d = true <-> device_allowed ctx db d) as Hsc.
  { intros d. unfold device_allowed, DeviceInScope. rewrite bool_decide_eq_true, Hal, Ea, Es. naive_solver. }
  case_decide as Hal0; [|by apply Hq; intros d; rewrite (Hsc d); unfold device_allowed; rewrite Ea, Es].
  rg_step. split; [|done]. split_and!; [simpl; lia|constructor|intros b Hb; by apply elem_of_nil in Hb|].
  intros b (id & j & _ & _ & _ & Hd & _). apply Hsc in Hd. unfold DeviceInScope in Hd.
  rewrite Hal0 in Hd. by vm_compute in Hd.
Qed.
