(* ===== verification/Isolation.v ===== *)
(** * Isolation of tenants and devices

    [Cancel], [Acknowledge], [SubmitResult] and the dispatch loop of [Checkin]
    check the tenant (and the device) of a job when they read it and then
    update it by its id alone.  The file shows that this is enough: under every
    interleaving, each statement of a request changes only rows the request may
    change, in the way it may change them. *)

From stdpp Require Import relations.
From S2P Require Import Prelude Prog Models JobState Database Scope Quota JobSteps JobsApi AgentJobs Checkin Scheduler Fleet JobSystem.

(** ** What a request may do to a row *)

(** The rows a request may apply a change to: the job it names, in the caller's
    tenant; for agents, jobs of the agent's own device, except that the report of
    a failed update is about the job it names, whichever device of the tenant it
    is for.  The scheduler serves all tenants. *)
Definition may_change (q : Request) (c : job_change) (id : string) (j : Job) : Prop :=
  match q with
  | QCancel ctx jobID => id = jobID /\ job_tenant j = ctx_tenant ctx
  | QAcknowledge ctx jobID | QSubmit ctx jobID _ =>
      id = jobID /\ job_tenant j = ctx_tenant ctx /\ job_device j = ctx_agent ctx
  | QCheckin ctx (Some req) =>
      job_tenant j = ctx_tenant ctx /\
      match c with
      | CRollback _ _ => id = as_last_update_job_id (cr_status req)
      | _ => job_device j = ctx_agent ctx
      end
  | QRevoke ctx deviceID _ => job_tenant j = ctx_tenant ctx /\ job_device j = deviceID
  | QTick => True
  | _ => False
  end.

(** The rows a request may add. *)
Definition may_create (q : Request) (j : Job) : Prop :=
  new_job_ok j /\
  match q with
  | QCreate ctx _ => job_tenant j = ctx_tenant ctx /\ job_parent j = None
  | QRetry ctx jobID => job_tenant j = ctx_tenant ctx /\ job_parent j = Some jobID
  | QSubmit ctx jobID _ =>
      job_tenant j = ctx_tenant ctx /\ job_device j = ctx_agent ctx /\ job_parent j = Some jobID
  | QRollbackDevice ctx deviceID _ =>
      job_tenant j = ctx_tenant ctx /\ job_device j = deviceID /\ job_parent j = None /\ job_type j = JobTypeAgentRollback
  | QTick => job_parent j = None
  | _ => False
  end.

(** One statement of [q], seen from the row [id]. *)
Definition reach (q : Request) (id : string) (o o' : option Job) : Prop :=
  match o, o' with
  | None, Some j => may_create q j
  | Some j, Some j' =>
      exists c, kind_of c ∈ kinds q /\ sql_pre c (job_status j) = true /\ may_change q c id j /\ j' = apply_change c j
  | _, None => False
  end.

(** A statement of [q] on the whole table. *)
Definition touch (q : Request) : relation DB := fun a b =>
  forall id, jobs b !! id = jobs a !! id \/ reach q id (jobs a !! id) (jobs b !! id).

#[export] Instance touch_refl q : Reflexive (touch q).
Proof. intros a id. by left. Qed.

Lemma touch_grow q a b : touch q a b -> jobs_grow a b.
Proof.
  intros H id j Hj. destruct (H id) as [E|Hr].
  - rewrite E. eauto using same_identity_refl.
  - rewrite Hj in Hr. destruct (jobs b !! id) as [j'|]; [|done].
    destruct Hr as (c & _ & _ & _ & ->). eauto using apply_change_identity.
Qed.

Section Touch.
Context (q : Request).

Lemma touch_same a b : jobs b = jobs a -> touch q a b.
Proof. intros E id. left. by rewrite E. Qed.

Lemma touch_update p c s :
  kind_of c ∈ kinds q ->
  (forall id j, jobs s !! id = Some j -> p id j = true -> sql_pre c (job_status j) = true /\ may_change q c id j) ->
  touch q s (update_jobs p (apply_change c) s).
Proof.
  intros Hk Hp id. unfold update_jobs; simpl. rewrite lookup_update_where.
  destruct (jobs s !! id) as [j|] eqn:Hj; simpl; [|by left].
  destruct (p id j) eqn:E; [|by left]. right. exists c. destruct (Hp id j Hj E). done.
Qed.

Lemma touch_insert id j s s' : insert_job id j s = Some s' -> may_create q j -> touch q s s'.
Proof.
  intros [Hn ->]%insert_job_Some Hj k. simpl. destruct (decide (k = id)) as [->|Hne].
  - right. by rewrite Hn, lookup_insert_eq.
  - left. by rewrite lookup_insert_ne.
Qed.

(** An update by id of a job that was checked when it was read. *)
Lemma touch_update_id id j c s :
  kind_of c ∈ kinds q -> (forall st, sql_pre c st = true) ->
  present id j s -> (forall j', same_identity j j' -> may_change q c id j') ->
  touch q s (update_jobs (fun k _ => k =s id) (apply_change c) s).
Proof.
  intros Hk Hs (j' & Hj' & Hid) Hj. apply touch_update; [done|]. intros k jk Hk' Hkid. reflect_bools. subst.
  simplify_eq. auto.
Qed.

Definition isolated (p : Handler unit) : Prop :=
  forall db, rg any_env jobs_grow (touch q) p (fun _ _ => True) db.

Lemma guar_isolated p : guar (touch q) p -> isolated p.
Proof. intros Hp db. by apply guar_rg. Qed.

Lemma LogAction_touch {R : Type} T a at' ac rt ri m :
  guar (touch q) (LogAction T a at' ac rt ri m : prog DB R unit).
Proof. apply LogAction_any_guar; [apply _|]. intros. by apply touch_same. Qed.

Lemma processFullInventory_touch {R : Type} decode d data :
  guar (touch q) (processFullInventory decode d data : prog DB R _).
Proof.
  unfold processFullInventory. guar_all; (intros Hx; first [apply stmt_Some in Hx as -> | apply stmt_opt_Some in Hx]);
    apply touch_same; eauto with moebius.
Qed.

Lemma processPackageDelta_touch {R : Type} d delta : guar (touch q) (processPackageDelta d delta : prog DB R _).
Proof.
  unfold processPackageDelta. guar_all; (intros Hx; first [apply stmt_Some in Hx as -> | apply stmt_opt_Some in Hx]);
    apply touch_same; eauto with moebius.
Qed.
End Touch.

#[export] Hint Resolve LogAction_touch processFullInventory_touch processPackageDelta_touch : moebius.

(** Runs a prefix of a program, keeping the fact that a job is present. *)
Ltac carry Q :=
  eapply (rg_stable_then _ _ _ Q);
  [solve [eauto using present_stable]|solve [eauto using present_stable, touch_grow]|try solve [guar_all]|done|done|].

(** A statement that adds a row which the request may add. *)
Ltac adds :=
  let Hx := fresh "Hx" in intros Hx; apply stmt_opt_Some in Hx; eapply touch_insert; [exact Hx|]; by repeat split.

(** ** The requests of users *)

Lemma Create_isolated audit quota ctx body : isolated (QCreate ctx body) (Create audit quota ctx body).
Proof.
  apply guar_isolated. unfold Create, restrict_to_scope, insert_jobs.
  guar_all; try (apply quota_guard_guar); guar_all; adds.
Qed.

Lemma Retry_isolated audit quota ctx id : isolated (QRetry ctx id) (Retry audit quota ctx id).
Proof.
  apply guar_isolated. unfold Retry. guar_all; try (apply quota_guard_guar); guar_all; adds.
Qed.

Lemma Cancel_isolated audit ctx id : isolated (QCancel ctx id) (Cancel audit ctx id).
Proof.
  intros db. unfold Cancel. carry (fun _ : DB => True). intros now s1 _.
  apply rg_bind, rg_query_row. intros s2 _. split_and!; [done..|].
  destruct (find_job id _ s2) as [j|] eqn:Hj; [|done]. apply find_job_Some in Hj as [Hj Ht].
  apply present_read in Hj.
  carry (present id j). intros ok s3 H3. case_match; [done|]. case_match; [done|].
  apply rg_bind, rg_exec. intros s4 H34. apply (present_stable _ _ _ _ H34) in H3.
  split_and!; [done..|]. unfold stmt. split; [|apply guar_rg; guar_all].
  eapply touch_update_id; [set_solver|done|done|]. intros j' Hid. split; [done|]. by rewrite <-Ht; apply Hid.
Qed.

Lemma Revoke_isolated audit ctx d body : isolated (QRevoke ctx d body) (Revoke audit ctx d body).
Proof.
  apply guar_isolated, Revoke_all_guar; [apply _|intros; by apply touch_same|].
  intros reason now db dv _ _. unfold revoked_db.
  refine (touch_update _ (cancellable (ctx_tenant ctx) d) CRevoke (set_agent_certificates _ (set_devices _ db)) _ _); [set_solver|].
  intros id j _ Hj. unfold cancellable in Hj. apply andb_true_iff in Hj as [Hj Hs]. split; [done|]. by reflect_bools.
Qed.

Lemma RollbackDevice_isolated m ctx d body : isolated (QRollbackDevice ctx d body) (RollbackDevice m ctx d body).
Proof.
  apply guar_isolated, RollbackDevice_all_guar; [apply _|intros; by apply touch_same|].
  intros. eapply touch_insert; [done|]. by repeat split.
Qed.

(** ** The requests of agents *)

Lemma Acknowledge_isolated audit ctx id : isolated (QAcknowledge ctx id) (Acknowledge audit ctx id).
Proof.
  intros db. unfold Acknowledge. carry (fun _ : DB => True). intros now s1 _.
  apply rg_bind, rg_query_row. intros s2 _. split_and!; [done..|].
  destruct (find_agent_job id _ _ s2) as [j|] eqn:Hj; [|done].
  apply find_agent_job_Some in Hj as (Hj & Hd & Hjt). apply present_read in Hj.
  case_match; [done|]. apply rg_bind, rg_exec. intros s3 H23. apply (present_stable _ _ _ _ H23) in Hj.
  split_and!; [done..|]. unfold stmt. split; [|apply guar_rg; guar_all].
  eapply touch_update_id; [set_solver|done|done|]. intros j' (? & ? & _). split_and!; congruence.
Qed.

Lemma SubmitResult_isolated decode audit ctx id body :
  isolated (QSubmit ctx id body) (SubmitResult decode audit ctx id body).
Proof.
  intros db. unfold SubmitResult. carry (fun _ : DB => True). intros now s1 _.
  destruct body as [req|]; [|done]. destruct (target_status _) as [st|] eqn:Hst; [|done].
  apply rg_bind, rg_query_row. intros s2 _. split_and!; [done..|].
  destruct (find_agent_job id _ _ s2) as [j|] eqn:Hj; [|done].
  apply find_agent_job_Some in Hj as (Hj & Hd & Hjt). apply present_read in Hj.
  case_match; [done|]. carry (present id j). intros rid s3 H3.
  carry (present id j).
  { guar_all. intros Hx%stmt_opt_Some. apply touch_same. by apply insert_result_jobs in Hx. }
  intros r s4 H4. destruct r; [|done].
  apply rg_bind, rg_exec. intros s5 H45. apply (present_stable _ _ _ _ H45) in H4.
  split_and!; [done..|]. unfold stmt. split.
  - eapply touch_update_id; [simpl; rewrite Hst; set_solver|intros; by eapply finish_pre|done|].
    intros j' (? & ? & _). split_and!; congruence.
  - apply guar_rg. unfold createRetryJob. guar_all; adds.
Qed.

(** The dispatch loop updates by id jobs that were read before it. *)
Lemma dispatch_jobs_isolated ctx req now js s :
  KDispatch ∈ status_kinds (cr_status req) ->
  (forall b, b ∈ js -> exists j, present (jb_id b) j s /\ job_tenant j = ctx_tenant ctx /\ job_device j = ctx_agent ctx) ->
  rg any_env jobs_grow (touch (QCheckin ctx (Some req))) (dispatch_jobs now js : Handler _) (fun _ _ => True) s.
Proof.
  intros Hk Hjs. unfold dispatch_jobs.
  eapply (rg_for_each _ _ _ _ _
    (fun _ _ s' => forall b, b ∈ js -> exists j, present (jb_id b) j s' /\ job_tenant j = ctx_tenant ctx /\ job_device j = ctx_agent ctx) _ []); [done| |done].
  intros ys x zs acc s1 Hx H1. simpl in Hx.
  apply rg_bind, rg_exec. intros s2 H12.
  assert (forall s', jobs_grow s1 s' -> forall b, b ∈ js ->
    exists j, present (jb_id b) j s' /\ job_tenant j = ctx_tenant ctx /\ job_device j = ctx_agent ctx) as Hst.
  { intros s' Hs' b Hb. destruct (H1 b Hb) as (j & Hj & HPj). eauto using present_stable. }
  destruct (Hst s2 H12 x) as (j & Hj & Ht & Hd); [subst js; set_solver|].
  assert (touch (QCheckin ctx (Some req)) s2 (sql_dispatch (jb_id x) now s2)) as Hu.
  { eapply touch_update_id; [done|done|done|]. intros j' (? & ? & _). split; congruence. }
  split_and!; [done|intros _; apply rg_mret; by apply (Hst s2)|]. unfold stmt. split; [exact Hu|].
  apply rg_mret, Hst. etrans; [exact H12|]. by eapply touch_grow.
Qed.

Lemma queued_allowed ctx s b :
  b ∈ queued_jobs (ctx_agent ctx) (ctx_tenant ctx) s ->
  exists j, present (jb_id b) j s /\ job_tenant j = ctx_tenant ctx /\ job_device j = ctx_agent ctx.
Proof.
  intros (id & j & Hj & Hd & Ht & _ & ->)%queued_jobs_elem%candidates_elem.
  exists j. split; [by apply present_read|auto].
Qed.

(** An UPDATE of the jobs of the agent's device. *)
Ltac own_jobs :=
  let Hx := fresh "Hx" in let Hy := fresh "Hy" in
  intros Hx; apply stmt_Some in Hx as ->;
  first [by apply touch_same
        |apply touch_update; [done|]; intros ??? Hy; unfold of_agent in Hy; reflect_bools; subst;
         simpl; rewrite ?negb_true_iff, ?seqb_eq, ?seqb_neq; by auto].

Lemma Checkin_isolated ctx body : isolated (QCheckin ctx body) (Checkin ctx body).
Proof.
  intros db. unfold Checkin. case_match; [done|]. destruct body as [req|]; [|done].
  assert (KRequeue ∈ kinds (QCheckin ctx (Some req))) as Hrq by (simpl; unfold status_kinds, checkin_kinds; set_solver).
  carry (fun _ : DB => True). intros now s1 _.
  carry (fun _ : DB => True); [guar_all; own_jobs|]. intros r s2 _. destruct r; [|done].
  carry (fun _ : DB => True).
  { unfold report_rollback. fold (reported (cr_status req)). destruct (reported _) eqn:Ef; [|done].
    assert (KRollback ∈ kinds (QCheckin ctx (Some req))) as Hrb
      by (simpl; unfold status_kinds, checkin_kinds; rewrite Ef; set_solver). guar_all; own_jobs. }
  intros _ s3 _. carry (fun _ : DB => True).
  intros _ s4 _. carry (fun _ : DB => True); [guar_all; own_jobs|]. intros _ s5 _.
  apply rg_bind. unfold fetchDispatchableJobs.
  destruct (as_cdm_enabled _ && negb _) eqn:Eh.
  - assert (KHold ∈ kinds (QCheckin ctx (Some req))) as Hrb
      by (simpl; unfold status_kinds, checkin_kinds; rewrite Eh; set_solver).
    carry (fun _ : DB => True); [guar_all; own_jobs|]. intros r' s6 _. destruct r'; [|done].
    apply rg_mret. apply rg_bind, rg_mret. by apply rg_stop.
  - carry (fun _ : DB => True).
    { destruct (as_cdm_enabled _ && as_cdm_session_active _) eqn:Er; [|done].
      assert (KRelease ∈ kinds (QCheckin ctx (Some req))) as Hrb
        by (simpl; unfold status_kinds, checkin_kinds; rewrite Eh, Er; set_solver). guar_all; own_jobs. }
    intros _ s6 _. apply rg_query. intros s7 _. split_and!; [done..|]. apply rg_bind.
    eapply rg_mono; [|apply dispatch_jobs_isolated; [|by apply queued_allowed]]; [by intros []|].
    unfold status_kinds, checkin_kinds. rewrite Eh. set_solver.
Qed.

(** ** The scheduler *)

Lemma runTick_isolated {R : Type} cron_next s : guar (touch QTick) (runTick cron_next s : prog DB R _).
Proof.
  unfold runTick, evaluateScheduledJobs, dispatchScheduledJob, reapStuckDispatchedJobs, reapStuckInflightJobs,
    reapExpiredEnrollmentTokens.
  guar_all; try (apply evaluateAlertRules_guar; apply _); try adds.
  all: intros ->%stmt_Some; first [by apply touch_same | apply touch_update; [set_solver|]].
  all: intros id j _ Hj; apply andb_true_iff in Hj as [Hj _]; by simpl; rewrite ?Hj.
Qed.

Lemma serve_isolated w q : isolated q (serve w q).
Proof.
  destruct q; cbv beta iota delta [serve]; auto using Create_isolated, Retry_isolated, Cancel_isolated, Revoke_isolated,
    RollbackDevice_isolated, Acknowledge_isolated, SubmitResult_isolated, Checkin_isolated; apply guar_isolated.
  - apply GetJob_guar, _.
  - apply ListJobs_guar, _.
  - guar_step; [apply runTick_isolated|done].
Qed.

(** ** Property *)

(** C2: Isolation under concurrency: in any interleaving of requests that touch jobs
    and scheduler ticks, every row gets from what it was to what it is by
    statements each of which one of the requests may make on that row ([reach]):
    users change and add jobs of their own tenant only, the job they name or, by
    revoking a device, the open jobs of that device; an agent's acknowledgement
    and result change the job they name, of the agent's own tenant and device;
    an agent's check-in changes jobs of its own tenant and device, except that
    the report of a failed update fails the job it names, for whichever device of
    the tenant; reads change nothing.  The scheduler serves all tenants: it only
    requeues and times out jobs, and adds those of schedules. *)
Theorem isolation w qs db db' pool :
  rtc pstep (db, map (serve w) qs) (db', pool) ->
  forall id, rtc (fun o o' => exists q, q ∈ qs /\ reach q id o o') (jobs db !! id) (jobs db' !! id).
Proof.
  intros Hs id.
  apply (psteps_rg_steps jobs_grow (fun a b => exists q, q ∈ qs /\ touch q a b)) in Hs; simpl in *.
  - induction Hs as [|a b c (q & Hq & Hab) _ IH]; [done|].
    destruct (Hab id) as [<-|Hr]; [done|]. eapply rtc_l; eauto.
  - intros a b (q & _ & Hq). by eapply touch_grow.
  - apply Forall_forall. intros p (q & -> & Hq)%list_elem_of_fmap.
    eapply rg_weaken_G; [|apply serve_isolated]. eauto.
Qed.
