(* ===== verification/Lineage.v ===== *)
(** * Retry lineage

    [Retry] and the automatic retry of [SubmitResult] insert a new job that
    points to the failed one ([parent_job_id]) and copy the failed job's
    columns after reading them in an earlier statement.  The file shows, with
    the parallel composition rule of [Prog], that the copies agree with the
    parent under every interleaving of requests and scheduler ticks. *)

From stdpp Require Import relations.
From S2P Require Import Prelude Prog Models JobState Database Scope Quota JobSteps JobsApi AgentJobs Checkin Scheduler Fleet JobSystem.

(** What a retry copies from its parent, and the counter. *)
Definition child_of (jp j : Job) : Prop :=
  job_tenant j = job_tenant jp /\ job_device j = job_device jp /\ job_type j = job_type jp
  /\ job_payload j = job_payload jp /\ job_retry_policy j = job_retry_policy jp
  /\ job_max_retries j = job_max_retries jp /\ job_created_by j = job_created_by jp
  /\ job_retry_count j = (job_retry_count jp + 1)%Z.

Definition row_lineage (db : DB) (j : Job) : Prop :=
  int4_ok (job_retry_count j) = true /\
  forall p, job_parent j = Some p -> exists jp, jobs db !! p = Some jp /\ child_of jp j.

Definition lineage_ok (db : DB) : Prop := forall id j, jobs db !! id = Some j -> row_lineage db j.

(** Rely and guarantee of every program of the system. *)
Definition lin : relation DB := fun s s' => jobs_grow s s' /\ (lineage_ok s -> lineage_ok s').

#[export] Instance lin_preorder : PreOrder lin.
Proof.
  split.
  - intros s. split; [reflexivity|done].
  - intros a b c [G1 L1] [G2 L2]. split; [by etrans|auto].
Qed.

(** Rows that appear are no retries, or retries of a row that is there. *)
Definition births (ok : DB -> Job -> Prop) (db db' : DB) : Prop :=
  forall id j, jobs db !! id = None -> jobs db' !! id = Some j -> ok db j.

Definition root_row (_ : DB) (j : Job) : Prop := job_parent j = None /\ int4_ok (job_retry_count j) = true.

Lemma child_of_identity jp jp' j j' :
  same_identity jp jp' -> same_identity j j' -> child_of jp j -> child_of jp' j'.
Proof. unfold same_identity, child_of. intros. destruct_and!. split_and!; congruence. Qed.

Lemma row_lineage_grow s s' j j' :
  jobs_grow s s' -> same_identity j j' -> row_lineage s j -> row_lineage s' j'.
Proof.
  intros HG Hj [Hi Hp]. split.
  - unfold same_identity in Hj. destruct_and!. congruence.
  - intros p Hpar. destruct (Hp p) as (jp & Hjp & Hc).
    { unfold same_identity in Hj. destruct_and!. congruence. }
    destruct (HG p jp Hjp) as (jp' & Hjp' & Hid). eauto using child_of_identity.
Qed.

Lemma births_lin s s' : jobs_grow s s' -> births row_lineage s s' -> lin s s'.
Proof.
  intros HG Hb. split; [done|]. intros HL id j' Hj'.
  destruct (jobs s !! id) as [j|] eqn:Hj.
  - destruct (HG id j Hj) as (j1 & Hj1 & Hid). assert (j1 = j') as -> by congruence.
    eapply row_lineage_grow; eauto.
  - eapply row_lineage_grow; eauto using same_identity_refl.
Qed.

Lemma root_lineage db j : root_row db j -> row_lineage db j.
Proof. intros [Hp Hi]. split; [done|]. by rewrite Hp. Qed.

(** ** Statements that start no lineage *)

#[export] Instance births_refl ok : Reflexive (births ok).
Proof. intros db id j ??. congruence. Qed.

Lemma births_same ok db db' : jobs db' = jobs db -> births ok db db'.
Proof. intros E id j. rewrite E. congruence. Qed.

Lemma births_update ok p f db : births ok db (update_jobs p f db).
Proof.
  intros id j Hn. unfold update_jobs. simpl. rewrite lookup_update_where, Hn. done.
Qed.

Lemma insert_job_int4 id j db db' : insert_job id j db = Some db' -> int4_ok (job_retry_count j) = true.
Proof. unfold insert_job. case_match eqn:E; [|done]. by reflect_bools. Qed.

Lemma births_insert (ok : DB -> Job -> Prop) id j db db' :
  (int4_ok (job_retry_count j) = true -> ok db j) -> insert_job id j db = Some db' -> births ok db db'.
Proof.
  intros Hj Hi. pose proof (insert_job_int4 _ _ _ _ Hi) as H4.
  apply insert_job_Some in Hi as [Hn ->]. intros k j'. simpl.
  destruct (decide (k = id)) as [->|Hk]; [rewrite lookup_insert_eq|rewrite lookup_insert_ne by done];
    intros; simplify_eq; auto.
Qed.

#[export] Hint Resolve births_same births_update insert_audit_jobs : moebius.

(** One side condition of [guar_all]: a statement that inserts no retry. *)
Ltac no_retry :=
  intros H; first
    [ apply stmt_Some in H as ->; solve [eauto with moebius | by apply births_update]
    | apply stmt_opt_Some in H; solve
        [ eauto with moebius
        | (eapply births_insert; [|exact H]); intros ?; by split ] ].

Lemma LogAction_births {R : Type} ok T a at' ac rt ri m :
  guar (births ok) (LogAction T a at' ac rt ri m : prog DB R unit).
Proof. apply LogAction_any_guar; [apply _|]. intros. by apply births_same. Qed.
#[export] Hint Resolve LogAction_births : moebius.

Lemma Create_births audit quota ctx body : guar (births root_row) (Create audit quota ctx body).
Proof.
  unfold Create, restrict_to_scope, insert_jobs. guar_all; try (apply quota_guard_guar); guar_all; no_retry.
Qed.

Lemma Cancel_births audit ctx id : guar (births root_row) (Cancel audit ctx id).
Proof. unfold Cancel. guar_all; no_retry. Qed.

Lemma Acknowledge_births audit ctx id : guar (births root_row) (Acknowledge audit ctx id).
Proof. unfold Acknowledge. guar_all; no_retry. Qed.

Lemma Checkin_births ctx body : guar (births root_row) (Checkin ctx body).
Proof.
  unfold Checkin, report_rollback, processPackageDelta, fetchDispatchableJobs, dispatch_jobs.
  guar_all; no_retry.
Qed.

Lemma runTick_births {R : Type} cron_next s : guar (births root_row) (runTick cron_next s : prog DB R _).
Proof.
  unfold runTick, evaluateScheduledJobs, dispatchScheduledJob, reapStuckDispatchedJobs, reapStuckInflightJobs,
    reapExpiredEnrollmentTokens.
  guar_all; try (apply evaluateAlertRules_guar; apply _); no_retry.
Qed.

Lemma Revoke_births audit ctx d body : guar (births root_row) (Revoke audit ctx d body).
Proof.
  apply Revoke_all_guar; [apply _|intros; by apply births_same|]. intros reason now db dv _ _ id j Hn Hj.
  unfold revoked_db, update_jobs in Hj. simpl in Hj. by rewrite lookup_update_where, Hn in Hj.
Qed.

Lemma RollbackDevice_births m ctx d body : guar (births root_row) (RollbackDevice m ctx d body).
Proof.
  apply RollbackDevice_all_guar; [apply _|intros; by apply births_same|].
  intros. eapply births_insert; [|done]. by intros ?.
Qed.

Lemma processFullInventory_births {R : Type} decode d data :
  guar (births root_row) (processFullInventory decode d data : prog DB R _).
Proof. unfold processFullInventory. guar_all; no_retry. Qed.

(** A program that only starts lineages is within [lin]. *)
Lemma guar_root_lin {R A : Type} (p : prog DB R A) :
  guar any_step p -> guar (births root_row) p -> guar lin p.
Proof.
  intros Ha Hb. eapply guar_weaken; [|by apply (guar_and _ _ _ Ha Hb)].
  intros a b [Hab Hbb]. apply births_lin; [by apply any_step_grow|].
  intros id j ??. eauto using root_lineage.
Qed.

(** ** The two programs that insert retries *)

(** The job a retry was decided on: still there, with the same identity. *)
Definition known (id : string) (j : Job) (db : DB) : Prop := lineage_ok db /\ present id j db.

Lemma known_stable id j a b : lin a b -> known id j a -> known id j b.
Proof. intros [HG HL] [H1 H2]. split; eauto using present_stable. Qed.

Lemma lineage_stable a b : lin a b -> lineage_ok a -> lineage_ok b.
Proof. by intros [_ H]. Qed.

Lemma int4_wrap z : int4_ok z = true -> wrap64 (z + 1) = (z + 1)%Z.
Proof. unfold int4_ok. intros. reflect_bools. apply wrap64_id. lia. Qed.

(** The row both retries insert, from a job read earlier. *)
Lemma insert_retry_lin newID id j s s' createdBy payload rp now :
  known id j s -> payload = job_payload j -> rp = job_retry_policy j -> createdBy = job_created_by j ->
  insert_job newID (retry_job (job_tenant j) (job_device j) id (job_type j) payload rp
     (wrap64 (job_retry_count j + 1)) (job_max_retries j) createdBy now) s = Some s' ->
  lin s s'.
Proof.
  intros [HL (j' & Hj' & Hid)] -> -> -> Hi.
  apply births_lin; [eapply any_step_grow, insert_job_step; [|exact Hi]; by repeat split|].
  eapply births_insert; [|exact Hi]. intros H4. split; [done|].
  intros p [= <-]. exists j'. split; [done|].
  pose proof (HL id j' Hj') as [H4' _]. unfold same_identity in Hid. destruct_and!.
  rewrite int4_wrap by congruence. unfold child_of, retry_job; simpl. split_and!; congruence.
Qed.

Lemma known_read id j s : lineage_ok s -> jobs s !! id = Some j -> known id j s.
Proof. intros HL Hj. split; [done|]. by apply present_read. Qed.

Definition linear (p : Handler unit) : Prop :=
  forall db, lineage_ok db -> rg any_env lin lin p (fun _ _ => True) db.

Lemma guar_linear p : guar lin p -> linear p.
Proof. intros Hp db _. by apply guar_rg. Qed.

Lemma LogAction_lin {R : Type} T a at' ac rt ri m :
  guar lin (LogAction T a at' ac rt ri m : prog DB R unit).
Proof. apply guar_root_lin; eauto with moebius. Qed.
#[export] Hint Resolve LogAction_lin : moebius.

(** Runs a prefix of a program, keeping the fact [P]. *)
Ltac keep P :=
  eapply (rg_stable_then _ _ _ P);
  [solve [eauto using known_stable, lineage_stable]|solve [eauto using known_stable, lineage_stable]
  |try solve [guar_all]|done|done|].

Lemma Retry_linear audit quota ctx id : linear (Retry audit quota ctx id).
Proof.
  intros db HL. unfold Retry. keep lineage_ok.
  intros now s1 HL1. apply rg_bind, rg_query_row. intros s2 Hs2. apply (lineage_stable _ _ Hs2) in HL1.
  split_and!; [done|done|].
  destruct (find_job id (ctx_tenant ctx) s2) as [j|] eqn:Hj; [|done].
  apply find_job_Some in Hj as [Hj <-]. apply known_read in Hj; [|done].
  keep (known id j). intros ok s3 H3. case_match; [done|]. case_match; [done|].
  keep (known id j).
  intros e s4 H4. destruct e as [e|]; [by destruct e|]. unfold quota_guard.
  keep (known id j).
  intros nid s5 H5. apply rg_bind, rg_exec. intros s6 H56. apply (known_stable _ _ _ _ H56) in H5.
  split_and!; [done|done|].
  destruct (stmt_opt _ s6) as [[s7 u]|] eqn:Hi; [|done]. apply stmt_opt_Some in Hi.
  split; [by eapply insert_retry_lin|]. apply guar_rg. guar_all.
Qed.

Lemma createRetryJob_linear id j s :
  known id j s ->
  rg any_env lin lin
    (createRetryJob id (job_tenant j) (job_device j) (job_type j)
       (wrap64 (job_retry_count j + 1)) (job_max_retries j) : Handler unit) (fun _ _ => True) s.
Proof.
  intros Hk. unfold createRetryJob. keep (known id j).
  intros now s1 H1. apply rg_bind, rg_query_row. intros s2 Hs2. apply (known_stable _ _ _ _ Hs2) in H1.
  split_and!; [done|done|]. pose proof H1 as [HL (j' & Hj' & Hid)]. rewrite Hj'.
  keep (known id j). intros nid s3 H3. apply rg_bind, rg_exec. intros s4 H34.
  apply (known_stable _ _ _ _ H34) in H3. split_and!; [done|done|].
  destruct (stmt_opt _ s4) as [[s5 u]|] eqn:Hi; [|done]. apply stmt_opt_Some in Hi.
  split; [|done]. unfold same_identity in Hid. destruct_and!. eapply insert_retry_lin; eauto.
Qed.

Lemma processFullInventory_lin {R : Type} decode d data :
  guar lin (processFullInventory decode d data : prog DB R _).
Proof. apply guar_root_lin; [apply processFullInventory_guar|apply processFullInventory_births]. Qed.
#[export] Hint Resolve processFullInventory_lin : moebius.

Lemma update_jobs_lin p c s : (forall id j, jobs s !! id = Some j -> p id j = true -> sql_pre c (job_status j) = true) ->
  lin s (update_jobs p (apply_change c) s).
Proof. intros Hp. apply births_lin; [|apply births_update]. apply any_step_grow. by apply update_jobs_step. Qed.

Lemma jobs_same_lin s s' : jobs s' = jobs s -> lin s s'.
Proof. intros E. apply births_lin; [|by apply births_same]. by apply any_step_grow, jobs_step_same. Qed.

Lemma SubmitResult_linear decode audit ctx id body : linear (SubmitResult decode audit ctx id body).
Proof.
  intros db HL. unfold SubmitResult. keep lineage_ok. intros now s1 HL1.
  destruct body as [req|]; [|done]. destruct (target_status _) as [st|] eqn:Hst; [|done].
  apply rg_bind, rg_query_row. intros s2 Hs2. apply (lineage_stable _ _ Hs2) in HL1.
  split_and!; [done|done|].
  destruct (find_agent_job id _ _ s2) as [j|] eqn:Hj; [|done].
  apply find_agent_job_Some in Hj as (Hj & <- & <-). apply known_read in Hj; [|done].
  case_match; [done|]. keep (known id j). intros rid s3 H3.
  keep (known id j).
  { guar_all. intros Hi%stmt_opt_Some. eauto using jobs_same_lin, insert_result_jobs. }
  intros r s4 H4. destruct r; [|done]. keep (known id j).
  { guar_all. intros ->%stmt_Some. apply update_jobs_lin. eauto using finish_pre. }
  intros r s5 H5. destruct r; [|done].
  keep (known id j). intros _ s6 H6. keep (known id j). intros _ s7 H7. apply rg_bind.
  destruct (ShouldRetry _ _ _); [|done].
  eapply rg_mono; [|by apply createRetryJob_linear]. by intros [].
Qed.

Lemma serve_linear w q : linear (serve w q).
Proof.
  pose proof (serve_guar w q) as Hg.
  destruct q; cbv beta iota delta [serve] in *; first [apply Retry_linear | apply SubmitResult_linear | apply guar_linear, guar_root_lin];
    try done;
    eauto using Create_births, GetJob_guar, ListJobs_guar, Cancel_births, Acknowledge_births, Checkin_births,
      Revoke_births, RollbackDevice_births, births_refl.
  apply guar_bind; [apply runTick_births|done].
Qed.

(** ** Property *)

(** C6: Under every interleaving of requests and ticks, at every moment, a job that
    names a parent agrees with it: the parent is there, of the same tenant and
    device, with the same type, payload, policy and creator, and the retry
    counter is the parent's plus one (so lineages have no cycles). *)
Theorem retry_lineage w qs db db' pool :
  lineage_ok db -> rtc pstep (db, map (serve w) qs) (db', pool) -> lineage_ok db'.
Proof.
  intros HL Hs. apply (psteps_rg lin) in Hs; [by apply Hs|]. simpl.
  apply Forall_forall. intros p (q & -> & _)%list_elem_of_fmap. by apply serve_linear.
Qed.
