(* ===== verification/Identity.v ===== *)
(** * Users, roles and API keys

    [server/rbac] (permissions and the [Require] middleware),
    [server/auth/apikey.go] and [server/auth/tenant.go] (the middlewares that
    establish the caller), the stores of roles, users and keys
    ([server/store/roles.go], [users.go], [apikeys.go]) and their handlers
    ([server/api/roles.go], [users.go], [apikeys.go]). *)

From stdpp Require Import relations.
From S2P Require Import Prelude Text Prog Models JobState Database Scope Quota JobSteps JobsApi Enrollment.

(** ** server/rbac/permissions.go *)

Definition PermDevicesRead := "devices:read".
Definition PermDevicesWrite := "devices:write".
Definition PermDevicesRevoke := "devices:revoke".
Definition PermJobsRead := "jobs:read".
Definition PermJobsCreate := "jobs:create".
Definition PermJobsRetry := "jobs:retry".
Definition PermPackagesDeploy := "packages:deploy".
Definition PermInventoryRead := "inventory:read".
Definition PermInventoryRequest := "inventory:request".
Definition PermGroupsRead := "groups:read".
Definition PermGroupsWrite := "groups:write".
Definition PermTagsRead := "tags:read".
Definition PermTagsWrite := "tags:write".
Definition PermSitesRead := "sites:read".
Definition PermSitesWrite := "sites:write".
Definition PermUsersRead := "users:read".
Definition PermUsersWrite := "users:write".
Definition PermRolesRead := "roles:read".
Definition PermRolesWrite := "roles:write".
Definition PermAPIKeysRead := "api_keys:read".
Definition PermAPIKeysWrite := "api_keys:write".
Definition PermEnrollmentTokenWrite := "enrollment_tokens:write".
Definition PermFilesRead := "files:read".
Definition PermFilesWrite := "files:write".
Definition PermSigningKeysRead := "signing_keys:read".
Definition PermSigningKeysWrite := "signing_keys:write".
Definition PermAlertsRead := "alerts:read".
Definition PermAlertsWrite := "alerts:write".
Definition PermAuditLogRead := "audit_log:read".
Definition PermTenantRead := "tenant:read".
Definition PermTenantWrite := "tenant:write".
Definition PermScheduledJobsRead := "scheduled_jobs:read".
Definition PermScheduledJobsWrite := "scheduled_jobs:write".
Definition PermAgentVersionsRead := "agent_versions:read".
Definition PermAgentVersionsWrite := "agent_versions:write".
Definition PermUpdatePoliciesRead := "update_policies:read".
Definition PermUpdatePoliciesWrite := "update_policies:write".
Definition PermInstallersRead := "installers:read".
Definition PermInstallersWrite := "installers:write".

Definition AllPermissions : list string :=
  [PermDevicesRead; PermDevicesWrite; PermDevicesRevoke; PermJobsRead; PermJobsCreate; PermJobsRetry;
   PermPackagesDeploy; PermInventoryRead; PermInventoryRequest; PermGroupsRead; PermGroupsWrite;
   PermTagsRead; PermTagsWrite; PermSitesRead; PermSitesWrite; PermUsersRead; PermUsersWrite;
   PermRolesRead; PermRolesWrite; PermAPIKeysRead; PermAPIKeysWrite; PermEnrollmentTokenWrite;
   PermFilesRead; PermFilesWrite; PermSigningKeysRead; PermSigningKeysWrite; PermAlertsRead;
   PermAlertsWrite; PermAuditLogRead; PermTenantRead; PermTenantWrite; PermScheduledJobsRead;
   PermScheduledJobsWrite; PermAgentVersionsRead; PermAgentVersionsWrite; PermUpdatePoliciesRead;
   PermUpdatePoliciesWrite; PermInstallersRead; PermInstallersWrite].

Definition SuperAdminPermissions : list string := AllPermissions.

Definition TenantAdminPermissions : list string :=
  [PermDevicesRead; PermDevicesWrite; PermDevicesRevoke; PermJobsRead; PermJobsCreate; PermJobsRetry;
   PermPackagesDeploy; PermInventoryRead; PermInventoryRequest; PermGroupsRead; PermGroupsWrite;
   PermTagsRead; PermTagsWrite; PermSitesRead; PermSitesWrite; PermUsersRead; PermUsersWrite;
   PermRolesRead; PermRolesWrite; PermAPIKeysRead; PermAPIKeysWrite; PermEnrollmentTokenWrite;
   PermFilesRead; PermFilesWrite; PermSigningKeysRead; PermSigningKeysWrite; PermAlertsRead;
   PermAlertsWrite; PermAuditLogRead; PermTenantRead; PermTenantWrite; PermScheduledJobsRead;
   PermScheduledJobsWrite; PermAgentVersionsRead; PermAgentVersionsWrite; PermUpdatePoliciesRead;
   PermUpdatePoliciesWrite; PermInstallersRead; PermInstallersWrite].

Definition OperatorPermissions : list string :=
  [PermDevicesRead; PermDevicesWrite; PermDevicesRevoke; PermJobsRead; PermJobsCreate; PermJobsRetry;
   PermPackagesDeploy; PermInventoryRead; PermInventoryRequest; PermGroupsRead; PermGroupsWrite;
   PermTagsRead; PermTagsWrite; PermSitesRead; PermSitesWrite; PermEnrollmentTokenWrite; PermFilesRead;
   PermFilesWrite; PermSigningKeysRead; PermSigningKeysWrite; PermAlertsRead; PermAlertsWrite;
   PermScheduledJobsRead; PermScheduledJobsWrite; PermAgentVersionsRead; PermAgentVersionsWrite;
   PermUpdatePoliciesRead; PermUpdatePoliciesWrite; PermInstallersRead; PermInstallersWrite].

Definition TechnicianPermissions : list string :=
  [PermDevicesRead; PermJobsRead; PermJobsCreate; PermPackagesDeploy; PermInventoryRead;
   PermInventoryRequest; PermGroupsRead; PermTagsRead; PermSitesRead].

Definition ViewerPermissions : list string :=
  [PermDevicesRead; PermJobsRead; PermInventoryRead; PermGroupsRead; PermTagsRead; PermSitesRead].

(** ** server/rbac/rbac.go *)

Definition hasPermission (perms : list string) (required : string) : bool := str_in required perms.

Definition Require_ {A : Type} (permission : string) (next : Ctx -> Handler A) (ctx : Ctx) : Handler A :=
  if ctx_is_admin ctx then next ctx
  else if negb (hasPermission (ctx_permissions ctx) permission)
  then stop (ErrorWithCode 403 "forbidden" (Lit "You do not have permission to perform this action"))
  else next ctx.

(** ** server/auth/tenant.go *)

Definition RequireTenant {A : Type} (next : Ctx -> Handler A) (ctx : Ctx) : Handler A :=
  if ctx_tenant ctx =s ""
  then stop (ErrorWithCode 401 "tenant_required" (Lit "Request must be associated with a tenant"))
  else next ctx.

(** ** server/auth/apikey.go *)

Definition PermissionsSubset (caller requested : list string) : bool :=
  if negb (nonempty requested) then true
  else let set := allow_all ∅ caller in forallb (fun p => bool_decide (p ∈ set)) requested.

Definition extractBearerToken (authorization : string) : string :=
  default "" (cut_prefix "Bearer " authorization).

Definition hashAPIKey (x : X509) (raw : string) : string := sha256_hex x raw.

(** The row of [api_keys k LEFT JOIN roles r] with that hash. *)
Definition find_key (hash : string) (db : DB) : option (string * APIKey * list string) :=
  k ← head (select_where (fun _ k => key_hash k =s hash) (api_keys db));
  Some (k.1, k.2, match roles db !! key_role k.2 with Some r => role_permissions r | None => [] end).

(** A scope that does not decode leaves what does, not none. *)
Definition load_scope (col : option (Json APIScope)) : option APIScope := unmarshal_into <$> col.

Definition as_key (k : APIKey) (perms : list string) (ctx : Ctx) : Ctx :=
  {| ctx_tenant := key_tenant k; ctx_agent := ctx_agent ctx; ctx_user := key_user k;
     ctx_is_admin := key_is_admin k; ctx_scope := load_scope (key_scope k); ctx_permissions := perms |}.

Definition set_last_used (now : Z) (k : APIKey) : APIKey :=
  {| key_tenant := key_tenant k; key_user := key_user k; key_name := key_name k; key_hash := key_hash k;
     key_role := key_role k; key_scope := key_scope k; key_is_admin := key_is_admin k;
     key_last_used_at := Some now; key_expires_at := key_expires_at k; key_created_at := key_created_at k |}.

Definition use_recorded (keyID : string) (now : Z) (db : DB) : DB :=
  set_api_keys (update_where (fun id _ => id =s keyID) (set_last_used now) (api_keys db)) db.

(** The goroutine that records the use; its error is dropped. *)
Definition record_use (keyID : string) : Handler unit :=
  now ← time_now;
  _ ← exec (stmt (use_recorded keyID now));
  mret tt.

(** The goroutine is placed where it is started, before the rest of the request; it
    may also write nothing (its access fails), and [record_use] alone is one of the
    requests that interleave below. *)
Definition APIKeyAuth {A : Type} (x : X509) (authorization : string) (next : Ctx -> Handler A) (ctx : Ctx) : Handler A :=
  if negb (ctx_tenant ctx =s "") then next ctx
  else
    let raw := extractBearerToken authorization in
    if raw =s "" then
      stop (ErrorWithCode 401 "authentication_required" (Lit "Authorization: Bearer <api_key> header is required"))
    else
      row ← query_row (find_key (hashAPIKey x raw));
      match row with
      | NoRows => stop (ErrorWithCode 401 "invalid_api_key" (Lit "The provided API key is not valid"))
      | DbErr => stop (ErrorWithCode 500 "internal_error" (Lit "Internal server error"))
      | Row (keyID, k, perms) =>
          expired ← match key_expires_at k with
                    | None => mret false
                    | Some exp => now ← time_now; mret (exp <? now)%Z
                    end;
          if expired : bool
          then stop (ErrorWithCode 401 "api_key_expired" (Lit "The API key has expired"))
          else
            _ ← record_use keyID;
            next (as_key k perms ctx)
      end.

(** ** server/store/roles.go *)

(** [id = $1 AND (tenant_id IS NULL OR tenant_id = $2)]. *)
Definition role_visible (tenantID : string) (r : Role) : bool :=
  match role_tenant r with None => true | Some t => t =s tenantID end.

Definition find_role (tenantID roleID : string) (db : DB) : option Role :=
  r ← roles db !! roleID; if role_visible tenantID r then Some r else None.

(** [None] is an error, [Some None] a nil role. *)
Definition GetRole {R : Type} (tenantID roleID : string) : prog DB R (option (option Role)) :=
  row ← query_row (find_role tenantID roleID);
  mret (match row with Row r => Some (Some r) | NoRows => Some None | DbErr => None end).

(** [ORDER BY is_custom, name]: bytewise comparison of names. *)
Definition role_order (a b : string * Role) : Prop :=
  (if Bool.eqb (role_is_custom a.2) (role_is_custom b.2) then string_leb (role_name a.2) (role_name b.2)
   else negb (role_is_custom a.2)) = true.
#[export] Instance role_order_dec : RelDecision role_order.
Proof. intros a b. unfold role_order. apply _. Defined.

Definition list_roles (tenantID : string) (db : DB) : list (string * Role) :=
  merge_sort role_order (select_where (fun _ r => role_visible tenantID r) (roles db)).

Definition insert_role (id : string) (r : Role) (db : DB) : option DB :=
  if fk_opt (tenants db) (role_tenant r)
  then t ← insert_new id r (roles db); Some (set_roles t db)
  else None.

(** [id = $3 AND tenant_id = $4 AND is_custom = TRUE]. *)
Definition own_custom (tenantID roleID : string) (id : string) (r : Role) : bool :=
  (id =s roleID) && bool_decide (role_tenant r = Some tenantID) && role_is_custom r.

Definition set_role (name : string) (perms : list string) (r : Role) : Role :=
  {| role_tenant := role_tenant r; role_name := name; role_permissions := perms; role_is_custom := role_is_custom r |}.

(** [false] is an error, also when no row matched. *)
Definition UpdateRole {R : Type} (tenantID roleID name : string) (perms : list string) : prog DB R bool :=
  r ← exec (fun db => Some (set_roles (update_where (own_custom tenantID roleID) (set_role name perms) (roles db)) db,
                            count_where (own_custom tenantID roleID) (roles db)));
  mret (match r with None => false | Some n => negb (n =? 0)%nat end).

(** How many users and keys of the tenant hold the role. *)
Definition role_uses (tenantID roleID : string) (db : DB) : nat :=
  count_where (fun _ u => bool_decide (usr_role u = Some roleID) && (usr_tenant u =s tenantID)) (users db)
  + count_where (fun _ k => (key_role k =s roleID) && (key_tenant k =s tenantID)) (api_keys db).

(** [DELETE]: a role that any user or key still references is kept by the
    foreign keys, and the statement fails. *)
Definition delete_role (tenantID roleID : string) (db : DB) : option (DB * nat) :=
  let p := own_custom tenantID roleID in
  if negb (count_where p (roles db) =? 0)%nat
     && (nonempty (select_where (fun _ u => bool_decide (usr_role u = Some roleID)) (users db))
         || nonempty (select_where (fun _ k => key_role k =s roleID) (api_keys db)))
  then None
  else Some (set_roles (delete_where p (roles db)) db, count_where p (roles db)).

(** [None] is a nil error. *)
Definition DeleteRole {R : Type} (tenantID roleID : string) : prog DB R (option GoError) :=
  call (
    c ← query (role_uses tenantID roleID);
    match c with
    | None => stop (Some EDb)
    | Some n =>
        if (0 <? n)%nat then stop (Some (ERoleInUse n))
        else
          r ← exec (delete_role tenantID roleID);
          match r with
          | None => stop (Some EDb)
          | Some affected => if (affected =? 0)%nat then stop (Some ERoleNotFound) else mret None
          end
    end).

(** ** server/api/roles.go *)

Definition ListRoles (ctx : Ctx) : Handler unit :=
  rows ← query (list_roles (ctx_tenant ctx));
  match rows with
  | None => stop (Error 500 "failed to list roles")
  | Some l => stop (JSON 200 (BRoleList l))
  end.

Definition GetRoleHandler (ctx : Ctx) (roleID : string) : Handler unit :=
  r ← GetRole (ctx_tenant ctx) roleID;
  match r with
  | None => stop (Error 500 "failed to get role")
  | Some None => stop (ErrorWithCode 404 "role_not_found" (Lit "No role with the given ID exists"))
  | Some (Some role) => stop (JSON 200 (BRole roleID role))
  end.

(** The escalation guard of [Create] and [Update]. *)
Definition may_grant (ctx : Ctx) (perms : list string) : bool :=
  ctx_is_admin ctx || PermissionsSubset (ctx_permissions ctx) perms.

Definition escalation (msg : string) : Response := ErrorWithCode 403 "permission_escalation" (Lit msg).

Definition CreateRole (audit : bool) (ctx : Ctx) (body : option (string * list string)) : Handler unit :=
  match body with
  | None => stop (Error 400 "invalid request body")
  | Some (name, perms) =>
      if (name =s "") || negb (nonempty perms) then stop (Error 400 "name and permissions are required")
      else if negb (may_grant ctx perms) then stop (escalation "cannot grant permissions you do not hold")
      else
        id ← new_id "rol";
        let role := {| role_tenant := Some (ctx_tenant ctx); role_name := name; role_permissions := perms;
                       role_is_custom := true |} in
        r ← exec (stmt_opt (insert_role id role));
        match r with
        | None => stop (Error 500 "failed to create role")
        | Some _ =>
            _ ← (if audit then LogAction (ctx_tenant ctx) (ctx_user ctx) ActorTypeUser "role.create" "role" id
                                 [("name", name)]
                 else mret tt);
            stop (JSON 201 (BRole id role))
        end
  end.

Definition UpdateRoleHandler (audit : bool) (ctx : Ctx) (roleID : string) (body : option (string * list string))
    : Handler unit :=
  r ← GetRole (ctx_tenant ctx) roleID;
  match r with
  | None => stop (Error 500 "failed to get role")
  | Some None => stop (ErrorWithCode 404 "role_not_found" (Lit "No role with the given ID exists"))
  | Some (Some existing) =>
      if negb (role_is_custom existing)
      then stop (ErrorWithCode 403 "system_role_immutable" (Lit "System roles cannot be modified"))
      else match body with
      | None => stop (Error 400 "invalid request body")
      | Some (name, perms) =>
          let name' := if negb (name =s "") then name else role_name existing in
          if nonempty perms && negb (may_grant ctx perms)
          then stop (escalation "cannot grant permissions you do not hold")
          else
            let perms' := if nonempty perms then perms else role_permissions existing in
            ok ← UpdateRole (ctx_tenant ctx) roleID name' perms';
            if negb ok then stop (Error 500 "failed to update role")
            else
              _ ← (if audit then LogAction (ctx_tenant ctx) (ctx_user ctx) ActorTypeUser "role.update" "role" roleID []
                   else mret tt);
              stop (JSON 200 (BRole roleID (set_role name' perms' existing)))
      end
  end.

Definition DeleteRoleHandler (audit : bool) (ctx : Ctx) (roleID : string) : Handler unit :=
  e ← DeleteRole (ctx_tenant ctx) roleID;
  match e with
  | Some err => stop (ErrorWithCode 409 "role_in_use" (OfErr err))
  | None =>
      _ ← (if audit then LogAction (ctx_tenant ctx) (ctx_user ctx) ActorTypeUser "role.delete" "role" roleID []
           else mret tt);
      stop NoContent
  end.

(** ** server/store/users.go *)

Definition find_user (tenantID userID : string) (db : DB) : option User :=
  u ← users db !! userID; if usr_tenant u =s tenantID then Some u else None.

Definition insert_user (id : string) (u : User) (db : DB) : option DB :=
  if fk (tenants db) (usr_tenant u) && fk_opt (roles db) (usr_role u)
  then t ← insert_new id u (users db); Some (set_users t db)
  else None.

Definition own_user (tenantID userID : string) (id : string) (u : User) : bool :=
  (id =s userID) && (usr_tenant u =s tenantID).

Definition set_user_role (role : option string) (u : User) : User :=
  {| usr_tenant := usr_tenant u; usr_email := usr_email u; usr_role := role;
     usr_sso_subject := usr_sso_subject u; usr_created_at := usr_created_at u |}.

Definition set_user_sso (subj : option string) (u : User) : User :=
  {| usr_tenant := usr_tenant u; usr_email := usr_email u; usr_role := usr_role u;
     usr_sso_subject := subj; usr_created_at := usr_created_at u |}.

(** [UPDATE users SET role_id = $1 WHERE id = $2 AND tenant_id = $3], with the
    foreign key checked when a row is written. *)
Definition sql_user_role (tenantID userID : string) (role : option string) (db : DB) : option (DB * nat) :=
  let p := own_user tenantID userID in
  if negb (count_where p (users db) =? 0)%nat && negb (fk_opt (roles db) role) then None
  else Some (set_users (update_where p (set_user_role role) (users db)) db, count_where p (users db)).

(** [None] is a nil error. *)
Definition UpdateUserRole {R : Type} (tenantID userID roleID : string) : prog DB R (option GoError) :=
  r ← exec (sql_user_role tenantID userID (Some roleID));
  mret (match r with None => Some EDb | Some n => if (n =? 0)%nat then Some EUserNotFound else None end).

Definition DeactivateUser {R : Type} (tenantID userID : string) : prog DB R (option GoError) :=
  r ← exec (sql_user_role tenantID userID None);
  mret (match r with None => Some EDb | Some n => if (n =? 0)%nat then Some EUserNotFound else None end).

(** The subject another user already has: the unique index. *)
Definition subject_taken (userID : string) (subj : string) (db : DB) : bool :=
  nonempty (select_where (fun id u => negb (id =s userID) && bool_decide (usr_sso_subject u = Some subj)) (users db)).

Inductive SSOError := SSOTaken | SSONotFound | SSOFailed.

(** [None] is a nil error; a violated index is reported apart. *)
Definition SetUserSSOSubject {R : Type} (tenantID userID ssoSubject : string) : prog DB R (option SSOError) :=
  let subj := if ssoSubject =s "" then None else Some ssoSubject in
  let p := own_user tenantID userID in
  r ← exec (fun db =>
        if negb (count_where p (users db) =? 0)%nat
           && match subj with Some sj => subject_taken userID sj db | None => false end
        then Some (db, inl tt)
        else Some (set_users (update_where p (set_user_sso subj) (users db)) db,
                   inr (count_where p (users db))));
  mret (match r with
        | None => Some SSOFailed
        | Some (inl _) => Some SSOTaken
        | Some (inr n) => if (n =? 0)%nat then Some SSONotFound else None
        end).

(** ** server/api/users.go *)

Definition Invite (audit : bool) (ctx : Ctx) (body : option (string * string)) : Handler unit :=
  match body with
  | None => stop (Error 400 "invalid request body")
  | Some (email, roleID) =>
      if (email =s "") || (roleID =s "") then stop (Error 400 "email and role_id are required")
      else
        id ← new_id "usr";
        now ← time_now;
        let user := {| usr_tenant := ctx_tenant ctx; usr_email := email; usr_role := Some roleID;
                       usr_sso_subject := None; usr_created_at := now |} in
        r ← exec (stmt_opt (insert_user id user));
        match r with
        | None => stop (Error 500 "failed to create user")
        | Some _ =>
            _ ← (if audit then LogAction (ctx_tenant ctx) (ctx_user ctx) ActorTypeUser "user.invite" "user" id
                                 [("email", email); ("role_id", roleID)]
                 else mret tt);
            stop (JSON 201 (BUser (Some (id, user))))
        end
  end.

(** The guard of [Update] for callers that are not admins. *)
Definition role_change_guard (ctx : Ctx) (userID roleID : string) : Handler unit :=
  if ctx_is_admin ctx then mret tt
  else if userID =s ctx_user ctx
  then stop (ErrorWithCode 403 "self_role_change" (Lit "cannot change your own role"))
  else
    r ← GetRole (ctx_tenant ctx) roleID;
    match r with
    | None => stop (Error 500 "failed to load target role")
    | Some None => stop (ErrorWithCode 400 "role_not_found" (Lit "the requested role does not exist in this tenant"))
    | Some (Some role) =>
        if negb (PermissionsSubset (ctx_permissions ctx) (role_permissions role))
        then stop (escalation "cannot assign a role with more permissions than your own")
        else mret tt
    end.

Definition UpdateUser (audit : bool) (ctx : Ctx) (userID : string) (body : option string) : Handler unit :=
  match body with
  | None => stop (Error 400 "invalid request body")
  | Some roleID =>
      if roleID =s "" then stop (Error 400 "role_id is required")
      else
        _ ← role_change_guard ctx userID roleID;
        e ← UpdateUserRole (ctx_tenant ctx) userID roleID;
        match e with
        | Some err => stop (ErrorWithCode 404 "user_not_found" (OfErr err))
        | None =>
            _ ← (if audit then LogAction (ctx_tenant ctx) (ctx_user ctx) ActorTypeUser "user.update_role" "user" userID
                                 [("role_id", roleID)]
                 else mret tt);
            row ← query_row (find_user (ctx_tenant ctx) userID);
            stop (JSON 200 (BUser (match row with Row u => Some (userID, u) | _ => None end)))
        end
  end.

Definition SetSSOSubject (audit : bool) (ctx : Ctx) (userID : string) (body : option string) : Handler unit :=
  match body with
  | None => stop (Error 400 "invalid request body")
  | Some subject =>
      let subject := TrimSpace subject in
      e ← SetUserSSOSubject (ctx_tenant ctx) userID subject;
      match e with
      | Some SSOTaken => stop (ErrorWithCode 409 "sso_subject_taken" (Lit "another user is already linked to this SSO subject"))
      | Some SSONotFound => stop (ErrorWithCode 404 "user_not_found" (Lit "No user with the given ID exists"))
      | Some SSOFailed => stop (Error 500 "failed to set sso subject")
      | None =>
          _ ← (if audit then
                 if subject =s ""
                 then LogAction (ctx_tenant ctx) (ctx_user ctx) ActorTypeUser "user.unlink_sso" "user" userID []
                 else LogAction (ctx_tenant ctx) (ctx_user ctx) ActorTypeUser "user.link_sso" "user" userID
                        [("sso_subject", subject)]
               else mret tt);
          stop NoContent
      end
  end.

Definition Deactivate (audit : bool) (ctx : Ctx) (userID : string) : Handler unit :=
  e ← DeactivateUser (ctx_tenant ctx) userID;
  match e with
  | Some err => stop (ErrorWithCode 404 "user_not_found" (OfErr err))
  | None =>
      _ ← (if audit then LogAction (ctx_tenant ctx) (ctx_user ctx) ActorTypeUser "user.deactivate" "user" userID []
           else mret tt);
      stop NoContent
  end.

(** ** server/store/apikeys.go *)

Definition newest_key (a b : string * APIKey) : Prop := (key_created_at b.2 <= key_created_at a.2)%Z.
#[export] Instance newest_key_dec : RelDecision newest_key.
Proof. intros a b. unfold newest_key. apply _. Defined.

Definition list_keys (tenantID : string) (db : DB) : list (string * APIKey) :=
  merge_sort newest_key (select_where (fun _ k => key_tenant k =s tenantID) (api_keys db)).

Definition find_key_by_id (tenantID keyID : string) (db : DB) : option APIKey :=
  k ← api_keys db !! keyID; if key_tenant k =s tenantID then Some k else None.

Definition insert_key (id : string) (k : APIKey) (db : DB) : option DB :=
  if fk (tenants db) (key_tenant k) && fk (users db) (key_user k) && fk (roles db) (key_role k)
  then t ← insert_new id k (api_keys db); Some (set_api_keys t db)
  else None.

(** ** server/api/apikeys.go *)

Definition ListAPIKeys (ctx : Ctx) : Handler unit :=
  rows ← query (list_keys (ctx_tenant ctx));
  match rows with
  | None => stop (Error 500 "failed to list API keys")
  | Some l => stop (JSON 200 (BAPIKeyList l))
  end.

Record createAPIKeyRequest := {
  ak_name : string;
  ak_role_id : string;
  ak_is_admin : bool;
  ak_scope : option APIScope;
  ak_expires_at : option Z;
}.

(** A read error of the random source is ignored, which leaves 24 zero bytes. *)
Definition generateAPIKey {R : Type} : prog DB R string :=
  r ← random_hex;
  mret (String.append "sk_" (default "000000000000000000000000000000000000000000000000" r)).

Definition CreateAPIKey (x : X509) (audit : bool) (quota : Resolver) (ctx : Ctx) (body : option createAPIKeyRequest)
    : Handler unit :=
  match body with
  | None => stop (Error 400 "invalid request body")
  | Some req =>
      if ak_name req =s "" then stop (Error 400 "name is required")
      else if ak_is_admin req && negb (ctx_is_admin ctx)
      then stop (Error 403 "only admin keys can create admin keys")
      else
        e ← CheckAPIKeys quota (ctx_tenant ctx);
        quota_guard e (
          if ak_role_id req =s "" then stop (Error 400 "role_id is required")
          else
            role ← GetRole (ctx_tenant ctx) (ak_role_id req);
            match role with
            | None => stop (Error 500 "failed to load role")
            | Some None => stop (ErrorWithCode 400 "role_not_found"
                                   (Lit "role_id does not resolve to a role in this tenant"))
            | Some (Some _) =>
                rawKey ← generateAPIKey;
                id ← new_id "key";
                now ← time_now;
                let key := {| key_tenant := ctx_tenant ctx; key_user := ctx_user ctx; key_name := ak_name req;
                              key_hash := sha256_hex x rawKey; key_role := ak_role_id req;
                              key_scope := JValid <$> ak_scope req; key_is_admin := ak_is_admin req;
                              key_last_used_at := None; key_expires_at := ak_expires_at req;
                              key_created_at := now |} in
                r ← exec (stmt_opt (insert_key id key));
                match r with
                | None => stop (Error 500 "failed to create API key")
                | Some _ =>
                    _ ← (if audit then LogAction (ctx_tenant ctx) (ctx_user ctx) ActorTypeUser "api_key.create" "api_key" id
                                         [("name", ak_name req)]
                         else mret tt);
                    stop (JSON 201 (BAPIKey id key rawKey))
                end
            end)
  end.

Definition DeleteAPIKey (audit : bool) (ctx : Ctx) (keyID : string) : Handler unit :=
  row ← query_row (find_key_by_id (ctx_tenant ctx) keyID);
  match row with
  | DbErr => stop (Error 500 "failed to load api key")
  | NoRows => stop (ErrorWithCode 404 "api_key_not_found" (Lit "No API key with the given ID exists"))
  | Row target =>
      if key_is_admin target && negb (ctx_is_admin ctx)
      then stop (ErrorWithCode 403 "admin_key_protected" (Lit "only an admin key can revoke another admin key"))
      else
        let p := fun id k => (id =s keyID) && (key_tenant k =s ctx_tenant ctx) in
        r ← exec (fun db => Some (set_api_keys (delete_where p (api_keys db)) db, count_where p (api_keys db)));
        match r with
        | None | Some O => stop (ErrorWithCode 404 "api_key_not_found" (Lit "No API key with the given ID exists"))
        | Some _ =>
            _ ← (if audit then LogAction (ctx_tenant ctx) (ctx_user ctx) ActorTypeUser "api_key.delete" "api_key" keyID []
                 else mret tt);
            stop NoContent
        end
  end.

(** ** All requests on identities *)

Inductive IdRequest :=
| IListRoles | IGetRole (id : string)
| ICreateRole (body : option (string * list string))
| IUpdateRole (id : string) (body : option (string * list string))
| IDeleteRole (id : string)
| IInvite (body : option (string * string))
| IUpdateUser (id : string) (body : option string)
| ISetSSO (id : string) (body : option string)
| IDeactivate (id : string)
| IListKeys
| ICreateKey (body : option createAPIKeyRequest)
| IDeleteKey (id : string)
| IRecordUse (keyID : string).

Record IdWiring := { iw_x509 : X509; iw_audit : bool; iw_quota : Resolver }.

Definition serve_id (w : IdWiring) (ctx : Ctx) (q : IdRequest) : Handler unit :=
  match q with
  | IListRoles => ListRoles ctx
  | IGetRole id => GetRoleHandler ctx id
  | ICreateRole b => CreateRole (iw_audit w) ctx b
  | IUpdateRole id b => UpdateRoleHandler (iw_audit w) ctx id b
  | IDeleteRole id => DeleteRoleHandler (iw_audit w) ctx id
  | IInvite b => Invite (iw_audit w) ctx b
  | IUpdateUser id b => UpdateUser (iw_audit w) ctx id b
  | ISetSSO id b => SetSSOSubject (iw_audit w) ctx id b
  | IDeactivate id => Deactivate (iw_audit w) ctx id
  | IListKeys => ListAPIKeys ctx
  | ICreateKey b => CreateAPIKey (iw_x509 w) (iw_audit w) (iw_quota w) ctx b
  | IDeleteKey id => DeleteAPIKey (iw_audit w) ctx id
  | IRecordUse id => record_use id
  end.

(** ** Lemmas *)

Lemma PermissionsSubset_spec caller requested : PermissionsSubset caller requested = true <-> requested ⊆ caller.
Proof.
  unfold PermissionsSubset. destruct (nonempty requested) eqn:Er; simpl.
  - rewrite forallb_forall. setoid_rewrite bool_decide_eq_true. setoid_rewrite elem_of_allow_all.
    setoid_rewrite <-list_elem_of_In. set_solver.
  - apply nonempty_false in Er. set_solver.
Qed.

Lemma insert_role_Some id r db db' : insert_role id r db = Some db' ->
  roles db !! id = None /\ db' = set_roles (<[id := r]> (roles db)) db.
Proof.
  unfold insert_role. case_match; [|done]. intros (t & Ht & [= <-])%bind_Some.
  by apply insert_new_Some in Ht as [? ->].
Qed.

Lemma insert_user_Some id u db db' : insert_user id u db = Some db' ->
  users db !! id = None /\ db' = set_users (<[id := u]> (users db)) db.
Proof.
  unfold insert_user. case_match; [|done]. intros (t & Ht & [= <-])%bind_Some.
  by apply insert_new_Some in Ht as [? ->].
Qed.

Lemma insert_key_Some id k db db' : insert_key id k db = Some db' ->
  api_keys db !! id = None /\ db' = set_api_keys (<[id := k]> (api_keys db)) db.
Proof.
  unfold insert_key. case_match; [|done]. intros (t & Ht & [= <-])%bind_Some.
  by apply insert_new_Some in Ht as [? ->].
Qed.

Lemma find_role_Some T id db r : find_role T id db = Some r -> roles db !! id = Some r /\ role_visible T r = true.
Proof. unfold find_role. intros (r' & Hr & Hv)%bind_Some. case_match; naive_solver. Qed.

Lemma GetRole_guar {R : Type} (G : relation DB) `{!Reflexive G} T id : guar G (GetRole T id : prog DB R _).
Proof. unfold GetRole. guar_all. Qed.
#[export] Hint Resolve GetRole_guar : moebius.

(** *** Admin keys *)

Definition admin_key (db : DB) (id : string) : Prop :=
  exists k, api_keys db !! id = Some k /\ key_is_admin k = true.

(** The same admin keys before and after. *)
Definition same_admins : relation DB := fun a b => forall id, admin_key a id <-> admin_key b id.
#[export] Instance same_admins_preorder : PreOrder same_admins.
Proof. split; [by intros a id|]. intros a b c Hab Hbc id. by rewrite (Hab id), (Hbc id). Qed.

Lemma same_keys_admins a b : api_keys b = api_keys a -> same_admins a b.
Proof. intros E id. unfold admin_key. by rewrite E. Qed.

Lemma insert_key_admins id k db db' :
  insert_key id k db = Some db' -> key_is_admin k = false -> same_admins db db'.
Proof.
  intros [Hn ->]%insert_key_Some Hk i. unfold admin_key. simpl.
  destruct (decide (i = id)) as [->|Hne]; [rewrite lookup_insert_eq, Hn|by rewrite lookup_insert_ne].
  split; [by intros (k' & ? & _)|]. intros (k' & [= <-] & Ha). congruence.
Qed.

Lemma delete_key_admins p db :
  (forall id k, api_keys db !! id = Some k -> p id k = true -> key_is_admin k = false) ->
  same_admins db (set_api_keys (delete_where p (api_keys db)) db).
Proof.
  intros Hp id. unfold admin_key. simpl. setoid_rewrite lookup_delete_where. split.
  - intros (k & Hk & Ha). exists k. split; [|done]. split; [done|].
    destruct (p id k) eqn:E; [|done]. by rewrite (Hp id k Hk E) in Ha.
  - intros (k & [Hk _] & Ha). eauto.
Qed.

Lemma use_key_admins p now db :
  same_admins db (set_api_keys (update_where p (set_last_used now) (api_keys db)) db).
Proof.
  intros id. unfold admin_key. simpl. rewrite lookup_update_where.
  destruct (api_keys db !! id) as [k|]; simpl; [|split; by intros (? & ? & _)]. split.
  - intros (k' & [= <-] & Ha). eexists. split; [done|]. by destruct (p id k).
  - intros (k' & [= <-] & Ha). eexists. split; [done|]. by destruct (p id k).
Qed.

Ltac other_table :=
  let Hx := fresh "Hx" in intros Hx; apply same_keys_admins;
  first [ apply stmt_Some in Hx as ->; done
        | apply stmt_opt_Some in Hx;
          first [apply insert_role_Some in Hx as [_ ->]; done | apply insert_user_Some in Hx as [_ ->]; done
                |apply insert_audit_Some in Hx as ->; done]
        | unfold delete_role, sql_user_role in Hx; repeat (case_match; simplify_eq); done ].

Lemma LogAction_admins {R : Type} T a at' ac rt ri m :
  guar same_admins (LogAction T a at' ac rt ri m : prog DB R unit).
Proof. apply LogAction_any_guar; [apply _|]. intros. by apply same_keys_admins. Qed.
#[export] Hint Resolve LogAction_admins : moebius.

Lemma CheckAPIKeys_guar {R : Type} (G : relation DB) `{!Reflexive G} r T :
  guar G (CheckAPIKeys r T : prog DB R _).
Proof. by apply (quota_guards G r T 0). Qed.
#[export] Hint Resolve CheckAPIKeys_guar : moebius.

Lemma CreateAPIKey_admins x audit quota ctx body :
  ctx_is_admin ctx = false -> guar same_admins (CreateAPIKey x audit quota ctx body).
Proof.
  intros Ha. unfold CreateAPIKey, GetRole, generateAPIKey. destruct body as [req|]; [|done].
  rewrite Ha, andb_true_r. destruct (ak_name req =s ""); [done|].
  destruct (ak_is_admin req) eqn:Eadm; [done|].
  guar_all. apply quota_guard_guar. guar_all.
  intros Hi%stmt_opt_Some. by eapply insert_key_admins.
Qed.

Lemma DeleteAPIKey_admins audit ctx id db :
  ctx_is_admin ctx = false ->
  rg any_env same_admins same_admins (DeleteAPIKey audit ctx id) (fun _ _ => True) db.
Proof.
  intros Ha. unfold DeleteAPIKey. apply rg_bind, rg_query_row. intros s1 _. split_and!; [done..|].
  destruct (find_key_by_id _ _ s1) as [k|] eqn:Hk; [|done].
  unfold find_key_by_id in Hk. apply bind_Some in Hk as (k' & Hk & Hv). case_match; [|done]. injection Hv as <-.
  rewrite Ha, andb_true_r. destruct (key_is_admin k') eqn:Eadm; [done|].
  apply rg_bind, rg_exec. intros s2 H12. split_and!; [done|by intros _; apply rg_stop| |apply guar_rg; guar_all].
  apply delete_key_admins. intros i k2 Hk2 Hp. reflect_bools. subst i.
  destruct (key_is_admin k2) eqn:E2; [|done]. exfalso.
  assert (admin_key s1 id) as (k3 & Hk3 & Ha3) by (apply H12; by exists k2). congruence.
Qed.

Lemma serve_id_admins w ctx q db :
  ctx_is_admin ctx = false ->
  rg any_env same_admins same_admins (serve_id w ctx q) (fun _ _ => True) db.
Proof.
  intros Ha. destruct q; unfold serve_id;
    first [by apply DeleteAPIKey_admins | apply guar_rg; first [by apply CreateAPIKey_admins|idtac]];
    unfold ListRoles, GetRoleHandler, CreateRole, UpdateRoleHandler, UpdateRole, DeleteRoleHandler, DeleteRole,
      GetRole, Invite, UpdateUser, role_change_guard, UpdateUserRole, SetSSOSubject, SetUserSSOSubject, Deactivate,
      DeactivateUser, ListAPIKeys, record_use;
    guar_all; try other_table.
  intros ->%stmt_Some. apply use_key_admins.
Qed.

(** *** Roles *)

(** Roles a caller may not touch: system roles and those of other tenants. *)
Definition foreign_role (ctx : Ctx) (r : Role) : Prop :=
  role_is_custom r = false \/ role_tenant r <> Some (ctx_tenant ctx).

(** A change of the roles that a caller may make: system roles and other
    tenants' roles stay as they are and where they are, and permissions that
    appear are the caller's own. *)
Definition roles_bounded (ctx : Ctx) (a b : DB) : Prop :=
  (forall id r, roles a !! id = Some r -> foreign_role ctx r -> roles b !! id = Some r) /\
  (forall id r', roles b !! id = Some r' ->
    (exists r, roles a !! id = Some r /\ role_permissions r = role_permissions r'
       /\ role_tenant r = role_tenant r' /\ role_is_custom r = role_is_custom r') \/
    role_tenant r' = Some (ctx_tenant ctx) /\ role_is_custom r' = true
    /\ role_permissions r' ⊆ ctx_permissions ctx).

#[export] Instance roles_bounded_preorder ctx : PreOrder (roles_bounded ctx).
Proof.
  split.
  - intros a. split; [done|]. intros id r Hr. left. by exists r.
  - intros a b c [Hab1 Hab2] [Hbc1 Hbc2]. split; [auto|]. intros id r' Hr'.
    destruct (Hbc2 id r' Hr') as [(r & Hr & E1 & E2 & E3)|]; [|by right].
    destruct (Hab2 id r Hr) as [(r0 & Hr0 & F1 & F2 & F3)|(F1 & F2 & F3)].
    + left. exists r0. split_and!; [done|congruence..].
    + right. rewrite <-E1, <-E2, <-E3. done.
Qed.

Lemma roles_bounded_self ctx a id r' : roles a !! id = Some r' ->
  (exists r, roles a !! id = Some r /\ role_permissions r = role_permissions r'
       /\ role_tenant r = role_tenant r' /\ role_is_custom r = role_is_custom r') \/
    role_tenant r' = Some (ctx_tenant ctx) /\ role_is_custom r' = true
    /\ role_permissions r' ⊆ ctx_permissions ctx.
Proof. intros Hr. left. by exists r'. Qed.

Lemma roles_bounded_same ctx a b : roles b = roles a -> roles_bounded ctx a b.
Proof. intros E. split; intros id r Hr; rewrite ?E in *; [done|]. by apply roles_bounded_self. Qed.

(** The rows of the caller's own custom roles are the only ones the statements match. *)
Lemma own_custom_foreign ctx id k r : own_custom (ctx_tenant ctx) id k r = true -> foreign_role ctx r -> False.
Proof. unfold own_custom, foreign_role. intros H. reflect_bools. intros [?|?]; congruence. Qed.

Lemma may_grant_spec ctx perms : ctx_is_admin ctx = false -> may_grant ctx perms = true -> perms ⊆ ctx_permissions ctx.
Proof. intros Ha. unfold may_grant. rewrite Ha. simpl. apply PermissionsSubset_spec. Qed.

Lemma create_role_bounded ctx id r db db' :
  insert_role id r db = Some db' -> role_tenant r = Some (ctx_tenant ctx) -> role_is_custom r = true ->
  role_permissions r ⊆ ctx_permissions ctx -> roles_bounded ctx db db'.
Proof.
  intros [Hn ->]%insert_role_Some Ht Hc Hp. split; intros k r'; simpl.
  - intros Hk _. rewrite lookup_insert_ne; [done|]. intros ->. congruence.
  - intros [[-> <-]|[Hk Hr]]%lookup_insert_Some; [by right|]. by apply roles_bounded_self.
Qed.

Lemma update_role_bounded ctx id name perms db :
  (forall r, roles db !! id = Some r -> role_permissions r = perms \/ perms ⊆ ctx_permissions ctx) ->
  roles_bounded ctx db
    (set_roles (update_where (own_custom (ctx_tenant ctx) id) (set_role name perms) (roles db)) db).
Proof.
  intros Hp. split; intros k r'; simpl; rewrite lookup_update_where.
  - intros -> Hf. simpl. destruct (own_custom _ _ k r') eqn:Eo; [|done]. by destruct (own_custom_foreign _ _ _ _ Eo).
  - destruct (roles db !! k) as [r|] eqn:Hr; [|done].
    simpl. intros [= <-]. destruct (own_custom _ _ k r) eqn:Eo; [|left; by exists r].
    unfold own_custom in Eo. reflect_bools. subst k. destruct (Hp r Hr) as [<-|Hsub]; [left; by exists r|by right].
Qed.

(** Keeps the roles table: everything but the role handlers. *)
Ltac roles_kept :=
  let Hx := fresh "Hx" in intros Hx; apply roles_bounded_same;
  first [ apply stmt_Some in Hx as ->; done
        | apply stmt_opt_Some in Hx;
          first [apply insert_user_Some in Hx as [_ ->]; done | apply insert_key_Some in Hx as [_ ->]; done
                |apply insert_audit_Some in Hx as ->; done]
        | unfold sql_user_role in Hx; repeat (case_match; simplify_eq); done ].

Lemma LogAction_roles {R : Type} ctx T a at' ac rt ri m :
  guar (roles_bounded ctx) (LogAction T a at' ac rt ri m : prog DB R unit).
Proof. apply LogAction_any_guar; [apply _|]. intros. by apply roles_bounded_same. Qed.
#[export] Hint Resolve LogAction_roles : moebius.

Lemma delete_role_bounded ctx id db db' n :
  delete_role (ctx_tenant ctx) id db = Some (db', n) -> roles_bounded ctx db db'.
Proof.
  unfold delete_role. case_match; [done|]. intros [= <- _]. split; intros k r; simpl.
  - intros Hr Hf. apply lookup_delete_where. split; [done|].
    destruct (own_custom _ _ k r) eqn:Eo; [|done]. by destruct (own_custom_foreign _ _ _ _ Eo).
  - intros [Hr _]%lookup_delete_where. by apply roles_bounded_self.
Qed.

Lemma UpdateRoleHandler_bounded audit ctx id body db :
  ctx_is_admin ctx = false ->
  rg any_env (=) (roles_bounded ctx) (UpdateRoleHandler audit ctx id body) (fun _ _ => True) db.
Proof.
  intros Ha. unfold UpdateRoleHandler, GetRole. do 3 rg_step; [done|].
  destruct (find_role _ id db) as [r|] eqn:Hr; [|done]. apply find_role_Some in Hr as [Hr _]. rg_step.
  destruct (role_is_custom r); [|done]. simpl negb. cbv iota. destruct body as [[name perms]|]; [|done].
  destruct (nonempty perms && negb (may_grant ctx perms)) eqn:Eg; [done|]. cbv zeta.
  unfold UpdateRole. do 3 rg_step; [done| |apply guar_rg; guar_all].
  apply update_role_bounded. intros r0 Hr0. assert (r0 = r) as -> by congruence.
  destruct (nonempty perms); [right|by left]. simpl in Eg. apply negb_false_iff in Eg.
  by apply may_grant_spec.
Qed.

Lemma CreateRole_bounded audit ctx body :
  ctx_is_admin ctx = false -> guar (roles_bounded ctx) (CreateRole audit ctx body).
Proof.
  intros Ha. unfold CreateRole. destruct body as [[name perms]|]; [|done]. destruct (_ || _); [done|].
  destruct (may_grant ctx perms) eqn:Eg; [|done]. guar_all. intros Hi%stmt_opt_Some.
  eapply create_role_bounded; [exact Hi|done|done|]. by apply may_grant_spec.
Qed.

Lemma serve_id_roles w ctx q db :
  ctx_is_admin ctx = false ->
  rg any_env (=) (roles_bounded ctx) (serve_id w ctx q) (fun _ _ => True) db.
Proof.
  intros Ha. destruct q; unfold serve_id;
    first [by apply UpdateRoleHandler_bounded | apply guar_rg; first [by apply CreateRole_bounded|idtac]];
    unfold ListRoles, GetRoleHandler, DeleteRoleHandler, DeleteRole,
      Invite, UpdateUser, role_change_guard, UpdateUserRole, SetSSOSubject, SetUserSSOSubject, Deactivate,
      DeactivateUser, ListAPIKeys, record_use, CreateAPIKey, generateAPIKey, DeleteAPIKey;
    guar_all; try (apply quota_guard_guar; guar_all); try roles_kept.
  - apply delete_role_bounded.
  - intros [= <- _]. by apply roles_bounded_same.
Qed.

(** *** Assignment of roles to users *)

(** Users other than the caller may change, to a role within the caller's
    permissions or to none. *)
Definition role_within (ctx : Ctx) (db : DB) (role : option string) : Prop :=
  match role with
  | None => True
  | Some rid => exists r, find_role (ctx_tenant ctx) rid db = Some r /\ role_permissions r ⊆ ctx_permissions ctx
  end.

(** ** Properties *)

(** The predefined roles are ordered: each includes the permissions of the next
    lower one, the two administrators hold every permission, and nobody below
    them may manage users, roles or API keys. *)
Theorem predefined_roles_ordered :
  PermissionsSubset TechnicianPermissions ViewerPermissions = true /\
  PermissionsSubset OperatorPermissions TechnicianPermissions = true /\
  PermissionsSubset TenantAdminPermissions OperatorPermissions = true /\
  PermissionsSubset TenantAdminPermissions SuperAdminPermissions = true /\
  PermissionsSubset SuperAdminPermissions TenantAdminPermissions = true /\
  NoDup AllPermissions /\
  (forall p, p ∈ [PermUsersWrite; PermRolesWrite; PermAPIKeysWrite; PermTenantWrite] ->
     hasPermission OperatorPermissions p = false).
Proof.
  split_and!; try (vm_compute; reflexivity).
  - apply (bool_decide_unpack _). vm_compute. exact I.
  - intros p Hp. repeat (apply elem_of_cons in Hp as [->|Hp]; [reflexivity|]). by apply elem_of_nil in Hp.
Qed.

(** Admin keys are protected under concurrency: no interleaving of requests by
    callers that are not admins creates or deletes an admin key. *)
Theorem admin_keys_protected w qs db db' pool :
  Forall (fun cq : Ctx * IdRequest => ctx_is_admin cq.1 = false) qs ->
  rtc pstep (db, map (fun cq => serve_id w cq.1 cq.2) qs) (db', pool) ->
  forall id, admin_key db' id <-> admin_key db id.
Proof.
  intros Hqs Hs id. apply (psteps_rg same_admins) in Hs; [by rewrite (Hs id)|].
  simpl. apply Forall_map, Forall_forall. intros cq Hin. apply serve_id_admins.
  by apply (proj1 (Forall_forall _ _) Hqs).
Qed.

(** C26: No role grants more than its author holds: a request of a caller that is not
    an admin neither changes nor deletes a system role or another tenant's role,
    and a permission set that was not there before is within the caller's own. *)
Theorem no_role_escalation w ctx q env db :
  ctx_is_admin ctx = false -> roles_bounded ctx db (run_store (serve_id w ctx q) env db).
Proof.
  intros Ha. pose proof (rg_run_guar any_env (roles_bounded ctx) (serve_id w ctx q) (fun _ _ => True) env 0 db
    (fun _ => I) (serve_id_roles w ctx q db Ha)) as Hrtc.
  unfold run_store. induction Hrtc as [|a b c Hab _ IH]; [reflexivity|]. by etrans.
Qed.

(** Ends a branch that answers without having written. *)
Ltac unchanged := cbn [negb]; repeat rg_step; intros; by left.
(** The reads after the write. *)
Ltac done_db H := repeat (first [rg_step | case_match]; intros); try exact H; by eauto.

(** A caller that is not an admin changes the role of no one but the named user,
    never its own, and only to a role whose permissions it holds itself. *)
Theorem user_role_guard audit env ctx userID body db :
  ctx_is_admin ctx = false ->
  forall id u', users (run_store (UpdateUser audit ctx userID body) env db) !! id = Some u' ->
    users db !! id = Some u' \/
    id = userID /\ id <> ctx_user ctx /\ is_Some (usr_role u') /\ role_within ctx db (usr_role u').
Proof.
  intros Ha. by_rg any_env (fun _ _ : DB => True); [done|]. unfold UpdateUser.
  destruct body as [roleID|]; [|unchanged]. destruct (roleID =s ""); [unchanged|].
  unfold role_change_guard. rewrite Ha. rg_step. destruct (userID =s ctx_user ctx) eqn:Eself; [unchanged|].
  reflect_bools. unfold GetRole. do 3 rg_step; [intros _; unchanged|].
  destruct (find_role _ roleID db) as [role|] eqn:Hr; [|unchanged]. rg_step.
  destruct (PermissionsSubset _ _) eqn:Ep; [|unchanged]. apply PermissionsSubset_spec in Ep.
  cbn [negb]. rg_step. rg_step. unfold UpdateUserRole. do 2 rg_step; [intros _; unchanged|].
  unfold sql_user_role. cbv zeta. destruct (_ && _); [unchanged|]. split; [done|].
  set (db1 := set_users _ db).
  assert (forall id u', users db1 !! id = Some u' -> users db !! id = Some u' \/
    id = userID /\ id <> ctx_user ctx /\ is_Some (usr_role u') /\ role_within ctx db (usr_role u')) as Hdb1.
  { intros id u'. unfold db1. simpl. rewrite lookup_update_where. destruct (users db !! id) as [u|]; [|done].
    intros [= <-]. destruct (own_user _ _ id u) eqn:Eo; [right|by left].
    unfold own_user in Eo. reflect_bools. subst id. simpl. split_and!; eauto. }
  rg_step. destruct (_ =? 0)%nat; [exact Hdb1|]. rg_step. destruct audit.
  - apply LogAction_any_rg; [done|done|]. intros l. done_db Hdb1.
  - rg_step. done_db Hdb1.
Qed.

Lemma find_key_Some h db id k perms :
  find_key h db = Some (id, k, perms) ->
  api_keys db !! id = Some k /\ key_hash k = h /\
  perms = match roles db !! key_role k with Some r => role_permissions r | None => [] end.
Proof.
  unfold find_key. intros ([id' k'] & Hh & [= <- <- <-])%bind_Some.
  apply head_select_where in Hh as [Hk Hp]. apply seqb_eq in Hp. by split_and!.
Qed.

Lemma find_key_unique h db id k :
  api_keys db !! id = Some k -> key_hash k = h ->
  (forall i k', api_keys db !! i = Some k' -> key_hash k' = h -> k' = k) ->
  exists i, find_key h db =
    Some (i, k, match roles db !! key_role k with Some r => role_permissions r | None => [] end).
Proof.
  intros Hk Hh Hu. unfold find_key.
  assert ((id, k) ∈ select_where (fun _ k => key_hash k =s h) (api_keys db)) as Hin.
  { apply elem_of_select_where. split; [done|]. by apply seqb_eq. }
  destruct (head (select_where _ (api_keys db))) as [[i k']|] eqn:Eh.
  - apply head_select_where in Eh as [Hi Hp]. reflect_bools. rewrite (Hu i k' Hi Hp). by exists i.
  - destruct (select_where _ _); [by apply elem_of_nil in Hin|done].
Qed.

Lemma CheckAPIKeys_rg {R : Type} (E : Env -> Prop) (Q : R + option GoError -> DB -> Prop) r T db :
  Q (inr (Some EDb)) db ->
  (forall e, Q (inr (Some (EQuota e))) db) -> Q (inr None) db ->
  rg E (=) (=) (CheckAPIKeys r T) Q db.
Proof.
  intros Herr Hover Hok. unfold CheckAPIKeys. destruct r as [d|]; [|done].
  apply check_count_rg; auto.
Qed.

(** The key [CreateAPIKey] stores. *)
Definition new_key (x : X509) (ctx : Ctx) (req : createAPIKeyRequest) (raw : string) (now : Z) : APIKey :=
  {| key_tenant := ctx_tenant ctx; key_user := ctx_user ctx; key_name := ak_name req;
     key_hash := sha256_hex x raw; key_role := ak_role_id req; key_scope := JValid <$> ak_scope req;
     key_is_admin := ak_is_admin req; key_last_used_at := None; key_expires_at := ak_expires_at req;
     key_created_at := now |}.

Lemma CreateAPIKey_rg (E : Env -> Prop) x audit quota ctx req db (Q : Response + unit -> DB -> Prop) :
  (forall r, resp_status r <> 201%Z -> Q (inl r) db) ->
  (forall id role r now s, let raw := String.append "sk_" r in
     find_role (ctx_tenant ctx) (ak_role_id req) db = Some role ->
     (ak_is_admin req = true -> ctx_is_admin ctx = true) -> roles s = roles db ->
     api_keys s = <[id := new_key x ctx req raw now]> (api_keys db) ->
     Q (inl (JSON 201 (BAPIKey id (new_key x ctx req raw now) raw))) s) ->
  rg E (=) (fun _ _ => True) (CreateAPIKey x audit quota ctx (Some req)) Q db.
Proof.
  intros Hno Hyes. unfold CreateAPIKey. destruct (ak_name req =s ""); [by apply Hno|].
  destruct (ak_is_admin req && negb (ctx_is_admin ctx)) eqn:Eadm; [by apply Hno|].
  assert (ak_is_admin req = true -> ctx_is_admin ctx = true) as Hadm.
  { intros H1. rewrite H1 in Eadm. simpl in Eadm. by apply negb_false_iff in Eadm. }
  rg_step. apply (rg_weaken_G _ _ (=)); [done|]. apply CheckAPIKeys_rg; [by apply Hno|intros; by apply Hno|].
  unfold quota_guard. destruct (ak_role_id req =s ""); [by apply Hno|].
  unfold GetRole. do 3 rg_step; [intros _; rg_step; by apply Hno|].
  destruct (find_role _ _ db) as [role|] eqn:Hr; [|rg_step; by apply Hno]. rg_step.
  unfold generateAPIKey. do 2 rg_step. apply rg_random_hex; [done|]. intros r. rg_step.
  do 6 rg_step; [intros _; by apply Hno|].
  destruct (stmt_opt _ db) as [[db1 u]|] eqn:Hi; [|by apply Hno].
  apply stmt_opt_Some, insert_key_Some in Hi as [_ ->]. split; [done|].
  apply audit_stop_rg. intros l. by eapply Hyes.
Qed.

Lemma bearer raw : extractBearerToken (String.append "Bearer " raw) = raw.
Proof. reflexivity. Qed.

(** A request with a stored key, up to the check of its expiry. *)
Lemma APIKeyAuth_found {A : Type} x raw (next : Ctx -> Handler A) env ctx db id k perms :
  ctx_tenant ctx = "" -> (raw =s "") = false -> e_fault (env 0) = false ->
  find_key (hashAPIKey x raw) db = Some (id, k, perms) ->
  run (APIKeyAuth x (String.append "Bearer " raw) next ctx) env 0 db =
  match key_expires_at k with
  | None => run (_ ← record_use id; next (as_key k perms ctx)) env 1 db
  | Some exp =>
      if (exp <? e_now (env 1%nat))%Z then (db, 2, inl (ErrorWithCode 401 "api_key_expired" (Lit "The API key has expired")))
      else run (_ ← record_use id; next (as_key k perms ctx)) env 2 db
  end.
Proof.
  intros Hct Hraw Hok Hf. unfold APIKeyAuth. rewrite Hct, (bearer raw). change ("" =s "") with true. cbn [negb]. cbv iota.
  rewrite Hraw. simpl run. rewrite Hok, Hf. simpl. destruct (key_expires_at k); simpl; [|done]. by case_match.
Qed.

(** What [record_use] may have done. *)
Definition maybe_recorded (keyID : string) (db db' : DB) : Prop :=
  db' = db \/ exists now, db' = use_recorded keyID now db.

Lemma record_use_run {A : Type} keyID (p : Handler A) env n db :
  exists db', maybe_recorded keyID db db' /\ run (_ ← record_use keyID; p) env n db = run p env (S (S n)) db'.
Proof.
  unfold record_use. simpl. destruct (e_fault (env (S n))); simpl.
  - exists db. split; [by left|done].
  - exists (use_recorded keyID (e_now (env n)) db). split; [right; eauto|done].
Qed.

Lemma apikey_cases {A : Type} x authz (next : Ctx -> Handler A) env ctx db :
  (exists r n, run (APIKeyAuth x authz next ctx) env 0 db = (db, n, inl r) /\ (401 <= resp_status r)%Z) \/
  (ctx_tenant ctx <> "" /\ run (APIKeyAuth x authz next ctx) env 0 db = run (next ctx) env 0 db) \/
  (exists id k n db', api_keys db !! id = Some k /\ key_hash k = hashAPIKey x (extractBearerToken authz)
     /\ maybe_recorded id db db' /\ (forall exp, key_expires_at k = Some exp -> (e_now (env 1%nat) <= exp)%Z)
     /\ (is_Some (key_scope k) -> is_Some (load_scope (key_scope k)))
     /\ run (APIKeyAuth x authz next ctx) env 0 db
        = run (next (as_key k (match roles db !! key_role k with Some r => role_permissions r | None => [] end) ctx))
            env n db').
Proof.
  unfold APIKeyAuth. destruct (ctx_tenant ctx =s "") eqn:Et; simpl negb; cbv iota; [|right; left; by reflect_bools].
  destruct (extractBearerToken authz =s "") eqn:Er; [left; by eexists _, _|]. simpl.
  destruct (e_fault (env 0)); [left; by eexists _, _|].
  destruct (find_key _ db) as [[[id k] perms]|] eqn:Hk; [|left; by eexists _, _]. cbn [fst snd run].
  apply find_key_Some in Hk as (Hk & Hh & ->).
  assert (is_Some (key_scope k) -> is_Some (load_scope (key_scope k))) as Hsc.
  { intros [j ->]. simpl. eauto. }
  destruct (key_expires_at k) as [exp|] eqn:Ee; cbn [mbind mret prog_bind prog_ret pbind run time_now fst snd].
  - destruct (exp <? _)%Z eqn:El; reflect_bools; [left; by eexists _, _|]. right; right.
    destruct (record_use_run id (next (as_key k (match roles db !! key_role k with Some r => role_permissions r | None => [] end) ctx)) env 2 db)
      as (db' & Hm & Hr).
    exists id, k, 4, db'. split_and!; try done. intros exp' Hx. rewrite ?Ee in Hx. simplify_eq. lia.
  - right; right.
    destruct (record_use_run id (next (as_key k (match roles db !! key_role k with Some r => role_permissions r | None => [] end) ctx)) env 1 db)
      as (db' & Hm & Hr).
    exists id, k, 3, db'. split_and!; try done. intros exp Hx. by rewrite Ee in Hx.
Qed.

(** API key authentication lets a request through only unchanged from an earlier
    authentication, or with a stored, unexpired key whose hash is that of the
    bearer token; the handler then acts for the key's tenant and user, with the
    permissions of the key's role, and with a scope whenever the key has one,
    the empty scope if it does not decode, after the use of the key may have been
    recorded.  Otherwise it answers with an error and nothing changes. *)
Theorem apikey_auth_sound {A : Type} x authz (next : Ctx -> Handler A) env ctx db :
  (exists r n, run (APIKeyAuth x authz next ctx) env 0 db = (db, n, inl r) /\ (401 <= resp_status r)%Z) \/
  (ctx_tenant ctx <> "" /\ run (APIKeyAuth x authz next ctx) env 0 db = run (next ctx) env 0 db) \/
  (exists id k n db', api_keys db !! id = Some k /\ key_hash k = hashAPIKey x (extractBearerToken authz)
     /\ maybe_recorded id db db' /\ (forall exp, key_expires_at k = Some exp -> (e_now (env 1%nat) <= exp)%Z)
     /\ (is_Some (key_scope k) -> is_Some (load_scope (key_scope k)))
     /\ run (APIKeyAuth x authz next ctx) env 0 db
        = run (next (as_key k (match roles db !! key_role k with Some r => role_permissions r | None => [] end) ctx))
            env n db').
Proof. apply apikey_cases. Qed.

(** C27: A created key works, with what was asked for, while it has not expired: the
    raw key in a 201, when no stored key had its hash, authenticates as the
    caller's tenant and user, with the scope of the request and the permissions of
    the requested role, as long as the requested expiry, if any, has not passed;
    after it, it is refused.  The caller's own permissions and scope do not enter,
    only the admin flag does. *)
Theorem created_key_authenticates x audit quota env ctx req db id key raw :
  run_result (CreateAPIKey x audit quota ctx (Some req)) env db = inl (JSON 201 (BAPIKey id key raw)) ->
  (forall i k, api_keys db !! i = Some k -> key_hash k <> sha256_hex x raw) ->
  let db' := run_store (CreateAPIKey x audit quota ctx (Some req)) env db in
  exists role, find_role (ctx_tenant ctx) (ak_role_id req) db = Some role /\
    (ak_is_admin req = true -> ctx_is_admin ctx = true) /\
    forall (next : Ctx -> Handler unit) env' ctx', ctx_tenant ctx' = "" -> e_fault (env' 0) = false ->
      ((forall exp, ak_expires_at req = Some exp -> (e_now (env' 1%nat) <= exp)%Z) ->
       exists n db1, maybe_recorded id db' db1 /\
         run (APIKeyAuth x (String.append "Bearer " raw) next ctx') env' 0 db'
         = run (next {| ctx_tenant := ctx_tenant ctx; ctx_agent := ctx_agent ctx'; ctx_user := ctx_user ctx;
                        ctx_is_admin := ak_is_admin req; ctx_scope := ak_scope req;
                        ctx_permissions := role_permissions role |}) env' n db1) /\
      (forall exp, ak_expires_at req = Some exp -> (exp < e_now (env' 1%nat))%Z ->
       run (APIKeyAuth x (String.append "Bearer " raw) next ctx') env' 0 db'
       = (db', 2, inl (ErrorWithCode 401 "api_key_expired" (Lit "The API key has expired")))).
Proof.
  intros Hres Hfresh db'. revert Hres. unfold db'. by_rg any_env (fun _ _ : DB => True); [done|].
  apply CreateAPIKey_rg; [intros r Hr [= ->]; done|].
  intros id' role r now s raw' Hrole Hadm Hroles Hkeys [= <- <- <-]. exists role. split_and!; [done..|].
  intros next env' ctx' Hct Hok.
  apply find_role_Some in Hrole as [Hrole _].
  assert (find_key (hashAPIKey x raw') s = Some (id', new_key x ctx req raw' now, role_permissions role)) as Hfind.
  { assert (api_keys s !! id' = Some (new_key x ctx req raw' now)) as Hk by by rewrite Hkeys, lookup_insert_eq.
    destruct (find_key_unique (hashAPIKey x raw') s id' (new_key x ctx req raw' now) Hk eq_refl) as [i Hi].
    { intros j k' Hj Hh. rewrite Hkeys in Hj. apply lookup_insert_Some in Hj as [[_ <-]|[_ Hj]]; [done|].
      by destruct (Hfresh j k' Hj). }
    pose proof Hi as (Hki & _ & _)%find_key_Some. rewrite Hkeys in Hki.
    apply lookup_insert_Some in Hki as [[<- _]|[_ Hki]]; [|by destruct (Hfresh i _ Hki)].
    rewrite Hi. simpl. by rewrite Hroles, Hrole. }
  assert ((raw' =s "") = false) as Hne by reflexivity. set (out := next _).
  assert (next (as_key (new_key x ctx req raw' now) (role_permissions role) ctx') = out) as Hout
    by (unfold out, as_key; simpl; by destruct (ak_scope req)). split.
  - intros Hexp.
    assert (run (APIKeyAuth x (String.append "Bearer " raw') next ctx') env' 0 s
      = run (_ ← record_use id'; out) env' (match ak_expires_at req with Some _ => 2 | None => 1 end) s) as ->.
    { rewrite (APIKeyAuth_found _ _ _ _ _ _ _ _ _ Hct Hne Hok Hfind). simpl key_expires_at.
      destruct (ak_expires_at req) as [exp|]; [rewrite (proj2 (Z.ltb_ge _ _)) by by apply Hexp|]; by rewrite Hout. }
    destruct (record_use_run id' out env' (match ak_expires_at req with Some _ => 2 | None => 1 end) s) as (db1 & Hm & ->).
    by eexists _, db1.
  - intros exp Hexp Hlt. rewrite (APIKeyAuth_found _ _ _ _ _ _ _ _ _ Hct Hne Hok Hfind). simpl key_expires_at.
    by rewrite Hexp, (proj2 (Z.ltb_lt _ _)).
Qed.
