(* ===== verification/Cdm.v ===== *)
(** * Customer device mode

    [agent/cdm/cdm.go] and the writer of [agent/cdm/audit.go]: the agent-side
    switch that holds jobs until the device's owner grants a session.  Every
    method of [Manager] runs under its mutex, so it is one atomic function of
    the manager's state, the state file and the audit log; what the operating
    system answers is the argument [Io].  A restart of the agent drops the
    memory and loads the file again ([New]).

    [Spec] is the mode without memory, file or lazy expiry; the manager is shown
    to implement it across restarts as long as its writes succeed, and to keep
    the owner's consent necessary whatever fails. *)

From S2P Require Import Prelude.

(** ** Data *)

Record State := {
  st_enabled : bool;
  st_session_active : bool;
  st_session_expires_at : option Z;
  st_session_granted_by : string;
  st_session_granted_at : option Z;
}.

Definition zero_state : State :=
  {| st_enabled := false; st_session_active := false; st_session_expires_at := None;
     st_session_granted_by := ""; st_session_granted_at := None |}.

Record CdmEntry := {
  ce_timestamp : Z;
  ce_action : string;
  ce_actor : string;
  ce_old_state : string;
  ce_new_state : string;
  ce_duration : option Z;           (* rendered by Duration.String *)
  ce_expires_at : option Z;
  ce_job_id : string;
  ce_job_type : string;
}.

(** The state file: absent, a marshalled state, or bytes that do not unmarshal. *)
Inductive File := NoFile | Valid (s : State) | Corrupt.

(** [os.WriteFile] takes several system calls: a failure may leave the old
    bytes, a part of the new ones, or all of them. *)
Inductive LeftBehind := Kept | Partial | Written.
Inductive WriteOutcome := WOk | WFail (l : LeftBehind).

(** What the system answers during one call. *)
Record Io := {
  io_now : Z;                 (* time.Now() *)
  io_write : WriteOutcome;
  io_read_ok : bool;          (* os.ReadFile of an existing file *)
  io_audit : option Z;        (* time of the audit entry; None when it is lost *)
}.

(** The agent's CDM world: [w_mem] is [None] while there is no manager, and
    [w_log] when the manager has no audit log. *)
Record World := {
  w_mem : option State;
  w_file : File;
  w_log : option (list CdmEntry);
}.

Inductive Answer := ANil | AError | ABool (b : bool) | AState (s : State).

(** ** Operations *)

Definition with_enabled (b : bool) (s : State) : State :=
  {| st_enabled := b; st_session_active := st_session_active s;
     st_session_expires_at := st_session_expires_at s;
     st_session_granted_by := st_session_granted_by s;
     st_session_granted_at := st_session_granted_at s |}.

Definition clear_session (s : State) : State :=
  {| st_enabled := st_enabled s; st_session_active := false; st_session_expires_at := None;
     st_session_granted_by := ""; st_session_granted_at := None |}.

Definition persisted (io : Io) (s : State) (f : File) : File :=
  match io_write io with
  | WOk | WFail Written => Valid s
  | WFail Kept => f
  | WFail Partial => Corrupt
  end.

Definition write_ok (io : Io) : bool := match io_write io with WOk => true | WFail _ => false end.

(** [AuditLog.Write]. *)
Definition Write (io : Io) (e : Z -> CdmEntry) (log : option (list CdmEntry)) : option (list CdmEntry) :=
  match log, io_audit io with
  | Some l, Some t => Some (l ++ [e t])
  | _, _ => log
  end.

Definition entry (action actor old new : string) (duration expires : option Z) (t : Z) : CdmEntry :=
  {| ce_timestamp := t; ce_action := action; ce_actor := actor; ce_old_state := old; ce_new_state := new;
     ce_duration := duration; ce_expires_at := expires; ce_job_id := ""; ce_job_type := "" |}.

Definition LogJobExecution (io : Io) (jobID jobType actor : string) (log : option (list CdmEntry))
    : option (list CdmEntry) :=
  Write io (fun t => {| ce_timestamp := t; ce_action := "cdm.job.executed"; ce_actor := actor;
                        ce_old_state := ""; ce_new_state := ""; ce_duration := None; ce_expires_at := None;
                        ce_job_id := jobID; ce_job_type := jobType |}) log.

Definition stateLabel (enabled sessionActive : bool) : string :=
  if negb enabled then "disabled" else if sessionActive then "enabled+session" else "enabled".

(** [now.After(expires)] for a session that is on and has an expiry. *)
Definition expired (now : Z) (s : State) : bool :=
  st_session_active s && match st_session_expires_at s with Some exp => (exp <? now)%Z | None => false end.

Definition checkExpiryLocked (io : Io) (s : State) (f : File) (log : option (list CdmEntry))
    : State * File * option (list CdmEntry) :=
  if expired (io_now io) s then
    let s' := clear_session s in
    (s', persisted io s' f,
     Write io (entry "cdm.session.expired" (st_session_granted_by s) "" "" None None) log)
  else (s, f, log).

(** [New]: the loaded state, or the zero state without a file; [None] is an
    error of reading or unmarshalling. *)
Definition load (io : Io) (f : File) : option State :=
  match f with
  | NoFile => Some zero_state
  | Valid s => if io_read_ok io then Some s else None
  | Corrupt => None
  end.

Definition New (io : Io) (f : File) (log : option (list CdmEntry)) : World :=
  match load io f with
  | None => {| w_mem := None; w_file := f; w_log := log |}
  | Some s =>
      let '(s', f', log') := checkExpiryLocked io s f log in
      {| w_mem := Some s'; w_file := f'; w_log := log' |}
  end.

Definition Enable (io : Io) (actor : string) (s : State) (f : File) (log : option (list CdmEntry))
    : World * Answer :=
  let old := st_enabled s in
  let s' := with_enabled true s in
  if negb (write_ok io)
  then ({| w_mem := Some (with_enabled old s'); w_file := persisted io s' f; w_log := log |}, AError)
  else ({| w_mem := Some s'; w_file := persisted io s' f;
           w_log := if negb old then Write io (entry "cdm.enable" actor "disabled" "enabled" None None) log
                    else log |}, ANil).

Definition Disable (io : Io) (actor : string) (s : State) (f : File) (log : option (list CdmEntry))
    : World * Answer :=
  let s' := clear_session (with_enabled false s) in
  if negb (write_ok io)
  then ({| w_mem := Some s'; w_file := persisted io s' f; w_log := log |}, AError)
  else ({| w_mem := Some s'; w_file := persisted io s' f;
           w_log := if st_enabled s
                    then Write io (entry "cdm.disable" actor (stateLabel (st_enabled s) (st_session_active s))
                                     "disabled" None None) log
                    else log |}, ANil).

Definition open_session (now expires : Z) (actor : string) (s : State) : State :=
  {| st_enabled := st_enabled s; st_session_active := true; st_session_expires_at := Some expires;
     st_session_granted_by := actor; st_session_granted_at := Some now |}.

Definition GrantSession (io : Io) (actor : string) (duration : Z) (s : State) (f : File)
    (log : option (list CdmEntry)) : World * Answer :=
  if negb (st_enabled s) then ({| w_mem := Some s; w_file := f; w_log := log |}, AError)
  else
    let expires := (io_now io + duration)%Z in
    let s' := open_session (io_now io) expires actor s in
    if negb (write_ok io)
    then ({| w_mem := Some s'; w_file := persisted io s' f; w_log := log |}, AError)
    else ({| w_mem := Some s'; w_file := persisted io s' f;
             w_log := Write io (entry "cdm.session.grant" actor "" "" (Some duration) (Some expires)) log |}, ANil).

Definition RevokeSession (io : Io) (actor : string) (s : State) (f : File) (log : option (list CdmEntry))
    : World * Answer :=
  if negb (st_session_active s) then ({| w_mem := Some s; w_file := f; w_log := log |}, AError)
  else
    let s' := clear_session s in
    if negb (write_ok io)
    then ({| w_mem := Some s'; w_file := persisted io s' f; w_log := log |}, AError)
    else ({| w_mem := Some s'; w_file := persisted io s' f;
             w_log := Write io (entry "cdm.session.revoke" actor "" "" None None) log |}, ANil).

(** The methods that check the expiry first and then answer. *)
Definition checked (io : Io) (ask : State -> Answer) (s : State) (f : File) (log : option (list CdmEntry))
    : World * Answer :=
  let '(s', f', log') := checkExpiryLocked io s f log in
  ({| w_mem := Some s'; w_file := f'; w_log := log' |}, ask s').

Definition SessionActive (io : Io) := checked io (fun s => ABool (st_session_active s)).
Definition Snapshot (io : Io) := checked io AState.
Definition CanExecuteJob (io : Io) :=
  checked io (fun s => ABool (if negb (st_enabled s) then true else st_session_active s)).
Definition Enabled (s : State) : bool := st_enabled s.

(** ** Sequences of operations *)

Inductive Op :=
| OEnable (actor : string)
| ODisable (actor : string)
| OGrant (actor : string) (duration : Z)
| ORevoke (actor : string)
| OSessionActive
| OSnapshot
| OCanExecute
| ORestart.

(** One call; the holder of a missing manager refuses jobs
    ([executor.runJob]), and every other call on it is an error. *)
Definition cdm_step (w : World) (call : Io * Op) : World * Answer :=
  let '(io, op) := call in
  match op, w_mem w with
  | ORestart, _ => (New io (w_file w) (w_log w), ANil)
  | OCanExecute, None => (w, ABool false)
  | _, None => (w, AError)
  | OEnable a, Some s => Enable io a s (w_file w) (w_log w)
  | ODisable a, Some s => Disable io a s (w_file w) (w_log w)
  | OGrant a d, Some s => GrantSession io a d s (w_file w) (w_log w)
  | ORevoke a, Some s => RevokeSession io a s (w_file w) (w_log w)
  | OSessionActive, Some s => SessionActive io s (w_file w) (w_log w)
  | OSnapshot, Some s => Snapshot io s (w_file w) (w_log w)
  | OCanExecute, Some s => CanExecuteJob io s (w_file w) (w_log w)
  end.

Fixpoint cdm_run (w : World) (calls : list (Io * Op)) : World * list Answer :=
  match calls with
  | [] => (w, [])
  | c :: cs =>
      let '(w', a) := cdm_step w c in
      let '(w'', l) := cdm_run w' cs in (w'', a :: l)
  end.

(** A fresh installation: no file, the manager just created. *)
Definition installed (log : option (list CdmEntry)) : World :=
  {| w_mem := Some zero_state; w_file := NoFile; w_log := log |}.

(** ** Specification *)

Record Spec := { sp_enabled : bool; sp_session : option Z }.

Definition sp_open (now : Z) (m : Spec) : bool :=
  match sp_session m with Some exp => (now <=? exp)%Z | None => false end.

(** Calls change the mode; reads and restarts do not. *)
Definition spec_step (m : Spec) (call : Io * Op) : Spec :=
  let '(io, op) := call in
  match op with
  | OEnable _ => {| sp_enabled := true; sp_session := sp_session m |}
  | ODisable _ => {| sp_enabled := false; sp_session := None |}
  | OGrant _ d => if sp_enabled m then {| sp_enabled := true; sp_session := Some (io_now io + d)%Z |} else m
  | ORevoke _ => {| sp_enabled := sp_enabled m; sp_session := None |}
  | OSessionActive | OSnapshot | OCanExecute | ORestart => m
  end.

(** What a call answers: whether a session is open and whether a job may start
    are decided by the mode and the clock alone. *)
Definition spec_answer (m : Spec) (call : Io * Op) (a : Answer) : Prop :=
  let '(io, op) := call in
  match op with
  | OEnable _ | ODisable _ | ORestart => a = ANil
  | OGrant _ _ => a = if sp_enabled m then ANil else AError
  | ORevoke _ => a = AError -> sp_open (io_now io) m = false
  | OSessionActive => a = ABool (sp_open (io_now io) m)
  | OSnapshot => exists s, a = AState s /\ st_enabled s = sp_enabled m
                   /\ st_session_active s = sp_open (io_now io) m
  | OCanExecute => a = ABool (negb (sp_enabled m) || sp_open (io_now io) m)
  end.

Fixpoint spec_run (m : Spec) (calls : list (Io * Op)) : Spec :=
  match calls with [] => m | c :: cs => spec_run (spec_step m c) cs end.

Fixpoint spec_answers (m : Spec) (calls : list (Io * Op)) (l : list Answer) : Prop :=
  match calls, l with
  | [], [] => True
  | c :: cs, a :: l' => spec_answer m c a /\ spec_answers (spec_step m c) cs l'
  | _, _ => False
  end.

(** ** Lemmas *)

(** Splits a method into its branches. *)
Ltac cdm_cases :=
  unfold cdm_step, Enable, Disable, GrantSession, RevokeSession, SessionActive, Snapshot, CanExecuteJob,
    checked, New, checkExpiryLocked, load, persisted, write_ok in *;
  repeat (case_match; simplify_eq/=; try done).

Lemma cdm_run_app w cs1 cs2 :
  (cdm_run w (cs1 ++ cs2)).1 = (cdm_run (cdm_run w cs1).1 cs2).1.
Proof.
  revert w. induction cs1 as [|c cs IH]; intros w; simpl; [done|].
  destruct (cdm_step w c) as [w' a]. specialize (IH w').
  destruct (cdm_run w' (cs ++ cs2)), (cdm_run w' cs). exact IH.
Qed.

(** A property of worlds that every allowed call keeps holds after a sequence. *)
Lemma cdm_run_inv (I : World -> Prop) (ok : Io * Op -> Prop) w calls :
  (forall w c, ok c -> I w -> I (cdm_step w c).1) -> Forall ok calls -> I w -> I (cdm_run w calls).1.
Proof.
  intros Hstep Hok. revert w. induction Hok as [|c cs Hc _ IH]; intros w Hw; simpl; [done|].
  specialize (Hstep w c Hc Hw). destruct (cdm_step w c) as [w' a]. specialize (IH w' Hstep).
  by destruct (cdm_run w' cs).
Qed.

(** *** Predicates on stored states *)

(** [P] of the state in memory and of the state in the file. *)
Definition all_states (P : State -> Prop) (w : World) : Prop :=
  (forall s, w_mem w = Some s -> P s) /\ (forall s, w_file w = Valid s -> P s).

Section States.
Context (P : State -> Prop).
Hypothesis Hclear : forall s, P s -> P (clear_session s).

Lemma all_persisted io s f :
  P s -> (forall s', f = Valid s' -> P s') -> forall s', persisted io s f = Valid s' -> P s'.
Proof. intros Hs Hf s'. unfold persisted. repeat case_match; intros; simplify_eq; auto. Qed.

(** A method that keeps [s'] in memory and writes [sf]. *)
Lemma all_store io s' sf f log :
  P s' -> P sf -> (forall s, f = Valid s -> P s) ->
  all_states P {| w_mem := Some s'; w_file := persisted io sf f; w_log := log |}.
Proof. intros Hs Hsf Hf. split; [by intros ? [= <-]|]. by apply all_persisted. Qed.

Lemma all_expiry io s f log :
  P s -> (forall s', f = Valid s' -> P s') ->
  let r := checkExpiryLocked io s f log in
  all_states P {| w_mem := Some r.1.1; w_file := r.1.2; w_log := r.2 |}.
Proof.
  intros Hs Hf. unfold checkExpiryLocked. case_match; simpl; [apply all_store; auto|].
  split; [by intros ? [= <-]|done].
Qed.

Lemma all_New io f log :
  (f = NoFile -> P zero_state) -> (forall s, f = Valid s -> P s) -> all_states P (New io f log).
Proof.
  intros H0 Hf. unfold New. destruct (load io f) as [s|] eqn:El; [|by split].
  assert (P s) as Hs.
  { unfold load in El. destruct f as [|s'|]; [..|done]; [injection El as <-; auto|].
    destruct (io_read_ok io); [injection El as <-; auto|done]. }
  pose proof (all_expiry io s f log Hs Hf) as He. by destruct (checkExpiryLocked _ _ _ _) as [[s2 f2] l2].
Qed.

Lemma all_checked io ask s f log :
  P s -> (forall s', f = Valid s' -> P s') -> all_states P (checked io ask s f log).1.
Proof.
  intros Hs Hf. pose proof (all_expiry io s f log Hs Hf) as He. unfold checked.
  by destruct (checkExpiryLocked _ _ _ _) as [[s2 f2] l2].
Qed.

(** A call keeps [P] when the changes of its method do. *)
Lemma all_step w io op :
  match op with
  | OEnable _ => forall s, P s -> P (with_enabled true s)
  | ODisable _ => forall s, P s -> P (clear_session (with_enabled false s))
  | OGrant a d => forall s, P s -> st_enabled s = true -> P (open_session (io_now io) (io_now io + d) a s)
  | ORestart => w_file w = NoFile -> P zero_state
  | _ => True
  end ->
  all_states P w -> all_states P (cdm_step w (io, op)).1.
Proof.
  intros Hop [Hm Hf]. destruct (w_mem w) as [s|] eqn:Ew.
  2:{ destruct op; cbn [cdm_step]; rewrite ?Ew; try (by apply all_New); (split; [intros ?; simpl; by rewrite Ew|done]). }
  specialize (Hm s eq_refl). destruct op; cbn [cdm_step]; rewrite ?Ew;
    try (by apply all_checked); try (by apply all_New).
  - unfold Enable. destruct (write_ok io); apply all_store; auto. by destruct s.
  - unfold Disable. destruct (write_ok io); apply all_store; auto.
  - unfold GrantSession. destruct (st_enabled s) eqn:Een; [|by split; [intros ? [= <-]|]].
    destruct (write_ok io); apply all_store; auto.
  - unfold RevokeSession. destruct (st_session_active s) eqn:Ea; [|by split; [intros ? [= <-]|]].
    destruct (write_ok io); apply all_store; auto.
Qed.

End States.

Lemma all_states_mono (P Q : State -> Prop) w :
  (forall s, P s -> Q s) -> all_states P w -> all_states Q w.
Proof. intros HPQ [Hm Hf]. split; eauto. Qed.

(** *** Consent *)

(** An active session stems from a grant among the calls [gs]. *)
Definition backed (gs : list (Io * Op)) (s : State) : Prop :=
  st_session_active s = true ->
  st_enabled s = true /\ exists io d,
    (io, OGrant (st_session_granted_by s) d) ∈ gs /\ st_session_expires_at s = Some (io_now io + d)%Z.

Lemma backed_step gs w c : all_states (backed gs) w -> all_states (backed (gs ++ [c])) (cdm_step w c).1.
Proof.
  intros Hw. destruct c as [io op]. apply all_step.
  - by unfold backed.
  - destruct op; try done; unfold backed; simpl; [naive_solver|]. intros s _ He _. split; [done|].
    exists io, duration. split; [set_solver|done].
  - eapply all_states_mono; [|exact Hw]. intros s Hb Ha. destruct (Hb Ha) as (He & io' & d & Hin & Hx).
    split; [done|]. exists io', d. split; [set_solver|done].
Qed.

Lemma backed_run calls : forall gs w,
  all_states (backed gs) w -> all_states (backed (gs ++ calls)) (cdm_run w calls).1.
Proof.
  induction calls as [|c cs IH]; intros gs w Hw; simpl; [by rewrite app_nil_r|].
  specialize (IH (gs ++ [c]) _ (backed_step gs w c Hw)). rewrite <- app_assoc in IH.
  destruct (cdm_step w c) as [w' a]. simpl in IH. by destruct (cdm_run w' cs).
Qed.

(** An answer of [CanExecuteJob]. *)
Lemma can_execute_true w io :
  (cdm_step w (io, OCanExecute)).2 = ABool true ->
  exists s, w_mem w = Some s /\
    (st_enabled s = false \/ st_session_active s = true /\ expired (io_now io) s = false).
Proof.
  simpl. destruct (w_mem w) as [s|]; [|done]. unfold CanExecuteJob, checked, checkExpiryLocked.
  intros H. exists s. split; [done|]. destruct (expired _ s) eqn:Ex; simpl in H; simplify_eq;
    destruct (st_enabled s); naive_solver.
Qed.

(** *** Refinement *)

(** Memory and file agree, and stand for the mode at time [t]. *)
Definition sim (t : Z) (w : World) (m : Spec) : Prop :=
  exists s, w_mem w = Some s /\ (w_file w = Valid s \/ w_file w = NoFile /\ s = zero_state)
    /\ st_enabled s = sp_enabled m
    /\ (if st_session_active s
        then st_session_expires_at s = sp_session m /\ is_Some (sp_session m)
        else forall exp, sp_session m = Some exp -> (exp < t)%Z).

(** Nothing fails. *)
Definition io_ok (io : Io) : Prop := io_write io = WOk /\ io_read_ok io = true.

Lemma sim_later t t' w m : (t <= t')%Z -> sim t w m -> sim t' w m.
Proof.
  intros Ht (s & Hm & Hf & He & Ha). exists s. split_and!; try done. destruct (st_session_active s); [done|].
  intros exp Hx. specialize (Ha exp Hx). lia.
Qed.

(** The expiry check keeps the simulation and makes the session's flag exact. *)
Lemma sim_expiry io s f log m :
  io_write io = WOk -> sim (io_now io) {| w_mem := Some s; w_file := f; w_log := log |} m ->
  let r := checkExpiryLocked io s f log in
  sim (io_now io) {| w_mem := Some r.1.1; w_file := r.1.2; w_log := r.2 |} m
  /\ st_enabled r.1.1 = sp_enabled m /\ st_session_active r.1.1 = sp_open (io_now io) m.
Proof.
  intros Hio (s0 & [= <-] & Hf & He & Ha). simpl in Hf. unfold checkExpiryLocked, expired, sp_open, persisted.
  rewrite Hio. destruct (st_session_active s) eqn:Ea; simpl.
  - destruct Ha as [Hx [exp Hs]]. rewrite Hx, Hs. destruct (exp <? io_now io)%Z eqn:El; simpl; reflect_bools.
    + split_and!; [|done|symmetry; apply Z.leb_gt; lia].
      exists (clear_session s). split_and!; simpl; try done; [by left|]. intros e. rewrite Hs. naive_solver.
    + split_and!; [|done|rewrite Ea; symmetry; apply Z.leb_le; lia]. exists s. rewrite Ea. eauto 10.
  - split_and!; [|done|rewrite Ea]. { exists s. by rewrite Ea. }
    destruct (sp_session m) as [exp|]; [|done]. specialize (Ha exp eq_refl). symmetry. apply Z.leb_gt. lia.
Qed.

Ltac sim_with s := exists s; split_and!; simpl; auto; try done.

Lemma sim_step t w m io op :
  io_ok io -> (t <= io_now io)%Z -> sim t w m ->
  sim (io_now io) (cdm_step w (io, op)).1 (spec_step m (io, op)) /\
  spec_answer m (io, op) (cdm_step w (io, op)).2.
Proof.
  intros [Hw Hr] Ht Hs. apply (sim_later _ (io_now io)) in Hs; [|done].
  pose proof Hs as (s & Hm & Hf & He & Ha).
  assert (sim (io_now io) {| w_mem := Some s; w_file := w_file w; w_log := w_log w |} m) as Hs'
    by (exists s; done).
  destruct (sim_expiry io s (w_file w) (w_log w) m Hw Hs') as (Hse & Hee & Hao).
  destruct op; cbn [cdm_step]; rewrite ?Hm.
  - unfold Enable, write_ok, persisted. rewrite Hw. simpl. split; [|done].
    sim_with (with_enabled true s).
  - unfold Disable, write_ok, persisted. rewrite Hw. simpl. split; [|done].
    sim_with (clear_session (with_enabled false s)).
  - unfold GrantSession, write_ok, persisted. rewrite Hw. simpl. rewrite <- He.
    destruct (st_enabled s) eqn:Een; simpl; [|by split]. split; [|done].
    sim_with (open_session (io_now io) (io_now io + duration) actor s).
  - unfold RevokeSession, write_ok, persisted. rewrite Hw. simpl.
    destruct (st_session_active s) eqn:Ea; simpl; (split; [|try done]).
    + sim_with (clear_session s).
    + sim_with s. by rewrite Ea.
    + intros _. unfold sp_open. destruct (sp_session m) as [exp|]; [|done].
      specialize (Ha exp eq_refl). apply Z.leb_gt. lia.
  - unfold SessionActive, checked. destruct (checkExpiryLocked _ _ _ _) as [[s2 f2] l2].
    simpl in *. by rewrite Hao.
  - unfold Snapshot, checked. destruct (checkExpiryLocked _ _ _ _) as [[s2 f2] l2]. simpl in *. eauto 10.
  - unfold CanExecuteJob, checked. destruct (checkExpiryLocked _ _ _ _) as [[s2 f2] l2].
    simpl in *. rewrite Hee, Hao. split; [done|]. by destruct (sp_enabled m).
  - assert (load io (w_file w) = Some s) as Hl.
    { unfold load. destruct Hf as [->|[-> ->]]; [by rewrite Hr|done]. }
    unfold New. rewrite Hl. destruct (checkExpiryLocked _ _ _ _) as [[s2 f2] l2]. by simpl in *.
Qed.

Lemma sim_run calls : forall t w m,
  Forall (fun c => io_ok c.1) calls -> StronglySorted Z.le (map (fun c => io_now c.1) calls) ->
  Forall (fun c => t <= io_now c.1)%Z calls -> sim t w m ->
  spec_answers m calls (cdm_run w calls).2.
Proof.
  induction calls as [|[io op] cs IH]; intros t w m Hok Hs Ht Hsim; cbn [cdm_run]; [done|].
  inversion_clear Hok as [|? ? Hio Hok']. inversion_clear Hs as [|? ? Hs' Hle]. inversion_clear Ht as [|? ? Hti _].
  destruct (sim_step t w m io op) as [Hsim' Ha]; [done..|].
  destruct (cdm_step w (io, op)) as [w' a].
  specialize (IH (io_now io) w' (spec_step m (io, op)) Hok' Hs'). rewrite Forall_map in Hle.
  destruct (cdm_run w' cs) as [w'' l]. split; [done|]. exact (IH Hle Hsim').
Qed.

(** *** The mode cannot be left by failures *)

Definition not_disable (c : Io * Op) : Prop := match c.2 with ODisable _ => False | _ => True end.

Definition locked (w : World) : Prop := w_file w <> NoFile /\ all_states (fun s => st_enabled s = true) w.

Lemma file_present w c : w_file w <> NoFile -> w_file (cdm_step w c).1 <> NoFile.
Proof. intros Hn. destruct c as [io []]; cdm_cases. Qed.

Lemma locked_step w c : not_disable c -> locked w -> locked (cdm_step w c).1.
Proof.
  intros Hd [Hn Hl]. split; [by apply file_present|]. destruct c as [io op]. by apply all_step; destruct op.
Qed.

(** *** Revocation *)

Definition held (w : World) : Prop :=
  exists s, w_mem w = Some s /\ st_enabled s = true /\ st_session_active s = false.

Definition no_reopening (c : Io * Op) : Prop :=
  match c.2 with OGrant _ _ | ODisable _ | ORestart => False | _ => True end.

Lemma held_step w c : no_reopening c -> held w -> held (cdm_step w c).1.
Proof.
  intros Hc (s & Hm & He & Ha). destruct c as [io op]. destruct op; try done; cbn [cdm_step]; rewrite Hm;
    unfold Enable, RevokeSession, SessionActive, Snapshot, CanExecuteJob, checked, checkExpiryLocked, expired;
    rewrite ?Ha; simpl; try (by exists s).
  destruct (write_ok io); simpl; eexists; (split; [done|]); by rewrite ?He.
Qed.

Lemma held_refuses w io : held w -> (cdm_step w (io, OCanExecute)).2 = ABool false.
Proof.
  intros (s & Hm & He & Ha). cbn [cdm_step]. rewrite Hm.
  unfold CanExecuteJob, checked, checkExpiryLocked, expired. rewrite Ha. simpl. by rewrite He, Ha.
Qed.

(** ** Properties *)

(** C28: The manager implements the mode: as long as its file operations succeed and
    the clock does not go back, every answer over any sequence of calls and
    restarts from a fresh installation is the specification's, so restarts are
    invisible and a session is open exactly until it expires, is revoked or the
    mode is turned off. *)
Theorem cdm_refines calls log :
  Forall (fun c => io_ok c.1) calls -> StronglySorted Z.le (map (fun c => io_now c.1) calls) ->
  spec_answers {| sp_enabled := false; sp_session := None |} calls (cdm_run (installed log) calls).2.
Proof.
  intros Hok Hs. destruct calls as [|c cs]; [done|]. apply (sim_run _ (io_now c.1)); [done|done| |].
  - inversion_clear Hs as [|? ? _ Hle]. constructor; [done|]. by rewrite Forall_map in Hle.
  - sim_with zero_state.
Qed.

Lemma granted_in_time calls log io s :
  let w := (cdm_run (installed log) calls).1 in
  (cdm_step w (io, OCanExecute)).2 = ABool true -> w_mem w = Some s -> st_enabled s = true ->
  exists io' d, (io', OGrant (st_session_granted_by s) d) ∈ calls /\ (io_now io <= io_now io' + d)%Z.
Proof.
  intros w Hc Hm He. destruct (can_execute_true w io Hc) as (s' & Hm' & Hs). rewrite Hm in Hm'.
  injection Hm' as <-. destruct Hs as [Hs|[Ha Hx]]; [congruence|].
  destruct (backed_run calls [] (installed log)) as [Hb _].
  { split; [by intros ? [= <-]|done]. }
  destruct (Hb s Hm Ha) as (_ & io' & d & Hin & Hexp). exists io', d. split; [done|].
  unfold expired in Hx. rewrite Ha, Hexp in Hx. simpl in Hx. reflect_bools. lia.
Qed.

(** Consent is necessary, whatever file operations fail and however often the
    agent restarts: while the mode is on, a job may start only within a session
    that someone granted, and no later than that grant allows. *)
Theorem consent_required calls log io s :
  let w := (cdm_run (installed log) calls).1 in
  (cdm_step w (io, OCanExecute)).2 = ABool true -> w_mem w = Some s -> st_enabled s = true ->
  exists io' d, (io', OGrant (st_session_granted_by s) d) ∈ calls /\ (io_now io <= io_now io' + d)%Z.
Proof. apply granted_in_time. Qed.

(** The mode is left only on purpose: once [Enable] has returned nil, no
    sequence of calls other than [Disable], with any failures and restarts,
    makes the agent run jobs as if the mode were off. *)
Theorem enable_sticky w io a calls io' :
  (cdm_step w (io, OEnable a)).2 = ANil -> Forall not_disable calls ->
  let w' := (cdm_run (cdm_step w (io, OEnable a)).1 calls).1 in
  (cdm_step w' (io', OCanExecute)).2 = ABool true ->
  exists s, w_mem w' = Some s /\ st_enabled s = true /\ st_session_active s = true
    /\ expired (io_now io') s = false.
Proof.
  intros He Hd w' Hc. destruct (can_execute_true w' io' Hc) as (s & Hm & Hs). exists s.
  assert (locked w') as [_ [Hl _]].
  { apply (cdm_run_inv locked not_disable); [apply locked_step|done|]. cbn [cdm_step] in *.
    destruct (w_mem w) as [s0|]; [|done]. unfold Enable, persisted, write_ok in *.
    destruct (io_write io); [|done]. split; [done|]. split; by intros ? [= <-]. }
  specialize (Hl s Hm). simpl in Hl. naive_solver congruence.
Qed.

(** A revocation holds at once, even when it cannot be written: until the next
    grant, [Disable] or restart, no job may start. *)
Theorem revoke_holds w s io a calls io' :
  w_mem w = Some s -> st_enabled s = true -> Forall no_reopening calls ->
  (cdm_step (cdm_run (cdm_step w (io, ORevoke a)).1 calls).1 (io', OCanExecute)).2 = ABool false.
Proof.
  intros Hm He Hc.
  apply held_refuses, (cdm_run_inv held no_reopening); [apply held_step|done|]. cbn [cdm_step]. rewrite Hm.
  unfold RevokeSession. destruct (st_session_active s) eqn:Ea; simpl; [|by exists s].
  by destruct (write_ok io); exists (clear_session s).
Qed.

(** What a failed write costs: a grant that returns an error is in force all the
    same, and a revocation whose write failed is forgotten by a restart. *)
Theorem failed_writes w s io io1 io2 a d exp :
  w_mem w = Some s -> st_enabled s = true -> io_write io = WFail Kept ->
  ((cdm_step w (io, OGrant a d)).2 = AError /\
   ((io_now io1 <= io_now io + d)%Z ->
    (cdm_step (cdm_step w (io, OGrant a d)).1 (io1, OCanExecute)).2 = ABool true)) /\
  (w_file w = Valid s -> st_session_active s = true -> st_session_expires_at s = Some exp ->
   io_read_ok io1 = true -> (io_now io1 <= exp)%Z -> (io_now io2 <= exp)%Z ->
   (cdm_run w [(io, ORevoke a); (io1, ORestart); (io2, OCanExecute)]).2 = [AError; ANil; ABool true]).
Proof.
  intros Hm He Hw. split.
  - cbn [cdm_step]. rewrite Hm. unfold GrantSession, write_ok. rewrite He, Hw. simpl. split; [done|].
    intros Ht. unfold CanExecuteJob, checked, checkExpiryLocked, expired. simpl.
    replace (io_now io + d <? io_now io1)%Z with false by (symmetry; apply Z.ltb_ge; lia). simpl. by rewrite He.
  - intros Hf Ha Hx Hr H1 H2. simpl. rewrite Hm. unfold RevokeSession, write_ok, persisted. rewrite Ha, Hw. simpl.
    rewrite Hf. unfold New, load. rewrite Hr. unfold checkExpiryLocked, expired. rewrite Ha, Hx. simpl.
    replace (exp <? io_now io1)%Z with false by (symmetry; apply Z.ltb_ge; lia). simpl.
    unfold CanExecuteJob, checked, checkExpiryLocked, expired. rewrite Ha, Hx.
    replace (exp <? io_now io2)%Z with false by (symmetry; apply Z.ltb_ge; lia). simpl. by rewrite He, Ha.
Qed.
