(* ===== verification/Inventory.v ===== *)
(** * Package inventory: agent and server

    [agent/inventory/collector.go] (the delta an agent sends) and the delta's
    effect on the server, [processPackageDelta] of [server/api/checkin.go]
    (file [Checkin]).  The platform's package list is an argument.  Go iterates
    over a map in an unspecified order: [ComputeDelta] lists a delta in the
    order of the model's maps, and the theorems hold for every permutation. *)

From stdpp Require Import relations.
From S2P Require Import Prelude Text Prog Models JobState Database Scope Quota JobSteps JobsApi AgentJobs Checkin.

(** ** agent/inventory/collector.go *)

Definition pkgKey (p : PackageRef) : string := String.append (pr_manager p) (String.append ":" (pr_name p)).

(** [lastPkgs]; [None] is the nil map of a new collector. *)
Definition Collector := option (gmap string PackageRef).

Definition snapshot_of (pkgs : list PackageRef) : gmap string PackageRef :=
  foldl (fun m p => <[pkgKey p := p]> m) ∅ pkgs.

Definition added_of (last cur : gmap string PackageRef) : list PackageRef :=
  map snd (filter (fun kp : string * PackageRef => last !! kp.1 = None) (map_to_list cur)).

Definition version_changed (last : gmap string PackageRef) (kp : string * PackageRef) : bool :=
  match last !! kp.1 with
  | Some prev => negb (pr_version prev =s pr_version kp.2)
  | None => false
  end.

Definition updated_of (last cur : gmap string PackageRef) : list PackageRef :=
  map snd (filter (fun kp => version_changed last kp = true) (map_to_list cur)).

Definition removed_of (last cur : gmap string PackageRef) : list PackageRef :=
  map snd (filter (fun kp : string * PackageRef => cur !! kp.1 = None) (map_to_list last)).

(** [current] is what [CollectPackages] returns, [None] for nil; the result is
    the collector afterwards and the delta, [None] for nil. *)
Definition ComputeDelta (current : option (list PackageRef)) (c : Collector)
    : Collector * option PackageDelta :=
  match current with
  | None => (c, None)
  | Some current =>
      let currentMap := snapshot_of current in
      match c with
      | None => (Some currentMap, None)
      | Some lastPkgs =>
          let delta := {| pd_added := added_of lastPkgs currentMap;
                          pd_removed := removed_of lastPkgs currentMap;
                          pd_updated := updated_of lastPkgs currentMap |} in
          (Some currentMap,
           if negb (nonempty (pd_added delta)) && negb (nonempty (pd_removed delta))
              && negb (nonempty (pd_updated delta))
           then None else Some delta)
      end
  end.

(** ** Specification *)

(** A stored row of the device describes the package. *)
Definition has_package (db : DB) (d : string) (p : PackageRef) : Prop :=
  exists id row, inventory_packages db !! id = Some row /\ pkg_device row = d
    /\ pkg_name row = pr_name p /\ pkg_version row = pr_version p /\ pkg_manager row = pr_manager p.

(** The server's rows of the device are exactly the snapshot's packages. *)
Definition synced (db : DB) (d : string) (m : gmap string PackageRef) : Prop :=
  forall p, has_package db d p <-> m !! pkgKey p = Some p.

(** The managers the collectors report ("apt", "dnf", "msi") have no colon,
    which makes the key of a package unambiguous. *)
Fixpoint no_colon (s : string) : bool :=
  match s with
  | EmptyString => true
  | String c s' => negb (Ascii.eqb c (Ascii.ascii_of_nat 58)) && no_colon s'
  end.

Definition snapshot_ok (m : gmap string PackageRef) : Prop :=
  forall k p, m !! k = Some p -> k = pkgKey p /\ no_colon (pr_manager p) = true.

(** Two packages with one name and manager. *)
Definition same_key (p q : PackageRef) : Prop := pr_name p = pr_name q /\ pr_manager p = pr_manager q.

(** ** Lemmas *)

Lemma pkgKey_inj p q :
  no_colon (pr_manager p) = true -> no_colon (pr_manager q) = true -> pkgKey p = pkgKey q -> same_key p q.
Proof.
  unfold pkgKey, same_key. generalize (pr_manager p) (pr_manager q) (pr_name p) (pr_name q). clear p q.
  induction s as [|c a IH]; intros [|c' a'] n n'; simpl; intros Ha Ha' H; simplify_eq/=; try done.
  - rewrite andb_true_iff in Ha, Ha'. destruct Ha as [_ Ha], Ha' as [_ Ha'].
    destruct (IH a' n n' Ha Ha') as [-> ->]; [by simplify_eq|done].
Qed.

Lemma key_of_same p q : same_key p q -> pkgKey p = pkgKey q.
Proof. unfold pkgKey. by intros [-> ->]. Qed.

Lemma ref_eq p q : same_key p q -> pr_version p = pr_version q -> p = q.
Proof. destruct p, q. unfold same_key. simpl. by intros [-> ->] ->. Qed.

Lemma lookup_snapshot pkgs k p : snapshot_of pkgs !! k = Some p -> k = pkgKey p /\ p ∈ pkgs.
Proof.
  unfold snapshot_of. revert k p. induction pkgs as [|x l IH] using rev_ind; [done|]. intros k p.
  rewrite foldl_app. simpl. intros [[<- <-]|[Hk Hp]]%lookup_insert_Some; [set_solver|].
  destruct (IH _ _ Hp). set_solver.
Qed.

Lemma snapshot_of_ok pkgs :
  Forall (fun p => no_colon (pr_manager p) = true) pkgs -> snapshot_ok (snapshot_of pkgs).
Proof.
  intros Hall k p Hk. apply lookup_snapshot in Hk as [-> Hin]. split; [done|].
  by eapply Forall_forall in Hall.
Qed.

Lemma elem_of_values (f : string * PackageRef -> Prop) `{!forall x, Decision (f x)} (m : gmap string PackageRef) p :
  p ∈ map snd (filter f (map_to_list m)) <-> exists k, m !! k = Some p /\ f (k, p).
Proof.
  rewrite list_elem_of_fmap. split.
  - intros ([k q] & -> & Hin). apply list_elem_of_filter in Hin as [Hf Hin%elem_of_map_to_list]. eauto.
  - intros (k & Hk & Hf). exists (k, p). split; [done|]. apply list_elem_of_filter.
    split; [done|]. by apply elem_of_map_to_list.
Qed.

(** *** What a delta says *)

Section Delta.
Context (last cur : gmap string PackageRef).
Hypothesis Hlast : snapshot_ok last.
Hypothesis Hcur : snapshot_ok cur.

Lemma elem_of_added p : p ∈ added_of last cur <-> cur !! pkgKey p = Some p /\ last !! pkgKey p = None.
Proof.
  unfold added_of. rewrite elem_of_values. split; [|by eauto].
  intros (k & Hk & Hl). by destruct (Hcur k p Hk) as [-> _].
Qed.

Lemma elem_of_removed p : p ∈ removed_of last cur <-> last !! pkgKey p = Some p /\ cur !! pkgKey p = None.
Proof.
  unfold removed_of. rewrite elem_of_values. split; [|by eauto].
  intros (k & Hk & Hl). by destruct (Hlast k p Hk) as [-> _].
Qed.

Lemma elem_of_updated p : p ∈ updated_of last cur <->
  cur !! pkgKey p = Some p /\ exists q, last !! pkgKey p = Some q /\ pr_version q <> pr_version p.
Proof.
  unfold updated_of. rewrite elem_of_values. unfold version_changed. split.
  - intros (k & Hk & Hl). destruct (Hcur k p Hk) as [-> _]. split; [done|]. simpl in Hl.
    destruct (last !! pkgKey p) as [q|]; [|done]. exists q. reflect_bools. done.
  - intros (Hk & q & Hq & Hv). exists (pkgKey p). split; [done|]. simpl. rewrite Hq.
    apply negb_true_iff. by apply seqb_neq.
Qed.

(** Two packages of one snapshot with the same name and manager are one. *)
Lemma snapshot_key m p q : snapshot_ok m ->
  m !! pkgKey p = Some p -> m !! pkgKey q = Some q -> same_key p q -> p = q.
Proof. intros _ Hp Hq Hs. rewrite (key_of_same p q Hs) in Hp. congruence. Qed.

Lemma key_same m p q : snapshot_ok m -> no_colon (pr_manager p) = true ->
  m !! pkgKey p = Some q -> same_key p q.
Proof. intros Hm Hp Hq. destruct (Hm _ _ Hq) as [Hk Hc]. by apply pkgKey_inj. Qed.

End Delta.

(** *** The statements *)

(** No access fails, and the identifiers drawn from [n] on are new to the
    package table and different from each other. *)
Definition fresh_env (env : nat -> Env) (n : nat) (db : DB) : Prop :=
  (forall k, ok_env (env k)) /\
  (forall k k', n <= k -> n <= k' -> e_id (env k) = e_id (env k') -> k = k') /\
  (forall k, n <= k -> inventory_packages db !! String.append "ipk" (String.append "_" (e_id (env k))) = None).

Lemma fresh_env_later env n n' db : n <= n' -> fresh_env env n db -> fresh_env env n' db.
Proof. intros Hn (H1 & H2 & H3). split_and!; [done|..]; intros; [apply H2|apply H3]; done || lia. Qed.

Lemma fresh_env_same env n db db' :
  inventory_packages db' ⊆ inventory_packages db -> fresh_env env n db -> fresh_env env n db'.
Proof.
  intros Hs (H1 & H2 & H3). split_and!; [done..|]. intros k Hk.
  eapply lookup_weaken_None; [by apply H3|done].
Qed.

Lemma ids_distinct a b : String.append "ipk" (String.append "_" a) = String.append "ipk" (String.append "_" b) -> a = b.
Proof. by intros [=]. Qed.

(** The package a row stands for. *)
Definition row_ref (r : Package) : PackageRef :=
  {| pr_name := pkg_name r; pr_version := pkg_version r; pr_manager := pkg_manager r |}.

Lemma has_package_row db d p : has_package db d p <->
  exists id row, inventory_packages db !! id = Some row /\ pkg_device row = d /\ row_ref row = p.
Proof.
  unfold has_package, row_ref. split; intros (id & row & Hid & Hd & H); exists id, row.
  - destruct H as (-> & -> & ->). by destruct p.
  - by subst p.
Qed.

Lemma same_package_spec d u row :
  same_package d (pr_name u) (pr_manager u) row = true <-> pkg_device row = d /\ same_key (row_ref row) u.
Proof.
  unfold same_package, same_key, row_ref. simpl. rewrite !andb_true_iff, !seqb_eq. naive_solver.
Qed.

#[export] Instance same_key_dec p q : Decision (same_key p q).
Proof. unfold same_key. apply _. Defined.

Lemma has_update db d u now p :
  has_package (sql_update_package d u now db) d p <->
  (has_package db d p /\ ~ same_key p u) \/ (p = u /\ exists q, has_package db d q /\ same_key q u).
Proof.
  setoid_rewrite has_package_row. unfold sql_update_package. simpl. setoid_rewrite lookup_update_where. split.
  - intros (id & row & Hid & Hd & Hp). destruct (inventory_packages db !! id) as [r|] eqn:Er; [|done].
    simpl in Hid. injection Hid as <-. destruct (same_package _ _ _ r) eqn:Es.
    + apply same_package_spec in Es as [Hr Hs]. right. split; [|by exists (row_ref r); eauto 6].
      subst p. apply ref_eq; done.
    + left. split; [by eauto 6|]. intros Hs. subst p.
      assert (same_package d (pr_name u) (pr_manager u) r = true) by (by apply same_package_spec). congruence.
  - intros [[(id & row & Hid & Hd & Hp) Hn]|[-> (q & (id & row & Hid & Hd & Hq) & Hs)]].
    + exists id, row. rewrite Hid. simpl. destruct (same_package _ _ _ row) eqn:Es; [|done].
      apply same_package_spec in Es as [_ Hs]. subst p. done.
    + exists id, (set_version (pr_version u) now row). rewrite Hid. simpl.
      assert (same_package d (pr_name u) (pr_manager u) row = true) as -> by (apply same_package_spec; by subst q).
      split_and!; [done|done|]. subst q. apply ref_eq; [done|]. done.
Qed.

Lemma has_delete db d u p :
  has_package (sql_delete_package d u db) d p <-> has_package db d p /\ ~ same_key p u.
Proof.
  setoid_rewrite has_package_row. unfold sql_delete_package. simpl. setoid_rewrite lookup_delete_where. split.
  - intros (id & row & [Hid Hf] & Hd & Hp). split; [by eauto 6|]. intros Hs. subst p.
    assert (same_package d (pr_name u) (pr_manager u) row = true) by (by apply same_package_spec). congruence.
  - intros [(id & row & Hid & Hd & Hp) Hn]. exists id, row. split_and!; try done.
    destruct (same_package _ _ _ row) eqn:Es; [|done].
    apply same_package_spec in Es as [_ Hs]. by subst p.
Qed.

Lemma has_insert db d id row p :
  inventory_packages db !! id = None -> pkg_device row = d ->
  has_package (set_inventory_packages (<[id := row]> (inventory_packages db)) db) d p <->
  has_package db d p \/ p = row_ref row.
Proof.
  intros Hn Hd. setoid_rewrite has_package_row. simpl. split.
  - intros (i & r & [[<- <-]|[Hi Hr]]%lookup_insert_Some & Hdr & Hp); [by right|left; eauto 6].
  - intros [(i & r & Hi & Hr)| ->].
    + exists i, r. split; [|done]. rewrite lookup_insert_ne; [done|congruence].
    + exists id, row. by rewrite lookup_insert_eq.
Qed.

(** *** The loops of [processPackageDelta] *)

(** A loop of statements that cannot fail. *)
Lemma run_stmt_loop {X : Type} (f : X -> DB -> DB) (env : nat -> Env) xs : (forall k, ok_env (env k)) -> forall n s,
  run (for_each xs tt (fun _ x =>
         r ← exec (stmt (f x)); match r with None => stop None | Some _ => mret tt end)
       : prog DB (option unit) unit) env n s
  = (foldl (fun s x => f x s) s xs, n + length xs, inr tt).
Proof.
  intros Hok. induction xs as [|x xs IH]; intros n s; simpl; [by rewrite Nat.add_0_r|].
  destruct (Hok n) as [-> _]. simpl. rewrite IH. by rewrite Nat.add_succ_r.
Qed.

Lemma has_after_updates d us now : NoDup (map pkgKey us) -> forall db p,
  has_package (foldl (fun s u => sql_update_package d u now s) db us) d p <->
  (has_package db d p /\ forall u, u ∈ us -> ~ same_key p u) \/
  (p ∈ us /\ exists q, has_package db d q /\ same_key q p).
Proof.
  induction us as [|u us IH]; intros Hnd db p; simpl; [set_solver|]. apply NoDup_cons in Hnd as [Hu Hnd].
  rewrite IH by done. assert (forall v, v ∈ us -> ~ same_key v u) as Hne.
  { intros v Hv Hs. apply Hu. rewrite <- (key_of_same v u Hs). by apply list_elem_of_fmap_2. }
  setoid_rewrite has_update. split.
  - intros [[[[Hp Hn]|[-> Hq]] Hf]|[Hp (q & [[Hq Hqu]|[-> Hq]] & Hs)]]; [left|right|right|].
    + split; [done|]. intros v [->|Hv]%elem_of_cons; auto.
    + split; [set_solver|done].
    + split; [set_solver|eauto].
    + exfalso. apply (Hne p Hp). by destruct Hs.
  - intros [[Hp Hf]|[[->|Hp]%elem_of_cons (q & Hq & Hs)]].
    + left. split; [left; split; [done|]|]; intros; apply Hf; set_solver.
    + left. split; [right; eauto|]. intros v Hv Hs'. apply (Hne v Hv). by destruct Hs'.
    + right. split; [done|]. exists q. split; [left|done]. split; [done|].
      intros Hqu. apply (Hne p Hp). destruct Hs, Hqu. split; congruence.
Qed.

Lemma has_deletes d rs : forall db p,
  has_package (foldl (fun s r => sql_delete_package d r s) db rs) d p <->
  has_package db d p /\ forall r, r ∈ rs -> ~ same_key p r.
Proof.
  induction rs as [|r rs IH]; intros db p; simpl; [set_solver|]. rewrite IH, has_delete.
  setoid_rewrite elem_of_cons. naive_solver.
Qed.

(** The loop that inserts rows under fresh identifiers. *)
Lemma run_added d env now ps : forall n s,
  fresh_env env n s -> is_Some (devices s !! d) ->
  exists s', run (for_each ps tt (fun _ p =>
         pkgID ← new_id "ipk";
         r ← exec (stmt_opt (insert_package_nothing pkgID (package_row d p now)));
         match r with None => stop None | Some _ => mret tt end) : prog DB (option unit) unit) env n s
    = (s', n + 2 * length ps, inr tt)
  /\ forall p, has_package s' d p <-> has_package s d p \/ p ∈ ps.
Proof.
  induction ps as [|p ps IH]; intros n s Hf Hd; simpl.
  { exists s. split; [by rewrite Nat.add_0_r|]. set_solver. }
  pose proof Hf as (Hok & Hinj & Hnew). destruct (Hok (S n)) as [-> _].
  unfold stmt_opt, insert_package_nothing. simpl.
  replace (fk (devices s) d) with true by (symmetry; by apply fk_spec).
  rewrite (Hnew n) by lia. simpl. set (id := String _ _). set (row := package_row d p now).
  set (s1 := set_inventory_packages _ s).
  destruct (IH (S (S n)) s1) as (s' & Hrun & Hhas); [|done|].
  { split_and!; [done|intros; apply Hinj; done || lia|]. intros k Hk. simpl. apply lookup_insert_None.
    split; [apply Hnew; lia|]. intros Hid%ids_distinct. apply Hinj in Hid; lia. }
  exists s'. split; [etrans; [exact Hrun|]; do 2 f_equal; lia|]. intros q. rewrite Hhas. unfold s1.
  rewrite has_insert; [|apply (Hnew n); lia|done].
  replace (row_ref row) with p by (by destruct p). set_solver.
Qed.

(** The whole routine: it succeeds, and what the device has afterwards. *)
Lemma run_delta {R : Type} d delta env n s :
  fresh_env env n s -> is_Some (devices s !! d) -> NoDup (map pkgKey (pd_updated delta)) ->
  exists s' n', run (processPackageDelta d delta : prog DB R _) env n s = (s', n', inr (Some tt)) /\
  forall p, has_package s' d p <->
    (forall r, r ∈ pd_removed delta -> ~ same_key p r) /\
    (((has_package s d p \/ p ∈ pd_added delta) /\ forall u, u ∈ pd_updated delta -> ~ same_key p u) \/
     (p ∈ pd_updated delta /\ exists q, (has_package s d q \/ q ∈ pd_added delta) /\ same_key q p)).
Proof.
  intros Hf Hd Hnd. pose proof Hf as (Hok & _). unfold processPackageDelta. rewrite run_call, run_bind.
  cbn [run time_now fst snd]. rewrite run_bind.
  destruct (run_added d env (e_now (env n)) (pd_added delta) (S n) s) as (s1 & -> & Hs1);
    [eapply fresh_env_later; [|done]; lia|done|].
  rewrite run_bind, (run_stmt_loop (fun p => sql_update_package d p (e_now (env n)))) by done.
  rewrite run_bind, (run_stmt_loop (fun p => sql_delete_package d p)) by done.
  cbn [run mret prog_ret].
  eexists _, _. split; [done|]. intros p. rewrite has_deletes, has_after_updates by done.
  setoid_rewrite Hs1. naive_solver.
Qed.

Lemma updated_keys last cur : snapshot_ok cur -> NoDup (map pkgKey (updated_of last cur)).
Proof.
  intros Hcur. unfold updated_of. rewrite map_map. apply NoDup_fmap_2_strong.
  - intros [k p] [k' p'] Hin Hin' Hk. apply list_elem_of_filter in Hin as [_ Hin%elem_of_map_to_list].
    apply list_elem_of_filter in Hin' as [_ Hin'%elem_of_map_to_list].
    destruct (Hcur k p Hin) as [-> _], (Hcur k' p' Hin') as [-> _]. simpl in Hk. rewrite Hk in Hin. congruence.
  - apply NoDup_filter, NoDup_map_to_list.
Qed.

(** Applied to what the last snapshot says, a delta gives the current one. *)
Lemma delta_effect last cur (H : PackageRef -> Prop) p :
  snapshot_ok last -> snapshot_ok cur -> (forall p, H p <-> last !! pkgKey p = Some p) ->
  ((forall r, r ∈ removed_of last cur -> ~ same_key p r) /\
   (((H p \/ p ∈ added_of last cur) /\ forall u, u ∈ updated_of last cur -> ~ same_key p u) \/
    (p ∈ updated_of last cur /\ exists q, (H q \/ q ∈ added_of last cur) /\ same_key q p)))
  <-> cur !! pkgKey p = Some p.
Proof.
  intros Hl Hc HH. setoid_rewrite HH. setoid_rewrite (elem_of_removed last cur Hl).
  setoid_rewrite (elem_of_added last cur Hc). setoid_rewrite (elem_of_updated last cur Hc). split.
  - intros [Hr [[[Hp|[Hp _]] Hu]|[[Hp _] _]]]; [|done|done].
    destruct (Hl _ _ Hp) as [_ Hcol]. destruct (cur !! pkgKey p) as [q|] eqn:Eq; [|by destruct (Hr p (conj Hp Eq))].
    pose proof (key_same cur p q Hc Hcol Eq) as Hs. pose proof (key_of_same p q Hs) as Hk.
    destruct (decide (pr_version p = pr_version q)) as [Hv|Hv]; [by rewrite (ref_eq p q Hs Hv)|].
    destruct (Hu q); [|done]. rewrite <- Hk. eauto.
  - intros Hp. destruct (Hc _ _ Hp) as [_ Hcol]. split.
    { intros r [_ Hr] Hs. rewrite (key_of_same p r Hs) in Hp. congruence. }
    destruct (last !! pkgKey p) as [q|] eqn:Eq.
    + pose proof (key_same last p q Hl Hcol Eq) as Hs. pose proof (key_of_same p q Hs) as Hk.
      destruct (decide (pr_version q = pr_version p)) as [Hv|Hv].
      * assert (q = p) as -> by (symmetry; by apply ref_eq). left. split; [by left|].
        intros u (Hu & q' & Hq' & Hne) Hsu. rewrite <- (key_of_same p u Hsu) in Hu, Hq'. congruence.
      * right. split; [by eauto|]. exists q. split; [left; congruence|]. by destruct Hs.
    + left. split; [by right|]. intros u (Hu & q' & Hq' & _) Hsu.
      rewrite <- (key_of_same p u Hsu) in Hq'. congruence.
Qed.

(** No delta: nothing changed. *)
Lemma no_delta last cur :
  snapshot_ok last -> snapshot_ok cur ->
  added_of last cur = [] -> removed_of last cur = [] -> updated_of last cur = [] ->
  forall p, last !! pkgKey p = Some p <-> cur !! pkgKey p = Some p.
Proof.
  intros Hl Hc Ha Hr Hu p. rewrite <- (delta_effect last cur (fun p => last !! pkgKey p = Some p) p) by done.
  rewrite Ha, Hr, Hu. set_solver.
Qed.

Definition same_delta (a b : PackageDelta) : Prop :=
  pd_added a ≡ₚ pd_added b /\ pd_updated a ≡ₚ pd_updated b /\ pd_removed a ≡ₚ pd_removed b.

(** A delta of [ComputeDelta], in any order, brings the server to the snapshot. *)
Lemma run_delta_synced {R : Type} last cur d delta env n s :
  snapshot_ok last -> snapshot_ok cur -> fresh_env env n s -> is_Some (devices s !! d) -> synced s d last ->
  same_delta delta {| pd_added := added_of last cur; pd_removed := removed_of last cur;
                      pd_updated := updated_of last cur |} ->
  exists s' n', run (processPackageDelta d delta : prog DB R _) env n s = (s', n', inr (Some tt)) /\ synced s' d cur.
Proof.
  intros Hl Hc Hf Hd Hs (Ha & Hu & Hr). simpl in *.
  destruct (run_delta (R := R) d delta env n s Hf Hd) as (s' & n' & Hrun & Hhas).
  { rewrite Hu. by apply updated_keys. }
  exists s', n'. split; [done|]. intros p. rewrite Hhas, <- (delta_effect last cur (has_package s d)) by done.
  setoid_rewrite Ha. setoid_rewrite Hu. setoid_rewrite Hr. done.
Qed.

(** After a delta was computed there is none for the same packages. *)
Lemma delta_unchanged pkgs c :
  Forall (fun p => no_colon (pr_manager p) = true) pkgs ->
  ComputeDelta (Some pkgs) (ComputeDelta (Some pkgs) c).1 = (Some (snapshot_of pkgs), None).
Proof.
  intros Hp. pose proof (snapshot_of_ok pkgs Hp) as Hc.
  replace (ComputeDelta (Some pkgs) c).1 with (Some (snapshot_of pkgs)) by (by destruct c). simpl.
  assert (forall p, ~ p ∈ added_of (snapshot_of pkgs) (snapshot_of pkgs)) as Ha.
  { intros p. rewrite elem_of_added by done. intros [H1 H2]. congruence. }
  assert (forall p, ~ p ∈ removed_of (snapshot_of pkgs) (snapshot_of pkgs)) as Hr.
  { intros p. rewrite elem_of_removed by done. intros [H1 H2]. congruence. }
  assert (forall p, ~ p ∈ updated_of (snapshot_of pkgs) (snapshot_of pkgs)) as Hu.
  { intros p. rewrite elem_of_updated by done. intros (H1 & q & H2 & H3). congruence. }
  destruct (added_of _ _), (removed_of _ _), (updated_of _ _); try done; exfalso; set_solver.
Qed.

(** ** Properties *)

(** Deltas keep the server in step: when the server's rows of a device are the
    agent's last snapshot, and the delta that [ComputeDelta] builds from the
    current packages (in whatever order) is processed without a failing access,
    the rows are the current packages afterwards; without a delta they already
    are. *)
Theorem delta_syncs last pkgs d env db :
  Forall (fun p => no_colon (pr_manager p) = true) pkgs -> snapshot_ok last -> synced db d last ->
  fresh_env env 0 db -> is_Some (devices db !! d) ->
  (ComputeDelta (Some pkgs) (Some last)).1 = Some (snapshot_of pkgs) /\
  match (ComputeDelta (Some pkgs) (Some last)).2 with
  | None => synced db d (snapshot_of pkgs)
  | Some delta => forall delta', same_delta delta' delta ->
      let p := processPackageDelta d delta' : prog DB Empty_set (option unit) in
      run_result p env db = inr (Some tt) /\ synced (run_store p env db) d (snapshot_of pkgs)
  end.
Proof.
  intros Hp Hl Hs Hf Hd. pose proof (snapshot_of_ok pkgs Hp) as Hc. split; [done|]. simpl.
  destruct (_ && _) eqn:En.
  - reflect_bools. intros p. rewrite (Hs p). apply no_delta; by try apply nonempty_false.
  - intros delta' Hd'. unfold run_result, run_store.
    destruct (run_delta_synced (R := Empty_set) last (snapshot_of pkgs) d delta' env 0 db) as (s' & n' & -> & Hs');
      done.
Qed.
