(* ===== verification/Host.v ===== *)
(** * The machine and its inventory

    [agent/inventory/packages_linux.go] and [agent/inventory/hardware_linux.go],
    with their counterparts for Windows, which are stubs: the packages and the hardware that the agent reads off the machine it runs
    on, and [CollectFull] of [agent/inventory/collector.go].  The machine is what
    its queries print and its files hold. *)

From stdpp Require Import relations.
From S2P Require Import Prelude Text Prog Models JobState Checkin Inventory.

(** ** The machine *)

(** A directory of /sys/block. *)
Record Block := { bk_name : string; bk_size : option string; bk_rotational : option string }.

Record Iface := { if_name : string; if_mac : string; if_loopback : bool; if_up : bool; if_addrs : option (list string) }.

(** [None] is a command that fails or a file that cannot be read. *)
Record Host := {
  ho_dpkg : option string;             (* what dpkg-query prints *)
  ho_rpm : option string;              (* what rpm prints *)
  ho_cpuinfo : option string;          (* /proc/cpuinfo *)
  ho_meminfo : option string;          (* /proc/meminfo *)
  ho_blocks : option (list Block);     (* /sys/block *)
  ho_ifaces : option (list Iface);     (* net.Interfaces *)
}.

(** ** agent/inventory/packages_linux.go *)

Definition parse_line (manager line : string) : option PackageRef :=
  match cut_at tab line with
  | Some (name, version) => if name =s "" then None else Some {| pr_name := name; pr_version := version; pr_manager := manager |}
  | None => None
  end.

Definition parseTSV (output manager : string) : list PackageRef :=
  omap (parse_line manager) (scan_lines MaxScanTokenSize output).1.

Definition collectDpkg (h : Host) : option (list PackageRef) := (fun out => parseTSV out "apt") <$> ho_dpkg h.
Definition collectRPM (h : Host) : option (list PackageRef) := (fun out => parseTSV out "rpm") <$> ho_rpm h.

Definition collectPackages (h : Host) : list PackageRef := default [] (collectDpkg h) ++ default [] (collectRPM h).

(** packages_windows.go: not written yet. *)
Definition collectPackages_windows (_ : Host) : list PackageRef := [].

(** [CollectPackages] of the collector, with the functions compiled in for the
    system: a nil slice when there is nothing. *)
Definition CollectPackages (windows : bool) (h : Host) : option (list PackageRef) :=
  match (if windows then collectPackages_windows h else collectPackages h) with [] => None | ps => Some ps end.

(** ** agent/inventory/hardware_linux.go *)

Record CPUInfo := { cpu_model : string; cpu_cores : Z; cpu_threads : Z }.
Record DiskInfo := { dk_device : string; dk_size_bytes : Z; dk_type : string }.
Record NetworkIfInfo := { ni_name : string; ni_mac : string; ni_ips : list string }.
Record HardwareInventory := {
  hi_cpu : option CPUInfo;
  hi_ram_mb : Z;
  hi_disks : list DiskInfo;
  hi_nics : list NetworkIfInfo;
}.

(** Model, the set of core ids, and the threads, after one line. *)
Definition cpu_line (acc : string * list string * Z) (line : string) : string * list string * Z :=
  let '(model, coreSet, threads) := acc in
  match cut_at (Ascii.ascii_of_nat 58) line with
  | None => acc
  | Some (k, v) =>
      let key := TrimSpace k in
      let val := TrimSpace v in
      if key =s "model name" then (if model =s "" then val else model, coreSet, threads)
      else if key =s "core id" then (model, add_seen coreSet val, threads)
      else if key =s "processor" then (model, coreSet, threads + 1)%Z
      else acc
  end.

Definition readCPUInfo (content : option string) : option CPUInfo :=
  match content with
  | None => None
  | Some text =>
      let '(lines, ok) := scan_lines MaxScanTokenSize text in
      let '(model, coreSet, threads) := foldl cpu_line ("", [], 0%Z) lines in
      let cores := Z.of_nat (length coreSet) in
      if ok : bool then Some {| cpu_model := model; cpu_cores := if (cores =? 0)%Z then threads else cores; cpu_threads := threads |}
      else None
  end.

(** The value of the first MemTotal line with one, in MB; [None] is an error. *)
Fixpoint mem_total (lines : list string) : option Z :=
  match lines with
  | [] => None
  | line :: rest =>
      if HasPrefix line "MemTotal:" then
        match Fields line with
        | _ :: kb :: _ => n ← Atoi kb; Some (Z.quot n 1024)
        | _ => mem_total rest
        end
      else mem_total rest
  end.

Definition readMemInfo (content : option string) : option Z :=
  text ← content; mem_total (scan_lines MaxScanTokenSize text).1.

Definition disk_of (b : Block) : option DiskInfo :=
  if HasPrefix (bk_name b) "loop" || HasPrefix (bk_name b) "ram" || HasPrefix (bk_name b) "dm-" then None
  else
    data ← bk_size b;
    sectors ← Atoi (TrimSpace data);
    if (sectors =? 0)%Z then None
    else Some {| dk_device := String.append "/dev/" (bk_name b); dk_size_bytes := wrap64 (sectors * 512);
                 dk_type := match bk_rotational b with
                            | Some r => if TrimSpace r =s "0" then "ssd" else "hdd"
                            | None => ""
                            end |}.

Definition readDisks (blocks : option (list Block)) : option (list DiskInfo) := (fun bs : list Block => omap disk_of bs) <$> blocks.

Definition nic_of (i : Iface) : option NetworkIfInfo :=
  if if_loopback i || negb (if_up i) then None
  else Some {| ni_name := if_name i; ni_mac := if_mac i; ni_ips := default [] (if_addrs i) |}.

Definition readNetworkInterfaces (ifs : option (list Iface)) : option (list NetworkIfInfo) := (fun l : list Iface => omap nic_of l) <$> ifs.

Definition collectHardware (h : Host) : HardwareInventory :=
  {| hi_cpu := readCPUInfo (ho_cpuinfo h); hi_ram_mb := default 0%Z (readMemInfo (ho_meminfo h));
     hi_disks := default [] (readDisks (ho_blocks h)); hi_nics := default [] (readNetworkInterfaces (ho_ifaces h)) |}.

(** hardware_windows.go: not written yet. *)
Definition collectHardware_windows (_ : Host) : HardwareInventory :=
  {| hi_cpu := None; hi_ram_mb := 0; hi_disks := []; hi_nics := [] |}.

(** ** agent/inventory/collector.go *)

(** [marshal] is [json.Marshal] of the struct. *)
Definition CollectFull (marshal : HardwareInventory -> list PackageRef -> string) (windows : bool) (h : Host) : string :=
  marshal (if windows then collectHardware_windows h else collectHardware h) (default [] (CollectPackages windows h)).

(** ** Lemmas *)

Lemma manager_names h : Forall (fun p => no_colon (pr_manager p) = true) (collectPackages h).
Proof.
  assert (forall out m, no_colon m = true -> Forall (fun p => no_colon (pr_manager p) = true) (parseTSV out m)) as Hp.
  { intros out m Hm. apply Forall_forall. intros p (l & _ & Hl)%list_elem_of_omap. unfold parse_line in Hl.
    destruct (cut_at tab l) as [[a b]|]; [|done]. destruct (a =s ""); by simplify_eq. }
  unfold collectPackages, collectDpkg, collectRPM. apply Forall_app.
  split; [destruct (ho_dpkg h)|destruct (ho_rpm h)]; simpl; auto.
Qed.

(** ** Properties *)

(** One line of [dpkg-query] or [rpm] output. *)
Definition print_package (p : PackageRef) : string := String.append (pr_name p) (String tab (pr_version p)).

Definition printable (manager : string) (p : PackageRef) : Prop :=
  pr_manager p = manager /\ pr_name p <> "" /\ without tab (pr_name p) = true /\
  without newline (print_package p) = true /\ drop_cr (print_package p) = print_package p /\
  (Z.of_nat (String.length (print_package p)) < MaxScanTokenSize)%Z.

(** The package list is read as it was printed. *)
Theorem tsv_roundtrip manager pkgs :
  Forall (printable manager) pkgs ->
  parseTSV (String.concat "" ((fun p => String.append (print_package p) (char newline)) <$> pkgs)) manager = pkgs.
Proof.
  intros Hall. unfold parseTSV.
  replace ((fun p => String.append (print_package p) (char newline)) <$> pkgs)
    with ((fun l => String.append l (char newline)) <$> (print_package <$> pkgs)) by by rewrite <-list_fmap_compose.
  rewrite scan_lines_written.
  - cbn [fst]. induction Hall as [|p pkgs (Hm & Hn & Ht & _) _ IH]; [done|]. cbn [fmap list_fmap omap list_omap].
    unfold parse_line at 1, print_package at 1. rewrite cut_at_append by done. apply seqb_neq in Hn. rewrite Hn.
    rewrite IH. f_equal. destruct p. simpl in *. by subst.
  - apply Forall_fmap. eapply Forall_impl; [exact Hall|]. intros p (_ & _ & _ & H1 & H2 & H3). done.
Qed.
