(* ===== verification/Poller.v ===== *)
(** * The agent's poller

    [agent/poller/poller.go]: the check-in request an agent builds, what it does
    with the answer, and the exchange with the server's check-in handler (file
    [Checkin]) over a network that may lose the request or the answer. *)

From stdpp Require Import relations.
From S2P Require Import Prelude Prog Models JobState Database Scope Quota JobSteps JobsApi AgentJobs Checkin Inventory.

(** ** State *)

Record Poller := {
  pl_agent_id : string;
  pl_version : string;                    (* version.Version *)
  pl_poll_interval : Z;                   (* seconds *)
  pl_sequence : Z;
  pl_start_time : Z;
  pl_cdm_enabled : bool;
  pl_cdm_session_active : bool;
  pl_cdm_session_expires_at : option Z;
}.

Definition New (agentID version : string) (pollInterval now : Z) : Poller :=
  {| pl_agent_id := agentID; pl_version := version; pl_poll_interval := pollInterval; pl_sequence := 0;
     pl_start_time := now; pl_cdm_enabled := false; pl_cdm_session_active := false;
     pl_cdm_session_expires_at := None |}.

Definition SetCDMState (enabled sessionActive : bool) (expires : option Z) (p : Poller) : Poller :=
  {| pl_agent_id := pl_agent_id p; pl_version := pl_version p; pl_poll_interval := pl_poll_interval p;
     pl_sequence := pl_sequence p; pl_start_time := pl_start_time p; pl_cdm_enabled := enabled;
     pl_cdm_session_active := sessionActive; pl_cdm_session_expires_at := expires |}.

Definition set_sequence (x : Z) (p : Poller) : Poller :=
  {| pl_agent_id := pl_agent_id p; pl_version := pl_version p; pl_poll_interval := pl_poll_interval p;
     pl_sequence := x; pl_start_time := pl_start_time p; pl_cdm_enabled := pl_cdm_enabled p;
     pl_cdm_session_active := pl_cdm_session_active p;
     pl_cdm_session_expires_at := pl_cdm_session_expires_at p |}.

Definition set_poll_interval (x : Z) (p : Poller) : Poller :=
  {| pl_agent_id := pl_agent_id p; pl_version := pl_version p; pl_poll_interval := x;
     pl_sequence := pl_sequence p; pl_start_time := pl_start_time p; pl_cdm_enabled := pl_cdm_enabled p;
     pl_cdm_session_active := pl_cdm_session_active p;
     pl_cdm_session_expires_at := pl_cdm_session_expires_at p |}.

(** ** One check-in *)

(** [CheckinResponse]; [rs_config] is [config.poll_interval_seconds]. *)
Record CheckinResponse := { rs_timestamp : Z; rs_jobs : list JobDispatch; rs_config : option Z }.

(** The status the request reports at time [now]. *)
Definition report (now : Z) (p : Poller) : AgentStatus :=
  {| as_uptime_seconds := Z.quot (now - pl_start_time p) second;
     as_cdm_enabled := pl_cdm_enabled p; as_cdm_session_active := pl_cdm_session_active p;
     as_cdm_session_expires_at := pl_cdm_session_expires_at p; as_agent_version := pl_version p;
     as_last_update_failed := false; as_last_update_job_id := ""; as_last_update_error := "" |}.

(** The first half of [checkin]: the sequence number, the collector's delta and
    the request.  [provider] tells whether a delta provider is configured. *)
Definition build_request (now : Z) (provider : bool) (pkgs : option (list PackageRef)) (p : Poller) (c : Collector)
    : Poller * Collector * CheckinRequest :=
  let seq := wrap64 (pl_sequence p + 1) in
  let p' := set_sequence seq p in
  let '(c', delta) := if provider then ComputeDelta pkgs c else (c, None) in
  (p', c', {| cr_agent_id := pl_agent_id p; cr_timestamp := now; cr_sequence := seq;
              cr_status := report now p'; cr_delta := delta |}).

(** [postCheckin], given what the transport delivered: nothing, or a status with
    a body that decodes or does not.  [None] is an error. *)
Definition postCheckin (answer : option (Z * option CheckinResponse)) : option CheckinResponse :=
  match answer with
  | None => None
  | Some (status, body) =>
      if (status =? 401)%Z then None else if negb (status =? 200)%Z then None else body
  end.

(** The second half: the new interval and the jobs handed to the executor. *)
Definition handle_response (resp : option CheckinResponse) (p : Poller) : Poller * list JobDispatch :=
  match resp with
  | None => (p, [])
  | Some r =>
      (match rs_config r with
       | Some s => if (0 <? s)%Z then set_poll_interval s p else p
       | None => p
       end, rs_jobs r)
  end.

(** ** The exchange *)

(** Fate of a request: lost, served with the answer lost, or served. *)
Inductive Delivery := Lost | NoAnswer | Answered.

(** What the client sees of a response of the check-in handler. *)
Definition decode_answer (r : Response) : Z * option CheckinResponse :=
  (resp_status r,
   match r with
   | ROk _ (BCheckin t js) => Some {| rs_timestamp := t; rs_jobs := js; rs_config := None |}
   | _ => None
   end).

(** A handler as the HTTP server runs it: a handler that ends without having
    written a response answers 200 with an empty body. *)
Fixpoint respond {R : Type} (h : Handler unit) : prog DB R Response :=
  match h with
  | PRet _ => PRet (ROk 200 BEmpty)
  | PStop r => PRet r
  | PStep f k => PStep f (fun x => respond (k x))
  end.

(** One check-in of the agent [ctx] stands for. *)
Definition checkin {R : Type} (ctx : Ctx) (delivery : Delivery) (now : Z) (provider : bool)
    (pkgs : option (list PackageRef)) (p : Poller) (c : Collector)
    : prog DB R (Poller * Collector * list JobDispatch) :=
  let '(p', c', req) := build_request now provider pkgs p c in
  match delivery with
  | Lost => mret (p', c', [])
  | NoAnswer | Answered =>
      r ← respond (Checkin ctx (Some req));
      let '(p'', js) := handle_response (postCheckin (match delivery with
                          | Answered => Some (decode_answer r)
                          | _ => None end)) p' in
      mret (p'', c', js)
  end.

(** ** Lemmas *)

Lemma run_respond {R : Type} h env : forall n s,
  run (respond h : prog DB R Response) env n s =
  match run h env n s with
  | (s', n', inl r) => (s', n', inr r)
  | (s', n', inr _) => (s', n', inr (ROk 200 BEmpty))
  end.
Proof. induction h as [a|r|X f k IH]; intros n s; simpl; [done|done|]. apply (IH (f (env n) s).2). Qed.

(** The package table stays, and so do the devices. *)
Definition same_packages : relation DB := fun a b => inventory_packages b = inventory_packages a.

#[export] Instance same_packages_preorder : PreOrder same_packages.
Proof. split; [done|]. unfold same_packages. intros ? ? ? ? ?. congruence. Qed.

(** What the handler does after the delta. *)
Definition checkin_tail (ctx : Ctx) (req : CheckinRequest) (now : Z) : Handler unit :=
  _ ← exec (stmt (sql_requeue_missed (ctx_agent ctx) (ctx_tenant ctx) now));
  js ← fetchDispatchableJobs (ctx_agent ctx) (ctx_tenant ctx)
         (as_cdm_enabled (cr_status req)) (as_cdm_session_active (cr_status req));
  match js with
  | None => stop (Error 500 "failed to fetch jobs")
  | Some js =>
      dispatched ← dispatch_jobs now js;
      stop (JSON 200 (BCheckin now dispatched))
  end.

Lemma checkin_tail_packages ctx req now : guar same_packages (checkin_tail ctx req now).
Proof.
  unfold checkin_tail, fetchDispatchableJobs, dispatch_jobs.
  guar_all; intros Hx%stmt_Some; subst; done.
Qed.

(** The handler up to the delta, for a request that reports no failed update. *)
Lemma run_checkin ctx req env db :
  (forall k, ok_env (env k)) -> ctx_agent ctx <> "" -> ctx_tenant ctx <> "" ->
  as_last_update_failed (cr_status req) = false ->
  exists db1, inventory_packages db1 = inventory_packages db /\
    (forall d, is_Some (devices db !! d) -> is_Some (devices db1 !! d)) /\
    run (Checkin ctx (Some req)) env 0 db =
    run (_ ← match cr_delta req with
             | Some delta => _ ← processPackageDelta (ctx_agent ctx) delta; mret tt
             | None => mret tt
             end;
         checkin_tail ctx req (e_now (env 0%nat))) env 2 db1.
Proof.
  intros Hok Ha Ht Hu. unfold Checkin. apply seqb_neq in Ha as ->. apply seqb_neq in Ht as ->. cbn [orb].
  unfold report_rollback. rewrite Hu. cbn [andb].
  eexists. split_and!; cycle 2.
  - etrans; [apply run_bind|]. cbn [run time_now fst snd]. etrans; [apply run_bind|].
    unfold exec at 1. cbn [run fst snd]. destruct (Hok 1) as [-> _]. cbn [stmt fst snd].
    etrans; [apply run_bind|]. cbn [run mret prog_ret]. reflexivity.
  - done.
  - intros d [dv Hd]. simpl. rewrite lookup_update_where, Hd. by eexists.
Qed.

(** A served check-in: the store afterwards differs in the package table from
    what the delta's processing left only where nothing is. *)
Lemma run_served {R : Type} ctx delivery now provider pkgs p c env db p' c' req :
  build_request now provider pkgs p c = (p', c', req) -> delivery <> Lost ->
  exists p'' js n, run (checkin ctx delivery now provider pkgs p c : prog DB R _) env 0 db
    = ((run (Checkin ctx (Some req)) env 0 db).1.1, n, inr (p'', c', js)).
Proof.
  intros Hb Hl. unfold checkin. rewrite Hb. destruct delivery; [done|..].
  all: rewrite run_bind, run_respond; destruct (run (Checkin _ _) env 0 db) as [[s n] [r|[]]];
    destruct (handle_response _ _) as [p'' js]; by eexists _, _, _.
Qed.

Lemma run_tail_packages ctx req now env n s :
  inventory_packages (run (checkin_tail ctx req now) env n s).1.1 = inventory_packages s.
Proof. apply (guar_run_preorder same_packages), checkin_tail_packages. Qed.

Lemma synced_same a b d m : inventory_packages b = inventory_packages a -> synced a d m -> synced b d m.
Proof. unfold synced, has_package. by intros ->. Qed.

(** A served request without a delta leaves the package table alone. *)
Lemma run_checkin_none ctx req env db :
  (forall k, ok_env (env k)) -> ctx_agent ctx <> "" -> ctx_tenant ctx <> "" ->
  as_last_update_failed (cr_status req) = false -> cr_delta req = None ->
  inventory_packages (run (Checkin ctx (Some req)) env 0 db).1.1 = inventory_packages db.
Proof.
  intros Hok Ha Ht Hu Hd. destruct (run_checkin ctx req env db Hok Ha Ht Hu) as (db1 & Hp & _ & ->).
  rewrite Hd. rewrite <- Hp. etrans; [|apply run_tail_packages]. done.
Qed.

Lemma build_request_delta now pkgs p c :
  exists p' req, build_request now true (Some pkgs) p c = (p', Some (snapshot_of pkgs), req)
    /\ cr_delta req = (ComputeDelta (Some pkgs) c).2 /\ as_last_update_failed (cr_status req) = false.
Proof. unfold build_request. simpl. destruct c as [last|]; simpl; by eexists _, _. Qed.

Section Exchange.
Context {R : Type} (ctx : Ctx) (env : nat -> Env) (db : DB) (p : Poller) (last : gmap string PackageRef).
Context (pkgs : list PackageRef).
Hypothesis Hagent : ctx_agent ctx <> "".
Hypothesis Htenant : ctx_tenant ctx <> "".
Hypothesis Hdevice : is_Some (devices db !! ctx_agent ctx).
Hypothesis Henv : fresh_env env 0 db.
Hypothesis Hlast : snapshot_ok last.
Hypothesis Hpkgs : Forall (fun p => no_colon (pr_manager p) = true) pkgs.
Hypothesis Hsync : synced db (ctx_agent ctx) last.

Lemma served_syncs delivery now :
  delivery <> Lost ->
  exists p' js db' n, run (checkin ctx delivery now true (Some pkgs) p (Some last) : prog DB R _) env 0 db
    = (db', n, inr (p', Some (snapshot_of pkgs), js)) /\ synced db' (ctx_agent ctx) (snapshot_of pkgs).
Proof.
  intros Hdel. destruct (build_request_delta now pkgs p (Some last)) as (p' & req & Hb & Hdelta & Hu).
  destruct (run_served (R := R) ctx delivery now true (Some pkgs) p (Some last) env db p' _ req Hb Hdel)
    as (p'' & js & n & ->). exists p'', js. eexists _, n. split; [done|].
  pose proof Henv as (Hok & _). pose proof (snapshot_of_ok pkgs Hpkgs) as Hc. simpl in Hdelta.
  destruct (_ && _) eqn:En.
  - eapply synced_same; [by apply run_checkin_none|]. intros q. rewrite (Hsync q).
    reflect_bools. apply no_delta; by try apply nonempty_false.
  - destruct (run_checkin ctx req env db Hok Hagent Htenant Hu) as (db1 & Hp & Hdev & ->).
    rewrite Hdelta. unfold Handler. rewrite run_bind, run_bind.
    destruct (run_delta_synced (R := Response) last (snapshot_of pkgs) (ctx_agent ctx)
      {| pd_added := added_of last (snapshot_of pkgs); pd_removed := removed_of last (snapshot_of pkgs);
         pd_updated := updated_of last (snapshot_of pkgs) |} env 2 db1) as (s' & n' & Hrun & Hs');
      [done|done| |by apply Hdev|by eapply synced_same|done|].
    { eapply fresh_env_same; [by rewrite Hp|]. eapply fresh_env_later; [|done]. lia. }
    rewrite Hrun. cbn [run mret prog_ret]. eapply synced_same; [apply run_tail_packages|done].
Qed.

End Exchange.

(** While the packages are those of the collector's snapshot, delivered check-ins
    leave the server's inventory as it is. *)
Definition checkins (ctx : Ctx) (env : nat -> Env) (p : Poller) (pkgs : list PackageRef) (nows : list Z) (db : DB) : DB :=
  foldl (fun s now =>
    (run (checkin ctx Answered now true (Some pkgs) p (Some (snapshot_of pkgs)) : prog DB Empty_set _) env 0 s).1.1) db nows.

Lemma quiet_checkins ctx env p pkgs nows : forall db,
  (forall k, ok_env (env k)) -> ctx_agent ctx <> "" -> ctx_tenant ctx <> "" ->
  Forall (fun p => no_colon (pr_manager p) = true) pkgs ->
  inventory_packages (checkins ctx env p pkgs nows db) = inventory_packages db.
Proof.
  unfold checkins. induction nows as [|now nows IH]; intros db Hok Ha Ht Hp; [done|]. simpl foldl. rewrite IH by done.
  destruct (build_request_delta now pkgs p (Some (snapshot_of pkgs))) as (p' & req & Hb & Hdelta & Hu).
  destruct (run_served (R := Empty_set) ctx Answered now true (Some pkgs) p (Some (snapshot_of pkgs)) env db p' _ req Hb)
    as (p'' & js & n & ->); [done|]. apply run_checkin_none; try done.
  rewrite Hdelta. pose proof (delta_unchanged pkgs (Some (snapshot_of pkgs)) Hp) as Hn.
  simpl ((ComputeDelta _ _).1) in Hn. by rewrite Hn.
Qed.

(** ** Properties *)

(** C29: A delivered check-in keeps the server's inventory exact, also when its answer
    is lost: from a server in step with the agent's last snapshot, with no
    failing access, it takes the server to the packages now installed. *)
Theorem checkin_syncs ctx env db p last pkgs delivery now :
  ctx_agent ctx <> "" -> ctx_tenant ctx <> "" -> is_Some (devices db !! ctx_agent ctx) ->
  fresh_env env 0 db -> snapshot_ok last -> Forall (fun p => no_colon (pr_manager p) = true) pkgs ->
  synced db (ctx_agent ctx) last -> delivery <> Lost ->
  let r := run (checkin ctx delivery now true (Some pkgs) p (Some last) : prog DB Empty_set _) env 0 db in
  exists p' js, r.2 = inr (p', Some (snapshot_of pkgs), js) /\ synced r.1.1 (ctx_agent ctx) (snapshot_of pkgs).
Proof.
  intros Ha Ht Hd He Hl Hp Hs Hdel r.
  destruct (served_syncs (R := Empty_set) ctx env db p last pkgs Ha Ht Hd He Hl Hp Hs delivery now Hdel)
    as (p' & js & db' & n & Hr & Hs'). exists p', js. unfold r. by rewrite Hr.
Qed.

(** A lost check-in is never made up for: while the packages stay as they are,
    the server keeps the inventory it had before it, however many check-ins are
    delivered afterwards. *)
Theorem lost_checkin ctx env db p last pkgs nows :
  (forall k, ok_env (env k)) -> ctx_agent ctx <> "" -> ctx_tenant ctx <> "" ->
  Forall (fun p => no_colon (pr_manager p) = true) pkgs -> synced db (ctx_agent ctx) last ->
  let lost := run (checkin ctx Lost 0 true (Some pkgs) p (Some last) : prog DB Empty_set _) env 0 db in
  lost = (db, 0%nat, inr (set_sequence (wrap64 (pl_sequence p + 1)) p, Some (snapshot_of pkgs), [])) /\
  synced (checkins ctx env p pkgs nows db) (ctx_agent ctx) last.
Proof. intros Hok Ha Ht Hp Hs lost. split; [done|]. eapply synced_same; [by apply quiet_checkins|done]. Qed.
