(* ===== verification/Update.v ===== *)
(** * Agent self-update

    [agent/executor/update.go], [agent/executor/rollback.go] and
    [agent/update]: downloading, verifying and installing a new agent binary,
    the file that survives the restart, the check after it, and the rollback,
    with the steps of [agent/cmd/agent/main.go] that call them at start-up.

    The agent's files are the store; the network, the cryptography and the free
    disk space are the fields of [Lib].  Any file operation may fail, and a
    failed write may leave other bytes behind.  The text of operating-system
    errors in messages is left out. *)

From stdpp Require Import relations.
From S2P Require Import Prelude Text Platform Prog Models JobState Checkin.

(** ** Data *)

Record AgentUpdatePayload := {
  up_version : string;
  up_channel : string;
  up_download_url : string;
  up_sha256 : string;
  up_signature : string;
  up_signature_key_id : string;
  up_size_bytes : Z;
  up_min_rollback_version : string;
  up_force : bool;
}.

Record AgentRollbackPayload := { rb_reason : string; rb_min_rollback_version : string }.

Record PendingUpdate := {
  pu_job_id : string;
  pu_expected_version : string;
  pu_previous_version : string;
  pu_deadline : Z;
}.

(** pending_update.json: absent, a marshalled struct, or bytes that do not parse. *)
Inductive PendingFile := PNone | PValid (p : PendingUpdate) | PCorrupt.

(** The files of the agent: by path, and pending_update.json. *)
Record FS := { fs_files : gmap string string; fs_pending : PendingFile }.

Definition set_file (path : string) (c : string) (fs : FS) : FS :=
  {| fs_files := <[path := c]> (fs_files fs); fs_pending := fs_pending fs |}.
Definition drop_file (path : string) (fs : FS) : FS :=
  {| fs_files := delete path (fs_files fs); fs_pending := fs_pending fs |}.
Definition set_pending (x : PendingFile) (fs : FS) : FS :=
  {| fs_files := fs_files fs; fs_pending := x |}.

Record Lib := {
  fetch : string -> option string;                (* GET of a download URL: the body *)
  fetch_key : string -> option string;            (* the server's answer for a signing key: PEM *)
  parse_ed25519 : string -> option string;        (* pem.Decode, ParsePKIXPublicKey, ed25519.PublicKey *)
  sha256_raw : string -> string;
  hex_encode : string -> string;
  base64_decode : string -> option string;
  ed25519_verify : string -> string -> string -> bool;
  enough_space : Z -> bool;                       (* checkDiskSpace *)
}.

(** ** File operations *)

Section Files.
Context {R : Type}.

Definition stat (path : string) : prog FS R bool :=
  PStep (fun e fs => (fs, negb (e_fault e) && bool_decide (is_Some (fs_files fs !! path)))) PRet.

Definition remove (path : string) : prog FS R unit :=
  PStep (fun e fs => (if e_fault e then fs else drop_file path fs, tt)) PRet.

Definition read_file (path : string) : prog FS R (option string) :=
  PStep (fun e fs => (fs, if e_fault e then None else fs_files fs !! path)) PRet.

(** [os.Create] and [io.Copy]: a failure leaves the file, or other bytes. *)
Definition write_file (path c : string) : prog FS R bool :=
  PStep (fun e fs =>
    if e_fault e then (if e_faults e 0 then fs else set_file path (e_id e) fs, false)
    else (set_file path c fs, true)) PRet.

Definition chmod (path : string) : prog FS R bool := stat path.

(** [os.Rename] is atomic. *)
Definition rename (src dst : string) : prog FS R bool :=
  PStep (fun e fs =>
    match fs_files fs !! src with
    | Some c => if e_fault e then (fs, false) else (set_file dst c (drop_file src fs), true)
    | None => (fs, false)
    end) PRet.

(** A request to the server: it may fail, or answer with an error. *)
Definition get {X : Type} (answer : option X) : prog FS R (option X) :=
  PStep (fun e fs => (fs, if e_fault e then None else answer)) PRet.

(** [http.Client.Do] refuses a URL without the scheme http or https. *)
Definition supported_url (url : string) : bool :=
  HasPrefix (ToLower url) "http://" || HasPrefix (ToLower url) "https://".

Definition downloadFile (lib : Lib) (url destPath : string) : prog FS R bool :=
  body ← get (if supported_url url then fetch lib url else None);
  match body with
  | None => mret false
  | Some c => write_file destPath c
  end.

Definition fileSHA256 (lib : Lib) (path : string) : prog FS R (option string) :=
  c ← read_file path;
  mret (match c with Some data => Some (hex_encode lib (sha256_raw lib data)) | None => None end).

Definition copyFile (src dst : string) : prog FS R bool :=
  c ← read_file src;
  match c with
  | None => mret false
  | Some c =>
      ok ← write_file dst c;
      if negb ok then mret false
      else
        info ← stat src;
        if negb info then mret false else chmod dst
  end.

(** [None] is an error. *)
Definition fetchSigningKey (lib : Lib) (keyID : string) : prog FS R (option string) :=
  pem ← get (fetch_key lib keyID);
  mret (match pem with Some b => parse_ed25519 lib b | None => None end).

(** [true] is a nil error. *)
Definition verifySignature (lib : Lib) (filePath signatureB64 keyID : string) : prog FS R bool :=
  key ← fetchSigningKey lib keyID;
  match key with
  | None => mret false
  | Some pubKey =>
      data ← read_file filePath;
      match data with
      | None => mret false
      | Some data =>
          match base64_decode lib signatureB64 with
          | None => mret false
          | Some sig => mret (ed25519_verify lib pubKey (sha256_raw lib data) sig)
          end
      end
  end.

(** ** agent/update/pending.go *)

Definition WritePending (p : PendingUpdate) : prog FS R bool :=
  PStep (fun e fs =>
    if e_fault e then (if e_faults e 0 then fs else set_pending PCorrupt fs, false)
    else (set_pending (PValid p) fs, true)) PRet.

(** [None] is an error, [Some None] no file. *)
Definition ReadPending : prog FS R (option (option PendingUpdate)) :=
  PStep (fun e fs => (fs,
    match fs_pending fs with
    | PNone => Some None
    | PValid p => if e_fault e then None else Some (Some p)
    | PCorrupt => None
    end)) PRet.

Definition RemovePending : prog FS R unit :=
  PStep (fun e fs => (if e_fault e then fs else set_pending PNone fs, tt)) PRet.

(** ** agent/update/verify.go *)

Record VerifyResult := { vr_pending : PendingUpdate; vr_success : bool; vr_need_roll : bool; vr_error : string }.

(** [format_time] is [Format(time.RFC3339)]. *)
Definition CheckPostRestart (format_time : Z -> string) (currentVersion : string) : prog FS R (option VerifyResult) :=
  pending ← ReadPending;
  match pending with
  | None | Some None => mret None
  | Some (Some p) =>
      now ← time_now;
      if (pu_deadline p <? now)%Z
      then mret (Some {| vr_pending := p; vr_success := false; vr_need_roll := true;
                         vr_error := String.concat "" ["update deadline exceeded: expected ";
                                       pu_expected_version p; " by "; format_time (pu_deadline p);
                                       ", running "; currentVersion] |})
      else if negb (currentVersion =s pu_expected_version p)
      then mret (Some {| vr_pending := p; vr_success := false; vr_need_roll := true;
                         vr_error := String.concat "" ["version mismatch after restart: expected ";
                                       pu_expected_version p; ", got "; currentVersion] |})
      else mret (Some {| vr_pending := p; vr_success := true; vr_need_roll := false; vr_error := "" |})
  end.

(** [true] is a nil error. *)
Definition Rollback (binaryPath previousPath : string) : prog FS R bool :=
  there ← stat previousPath;
  if negb there then mret false
  else
    ok ← rename previousPath binaryPath;
    if negb ok then mret false
    else _ ← RemovePending; mret true.

(** The start-up block of [agent/cmd/agent/main.go]. *)
Definition startup (format_time : Z -> string) (plat : Platform) (version : string) : prog FS R unit :=
  result ← CheckPostRestart format_time version;
  match result with
  | None => mret tt
  | Some r =>
      if vr_success r then RemovePending
      else if vr_need_roll r then _ ← Rollback (BinaryPath plat) (BinaryPreviousPath plat); mret tt
      else mret tt
  end.

End Files.

(** ** agent/executor/update.go and rollback.go *)

Definition result (status message : string) : JobResultSubmission :=
  {| sub_status := status; sub_exit_code := None; sub_stdout := ""; sub_stderr := "";
     sub_message := message; sub_started_at := None; sub_completed_at := None |}.
Definition not_newer (target current : string) : string :=
  String.concat "" ["target version "; target; " is not newer than current "; current;
                    " (use force to downgrade)"].

Definition failed (message : string) : JobResultSubmission := result "failed" message.

(** [_ = os.Remove(stagingPath)] before a return. *)
Definition abandon {A : Type} (stagingPath message : string) : prog FS JobResultSubmission A :=
  _ ← remove stagingPath; stop (failed message).

(** Steps 2 and 3: the staging file holds a verified binary when they pass. *)
Definition download_verified (lib : Lib) (stagingPath : string) (p : AgentUpdatePayload)
    : prog FS JobResultSubmission unit :=
  if up_download_url p =s "" then stop (failed "download_url is required")
  else
    ok ← downloadFile lib (up_download_url p) stagingPath;
    if negb ok then abandon stagingPath "download failed"
    else if up_sha256 p =s "" then abandon stagingPath "sha256 is required for agent updates"
    else
      actualHash ← fileSHA256 lib stagingPath;
      match actualHash with
      | None => abandon stagingPath "sha256 computation failed"
      | Some h =>
          if negb (h =s up_sha256 p) then 
          abandon stagingPath (String.concat "" ["checksum_mismatch: expected "; up_sha256 p; ", got "; h])
          else if (up_signature p =s "") || (up_signature_key_id p =s "")
          then abandon stagingPath "signature and signature_key_id are required for agent updates"
          else
            ok ← verifySignature lib stagingPath (up_signature p) (up_signature_key_id p);
            if negb ok then abandon stagingPath "signature verification failed" else mret tt
      end.

(** Steps 4 to 6. *)
Definition install (plat : Platform) (version : string) (pollInterval : Z) (jobID : string)
    (p : AgentUpdatePayload) : prog FS JobResultSubmission JobResultSubmission :=
  ok ← chmod (BinaryStagingPath plat);
  if negb ok then abandon (BinaryStagingPath plat) "failed to set binary permissions"
  else
    ok ← copyFile (BinaryPath plat) (BinaryPreviousPath plat);
    if negb ok then abandon (BinaryStagingPath plat) "failed to backup current binary"
    else
      ok ← rename (BinaryStagingPath plat) (BinaryPath plat);
      if negb ok then abandon (BinaryStagingPath plat) "failed to replace binary"
      else
        now ← time_now;
        let interval := if (0 <? pollInterval)%Z then pollInterval else 30%Z in
        _ ← WritePending {| pu_job_id := jobID; pu_expected_version := up_version p;
                            pu_previous_version := version;
                            pu_deadline := now + wrap64 (wrap64 (3 * interval) * second) |};
        stop (result "restarting" (String.append "New binary installed, restarting into v" (up_version p))).

Definition executeAgentUpdate (lib : Lib) (platform : option Platform) (version : string) (pollInterval : Z)
    (jobID : string) (payload : Json AgentUpdatePayload) : prog FS JobResultSubmission JobResultSubmission :=
  match unmarshal payload with
  | None => stop (failed "invalid agent_update payload")
  | Some p =>
      if up_version p =s "" then stop (failed "version is required in update payload")
      else if negb (up_force p) && negb (version =s "dev") && string_leb (up_version p) version
      then stop (failed (not_newer (up_version p) version))
      else match platform with
      | None => stop (failed "platform not configured (cannot determine binary paths)")
      | Some plat =>
          there ← stat (BinaryPath plat);
          if negb there then stop (failed "current binary not found")
          else if (0 <? up_size_bytes p)%Z && negb (enough_space lib (up_size_bytes p))
          then stop (failed "insufficient_disk_space")
          else
            _ ← download_verified lib (BinaryStagingPath plat) p;
            install plat version pollInterval jobID p
      end
  end.

Definition executeAgentRollback (platform : option Platform) (payload : Json AgentRollbackPayload)
    : prog FS JobResultSubmission JobResultSubmission :=
  match unmarshal payload with
  | None => stop (failed "invalid agent_rollback payload")
  | Some p =>
      match platform with
      | None => stop (failed "platform not configured")
      | Some plat =>
          there ← stat (BinaryPreviousPath plat);
          if negb there then 
            stop (failed (String.concat "" ["no previous binary at "; BinaryPreviousPath plat; ": cannot roll back"]))
          else
            ok ← Rollback (BinaryPath plat) (BinaryPreviousPath plat);
            if negb ok then stop (failed "rollback failed")
            else stop (result "restarting" (String.append "Rolled back to previous binary. Reason: " (rb_reason p)))
      end
  end.

(** ** Lemmas *)

(** A binary with the payload's checksum and a valid signature of its digest
    under the key the server holds for the payload's key id. *)
Definition verified (lib : Lib) (p : AgentUpdatePayload) (c : string) : Prop :=
  hex_encode lib (sha256_raw lib c) = up_sha256 p /\
  exists pem key sig, fetch_key lib (up_signature_key_id p) = Some pem /\ parse_ed25519 lib pem = Some key
    /\ base64_decode lib (up_signature p) = Some sig /\ ed25519_verify lib key (sha256_raw lib c) sig = true.

Definition paths_distinct (plat : Platform) : Prop :=
  BinaryPath plat <> BinaryStagingPath plat /\ BinaryPath plat <> BinaryPreviousPath plat
  /\ BinaryStagingPath plat <> BinaryPreviousPath plat.

(** Nothing changed outside the paths [ps]. *)
Definition kept (ps : list string) (a b : FS) : Prop :=
  (forall q, q ∉ ps -> fs_files b !! q = fs_files a !! q) /\ fs_pending b = fs_pending a.

#[export] Instance kept_preorder ps : PreOrder (kept ps).
Proof.
  split; [by split|]. intros a b c [H1 H2] [H3 H4]. split; [|congruence]. intros q Hq.
  by rewrite H3, H1.
Qed.

Lemma kept_set ps path c fs : path ∈ ps -> kept ps fs (set_file path c fs).
Proof. intros Hp. split; [|done]. intros q Hq. simpl. rewrite lookup_insert_ne; [done|by intros ->]. Qed.

Lemma kept_drop ps path fs : path ∈ ps -> kept ps fs (drop_file path fs).
Proof. intros Hp. split; [|done]. intros q Hq. simpl. rewrite lookup_delete_ne; [done|by intros ->]. Qed.

Lemma kept_more ps ps' a b : ps ⊆ ps' -> kept ps a b -> kept ps' a b.
Proof. intros Hs [H1 H2]. split; [|done]. intros q Hq. apply H1. set_solver. Qed.

(** *** Rules of the file operations *)

Notation any := (fun _ _ : FS => True).

Section Rules.
Context {R : Type} (E : Env -> Prop).
Implicit Types fs : FS.

Lemma rg_stat path (Q : R + bool -> FS -> Prop) fs :
  Q (inr false) fs -> (forall c, fs_files fs !! path = Some c -> Q (inr true) fs) ->
  rg E (=) any (stat path) Q fs.
Proof.
  intros Hf Ht fs1 e _ <-. split; [done|]. simpl. destruct (e_fault e); simpl; [done|].
  destruct (fs_files fs !! path) as [c|]; [by eapply Ht|done].
Qed.

Lemma rg_remove path (Q : R + unit -> FS -> Prop) fs :
  Q (inr tt) fs -> Q (inr tt) (drop_file path fs) -> rg E (=) any (remove path) Q fs.
Proof. intros H1 H2 fs1 e _ <-. split; [done|]. simpl. by destruct (e_fault e). Qed.

Lemma rg_read path (Q : R + option string -> FS -> Prop) fs :
  Q (inr None) fs -> (forall c, fs_files fs !! path = Some c -> Q (inr (Some c)) fs) ->
  rg E (=) any (read_file path) Q fs.
Proof.
  intros H1 H2 fs1 e _ <-. split; [done|]. simpl. destruct (e_fault e); [done|].
  destruct (fs_files fs !! path) as [c|]; [by apply H2|done].
Qed.

Lemma rg_write path c (Q : R + bool -> FS -> Prop) fs :
  Q (inr false) fs -> (forall c', Q (inr false) (set_file path c' fs)) -> Q (inr true) (set_file path c fs) ->
  rg E (=) any (write_file path c) Q fs.
Proof.
  intros H1 H2 H3 fs1 e _ <-. split; [done|]. simpl. destruct (e_fault e), (e_faults e 0); simpl; auto; apply H2.
Qed.

Lemma rg_rename src dst (Q : R + bool -> FS -> Prop) fs :
  Q (inr false) fs ->
  (forall c, fs_files fs !! src = Some c -> Q (inr true) (set_file dst c (drop_file src fs))) ->
  rg E (=) any (rename src dst) Q fs.
Proof.
  intros H1 H2 fs1 e _ <-. split; [done|]. simpl. destruct (fs_files fs !! src) as [c|]; [|done].
  destruct (e_fault e); [done|]. by apply H2.
Qed.

Lemma rg_get {X : Type} (a : option X) (Q : R + option X -> FS -> Prop) fs :
  Q (inr None) fs -> (forall x, a = Some x -> Q (inr (Some x)) fs) -> rg E (=) any (get a) Q fs.
Proof.
  intros H1 H2 fs1 e _ <-. split; [done|]. simpl. destruct (e_fault e); [done|]. destruct a; [by apply H2|done].
Qed.

Lemma rg_download lib url dst (Q : R + bool -> FS -> Prop) fs :
  Q (inr false) fs -> (forall c, Q (inr false) (set_file dst c fs)) ->
  (forall c, Q (inr true) (set_file dst c fs)) -> rg E (=) any (downloadFile lib url dst) Q fs.
Proof.
  intros H1 H2 H3. unfold downloadFile. rg_step. apply rg_get; [by rg_step|]. intros c _. by apply rg_write.
Qed.

Lemma rg_sha lib path (Q : R + option string -> FS -> Prop) fs :
  Q (inr None) fs ->
  (forall c, fs_files fs !! path = Some c -> Q (inr (Some (hex_encode lib (sha256_raw lib c)))) fs) ->
  rg E (=) any (fileSHA256 lib path) Q fs.
Proof.
  intros H1 H2. unfold fileSHA256. rg_step. apply rg_read; [by rg_step|]. intros c Hc. rg_step. by apply H2.
Qed.

Lemma rg_verify lib path sigb keyid (Q : R + bool -> FS -> Prop) fs :
  Q (inr false) fs ->
  (forall c pem key sig, fs_files fs !! path = Some c -> fetch_key lib keyid = Some pem ->
     parse_ed25519 lib pem = Some key -> base64_decode lib sigb = Some sig ->
     ed25519_verify lib key (sha256_raw lib c) sig = true -> Q (inr true) fs) ->
  rg E (=) any (verifySignature lib path sigb keyid) Q fs.
Proof.
  intros H1 H2. unfold verifySignature, fetchSigningKey. rg_step. rg_step. apply rg_get; [by repeat rg_step|].
  intros pem Hpem. rg_step. destruct (parse_ed25519 lib pem) as [key|] eqn:Ek; [|by rg_step].
  rg_step. apply rg_read; [by rg_step|]. intros c Hc. destruct (base64_decode lib sigb) as [sig|] eqn:Es; [|by rg_step].
  rg_step. destruct (ed25519_verify _ _ _ _) eqn:Ev; [by eapply H2|done].
Qed.

Lemma rg_copy src dst (Q : R + bool -> FS -> Prop) fs :
  src <> dst -> Q (inr false) fs -> (forall c, Q (inr false) (set_file dst c fs)) ->
  (forall c, fs_files fs !! src = Some c -> Q (inr true) (set_file dst c fs)) ->
  rg E (=) any (copyFile src dst) Q fs.
Proof.
  intros Hne H1 H2 H3. unfold copyFile. rg_step. apply rg_read; [by rg_step|]. intros c Hc.
  rg_step. apply rg_write; cbn [negb]; [by rg_step|by intros; rg_step; apply H2|].
  rg_step. apply rg_stat; cbn [negb]; [rg_step; apply H2|]. intros c' _. apply rg_stat; [apply H2|]. intros; by apply H3.
Qed.

End Rules.

(** An abandoned update leaves everything but the staging file. *)
Lemma abandon_rg {A : Type} (E : Env -> Prop) staging msg fs0 fs (Q : JobResultSubmission + A -> FS -> Prop) :
  kept [staging] fs0 fs -> (forall fs', kept [staging] fs0 fs' -> Q (inl (failed msg)) fs') ->
  rg E (=) any (abandon staging msg) Q fs.
Proof.
  intros Hk HQ. unfold abandon. rg_step. apply rg_remove; rg_step; apply HQ; [done|].
  etrans; [done|]. apply kept_drop. set_solver.
Qed.

(** The staging file is verified when steps 2 and 3 pass. *)
Lemma download_verified_rg (E : Env -> Prop) lib staging p fs0 (Q : JobResultSubmission + unit -> FS -> Prop) :
  (forall msg fs, kept [staging] fs0 fs -> Q (inl (failed msg)) fs) ->
  (forall c fs, kept [staging] fs0 fs -> fs_files fs !! staging = Some c -> verified lib p c -> Q (inr tt) fs) ->
  rg E (=) any (download_verified lib staging p) Q fs0.
Proof.
  intros Hf Hok. unfold download_verified. destruct (_ =s "") eqn:Eu; [rg_step; by apply Hf|].
  assert (forall c, kept [staging] fs0 (set_file staging c fs0)) as Hk by (intros; apply kept_set; set_solver).
  rg_step. apply rg_download; cbn [negb]; [by eapply abandon_rg; eauto|by intros; eapply abandon_rg; eauto|].
  intros c. destruct (up_sha256 p =s ""); [by eapply abandon_rg; eauto|]. rg_step.
  apply rg_sha; [by eapply abandon_rg; eauto|]. intros c' Hc'. simpl in Hc'. rewrite lookup_insert_eq in Hc'.
  injection Hc' as <-. destruct (negb (_ =s _)) eqn:Eh; [by eapply abandon_rg; eauto|]. reflect_bools.
  destruct (_ || _); [by eapply abandon_rg; eauto|]. rg_step.
  apply rg_verify; cbn [negb]; [by eapply abandon_rg; eauto|].
  intros c' pem key sig Hc' Hp Hpk Hs Hv. simpl in Hc'. rewrite lookup_insert_eq in Hc'. injection Hc' as <-.
  rg_step. apply (Hok c); [done|simpl; by rewrite lookup_insert_eq|]. split; [done|]. eauto 10.
Qed.

(** What a finished installation leaves. *)
Definition installed (plat : Platform) (lib : Lib) (p : AgentUpdatePayload) (jobID version : string) (fs0 fs : FS) : Prop :=
  exists c, verified lib p c /\ fs_files fs !! BinaryPath plat = Some c
    /\ fs_files fs !! BinaryPreviousPath plat = fs_files fs0 !! BinaryPath plat
    /\ (fs_pending fs = fs_pending fs0 \/ fs_pending fs = PCorrupt \/
        exists t, fs_pending fs = PValid {| pu_job_id := jobID; pu_expected_version := up_version p;
                                           pu_previous_version := version; pu_deadline := t |}).

Lemma install_rg (E : Env -> Prop) lib plat version interval jobID p fs0 fs c (Q : JobResultSubmission + JobResultSubmission -> FS -> Prop) :
  paths_distinct plat -> kept [BinaryStagingPath plat] fs0 fs ->
  fs_files fs !! BinaryStagingPath plat = Some c -> verified lib p c ->
  (forall msg fs', kept [BinaryStagingPath plat; BinaryPreviousPath plat] fs0 fs' -> Q (inl (failed msg)) fs') ->
  (forall msg fs', installed plat lib p jobID version fs0 fs' -> Q (inl (result "restarting" msg)) fs') ->
  rg E (=) any (install plat version interval jobID p) Q fs.
Proof.
  intros (Hbs & Hbp & Hsp) Hk Hc Hv Hf Hok. unfold install.
  set (both := [BinaryStagingPath plat; BinaryPreviousPath plat]) in *.
  assert (kept both fs0 fs) as Hk' by (eapply kept_more; [|done]; set_solver).
  assert (forall msg fs', kept both fs0 fs' ->
    rg E (=) any (abandon (BinaryStagingPath plat) msg) Q fs') as Hab.
  { intros msg fs' Hk1. unfold abandon. rg_step. apply rg_remove; rg_step; apply Hf; [done|].
    etrans; [done|]. apply kept_drop. set_solver. }
  assert (forall c', kept both fs0 (set_file (BinaryPreviousPath plat) c' fs)) as Hk2.
  { intros. etrans; [done|]. apply kept_set. set_solver. }
  rg_step. apply rg_stat; cbn [negb]; [by apply Hab|]. intros _ _. rg_step.
  apply rg_copy; cbn [negb]; [done|by apply Hab|by intros; apply Hab|]. intros old Hold. rg_step.
  apply rg_rename; cbn [negb]; [by apply Hab|]. intros c' Hc'. simpl in Hc'.
  rewrite lookup_insert_ne in Hc' by done. rewrite Hc in Hc'. injection Hc' as <-.
  destruct Hk' as [Hsame Hpend]. rg_step. rg_step. cbv zeta. rg_step. intros fs1 e _ <-. split; [done|].
  set (fs2 := set_file (BinaryPath plat) c _).
  assert (forall pd, (pd = fs_pending fs0 \/ pd = PCorrupt \/ exists t, pd = PValid
    {| pu_job_id := jobID; pu_expected_version := up_version p; pu_previous_version := version; pu_deadline := t |}) ->
    installed plat lib p jobID version fs0 (set_pending pd fs2)) as Hinst.
  { intros pd Hpd. exists c. split_and!; [done|by simpl; rewrite lookup_insert_eq| |done]. simpl.
    rewrite lookup_insert_ne, lookup_delete_ne, lookup_insert_eq by done. rewrite <- Hold.
    apply Hsame. set_solver. }
  assert (installed plat lib p jobID version fs0 fs2) as Hinst0.
  { apply (Hinst (fs_pending fs2)). by left. }
  simpl. destruct (e_fault e), (e_faults e 0); simpl; apply Hok; auto; apply Hinst; eauto.
Qed.

Lemma kept_binary plat a b :
  paths_distinct plat -> kept [BinaryStagingPath plat; BinaryPreviousPath plat] a b ->
  fs_files b !! BinaryPath plat = fs_files a !! BinaryPath plat /\ fs_pending b = fs_pending a.
Proof. intros (H1 & H2 & _) [Hk Hp]. split; [|done]. apply Hk. set_solver. Qed.

(** The whole update job. *)
Lemma update_run lib plat version interval jobID payload env fs :
  paths_distinct plat ->
  let r := run_result (executeAgentUpdate lib (Some plat) version interval jobID payload) env fs in
  let fs' := run_store (executeAgentUpdate lib (Some plat) version interval jobID payload) env fs in
  (exists msg, r = inl (failed msg) /\ fs_files fs' !! BinaryPath plat = fs_files fs !! BinaryPath plat
     /\ fs_pending fs' = fs_pending fs) \/
  (exists p msg, unmarshal payload = Some p /\ r = inl (result "restarting" msg)
     /\ installed plat lib p jobID version fs fs').
Proof.
  intros Hd. cbv zeta. by_rg any_env (fun _ _ : FS => True); [by intros|]. cbv beta.
  unfold executeAgentUpdate. destruct (unmarshal payload) as [p|]; [|rg_step; left; eauto].
  destruct (up_version p =s ""); [rg_step; left; eauto|].
  destruct (_ && _ && _); [rg_step; left; eauto|]. rg_step.
  apply rg_stat; cbn [negb]; [rg_step; left; eauto|]. intros _ _.
  destruct (_ && _); [rg_step; left; eauto|]. rg_step. apply download_verified_rg.
  - intros msg fs1 Hk. left. exists msg. split; [done|]. apply kept_binary; [done|].
    eapply kept_more; [|done]. set_solver.
  - intros c fs1 Hk Hc Hv. eapply install_rg; try done.
    + intros msg fs2 Hk2. left. exists msg. split; [done|]. by apply kept_binary.
    + intros msg fs2 Hi. right. eauto.
Qed.

(** *** Start-up without faults *)

Lemma run_rollback {R : Type} plat env n fs c :
  (forall k, e_fault (env k) = false) -> fs_files fs !! BinaryPreviousPath plat = Some c ->
  (run (Rollback (BinaryPath plat) (BinaryPreviousPath plat) : prog FS R bool) env n fs).1.1
  = set_pending PNone (set_file (BinaryPath plat) c (drop_file (BinaryPreviousPath plat) fs)).
Proof.
  intros He Hc. unfold Rollback. simpl. rewrite He, Hc. simpl. rewrite Hc, He. simpl. by rewrite He.
Qed.

Lemma run_no_previous {R : Type} plat env n fs :
  fs_files fs !! BinaryPreviousPath plat = None ->
  (run (Rollback (BinaryPath plat) (BinaryPreviousPath plat) : prog FS R bool) env n fs).1.1 = fs.
Proof. intros Hc. unfold Rollback. simpl. rewrite Hc. simpl. by rewrite andb_false_r. Qed.

Lemma run_startup fmt plat version env fs :
  (forall k, e_fault (env k) = false) ->
  run_store (startup fmt plat version : prog FS Empty_set unit) env fs =
  match fs_pending fs with
  | PNone | PCorrupt => fs
  | PValid p =>
      if (pu_expected_version p =s version) && (e_now (env 1%nat) <=? pu_deadline p)%Z
      then set_pending PNone fs
      else match fs_files fs !! BinaryPreviousPath plat with
           | Some c => set_pending PNone (set_file (BinaryPath plat) c (drop_file (BinaryPreviousPath plat) fs))
           | None => fs
           end
  end.
Proof.
  intros He. unfold run_store, startup. rewrite run_bind. unfold CheckPostRestart. simpl.
  destruct (fs_pending fs) as [|p|]; [done| |done]. rewrite He. simpl.
  assert (forall n, (run (_ ← Rollback (BinaryPath plat) (BinaryPreviousPath plat); mret tt : prog FS Empty_set unit) env n fs).1.1
    = match fs_files fs !! BinaryPreviousPath plat with
      | Some c => set_pending PNone (set_file (BinaryPath plat) c (drop_file (BinaryPreviousPath plat) fs))
      | None => fs
      end) as Hroll.
  { intros n. rewrite run_bind. destruct (fs_files fs !! BinaryPreviousPath plat) as [c|] eqn:Ec.
    - pose proof (run_rollback (R := Empty_set) plat env n fs c He Ec) as Hb.
      by destruct (run (Rollback _ _) env n fs) as [[s' n'] [[]|b]].
    - pose proof (run_no_previous (R := Empty_set) plat env n fs Ec) as Hb.
      by destruct (run (Rollback _ _) env n fs) as [[s' n'] [[]|b]]. }
  destruct (pu_deadline p <? e_now (env 1%nat))%Z eqn:Ed; reflect_bools.
  - replace (e_now (env 1%nat) <=? pu_deadline p)%Z with false by (symmetry; apply Z.leb_gt; lia).
    rewrite andb_false_r. simpl. apply Hroll.
  - replace (e_now (env 1%nat) <=? pu_deadline p)%Z with true by (symmetry; apply Z.leb_le; lia).
    rewrite andb_true_r. unfold seqb. destruct (decide (version = pu_expected_version p)) as [->|Hn].
    + rewrite !bool_decide_eq_true_2 by done. simpl. by rewrite He.
    + rewrite !bool_decide_eq_false_2 by congruence. simpl. apply Hroll.
Qed.

(** ** Properties *)

(** C30: Only verified binaries are installed: whatever fails, an update job either
    fails and leaves the agent's binary as it was, or answers "restarting" with a
    binary in place whose checksum and Ed25519 signature were checked, the old
    one kept beside it. *)
Theorem update_installs_verified lib plat version interval jobID payload env fs :
  paths_distinct plat ->
  let r := run_result (executeAgentUpdate lib (Some plat) version interval jobID payload) env fs in
  let fs' := run_store (executeAgentUpdate lib (Some plat) version interval jobID payload) env fs in
  (exists msg, r = inl (failed msg) /\ fs_files fs' !! BinaryPath plat = fs_files fs !! BinaryPath plat
     /\ fs_pending fs' = fs_pending fs) \/
  (exists p msg, unmarshal payload = Some p /\ r = inl (result "restarting" msg)
     /\ installed plat lib p jobID version fs fs').
Proof.
  intros Hd r fs'. apply update_run; done.
Qed.

(** The check after a restart, when no file operation fails: without a readable
    pending update nothing happens; a running version that is the expected one,
    before the deadline, is confirmed; otherwise the previous binary is put back
    if there is one, also when the new version runs but the deadline has passed. *)
Theorem post_restart_spec fmt plat version env fs :
  (forall k, e_fault (env k) = false) ->
  run_store (startup fmt plat version : prog FS Empty_set unit) env fs =
  match fs_pending fs with
  | PNone | PCorrupt => fs
  | PValid p =>
      if (pu_expected_version p =s version) && (e_now (env 1%nat) <=? pu_deadline p)%Z
      then set_pending PNone fs
      else match fs_files fs !! BinaryPreviousPath plat with
           | Some c => set_pending PNone (set_file (BinaryPath plat) c (drop_file (BinaryPreviousPath plat) fs))
           | None => fs
           end
  end.
Proof. intros He. by apply run_startup. Qed.

(** An update is undone by a late restart: after an update that installed its
    binary and recorded it as pending, a start-up past the recorded deadline puts
    the old binary back, although the version that runs is the one expected. *)
Theorem late_restart_undoes fmt lib plat version interval jobID payload p env fs env' old d :
  paths_distinct plat -> unmarshal payload = Some p -> fs_files fs !! BinaryPath plat = Some old ->
  let fs' := run_store (executeAgentUpdate lib (Some plat) version interval jobID payload) env fs in
  (exists msg, run_result (executeAgentUpdate lib (Some plat) version interval jobID payload) env fs
     = inl (result "restarting" msg)) ->
  fs_pending fs' = PValid d ->
  (forall k, e_fault (env' k) = false) -> (pu_deadline d < e_now (env' 1%nat))%Z ->
  fs_files (run_store (startup fmt plat (up_version p) : prog FS Empty_set unit) env' fs') !! BinaryPath plat
  = Some old.
Proof.
  intros Hd Hp Hold fs' [msg Hr] Hpd He Hlate.
  destruct (update_run lib plat version interval jobID payload env fs Hd) as [(m & Hf & _)|(p' & m & _ & _ & Hi)].
  { rewrite Hr in Hf. discriminate Hf. }
  destruct Hi as (c & _ & _ & Hprev & _). rewrite run_startup by done. fold fs' in Hprev.
  rewrite Hpd, Hprev, Hold.
  replace (e_now (env' 1%nat) <=? pu_deadline d)%Z with false by (symmetry; apply Z.leb_gt; lia).
  rewrite andb_false_r. simpl. by rewrite lookup_insert_eq.
Qed.

(** A rollback undoes an installed update: it restores the binary that ran
    before, from whatever state the update left. *)
Theorem update_rollback lib plat version interval jobID payload env fs env' old :
  paths_distinct plat -> fs_files fs !! BinaryPath plat = Some old ->
  let fs' := run_store (executeAgentUpdate lib (Some plat) version interval jobID payload) env fs in
  (exists msg, run_result (executeAgentUpdate lib (Some plat) version interval jobID payload) env fs
     = inl (result "restarting" msg)) ->
  (forall k, e_fault (env' k) = false) ->
  forall rp, let back := executeAgentRollback (Some plat) (JValid rp) in
  (exists msg, run_result back env' fs' = inl (result "restarting" msg)) /\
  fs_files (run_store back env' fs') !! BinaryPath plat = Some old /\
  fs_pending (run_store back env' fs') = PNone.
Proof.
  intros Hd Hold fs' [msg Hr] He rp back.
  destruct (update_run lib plat version interval jobID payload env fs Hd) as [(m & Hf & _)|(p' & m & _ & _ & Hi)].
  { rewrite Hr in Hf. discriminate Hf. }
  destruct Hi as (c & _ & _ & Hprev & _). fold fs' in Hprev. rewrite Hold in Hprev.
  unfold back, run_result, run_store, executeAgentRollback, Rollback. simpl.
  rewrite He, Hprev. simpl. rewrite He, Hprev. simpl. rewrite Hprev, He. simpl. rewrite He. simpl.
  split; [by eexists|]. by rewrite lookup_insert_eq.
Qed.

(** Versions are compared as strings, so 1.10.0 counts as older than 1.9.0: the
    upgrade is refused, and nothing is downloaded. *)
Theorem upgrade_refused lib plat interval jobID p env fs :
  up_version p = "1.10.0" -> up_force p = false ->
  run (executeAgentUpdate lib (Some plat) "1.9.0" interval jobID (JValid p)) env 0 fs
  = (fs, 0%nat, inl (failed (not_newer "1.10.0" "1.9.0"))).
Proof. intros Hv Hf. unfold executeAgentUpdate. simpl. by rewrite Hv, Hf. Qed.
