(* ===== verification/Credentials.v ===== *)
(** * The agent's credentials

    [agent/enrollment/enrollment.go], [agent/renewal/renewal.go],
    [agent/tlsutil/tlsutil.go], [ReadAgentID] of [agent/poller/poller.go] and the
    part of [runDaemon] ([agent/cmd/agent/main.go]) that obtains an identity,
    against the server's handlers (files [Enrollment] and [AgentAuth]).

    Keys, CSRs and certificates are made and read by the fields of [ClientLib];
    requests and answers may be lost and every file operation may fail. *)

From stdpp Require Import relations.
From S2P Require Import Prelude Text Platform Prog Models JobState Database Scope Quota JobSteps JobsApi Requests Enrollment AgentAuth Update.

(** The server's database and the agent's files. *)
Record Boot := { bt_db : DB; bt_fs : FS }.
Definition put_db (db : DB) (s : Boot) : Boot := {| bt_db := db; bt_fs := bt_fs s |}.
Definition put_files (fs : FS) (s : Boot) : Boot := {| bt_db := bt_db s; bt_fs := fs |}.

Record ClientLib := {
  cl_goos : string;                                     (* runtime.GOOS *)
  cl_arch : string;                                     (* runtime.GOARCH *)
  cl_version : string;                                  (* version.Version *)
  cl_hostname : string;                                 (* os.Hostname, its error dropped *)
  cl_csr : string -> string -> option string;           (* common name and key; the CSR in PEM *)
  cl_key_pem : string -> option string;                 (* MarshalECPrivateKey, in PEM *)
  cl_pair : string -> string -> option PeerCert;        (* tls.LoadX509KeyPair of two files' contents *)
  cl_pool : string -> bool;                             (* AppendCertsFromPEM *)
  cl_not_after : string -> option Z;                    (* pem.Decode, ParseCertificate, NotAfter *)
}.

(** What serves the requests. *)
Record Server := {
  sv_x509 : X509;
  sv_audit : bool;
  sv_quota : Resolver;
  sv_headers : HeaderLib;
  sv_ca_pool : bool;
  sv_ctx : Ctx;
}.

(** ** Operating system *)

Definition quote : Ascii.ascii := Ascii.ascii_of_nat 34.

(** [strings.Trim] with one character as its cutset. *)
Fixpoint trim_left_char (c : Ascii.ascii) (s : string) : string :=
  match s with
  | String d s' => if Ascii.eqb d c then trim_left_char c s' else s
  | EmptyString => EmptyString
  end.
Fixpoint trim_right_char (c : Ascii.ascii) (s : string) : string :=
  match s with
  | String d s' => match trim_right_char c s' with
                   | EmptyString => if Ascii.eqb d c then EmptyString else char d
                   | rest => String d rest
                   end
  | EmptyString => EmptyString
  end.
Definition Trim (c : Ascii.ascii) (s : string) : string := trim_right_char c (trim_left_char c s).

Definition pretty_name (data : string) : string :=
  default "" (head (omap (fun line => Trim quote <$> cut_prefix "PRETTY_NAME=" line) (split_on newline data))).

Section Client.
Context {R : Type} (cl : ClientLib) (sv : Server) (plat : Platform).

Definition on_disk {A : Type} (p : prog FS R A) : prog Boot R A := zoom bt_fs put_files p.

Definition readOSRelease : prog FS R string :=
  data ← read_file "/etc/os-release";
  mret (match data with Some d => pretty_name d | None => "" end).

Definition detectOS : prog FS R (string * string) :=
  if cl_goos cl =s "linux" then v ← readOSRelease; mret ("linux", v)
  else mret (cl_goos cl, "").

(** ** agent/enrollment/enrollment.go *)

Record EnrollResult := {
  en_agent_id : string;
  en_cert : string;
  en_key : string;
  en_ca_chain : string;
  en_poll_interval : Z;
}.

(** The answer of status 200, decoded; [None] is an error. *)
Definition enroll_response (resp : option Response) : option (string * string * string * Z) :=
  match resp with
  | Some (ROk code (BEnroll id cert chain poll)) => if (code =? 200)%Z then Some (id, cert, chain, poll) else None
  | _ => None
  end.

(** [Enroll]; [None] is an error. *)
Definition EnrollClient : prog Boot R (option EnrollResult) :=
  tokenBytes ← on_disk (read_file (EnrollmentTokenPath plat));
  match tokenBytes with
  | None => mret None
  | Some raw =>
      let token := TrimSpace raw in
      if token =s "" then mret None
      else
        key ← random_hex;
        match (k ← key; csr ← cl_csr cl (cl_hostname cl) k; Some (k, csr)) with
        | None => mret None
        | Some (key, csr) =>
            os ← on_disk detectOS;
            resp ← do_request bt_db put_db (Enroll (sv_x509 sv) (sv_audit sv) (sv_quota sv) "POST"
                     (Some {| er_token := token; er_csr := csr; er_hostname := cl_hostname cl; er_os := os.1;
                              er_os_version := os.2; er_arch := cl_arch cl; er_agent_version := cl_version cl |}));
            mret ('(id, cert, chain, poll) ← enroll_response resp;
                  keyPEM ← cl_key_pem cl key;
                  Some {| en_agent_id := id; en_cert := cert; en_key := keyPEM; en_ca_chain := chain;
                          en_poll_interval := poll |})
        end
  end.

(** The loop over the files to write; [true] is a nil error. *)
Fixpoint write_all (files : list (string * string)) : prog FS R bool :=
  match files with
  | [] => mret true
  | (path, data) :: rest =>
      ok ← write_file path data;
      if negb ok then mret false else write_all rest
  end.

(** [os.Remove], a missing file not counting as an error. *)
Definition remove_file (path : string) : prog FS R bool :=
  PStep (fun e fs => if e_fault e then (fs, false) else (drop_file path fs, true)) PRet.

Definition SaveCredentials (r : EnrollResult) : prog FS R bool :=
  ok ← write_all [(ClientCertPath plat, en_cert r); (ClientKeyPath plat, en_key r);
                  (CACertPath plat, en_ca_chain r); (AgentIDPath plat, en_agent_id r)];
  if negb ok then mret false else remove_file (EnrollmentTokenPath plat).

(** ** agent/tlsutil/tlsutil.go *)

(** [NewCertProvider], and the pair that [Swap] loads; [None] is an error. *)
Definition NewCertProvider : prog FS R (option PeerCert) :=
  cert ← read_file (ClientCertPath plat);
  match cert with
  | None => mret None
  | Some cert =>
      key ← read_file (ClientKeyPath plat);
      mret (key ← key; cl_pair cl cert key)
  end.

(** [true] is a nil error. *)
Definition LoadCAPool : prog FS R bool :=
  pem ← read_file (CACertPath plat);
  mret (match pem with Some pem => cl_pool cl pem | None => false end).

(** [Swap]: the provider keeps its certificate when the new pair does not load. *)
Definition Swap (old : PeerCert) : prog FS R PeerCert :=
  new ← NewCertProvider;
  mret (default old new).

(** ** agent/renewal/renewal.go *)

Definition minute : Z := 60 * 1000000000.
Definition RenewalThreshold : Z := 30 * 24 * hour.

(** [err == nil && needs]. *)
Definition NeedsRenewal : prog FS R bool :=
  pem ← read_file (ClientCertPath plat);
  match (p ← pem; cl_not_after cl p) with
  | None => mret false
  | Some notAfter =>
      now ← time_now;
      mret (notAfter - now <=? RenewalThreshold)%Z
  end.

Record RenewResult := { rn_cert : string; rn_key : string; rn_ca_chain : string }.

(** The delays between attempts; nothing calls this. *)
Definition retryBackoff : list Z := [5 * minute; 15 * minute; hour; 4 * hour]%Z.
Definition RetryBackoff (attempt : Z) : Z :=
  let attempt := if (attempt <? 0)%Z then 0%Z else attempt in
  if (4 <=? attempt)%Z then (4 * hour)%Z else default (4 * hour)%Z (retryBackoff !! Z.to_nat attempt).

(** The server's side of a renewal: [Renew] behind the client-certificate
    middleware, with the certificate of the connection. *)
Definition renew_handler (cert : PeerCert) (csr : string) : Handler unit :=
  MTLS (sv_headers sv) (sv_ca_pool sv) (fun ctx => Renew (sv_x509 sv) (sv_audit sv) "POST" ctx (Some csr)) (sv_ctx sv)
    {| ar_peer_certs := [cert]; ar_client_cert_header := "" |}.

Definition renew_response (resp : option Response) : option (string * string) :=
  match resp with
  | Some (ROk code (BRenew cert chain)) => if (code =? 200)%Z then Some (cert, chain) else None
  | _ => None
  end.

(** [Renew]; [None] is an error. *)
Definition RenewClient (cert : PeerCert) : prog Boot R (option RenewResult) :=
  key ← random_hex;
  match (k ← key; csr ← cl_csr cl (cl_hostname cl) k; Some (k, csr)) with
  | None => mret None
  | Some (key, csr) =>
      resp ← do_request bt_db put_db (renew_handler cert csr);
      mret ('(new, chain) ← renew_response resp;
            keyPEM ← cl_key_pem cl key;
            Some {| rn_cert := new; rn_key := keyPEM; rn_ca_chain := chain |})
  end.

Definition SaveRenewal (r : RenewResult) : prog FS R bool :=
  write_all [(ClientCertPath plat, rn_cert r); (ClientKeyPath plat, rn_key r); (CACertPath plat, rn_ca_chain r)].

(** ** The start of the daemon *)

Definition ReadAgentID : prog FS R (option string) :=
  data ← read_file (AgentIDPath plat);
  mret (match data with
        | None => None
        | Some d => if TrimSpace d =s "" then None else Some (TrimSpace d)
        end).

(** The block that enrolls when there is no agent ID; the pool only decides how
    the server is authenticated. *)
Definition enroll_and_save : prog Boot R (option string) :=
  _ ← on_disk LoadCAPool;
  result ← EnrollClient;
  match result with
  | None => mret None
  | Some r =>
      ok ← on_disk (SaveCredentials r);
      mret (if ok : bool then Some (en_agent_id r) else None)
  end.

Definition ensure_enrolled : prog Boot R (option string) :=
  agentID ← on_disk ReadAgentID;
  match agentID with
  | Some id => mret (Some id)
  | None => enroll_and_save
  end.

(** The block that renews a certificate close to its end; the provider's
    certificate afterwards. *)
Definition renew_if_needed (cert : PeerCert) : prog Boot R PeerCert :=
  needs ← on_disk NeedsRenewal;
  if negb needs then mret cert
  else
    result ← RenewClient cert;
    match result with
    | None => mret cert
    | Some r =>
        ok ← on_disk (SaveRenewal r);
        if negb ok then mret cert else on_disk (Swap cert)
    end.

(** [runDaemon] up to the running agent: its ID and the certificate its requests
    carry; [None] is an error that ends the process. *)
Definition start_agent : prog Boot R (option (string * PeerCert)) :=
  agentID ← ensure_enrolled;
  match agentID with
  | None => mret None
  | Some id =>
      cert ← on_disk NewCertProvider;
      match cert with
      | None => mret None
      | Some cert =>
          pool ← on_disk LoadCAPool;
          if negb pool then mret None
          else
            cert ← renew_if_needed cert;
            mret (Some (id, cert))
      end
  end.

End Client.

(** ** Lemmas *)

(** What is relied on of the certificate functions: a generated key can be
    stored, and a certificate issued for a key's CSR loads with that key, in the
    name and under the serial number it was issued with. *)
Class ClientLaws (cl : ClientLib) (x : X509) := {
  key_stored : forall host key csr, cl_csr cl host key = Some csr -> is_Some (cl_key_pem cl key);
  pair_issued : forall host key csr kpem block c tpl der,
    cl_csr cl host key = Some csr -> cl_key_pem cl key = Some kpem ->
    pem_decode x csr = Some block -> parse_csr x block = Some c -> create_certificate x tpl (csr_key c) = Some der ->
    exists cert, cl_pair cl (pem_encode x der) kpem = Some cert /\
      pc_common_name cert = tpl_common_name tpl /\ pc_serial cert = tpl_serial tpl;
}.

Lemma enroll_response_error r : resp_status r <> 200%Z -> enroll_response (Some r) = None.
Proof. destruct r as [|code body]; simpl; [done|]. intros Hne%Z.eqb_neq. rewrite Hne. by destruct body. Qed.

Lemma renew_response_error r : resp_status r <> 200%Z -> renew_response (Some r) = None.
Proof. destruct r as [|code body]; simpl; [done|]. intros Hne%Z.eqb_neq. rewrite Hne. by destruct body. Qed.

Section Files.
Context {R : Type} (E : Env -> Prop).

Lemma on_disk_rg {A : Type} (p : prog FS R A) (Q : R + A -> Boot -> Prop) s :
  rg E (=) any p (fun r fs => Q r (put_files fs s)) (bt_fs s) ->
  rg E (=) (fun _ _ => True) (on_disk p) Q s.
Proof. intros H. by apply rg_zoom; [by intros []|done..|]. Qed.

(** A program that only reads. *)
Lemma on_disk_same {A : Type} (p : prog FS R A) (Q : R + A -> Boot -> Prop) s :
  rg E (=) any p (fun r fs => fs = bt_fs s /\ Q r s) (bt_fs s) -> rg E (=) (fun _ _ => True) (on_disk p) Q s.
Proof. intros H. apply on_disk_rg. eapply rg_mono; [|exact H]. intros r fs [-> HQ]. by destruct s. Qed.

Lemma read_rg path (Q : R + option string -> FS -> Prop) fs :
  (may_fault E -> Q (inr None) fs) -> Q (inr (fs_files fs !! path)) fs -> rg E (=) any (read_file path) Q fs.
Proof.
  intros H1 H2 fs1 e He <-. split; [done|]. simpl. destruct (e_fault e) eqn:Ef; [|done]. apply H1. by exists e.
Qed.

Lemma write_rg path c (Q : R + bool -> FS -> Prop) fs :
  (may_fault E -> forall fs', kept [path] fs fs' -> Q (inr false) fs') -> Q (inr true) (set_file path c fs) ->
  rg E (=) any (write_file path c) Q fs.
Proof.
  intros H1 H2 fs1 e He <-. split; [done|]. simpl. destruct (e_fault e) eqn:Ef; [|done].
  assert (may_fault E) as Hm by (by exists e). destruct (e_faults e 0); apply H1; try done. apply kept_set. set_solver.
Qed.

(** The files of a save: all of them are written, or none but them changed. *)
Lemma write_all_rg files : forall fs (Q : R + bool -> FS -> Prop),
  NoDup files.*1 ->
  (may_fault E -> forall fs', kept files.*1 fs fs' -> Q (inr false) fs') ->
  (forall fs', kept files.*1 fs fs' -> (forall p d, (p, d) ∈ files -> fs_files fs' !! p = Some d) -> Q (inr true) fs') ->
  rg E (=) any (write_all files) Q fs.
Proof.
  induction files as [|[path data] rest IH]; intros fs Q Hnd Hf Ht; cbn [write_all].
  - apply Ht; [done|]. by intros p d ?%elem_of_nil.
  - apply NoDup_cons in Hnd as [Hnin Hnd]. rg_step.
    assert (forall a b, kept [path] a b -> kept (path :: rest.*1) a b) as Hmore by (intros; by eapply kept_more; [|done]; set_solver).
    apply write_rg; cbn [negb].
    { intros Hm fs' Hk. rg_step. apply Hf; auto. }
    assert (kept (path :: rest.*1) fs (set_file path data fs)) as Hk0 by (apply kept_set; set_solver).
    apply IH; [done| |].
    + intros Hm fs' Hk. apply Hf; [done|]. etrans; [exact Hk0|]. eapply kept_more; [|done]; set_solver.
    + intros fs' Hk Hall. apply Ht; [etrans; [exact Hk0|]; eapply kept_more; [|done]; set_solver|].
      intros p d [[= -> ->]|Hin]%elem_of_cons; [|by apply Hall].
      destruct Hk as [Hk _]. rewrite (Hk path) by done. simpl. by rewrite lookup_insert_eq.
Qed.
End Files.

Section Rules.
Context {R : Type} (E : Env -> Prop) (cl : ClientLib) (sv : Server) (plat : Platform).
Notation x := (sv_x509 sv).
Notation file s path := (fs_files (bt_fs s) !! path).

Lemma creds_placed : well_placed plat ->
  NoDup [ClientCertPath plat; ClientKeyPath plat; CACertPath plat; AgentIDPath plat; EnrollmentTokenPath plat].
Proof. unfold well_placed, file_paths. rewrite !NoDup_cons. set_solver. Qed.

(** The token of the agent's token file is used up. *)
Definition token_used (s : Boot) (db : DB) : Prop :=
  exists raw, file s (EnrollmentTokenPath plat) = Some raw /\
    (hash_unique (bt_db s) -> token_spent (hashToken x (TrimSpace raw)) db).

Lemma detectOS_rg (Q : R + string * string -> Boot -> Prop) s :
  (forall os, Q (inr os) s) -> rg E (=) (fun _ _ => True) (on_disk (detectOS cl)) Q s.
Proof.
  intros HQ. apply on_disk_same. unfold detectOS, readOSRelease. case_match; [|by rg_step].
  rg_step. rg_step. apply read_rg; by repeat rg_step.
Qed.

(** Enrollment from the agent's side: with a result, the server knows the identity
    the result stands for. *)
Lemma EnrollClient_rg (Q : R + option EnrollResult -> Boot -> Prop) s :
  (forall db', fleet db' = fleet (bt_db s) \/ token_used s db' -> Q (inr None) (put_db db' s)) ->
  (forall key csr kpem id sg dv db',
     token_used s db' -> cl_csr cl (cl_hostname cl) key = Some csr -> cl_key_pem cl key = Some kpem ->
     issued x csr id defaultCertValidity sg -> devices db' !! id = Some dv ->
     find_identity id (sg_serial sg) db' = Some (dev_tenant dv, DeviceStatusOnline, None) ->
     Q (inr (Some {| en_agent_id := id; en_cert := sg_pem sg; en_key := kpem; en_ca_chain := CAChainPEM x;
                     en_poll_interval := 30 |})) (put_db db' s)) ->
  rg E (=) (fun _ _ => True) (EnrollClient cl sv plat) Q s.
Proof.
  intros Hno Hyes. assert (Q (inr None) s) as Hs by (destruct s; apply (Hno _ (or_introl eq_refl))).
  unfold EnrollClient. rg_step. apply on_disk_same, read_rg; [by split|]. split; [done|].
  destruct (file s _) as [raw|] eqn:Eraw; [|by rg_step]. cbv zeta. destruct (TrimSpace raw =s ""); [by rg_step|].
  rg_step. apply rg_random_hex; [done|]. intros key.
  destruct (k ← key; csr ← cl_csr cl (cl_hostname cl) k; Some (k, csr)) as [[k csr]|] eqn:Ek; [|by rg_step].
  apply bind_Some in Ek as (k0 & -> & (csr0 & Hcsr & [= -> ->])%bind_Some).
  rg_step. apply detectOS_rg. intros os. rg_step. apply rg_request; [by intros []|done|done|intros _; by rg_step|].
  apply enroll_rg.
  - intros r db' Hr Hf. split; [intros _; rg_step; by apply Hno; left|].
    rg_step. rewrite enroll_response_error by done. by apply Hno; left.
  - intros req id sg dv db' [= <-] Hsp Hsg Hd Hf. assert (token_used s db') as Htok by (by exists raw).
    split; [intros _; rg_step; by apply Hno; right|]. cbn [answer JSON enroll_response Z.eqb Pos.eqb]. rg_step. simpl mbind.
    destruct (cl_key_pem cl k) as [kpem|] eqn:Ekp; [|by apply Hno; right]. by eapply Hyes.
Qed.

(** The credentials of an enrollment are on disk. *)
Definition saved (r : EnrollResult) (fs : FS) : Prop :=
  fs_files fs !! ClientCertPath plat = Some (en_cert r) /\ fs_files fs !! ClientKeyPath plat = Some (en_key r) /\
  fs_files fs !! CACertPath plat = Some (en_ca_chain r) /\ fs_files fs !! AgentIDPath plat = Some (en_agent_id r).

Lemma SaveCredentials_rg r fs (Q : R + bool -> FS -> Prop) :
  well_placed plat ->
  (may_fault E -> forall fs', fs_files fs' !! EnrollmentTokenPath plat = fs_files fs !! EnrollmentTokenPath plat -> Q (inr false) fs') ->
  (forall fs', saved r fs' -> Q (inr true) fs') ->
  rg E (=) any (SaveCredentials plat r) Q fs.
Proof.
  intros Hp%creds_placed Hf Ht. unfold SaveCredentials. rewrite !NoDup_cons in Hp. rg_step.
  apply write_all_rg; cbn [fmap list_fmap fst negb]; [rewrite !NoDup_cons; set_solver| |].
  - intros Hm fs' [Hk _]. rg_step. apply Hf; [done|]. apply Hk. set_solver.
  - intros fs' [Hk _] Hall. intros fs1 e He <-. split; [done|]. destruct (e_fault e) eqn:Ef; cbn [fst snd rg].
    + apply Hf; [by exists e|]. apply Hk. set_solver.
    + apply Ht. unfold saved. simpl. rewrite !lookup_delete_ne by set_solver. split_and!; apply Hall; set_solver.
Qed.

(** The pair of the agent's credential files. *)
Definition stored_pair (fs : FS) : option PeerCert :=
  cert ← fs_files fs !! ClientCertPath plat; key ← fs_files fs !! ClientKeyPath plat; cl_pair cl cert key.

Lemma NewCertProvider_rg fs (Q : R + option PeerCert -> FS -> Prop) :
  (may_fault E -> Q (inr None) fs) ->
  Q (inr (stored_pair fs)) fs ->
  rg E (=) any (NewCertProvider cl plat) Q fs.
Proof.
  intros Hf Ht. unfold stored_pair in Ht. unfold NewCertProvider. rg_step. apply read_rg; [intros Hm; rg_step; auto|].
  destruct (fs_files fs !! ClientCertPath plat) as [cert|]; [|by rg_step]. rg_step.
  apply read_rg; [intros Hm; rg_step; auto|]. by rg_step.
Qed.

Lemma LoadCAPool_rg (Q : R + bool -> Boot -> Prop) s :
  (forall b, Q (inr b) s) -> rg E (=) (fun _ _ => True) (on_disk (LoadCAPool cl plat)) Q s.
Proof. intros HQ. apply on_disk_same. unfold LoadCAPool. rg_step. apply read_rg; by repeat rg_step. Qed.

Lemma NeedsRenewal_rg (Q : R + bool -> Boot -> Prop) s :
  (forall b, Q (inr b) s) -> rg E (=) (fun _ _ => True) (on_disk (NeedsRenewal cl plat)) Q s.
Proof.
  intros HQ. apply on_disk_same. unfold NeedsRenewal. rg_step. apply read_rg.
  - intros _. by split.
  - destruct (p ← _; cl_not_after cl p); repeat rg_step; auto.
Qed.

(** A certificate that no longer stands for its device. *)
Definition useless (cert : PeerCert) (db : DB) : Prop := forall T, ~ valid_identity (pc_common_name cert) cert T db.

(** The server's side of a renewal. *)
Lemma renew_handler_rg cert csr db (Q : Response + unit -> DB -> Prop) :
  (forall r, resp_status r <> 200%Z -> Q (inl r) db) ->
  (forall sg T st s, issued x csr (pc_common_name cert) defaultCertValidity sg ->
     find_identity (pc_common_name cert) (sg_serial sg) s = Some (T, st, None) -> st <> "revoked" ->
     pc_common_name cert <> "" -> ~ useless cert db -> useless cert s ->
     Q (inl (JSON 200 (BRenew (sg_pem sg) (CAChainPEM x)))) s) ->
  rg E (=) (fun _ _ => True) (renew_handler sv cert csr) Q db.
Proof.
  intros Hno Hyes. unfold renew_handler. apply (MTLS_rg E _ _ _ _ _ _ cert); [done|done|].
  intros T Hv. pose proof Hv as (_ & Hne & st & Hf & Hst). apply renew_rg; [done|]. cbn [as_agent ctx_agent].
  intros csr' certID sg now s [= <-] Hsg _ Hn Hser Hdev Hcerts.
  apply find_identity_Some in Hf as (d & id & c & Hd & <- & <- & Hc & Hcd & Hcs & Hrev).
  assert (sg_serial sg <> pc_serial cert) as Hnew by (rewrite <-Hcs; intros Heq; by apply (Hser id c)).
  apply (Hyes sg (dev_tenant d) (dev_status d)); [done| |done|done|intros Hu; by apply (Hu _ Hv)|].
  - apply (find_identity_unique _ _ s d certID (new_cert (pc_common_name cert) sg now)); try done; [by rewrite Hdev| |].
    + rewrite Hcerts. unfold renewed. rewrite lookup_update_where, lookup_insert_eq. simpl. unfold superseded. simpl. by rewrite !seqb_refl.
    + intros k c'. rewrite Hcerts. intros [[-> ->]|(_ & c0 & Hc0 & ->)]%lookup_renewed Heq; [done|].
      exfalso. apply (Hser k c0 Hc0). by destruct (superseded _ _ _ c0).
  - intros T' (_ & _ & st' & (d' & id' & c' & _ & _ & _ & Hc' & Hcd' & Hcs' & Hr')%find_identity_Some & _).
    rewrite Hcerts in Hc'. apply renewed_only_live in Hc' as [-> ->]; try done. 
Qed.

(** Renewal from the agent's side: without a result the server may have renewed
    all the same, and then the agent's certificate is useless. *)
Lemma RenewClient_rg cert (Q : R + option RenewResult -> Boot -> Prop) s :
  Q (inr None) s ->
  (forall db', ~ useless cert (bt_db s) -> useless cert db' -> may_fault E \/ (exists key csr, cl_csr cl (cl_hostname cl) key = Some csr /\ cl_key_pem cl key = None) ->
     Q (inr None) (put_db db' s)) ->
  (forall key csr kpem sg T st db', cl_csr cl (cl_hostname cl) key = Some csr -> cl_key_pem cl key = Some kpem ->
     issued x csr (pc_common_name cert) defaultCertValidity sg ->
     find_identity (pc_common_name cert) (sg_serial sg) db' = Some (T, st, None) -> st <> "revoked" ->
     pc_common_name cert <> "" -> ~ useless cert (bt_db s) -> useless cert db' ->
     Q (inr (Some {| rn_cert := sg_pem sg; rn_key := kpem; rn_ca_chain := CAChainPEM x |})) (put_db db' s)) ->
  rg E (=) (fun _ _ => True) (RenewClient cl sv cert) Q s.
Proof.
  intros Hs Hlost Hyes. unfold RenewClient. rg_step. apply rg_random_hex; [done|]. intros key.
  destruct (k ← key; csr ← cl_csr cl (cl_hostname cl) k; Some (k, csr)) as [[k csr]|] eqn:Ek; [|by rg_step].
  apply bind_Some in Ek as (k0 & -> & (csr0 & Hcsr & [= -> ->])%bind_Some).
  rg_step. apply rg_request; [by intros []|done|done|intros _; by rg_step|]. apply renew_handler_rg.
  - intros r Hr. replace (put_db (bt_db s) s) with s by (by destruct s).
    split; [intros _; by rg_step|]. rg_step. by rewrite renew_response_error.
  - intros sg T st db' Hsg Hf Hst Hne Hv Hu. split; [intros Hm; rg_step; by apply Hlost; [..|left]|].
    rg_step. cbn [answer JSON renew_response Z.eqb Pos.eqb]. simpl mbind.
    destruct (cl_key_pem cl k) as [kpem|] eqn:Ekp; [by eapply Hyes|]. apply Hlost; [done|done|]. right. by exists k, csr.
Qed.

End Rules.

Lemma stored_pair_Some cl plat fs c k cert :
  fs_files fs !! ClientCertPath plat = Some c -> fs_files fs !! ClientKeyPath plat = Some k -> cl_pair cl c k = Some cert ->
  stored_pair cl plat fs = Some cert.
Proof. intros Hc Hk Hp. unfold stored_pair. by rewrite Hc, Hk. Qed.

Section Starts.
Context (cl : ClientLib) (sv : Server) (plat : Platform).
Notation x := (sv_x509 sv).
Notation file s path := (fs_files (bt_fs s) !! path).
Notation start := (start_agent cl sv plat : prog Boot Empty_set _).

Lemma issued_pair `{!ClientLaws cl x} key csr kpem id sg :
  cl_csr cl (cl_hostname cl) key = Some csr -> cl_key_pem cl key = Some kpem ->
  issued x csr id defaultCertValidity sg ->
  exists cert, cl_pair cl (sg_pem sg) kpem = Some cert /\ pc_common_name cert = id /\ pc_serial cert = sg_serial sg.
Proof.
  intros Hcsr Hk (block & c & now & der & Hb & Hc & _ & _ & Hd & -> & _).
  by destruct (pair_issued _ _ _ _ _ _ _ _ Hcsr Hk Hb Hc Hd) as (cert & Hp & Hcn & Hser); eauto.
Qed.

(** Renewal keeps a working identity when nothing fails. *)
Lemma renew_if_needed_ok `{!ClientLaws cl x} id cert T s (Q : Empty_set + PeerCert -> Boot -> Prop) :
  well_placed plat -> valid_identity id cert T (bt_db s) ->
  (forall cert' T' s', valid_identity id cert' T' (bt_db s') -> Q (inr cert') s') ->
  rg ok_env (=) (fun _ _ => True) (renew_if_needed cl sv plat cert) Q s.
Proof.
  intros Hp%creds_placed Hv HQ. rewrite !NoDup_cons in Hp. pose proof Hv as (Hcn & Hne & _). unfold renew_if_needed. rg_step.
  apply NeedsRenewal_rg. intros [|]; cbn [negb]; [|rg_step; by eapply HQ]. rg_step. apply RenewClient_rg.
  - rg_step. by eapply HQ.
  - intros db' _ _ [[]%ok_env_no_fault|(key & csr & Hcsr & Hk)]. apply key_stored in Hcsr as [? Hs]. congruence.
  - intros key csr kpem sg T' st db' Hcsr Hk Hsg Hf Hst _ _ _. rewrite Hcn in *.
    destruct (issued_pair _ _ _ _ _ Hcsr Hk Hsg) as (cert' & Hpair & Hcn' & Hser).
    rg_step. apply on_disk_rg, write_all_rg; cbn [fmap list_fmap fst negb]; [rewrite !NoDup_cons; set_solver|by intros []%ok_env_no_fault|].
    intros fs' _ Hall. apply on_disk_rg. unfold Swap. rg_step. apply NewCertProvider_rg; [by intros []%ok_env_no_fault|].
    cbn [bt_fs put_files]. rewrite (stored_pair_Some cl plat fs' (sg_pem sg) kpem cert') by (done || apply Hall; set_solver).
    rg_step. apply (HQ cert' T'). split_and!; [done|done|]. rewrite Hser. by exists st.
Qed.

(** The agent ID is on disk, or the agent enrolls. *)
Lemma ensure_enrolled_rg E s (Q : Empty_set + option string -> Boot -> Prop) :
  (forall id, is_Some (file s (AgentIDPath plat)) -> Q (inr (Some id)) s) ->
  rg E (=) (fun _ _ => True) (enroll_and_save cl sv plat) Q s ->
  rg E (=) (fun _ _ => True) (ensure_enrolled cl sv plat) Q s.
Proof.
  intros Hid Hnone. unfold ensure_enrolled, ReadAgentID. rg_step. apply on_disk_same. rg_step.
  apply read_rg; [intros _; rg_step; by split|]. rg_step. split; [done|].
  destruct (file s (AgentIDPath plat)) as [d|]; [|exact Hnone]. destruct (TrimSpace d =s ""); [exact Hnone|]. rg_step. by apply Hid.
Qed.

(** A fresh agent's start, when nothing fails. *)
Lemma start_fresh_ok `{!ClientLaws cl x} s :
  well_placed plat -> file s (AgentIDPath plat) = None ->
  rg ok_env (=) (fun _ _ => True) start
    (fun r s' => forall id cert, r = inr (Some (id, cert)) -> id <> "" -> exists T, valid_identity id cert T (bt_db s')) s.
Proof.
  intros Hp Hid. unfold start_agent. rg_step. apply ensure_enrolled_rg; [rewrite Hid; by intros ? []|]. unfold enroll_and_save.
  rg_step. apply LoadCAPool_rg. intros _. rg_step. apply EnrollClient_rg; [intros; rg_step; by rg_step|].
  intros key csr kpem id sg dv db' _ Hcsr Hk Hsg Hd Hf. rg_step. apply on_disk_rg, SaveCredentials_rg; [done|by intros []%ok_env_no_fault|].
  intros fs' (Hc & Hkey & _). cbn [en_cert en_key] in Hc, Hkey. do 2 rg_step. apply on_disk_rg, NewCertProvider_rg; [by intros []%ok_env_no_fault|].
  cbn [bt_fs put_files]. destruct (issued_pair _ _ _ _ _ Hcsr Hk Hsg) as (cert & Hpair & Hcn & Hser).
  rewrite (stored_pair_Some cl plat fs' (sg_pem sg) kpem cert) by done. rg_step. apply LoadCAPool_rg. intros [|]; cbn [negb en_agent_id]; [|by rg_step].
  rg_step. destruct (decide (id = "")) as [->|Hne].
  - apply rg_always. intros [[]|cert'] s'. rg_step. by intros id' ? [= <- _].
  - apply (renew_if_needed_ok id cert (dev_tenant dv)); [done| |].
    + split_and!; [done|done|]. rewrite Hser. by exists DeviceStatusOnline.
    + intros cert' T' s' Hv. rg_step. intros id' cert'' [= <- <-] _. by exists T'.
Qed.

(** *** A lost renewal *)

(** An enrolled agent whose stored certificate is useless: nothing it does at a
    start changes anything. *)
Definition locked_out (cert : PeerCert) (s : Boot) : Prop :=
  file s (EnrollmentTokenPath plat) = None /\ stored_pair cl plat (bt_fs s) = Some cert /\ useless cert (bt_db s).

(** A start of an agent without an enrollment token. *)
Lemma ensure_enrolled_tokenless s (Q : Empty_set + option string -> Boot -> Prop) :
  file s (EnrollmentTokenPath plat) = None -> (forall o, Q (inr o) s) ->
  rg any_env (=) (fun _ _ => True) (ensure_enrolled cl sv plat) Q s.
Proof.
  intros Ht HQ. apply ensure_enrolled_rg; [done|]. unfold enroll_and_save. rg_step. apply LoadCAPool_rg. intros _.
  rg_step. unfold EnrollClient. rg_step. apply on_disk_same, read_rg; rewrite ?Ht; [intros _|]; (split; [done|]); rg_step; by rg_step.
Qed.

(** The renewal block, whatever fails: nothing happened, or the server renewed and
    the old certificate is useless. *)
Lemma renew_if_needed_rg cert s (Q : Empty_set + PeerCert -> Boot -> Prop) :
  well_placed plat -> Q (inr cert) s ->
  (forall c s', ~ useless cert (bt_db s) -> useless cert (bt_db s') ->
     kept [ClientCertPath plat; ClientKeyPath plat; CACertPath plat] (bt_fs s) (bt_fs s') -> Q (inr c) s') ->
  rg any_env (=) (fun _ _ => True) (renew_if_needed cl sv plat cert) Q s.
Proof.
  intros Hw%creds_placed Hs Hr. rewrite !NoDup_cons in Hw.
  unfold renew_if_needed. rg_step. apply NeedsRenewal_rg. intros [|]; cbn [negb]; [|by rg_step].
  rg_step. apply RenewClient_rg; [by rg_step|intros db' Hv Hu _; rg_step; by apply Hr|].
  intros key csr kpem sg T st db' _ _ _ _ _ _ Hv Hu.
  rg_step. apply on_disk_rg, write_all_rg; cbn [fmap list_fmap fst negb]; [rewrite !NoDup_cons; set_solver| |]; intros.
  - rg_step. by apply Hr.
  - apply on_disk_rg. unfold Swap. rg_step. apply NewCertProvider_rg; [intros _|]; rg_step; by apply Hr.
Qed.

Lemma start_tokenless cert s (Q : Empty_set + option (string * PeerCert) -> Boot -> Prop) :
  well_placed plat ->
  file s (EnrollmentTokenPath plat) = None -> stored_pair cl plat (bt_fs s) = Some cert ->
  Q (inr None) s -> (forall id, Q (inr (Some (id, cert))) s) ->
  (forall r s', ~ useless cert (bt_db s) -> useless cert (bt_db s') ->
     kept [ClientCertPath plat; ClientKeyPath plat; CACertPath plat] (bt_fs s) (bt_fs s') -> Q (inr r) s') ->
  rg any_env (=) (fun _ _ => True) start Q s.
Proof.
  intros Hw Ht Hp Hn Hs Hr.
  unfold start_agent. rg_step. apply ensure_enrolled_tokenless; [done|]. intros [id|]; [|by rg_step].
  rg_step. apply on_disk_same, NewCertProvider_rg; [intros _; split; [done|by rg_step]|]. split; [done|]. rewrite Hp.
  rg_step. apply LoadCAPool_rg. intros [|]; cbn [negb]; [|by rg_step].
  rg_step. apply renew_if_needed_rg; [done|by rg_step|]. intros c s' Hv Hu Hk. rg_step. by apply Hr.
Qed.

Lemma locked_start cert s :
  well_placed plat -> locked_out cert s ->
  rg any_env (=) (fun _ _ => True) start
    (fun r s' => s' = s /\ match r with inr (Some (_, c)) => c = cert | _ => True end) s.
Proof. intros Hw (Ht & Hp & Hu). by apply (start_tokenless cert). Qed.

(** *** A lost enrollment *)

(** An agent that is not enrolled and whose token is used up. *)
Definition stranded (s : Boot) : Prop :=
  file s (AgentIDPath plat) = None /\
  exists raw, file s (EnrollmentTokenPath plat) = Some raw /\ token_spent (hashToken x (TrimSpace raw)) (bt_db s).

Lemma enroll_spent_rg (E : Env -> Prop) audit quota method req db (Q : Response + unit -> DB -> Prop) :
  token_spent (hashToken x (er_token req)) db ->
  (forall r s, resp_status r <> 200%Z -> fleet s = fleet db -> token_spent (hashToken x (er_token req)) s -> Q (inl r) s) ->
  rg E (=) (fun _ _ => True) (Enroll x audit quota method (Some req)) Q db.
Proof.
  intros Hsp Hno. unfold Enroll. case_match; [by apply Hno|]. case_match; [by apply Hno|].
  rg_step. unfold ValidateAndConsume. do 4 rg_step; [intros _; by apply Hno|]. unfold sql_consume. cbv beta iota. split; [done|].
  destruct (head _) as [[tid tk]|] eqn:Eh; simpl fmap; cbv beta iota.
  - exfalso. apply head_select_where in Eh as [Ht Hv]. unfold token_valid in Hv. reflect_bools.
    apply (Hsp tid tk); [done|done|]. by case_match.
  - rg_step. apply Hno; [done|done|]. intros i t' (t1 & Hi & E1 & Hc)%lookup_consume Hh.
    destruct (token_valid _ _ t1); [by rewrite Hc|]. subst t1. eauto.
Qed.

Lemma EnrollClient_spent raw s (Q : Empty_set + option EnrollResult -> Boot -> Prop) :
  file s (EnrollmentTokenPath plat) = Some raw -> token_spent (hashToken x (TrimSpace raw)) (bt_db s) ->
  (forall db', fleet db' = fleet (bt_db s) -> token_spent (hashToken x (TrimSpace raw)) db' -> Q (inr None) (put_db db' s)) ->
  rg any_env (=) (fun _ _ => True) (EnrollClient cl sv plat) Q s.
Proof.
  intros Hraw Hsp HQ. assert (Q (inr None) s) as Hs by (destruct s; by apply HQ).
  unfold EnrollClient. rg_step. apply on_disk_same, read_rg; [by intros _|]. split; [done|]. rewrite Hraw. cbv zeta.
  destruct (TrimSpace raw =s ""); [by rg_step|]. rg_step. apply rg_random_hex; [done|]. intros key.
  destruct (k ← key; csr ← cl_csr cl (cl_hostname cl) k; Some (k, csr)) as [[k csr]|]; [|by rg_step].
  rg_step. apply detectOS_rg. intros os. rg_step. apply rg_request; [by intros []|done|done|intros _; by rg_step|].
  apply enroll_spent_rg; [done|]. intros r db' Hr Hf Hsp'. split; [intros _; rg_step; by apply HQ|].
  rg_step. rewrite enroll_response_error by done. by apply HQ.
Qed.

Lemma stranded_start s :
  stranded s ->
  rg any_env (=) (fun _ _ => True) start
    (fun r s' => r = inr None /\ stranded s' /\ fleet (bt_db s') = fleet (bt_db s)) s.
Proof.
  intros (Hid & raw & Hraw & Hsp).
  unfold start_agent. rg_step. apply ensure_enrolled_rg; [rewrite Hid; by intros ? []|]. unfold enroll_and_save.
  rg_step. apply LoadCAPool_rg. intros _. rg_step. apply (EnrollClient_spent raw); [done|done|].
  intros db' Hf Hsp'. do 2 rg_step. split_and!; [done| |done]. split; [done|]. by exists raw.
Qed.

(** A start of an agent that is not enrolled yet: the server may have enrolled it,
    and then the token is used up. *)
Lemma fresh_start s :
  well_placed plat -> file s (AgentIDPath plat) = None -> hash_unique (bt_db s) ->
  rg any_env (=) (fun _ _ => True) start
    (fun _ s' => file s' (AgentIDPath plat) = None -> stranded s' \/ fleet (bt_db s') = fleet (bt_db s)) s.
Proof.
  intros Hp Hid Hu. pose proof (creds_placed _ Hp) as Hw. rewrite !NoDup_cons in Hw.
  unfold start_agent. rg_step. apply ensure_enrolled_rg; [rewrite Hid; by intros ? []|]. unfold enroll_and_save.
  rg_step. apply LoadCAPool_rg. intros _. rg_step. apply EnrollClient_rg.
  - intros db' [Hf|(raw & Hraw & Hsp)]; do 2 rg_step; intros _; [by right|]. left. split; [done|]. exists raw. auto.
  - intros key csr kpem id sg dv db' (raw & Hraw & Hsp) _ _ _ _ _. rg_step.
    apply on_disk_rg, SaveCredentials_rg; [done| |].
    + intros _ fs' Hkeep. do 2 rg_step. intros Hno. left. split; [done|]. exists raw. split; [|by apply Hsp].
      simpl. simpl in Hkeep. by rewrite Hkeep.
    + intros fs' (_ & _ & _ & Hid'). do 2 rg_step. set (s1 := put_files fs' (put_db db' s)).
      assert (forall s', kept [ClientCertPath plat; ClientKeyPath plat; CACertPath plat] (bt_fs s1) (bt_fs s') ->
        file s' (AgentIDPath plat) <> None) as Hstill.
      { intros s' [Hk _]. rewrite Hk by set_solver. simpl. by rewrite Hid'. }
      apply on_disk_same, NewCertProvider_rg; [intros _; split; [done|]; rg_step; intros ?; by destruct (Hstill s1)|]. split; [done|].
      destruct (stored_pair _ _ _) as [cert|]; [|rg_step; intros ?; by destruct (Hstill s1)].
      rg_step. apply LoadCAPool_rg. intros [|]; cbn [negb]; [|rg_step; intros ?; by destruct (Hstill s1)].
      rg_step. apply renew_if_needed_rg; [done|rg_step; intros ?; by destruct (Hstill s1)|].
      intros c s' _ _ Hk. rg_step. intros ?. by destruct (Hstill s').
Qed.

(** A run of starts, one after the other. *)
Definition starts (envs : list (nat -> Env)) (s : Boot) : Boot := foldl (fun s env => run_store start env s) s envs.

End Starts.

(** ** Properties *)

Notation start cl sv plat := (start_agent cl sv plat : prog Boot Empty_set _).

(** C20: A first start in which nothing fails ends with an identity the server
    accepts: the agent that comes up, enrolled with the token of its token file
    (and renewed, if its certificate is already near its end), is let through to
    every agent endpoint as the device it was enrolled as. *)
Theorem startup_authenticates cl sv plat `{!ClientLaws cl (sv_x509 sv)} env s id cert :
  well_placed plat -> (forall n, ok_env (env n)) -> fs_files (bt_fs s) !! AgentIDPath plat = None ->
  run_result (start cl sv plat) env s = inr (Some (id, cert)) -> id <> "" ->
  let db' := bt_db (run_store (start cl sv plat) env s) in
  exists T, forall (next : Ctx -> Handler unit) env' ctx, (pc_not_before cert <= e_now (env' 0%nat) <= pc_not_after cert)%Z -> e_fault (env' 1%nat) = false ->
    run (MTLS (sv_headers sv) (sv_ca_pool sv) next ctx {| ar_peer_certs := [cert]; ar_client_cert_header := "" |}) env' 0 db'
    = run (next (as_agent ctx id T)) env' 2 db'.
Proof.
  intros Hp Hok Hid Hres Hne. cbv zeta. revert Hres Hne. revert id cert.
  assert (forall id cert, run_result (start cl sv plat) env s = inr (Some (id, cert)) -> id <> "" ->
    exists T, valid_identity id cert T (bt_db (run_store (start cl sv plat) env s))) as H.
  { by_rg ok_env (fun _ _ : Boot => True); [apply Hok|]. by apply start_fresh_ok. }
  intros id cert Hres Hne. destruct (H id cert Hres Hne) as [T Hv]. exists T. intros next env' ctx Hnow Hf.
  by apply (MTLS_passes _ _ next env' 0 ctx _ _ id cert T Hv).
Qed.

(** C37: A renewal whose answer does not reach the disk locks the agent out for good:
    once the server has replaced the certificate and the agent still has the old
    pair of files (the answer was lost, or the first write failed), every request
    with that pair is refused, and no later start changes anything: the agent has
    no token to enroll again and may not renew. *)
Theorem lost_renewal_locks_out cl sv plat env s cert envs :
  well_placed plat -> fs_files (bt_fs s) !! EnrollmentTokenPath plat = None ->
  stored_pair cl plat (bt_fs s) = Some cert ->
  let s' := run_store (start cl sv plat) env s in
  agent_certificates (bt_db s') <> agent_certificates (bt_db s) -> stored_pair cl plat (bt_fs s') = Some cert ->
  starts cl sv plat envs s' = s' /\
  (forall env', match run_result (start cl sv plat) env' s' with inr (Some (_, c)) => c = cert | _ => True end) /\
  (forall (next : Ctx -> Handler unit) env' ctx, exists r, run_result (MTLS (sv_headers sv) (sv_ca_pool sv) next ctx
     {| ar_peer_certs := [cert]; ar_client_cert_header := "" |}) env' (bt_db s') = inl r /\ resp_status r <> 200%Z).
Proof.
  intros Hw Ht Hp s' Hch Hp'. assert (locked_out cl plat cert s') as Hl.
  { revert Hch Hp'. unfold s'. by_rg any_env (fun _ _ : Boot => True); [done|].
    apply (start_tokenless _ _ _ cert); [done|done|done|done|done|]. intros r s1 _ Hu [Hk _] _ Hp1.
    split_and!; [|done|done]. rewrite Hk; [done|]. apply creds_placed in Hw. rewrite !NoDup_cons in Hw. set_solver. }
  assert (forall env', run_store (start cl sv plat) env' s' = s' /\
    match run_result (start cl sv plat) env' s' with inr (Some (_, c)) => c = cert | _ => True end) as Hstart.
  { intros env'. clear Hch Hp'. clearbody s'. by_rg any_env (fun _ _ : Boot => True); [done|]. by apply locked_start. }
  split_and!; [|intros env'; apply Hstart|].
  - unfold starts. induction envs as [|e envs IH]; [done|]. simpl. by rewrite (proj1 (Hstart e)).
  - intros next env' ctx. destruct Hl as (_ & _ & Hu). by_rg any_env (fun _ _ : DB => True); [done|].
    apply (MTLS_rg _ _ _ _ _ _ _ cert); [done|by eauto|]. intros T Hv. by destruct (Hu T).
Qed.

(** An enrollment whose answer does not reach the disk strands the agent: once the
    server has enrolled it and the agent ID is not on disk, every later start fails
    and enrolls nothing, because the token in the token file is used up. *)
Theorem lost_enrollment_strands cl sv plat env s envs :
  well_placed plat -> fs_files (bt_fs s) !! AgentIDPath plat = None -> hash_unique (bt_db s) ->
  let s' := run_store (start cl sv plat) env s in
  fleet (bt_db s') <> fleet (bt_db s) -> fs_files (bt_fs s') !! AgentIDPath plat = None ->
  let s'' := starts cl sv plat envs s' in
  fleet (bt_db s'') = fleet (bt_db s') /\ forall env', run_result (start cl sv plat) env' s'' = inr None.
Proof.
  intros Hw Hid Hu s' Hch Hid'. assert (stranded sv plat s') as Hst.
  { assert (fs_files (bt_fs s') !! AgentIDPath plat = None -> stranded sv plat s' \/ fleet (bt_db s') = fleet (bt_db s)) as H.
    { unfold s'. clear Hch Hid' s'. by_rg any_env (fun _ _ : Boot => True); [done|]. by apply fresh_start. }
    by destruct (H Hid'). }
  assert (forall env' s0, stranded sv plat s0 -> run_result (start cl sv plat) env' s0 = inr None /\
    stranded sv plat (run_store (start cl sv plat) env' s0) /\
    fleet (bt_db (run_store (start cl sv plat) env' s0)) = fleet (bt_db s0)) as Hstart.
  { intros env' s0 Hs0. by_rg any_env (fun _ _ : Boot => True); [done|]. by apply stranded_start. }
  clear Hch Hid'. clearbody s'. revert s' Hst. unfold starts. induction envs as [|e envs IH]; intros s' Hst; simpl.
  - split; [done|]. intros env'. by apply Hstart.
  - destruct (Hstart e s' Hst) as (_ & Hst' & <-). by apply IH.
Qed.
