(* ===== verification/Install.v ===== *)
(** * Installing the agent on Linux

    [agent/installer/install_linux.go], [uninstall_linux.go], [helpers.go] and
    [runInstall] of [agent/cmd/agent/main.go], on a file system with owners and
    permissions.  Both run as root; every step may fail. *)

From stdpp Require Import relations.
From S2P Require Import Prelude Text Platform Prog Models JobState Database Scope Quota JobSteps JobsApi Requests Enrollment AgentAuth Update Credentials.

(** ** The machine *)

Record Node := { nd_dir : bool; nd_data : string; nd_owner : string; nd_group : string; nd_mode : Z }.

Record Machine := {
  mc_nodes : gmap string Node;
  mc_groups : gset string;
  mc_users : gset string;
  mc_systemctl : list (list string);   (* the systemctl commands that were run *)
}.

Definition put_nodes (t : gmap string Node) (m : Machine) : Machine :=
  {| mc_nodes := t; mc_groups := mc_groups m; mc_users := mc_users m; mc_systemctl := mc_systemctl m |}.

(** Octal permissions. *)
Definition mode (special user group other : Z) : Z := special * 512 + user * 64 + group * 8 + other.

(** The proper ancestors of an absolute path, the root first. *)
Fixpoint parents_from (base : string) (rest : list string) : list string :=
  match rest with
  | [] | [_] => []
  | c :: rest' => let p := String.append base (String.append "/" c) in p :: parents_from p rest'
  end.
Definition parents (path : string) : list string :=
  "/" :: match split_on slash path with _ :: rest => parents_from "" rest | [] => [] end.

(** ** What a user may do *)

(** The three permission bits that apply to a user with one group. *)
Definition bits_for (user group : string) (n : Node) : Z :=
  if nd_owner n =s user then Z.shiftr (nd_mode n) 6
  else if nd_group n =s group then Z.shiftr (nd_mode n) 3
  else nd_mode n.

Definition can_read (user group : string) (n : Node) : bool := (user =s "root") || Z.testbit (bits_for user group n) 2.
Definition can_write (user group : string) (n : Node) : bool := (user =s "root") || Z.testbit (bits_for user group n) 1.
Definition can_enter (user group : string) (n : Node) : bool := (user =s "root") || Z.testbit (bits_for user group n) 0.

Definition can_reach (user group path : string) (m : Machine) : bool :=
  forallb (fun p => match mc_nodes m !! p with Some n => nd_dir n && can_enter user group n | None => false end) (parents path).

(** The contents of the files a user can read. *)
Definition readable (user group : string) (m : Machine) : gmap string string :=
  map_imap (fun path n => if can_reach user group path m && negb (nd_dir n) && can_read user group n then Some (nd_data n) else None)
    (mc_nodes m).

(** ** Operations of a process that runs as root *)

Section Operations.
Context {R : Type} (umask : Z).

Inductive Stat := Present | Absent | StatError.

Definition stat_path (path : string) : prog Machine R Stat :=
  PStep (fun e m => (m, if e_fault e then StatError else match mc_nodes m !! path with Some _ => Present | None => Absent end)) PRet.

(** What [open] with O_CREATE leaves: a file of root, or the file that was there. *)
Definition created (path data : string) (perm : Z) (m : Machine) : Machine :=
  let n := match mc_nodes m !! path with
           | Some n => {| nd_dir := nd_dir n; nd_data := data; nd_owner := nd_owner n; nd_group := nd_group n; nd_mode := nd_mode n |}
           | None => {| nd_dir := false; nd_data := data; nd_owner := "root"; nd_group := "root"; nd_mode := Z.ldiff perm umask |}
           end in
  put_nodes (<[path := n]> (mc_nodes m)) m.

(** [os.WriteFile]; [true] is a nil error. *)
Definition write_path (path data : string) (perm : Z) : prog Machine R bool :=
  PStep (fun e m =>
    if e_fault e then (if e_faults e 0 then m else created path (e_id e) perm m, false)
    else (created path data perm m, true)) PRet.

Definition read_path (path : string) : prog Machine R (option string) :=
  PStep (fun e m => (m, if e_fault e then None else nd_data <$> mc_nodes m !! path)) PRet.

Definition with_owner (owner group : string) (n : Node) : Node :=
  {| nd_dir := nd_dir n; nd_data := nd_data n; nd_owner := owner; nd_group := group; nd_mode := nd_mode n |}.
Definition with_mode (perm : Z) (n : Node) : Node :=
  {| nd_dir := nd_dir n; nd_data := nd_data n; nd_owner := nd_owner n; nd_group := nd_group n; nd_mode := perm |}.

(** The command chown, its error dropped. *)
Definition chown (owner group path : string) : prog Machine R unit :=
  PStep (fun e m => (if e_fault e then m else put_nodes (alter (with_owner owner group) path (mc_nodes m)) m, tt)) PRet.

Definition chmod_path (path : string) (perm : Z) : prog Machine R bool :=
  PStep (fun e m => match mc_nodes m !! path with
                    | Some n => if e_fault e then (m, false) else (put_nodes (<[path := with_mode perm n]> (mc_nodes m)) m, true)
                    | None => (m, false)
                    end) PRet.

(** [os.MkdirAll]: what is missing is created, the ancestors too. *)
Definition make_dir (perm : Z) (m : Machine) (path : string) : Machine :=
  match mc_nodes m !! path with
  | Some _ => m
  | None => put_nodes (<[path := {| nd_dir := true; nd_data := ""; nd_owner := "root"; nd_group := "root"; nd_mode := Z.ldiff perm umask |}]>
                        (mc_nodes m)) m
  end.
Definition mkdir_all (path : string) (perm : Z) : prog Machine R bool :=
  PStep (fun e m => if e_fault e then (m, false) else (foldl (make_dir perm) m (parents path ++ [path]), true)) PRet.

(** [copyFile] of helpers.go. *)
Definition copy_path (src dst : string) : prog Machine R bool :=
  data ← read_path src;
  match data with
  | None => mret false
  | Some d => write_path dst d (mode 0 6 4 4)
  end.

Definition group_exists (g : string) : prog Machine R bool :=
  PStep (fun e m => (m, negb (e_fault e) && bool_decide (g ∈ mc_groups m))) PRet.
Definition user_exists (u : string) : prog Machine R bool :=
  PStep (fun e m => (m, negb (e_fault e) && bool_decide (u ∈ mc_users m))) PRet.

Definition accounts (gs us : gset string) (m : Machine) : Machine :=
  {| mc_nodes := mc_nodes m; mc_groups := gs; mc_users := us; mc_systemctl := mc_systemctl m |}.

(** groupadd, useradd, groupdel, userdel; [true] is exit status 0. *)
Definition account_cmd (f : Machine -> Machine) : prog Machine R bool :=
  PStep (fun e m => if e_fault e then (m, false) else (f m, true)) PRet.
Definition groupadd (g : string) := account_cmd (fun m => accounts ({[g]} ∪ mc_groups m) (mc_users m) m).
Definition useradd (u : string) := account_cmd (fun m => accounts (mc_groups m) ({[u]} ∪ mc_users m) m).
Definition groupdel (g : string) := account_cmd (fun m => accounts (mc_groups m ∖ {[g]}) (mc_users m) m).
Definition userdel (u : string) := account_cmd (fun m => accounts (mc_groups m) (mc_users m ∖ {[u]}) m).

Definition systemctl (args : list string) : prog Machine R bool :=
  PStep (fun e m => ({| mc_nodes := mc_nodes m; mc_groups := mc_groups m; mc_users := mc_users m; mc_systemctl := mc_systemctl m ++ [args] |},
                     negb (e_fault e))) PRet.

(** systemctl is-active: the state of the service is up to the system. *)
Definition is_active : prog Machine R bool := PStep (fun e m => (m, negb (e_fault e))) PRet.

(** Up to [n] rounds, a second apart. *)
Fixpoint wait_for (n : nat) (check : prog Machine R bool) : prog Machine R bool :=
  match n with
  | 0 => mret false
  | S n' => ok ← check; if ok : bool then mret true else wait_for n' check
  end.

(** [os.RemoveAll]: the path and everything below it. *)
Definition beneath (dir path : string) : bool := (path =s dir) || HasPrefix path (String.append dir "/").
Definition remove_all (path : string) : prog Machine R bool :=
  PStep (fun e m => if e_fault e then (m, false)
                    else (put_nodes (filter (fun pn : string * Node => beneath path pn.1 = false) (mc_nodes m)) m, true)) PRet.

(** [removeIfExists] of helpers.go. *)
Definition removeIfExists (path : string) : prog Machine R bool :=
  st ← stat_path path;
  match st with Absent => mret true | _ => remove_all path end.
End Operations.

(** ** agent/installer/install_linux.go *)

Definition text (ls : list string) : string := String.concat "" (map (fun l => String.append l (char newline)) ls).

Definition systemdUnit : string := text
  ["[Unit]"; "Description=Moebius Device Management Agent"; "After=network-online.target"; "Wants=network-online.target"; "";
   "[Service]"; "Type=exec"; "User=moebius-agent"; "Group=moebius-agent"; "ExecStart=/usr/local/bin/moebius-agent run";
   "ExecReload=/bin/kill -HUP $MAINPID"; "Restart=on-failure"; "RestartSec=10s"; "TimeoutStartSec=30s"; "";
   "# Hardening"; "NoNewPrivileges=yes"; "ProtectSystem=strict"; "ProtectHome=yes";
   "ReadWritePaths=/var/lib/moebius-agent /var/log/moebius-agent /run/moebius-agent /etc/moebius-agent"; "PrivateTmp=yes";
   "PrivateDevices=yes"; "CapabilityBoundingSet=CAP_NET_BIND_SERVICE"; "";
   "[Install]"; "WantedBy=multi-user.target"].

Definition quoted (s : string) : string := String quote (String.append s (char quote)).

(** The configuration file; the URL is not escaped. *)
Definition config_text (serverURL dropDir logDir : string) (cdmEnabled : bool) : string := text
  ["[server]"; String.append "url = " (quoted serverURL); "poll_interval_seconds = 30"; "";
   "[storage]"; String.append "drop_directory = " (quoted dropDir); "space_check_enabled = true"; "space_check_threshold = 0.50"; "";
   "[local_ui]"; "enabled = true"; "port = 57000"; "";
   "[logging]"; String.append "level = " (quoted "info");
   String.append "file = " (quoted (String.append logDir "/moebius-agent.log")); "";
   "[cdm]"; String.append "enabled = " (if cdmEnabled then "true" else "false")].

(** [filepath.Dir]. *)
Definition Dir (s : string) : string := Clean (String.concat "/" (removelast (split_on slash s) ++ [""])).

(** What the process finds out about itself. *)
Record InstallHost := {
  in_euid : Z;                      (* os.Geteuid *)
  in_systemctl : bool;              (* exec.LookPath finds systemctl *)
  in_executable : option string;    (* os.Executable, its symbolic links resolved *)
  in_umask : Z;
}.

Record InstallArgs := { ia_token : string; ia_url : string; ia_ca : string; ia_cdm : bool }.

Inductive InstallError :=
| NotRoot | NoSystemd | TokenRequired | URLRequired | CreateGroup | CreateUser | CreateDir (path : string)
| ChmodDir (path : string) | NoExecutable | CopyBinary | ChmodBinary | WriteConfig | WriteToken | CopyCA | WriteUnit
| DaemonReload | RestartService | EnableService.

(** How an installation without an error ends. *)
Inductive InstallOutcome := Enrolled (id : string) | NotStarted | StoppedUnexpectedly | NotEnrolled.

Definition helper_path : string := "/usr/local/bin/moebius-pkg-helper".
Definition unit_path (plat : Platform) : string :=
  String.append "/etc/systemd/system/" (String.append (ServiceName plat) ".service").

Definition InstallProg := prog Machine InstallError.

(** [if err := ...; err != nil { return err }]. *)
Definition check (p : InstallProg bool) (err : InstallError) : InstallProg unit :=
  ok ← p; if ok : bool then mret tt else stop err.

Section Install.
Context (inst : InstallHost) (plat : Platform) (args : InstallArgs).
Notation svc := (ServiceName plat).
Notation umask := (in_umask inst).

(** Step 1. *)
Definition ensure_accounts : InstallProg unit :=
  g ← group_exists svc;
  _ ← (if g : bool then mret tt else check (groupadd svc) CreateGroup);
  u ← user_exists svc;
  if u : bool then mret tt else check (useradd svc) CreateUser.

(** Step 2. *)
Definition install_dirs : list (string * string * string * Z) :=
  [(ConfigDir plat, "root", svc, mode 0 7 5 0); (DataDir plat, svc, svc, mode 0 7 5 0); (DropDir plat, svc, svc, mode 0 7 5 0);
   (LogDir plat, svc, svc, mode 0 7 5 0); (RuntimeDir plat, svc, svc, mode 0 7 5 0)].

Definition install_dir (_ : unit) (d : string * string * string * Z) : InstallProg unit :=
  let '(path, owner, group, perm) := d in
  _ ← check (mkdir_all umask path perm) (CreateDir path);
  _ ← chown owner group path;
  check (chmod_path path perm) (ChmodDir path).

(** Step 3. *)
Definition backup_binary : InstallProg unit :=
  _ ← copy_path umask (BinaryPath plat) (BinaryPreviousPath plat);
  _ ← chown "root" "root" (BinaryPreviousPath plat);
  _ ← chmod_path (BinaryPreviousPath plat) (mode 0 7 5 5);
  mret tt.

Definition install_binary (selfPath : string) : InstallProg unit :=
  if selfPath =s BinaryPath plat then mret tt
  else
    _ ← check (copy_path umask selfPath (BinaryPath plat)) CopyBinary;
    _ ← chown "root" "root" (BinaryPath plat);
    check (chmod_path (BinaryPath plat) (mode 0 7 5 5)) ChmodBinary.

(** Step 3b: only warnings. *)
Definition install_helper (selfPath : string) : InstallProg unit :=
  let helperSrc := Join [Dir selfPath; "moebius-pkg-helper"] in
  st ← stat_path helperSrc;
  match st with
  | Present =>
      ok ← copy_path umask helperSrc helper_path;
      if negb ok then mret tt
      else
        _ ← chown "root" "root" helper_path;
        _ ← chmod_path helper_path (mode 4 7 5 5);
        mret tt
  | _ => mret tt
  end.

(** Step 4. *)
Definition install_config : InstallProg unit :=
  st ← stat_path (ConfigPath plat);
  match st with
  | Absent =>
      if ia_url args =s "" then mret tt
      else
        _ ← check (write_path umask (ConfigPath plat) (config_text (ia_url args) (DropDir plat) (LogDir plat) (ia_cdm args)) (mode 0 6 4 0)) WriteConfig;
        chown "root" svc (ConfigPath plat)
  | _ => mret tt
  end.

(** Step 5. *)
Definition install_token : InstallProg unit :=
  if ia_token args =s "" then mret tt
  else
    _ ← check (write_path umask (EnrollmentTokenPath plat) (ia_token args) (mode 0 6 0 0)) WriteToken;
    chown "root" svc (EnrollmentTokenPath plat).

(** Step 6. *)
Definition install_ca : InstallProg unit :=
  if ia_ca args =s "" then mret tt
  else
    _ ← check (copy_path umask (ia_ca args) (CACertPath plat)) CopyCA;
    _ ← chown "root" svc (CACertPath plat);
    _ ← chmod_path (CACertPath plat) (mode 0 6 4 4);
    mret tt.

(** Steps 7 and 8. *)
Definition install_service (upgrade : bool) : InstallProg unit :=
  _ ← check (write_path umask (unit_path plat) systemdUnit (mode 0 6 4 4)) WriteUnit;
  _ ← check (systemctl ["daemon-reload"]) DaemonReload;
  active ← (if upgrade then is_active else mret false);
  if active : bool then check (systemctl ["restart"; svc]) RestartService
  else check (systemctl ["enable"; "--now"; svc]) EnableService.

(** Step 9: the rounds that wait for the agent's ID. *)
Fixpoint wait_enrolled (n : nat) : InstallProg InstallOutcome :=
  match n with
  | 0 => mret NotEnrolled
  | S n' =>
      st ← stat_path (AgentIDPath plat);
      match st with
      | Present =>
          id ← read_path (AgentIDPath plat);
          mret (Enrolled (TrimSpace (default "" id)))
      | _ =>
          active ← is_active;
          if negb active then mret StoppedUnexpectedly else wait_enrolled n'
      end
  end.

Definition Install : InstallProg InstallOutcome :=
  if negb (in_euid inst =? 0)%Z then stop NotRoot
  else if negb (in_systemctl inst) then stop NoSystemd
  else
    existing ← stat_path (BinaryPath plat);
    let upgrade := match existing with Present => true | _ => false end in
    if negb upgrade && (ia_token args =s "") then stop TokenRequired
    else if negb upgrade && (ia_url args =s "") then stop URLRequired
    else
      _ ← ensure_accounts;
      _ ← for_each install_dirs tt install_dir;
      match in_executable inst with
      | None => stop NoExecutable
      | Some selfPath =>
          _ ← (if upgrade then backup_binary else mret tt);
          _ ← install_binary selfPath;
          _ ← install_helper selfPath;
          _ ← install_config;
          _ ← install_token;
          _ ← install_ca;
          _ ← install_service upgrade;
          started ← wait_for 30 is_active;
          if negb started then mret NotStarted else wait_enrolled 30
      end.

End Install.

(** ** agent/installer/uninstall_linux.go *)

Section Uninstall.
Context (inst : InstallHost) (plat : Platform).
Notation svc := (ServiceName plat).

(** Steps 2 to 5, in order; errors are dropped. *)
Definition uninstalled : list string :=
  [unit_path plat; BinaryPath plat; BinaryPreviousPath plat; BinaryStagingPath plat; helper_path; SocketPath plat] ++
  (if RuntimeDir plat =s "" then [] else [RuntimeDir plat]).

(** Step 7. *)
Definition purged : list string := filter (fun d => d <> "") [ConfigDir plat; DataDir plat; LogDir plat].

(** [true] is a nil error. *)
Definition Uninstall (purge : bool) : prog Machine unit bool :=
  if negb (in_euid inst =? 0)%Z then mret false
  else
    _ ← systemctl ["stop"; svc];
    _ ← systemctl ["disable"; svc];
    _ ← removeIfExists (unit_path plat);
    _ ← systemctl ["daemon-reload"];
    _ ← for_each (tail uninstalled) tt (fun _ p => _ ← removeIfExists p; mret tt);
    u ← user_exists svc;
    _ ← (if u : bool then userdel svc else mret false);
    g ← group_exists svc;
    _ ← (if g : bool then groupdel svc else mret false);
    _ ← (if purge then for_each purged tt (fun _ p => _ ← remove_all p; mret tt) else mret tt);
    mret true.
End Uninstall.

(** ** runInstall and the uninstall command of agent/cmd/agent/main.go *)

(** [None] is an unknown option; an option without its value is ignored. *)
Fixpoint parse_install (argv : list string) (a : InstallArgs) : option InstallArgs :=
  match argv with
  | [] => Some a
  | opt :: rest =>
      if opt =s "--enrollment-token" then
        match rest with
        | v :: rest' => parse_install rest' {| ia_token := v; ia_url := ia_url a; ia_ca := ia_ca a; ia_cdm := ia_cdm a |}
        | [] => Some a
        end
      else if opt =s "--server-url" then
        match rest with
        | v :: rest' => parse_install rest' {| ia_token := ia_token a; ia_url := v; ia_ca := ia_ca a; ia_cdm := ia_cdm a |}
        | [] => Some a
        end
      else if opt =s "--ca-cert" then
        match rest with
        | v :: rest' => parse_install rest' {| ia_token := ia_token a; ia_url := ia_url a; ia_ca := v; ia_cdm := ia_cdm a |}
        | [] => Some a
        end
      else if opt =s "--cdm-enabled" then
        parse_install rest {| ia_token := ia_token a; ia_url := ia_url a; ia_ca := ia_ca a; ia_cdm := true |}
      else None
  end.

Definition no_args : InstallArgs := {| ia_token := ""; ia_url := ""; ia_ca := ""; ia_cdm := false |}.

(** [detectPlatform]. *)
Definition detectPlatform (goos : string) : Platform := if goos =s "windows" then windows else linux.

(** [runInstall] on Linux; [None] is the usage message. *)
Definition runInstall (inst : InstallHost) (argv : list string) : prog Machine InstallError (option InstallOutcome) :=
  match parse_install argv no_args with
  | None => mret None
  | Some args => o ← Install inst (detectPlatform "linux") args; mret (Some o)
  end.

Definition uninstall_command (inst : InstallHost) (argv : list string) : prog Machine unit bool :=
  Uninstall inst (detectPlatform "linux") (existsb (fun a => a =s "--purge") argv).

(** ** Lemmas *)

Notation node m p := (mc_nodes m !! p).

(** Some paths keep their nodes. *)
Definition untouched (ps : list string) (m m' : Machine) : Prop := Forall (fun p => node m' p = node m p) ps.

#[export] Instance untouched_refl ps : Reflexive (untouched ps).
Proof. intros m. by apply Forall_forall. Qed.

Lemma untouched_insert ps path n m : path ∉ ps -> untouched ps m (put_nodes (<[path := n]> (mc_nodes m)) m).
Proof. intros Hp. apply Forall_forall. intros p Hin. simpl. apply lookup_insert_ne. by intros ->. Qed.

Lemma untouched_alter ps path f m : path ∉ ps -> untouched ps m (put_nodes (alter f path (mc_nodes m)) m).
Proof. intros Hp. apply Forall_forall. intros p Hin. simpl. apply lookup_alter_ne. by intros ->. Qed.

Lemma make_dir_other umask perm m path p : p <> path -> node (make_dir umask perm m path) p = node m p.
Proof. intros Hne. unfold make_dir. case_match; [done|]. by apply lookup_insert_ne. Qed.

Lemma make_dirs_other umask perm p ds : forall m, p ∉ ds -> node (foldl (make_dir umask perm) m ds) p = node m p.
Proof.
  induction ds as [|d ds IH]; intros m Hnin; simpl; [done|]. apply not_elem_of_cons in Hnin as [Hne Hnin].
  rewrite IH by done. by apply make_dir_other.
Qed.

Section Guarantees.
Context {R : Type} (umask : Z) (ps : list string).
Notation keeps := (guar (untouched ps)).

Lemma keeps_read {X : Type} (f : Env -> Machine -> X) : keeps (PStep (fun e m => (m, f e m)) PRet : prog Machine R X).
Proof. by split. Qed.

Lemma keeps_write path data perm : path ∉ ps -> keeps (write_path umask path data perm : prog Machine R bool).
Proof. intros Hp. split; [|done]. intros e m. repeat case_match; simpl; first [reflexivity | by apply untouched_insert]. Qed.

Lemma keeps_chown owner group path : path ∉ ps -> keeps (chown owner group path : prog Machine R unit).
Proof. intros Hp. split; [|done]. intros e m. simpl. case_match; first [reflexivity | by apply untouched_alter]. Qed.

Lemma keeps_chmod path perm : path ∉ ps -> keeps (chmod_path path perm : prog Machine R bool).
Proof. intros Hp. split; [|done]. intros e m. simpl. repeat case_match; simpl; first [reflexivity | by apply untouched_insert]. Qed.

Lemma keeps_mkdir path perm : Forall (fun p => p ∉ parents path ++ [path]) ps -> keeps (mkdir_all umask path perm : prog Machine R bool).
Proof.
  intros Hp. split; [|done]. intros e m. cbn [fst]. destruct (e_fault e); [reflexivity|].
  eapply Forall_impl; [exact Hp|]. intros p Hnin. by apply make_dirs_other.
Qed.

Lemma keeps_copy src dst : dst ∉ ps -> keeps (copy_path umask src dst : prog Machine R bool).
Proof. intros Hp. apply guar_bind; [apply keeps_read|]. intros [d|]; [by apply keeps_write | done]. Qed.

Lemma keeps_account f : (forall m, mc_nodes (f m) = mc_nodes m) -> keeps (account_cmd f : prog Machine R bool).
Proof. intros Hf. split; [|done]. intros e m. simpl. case_match; [reflexivity|]. apply Forall_forall. intros p _. simpl. by rewrite Hf. Qed.

Lemma keeps_systemctl args : keeps (systemctl args : prog Machine R bool).
Proof. split; [|done]. intros e m. by apply Forall_forall. Qed.
End Guarantees.

(** The whole installation keeps what it has no step for. *)
Ltac keeps_step :=
  match goal with
  | |- guar _ (check _ _) => unfold check
  | |- guar _ (stat_path _) => apply keeps_read
  | |- guar _ (read_path _) => apply keeps_read
  | |- guar _ is_active => apply keeps_read
  | |- guar _ (group_exists _) => apply keeps_read
  | |- guar _ (user_exists _) => apply keeps_read
  | |- guar _ (write_path _ _ _ _) => apply keeps_write; apart
  | |- guar _ (chown _ _ _) => apply keeps_chown; apart
  | |- guar _ (chmod_path _ _) => apply keeps_chmod; apart
  | |- guar _ (mkdir_all _ _ _) => apply keeps_mkdir; apart
  | |- guar _ (copy_path _ _ _) => apply keeps_copy; apart
  | |- guar _ (groupadd _) => apply keeps_account; done
  | |- guar _ (useradd _) => apply keeps_account; done
  | |- guar _ (systemctl _) => apply keeps_systemctl
  | _ => guar_step
  end.

(** The token file, when there is one, belongs to root and gives nobody else a
    permission. *)
Definition private (n : Node) : Prop := nd_owner n = "root" /\ forall i, (0 <= i < 6)%Z -> Z.testbit (nd_mode n) i = false.
Definition token_private (plat : Platform) (m : Machine) : Prop := forall n, node m (EnrollmentTokenPath plat) = Some n -> private n.

(** What the installation keeps. *)
Definition install_keeps (plat : Platform) (m m' : Machine) : Prop :=
  node m' (AgentIDPath plat) = node m (AgentIDPath plat) /\ (token_private plat m -> token_private plat m').

#[export] Instance install_keeps_preorder plat : PreOrder (install_keeps plat).
Proof. split; [done|]. intros a b c [H1 H2] [H3 H4]. split; [congruence|auto]. Qed.

Lemma untouched_install_keeps plat m m' : untouched [EnrollmentTokenPath plat; AgentIDPath plat] m m' -> install_keeps plat m m'.
Proof. intros [H1 [H2 _]%Forall_cons_1]%Forall_cons_1. split; [done|]. intros Hp n. rewrite H1. apply Hp. Qed.

Lemma private_created umask : private {| nd_dir := false; nd_data := ""; nd_owner := "root"; nd_group := "root"; nd_mode := Z.ldiff (mode 0 6 0 0) umask |}.
Proof.
  split; [done|]. intros i Hi. cbn [nd_mode]. rewrite Z.ldiff_spec.
  assert (i = 0 \/ i = 1 \/ i = 2 \/ i = 3 \/ i = 4 \/ i = 5)%Z as H by lia. by destruct_or! H; subst.
Qed.

Lemma created_private umask path data m n :
  (forall n, node m path = Some n -> private n) -> node (created umask path data (mode 0 6 0 0) m) path = Some n -> private n.
Proof.
  intros Hp. unfold created. cbn [mc_nodes put_nodes]. rewrite lookup_insert_eq.
  destruct (node m path) as [n0|] eqn:En; intros Hn; apply (inj Some) in Hn; subst n; [by apply (Hp n0)|].
  apply (private_created umask).
Qed.

Lemma created_keeps umask data m :
  install_keeps linux m (created umask (EnrollmentTokenPath linux) data (mode 0 6 0 0) m).
Proof. split; [by apply lookup_insert_ne|]. intros Hp n. by apply created_private. Qed.

Lemma install_token_guar inst args : guar (install_keeps linux) (install_token inst linux args).
Proof.
  unfold install_token, check. case_match; [done|].
  apply guar_bind; [apply guar_bind; [|by intros []]|intros _].
  - split; [|done]. intros e m. simpl. repeat case_match; simpl; first [reflexivity | apply created_keeps].
  - split; [|done]. intros e m. simpl. case_match; [reflexivity|]. split; [by apply lookup_alter_ne|].
    intros Hp n. cbn [mc_nodes put_nodes]. rewrite lookup_alter_eq. intros (n0 & Hn & ->)%fmap_Some. by destruct (Hp n0 Hn).
Qed.

Lemma wait_guar {R : Type} ps n : guar (untouched ps) (wait_for n is_active : prog Machine R bool).
Proof. induction n as [|n IH]; [done|]. cbn [wait_for]. repeat keeps_step; done. Qed.

Lemma wait_enrolled_guar ps plat n : guar (untouched ps) (wait_enrolled plat n).
Proof. induction n as [|n IH]; [done|]. cbn [wait_enrolled]. repeat keeps_step; done. Qed.

Lemma install_keeps_step {A : Type} (p : InstallProg A) :
  guar (untouched [EnrollmentTokenPath linux; AgentIDPath linux]) p -> guar (install_keeps linux) p.
Proof. apply guar_weaken, untouched_install_keeps. Qed.

Ltac early_stop := match goal with |- guar _ (if ?b then stop _ else _) => destruct b; [done|] end.

Lemma Install_guar inst args : guar (install_keeps linux) (Install inst linux args).
Proof.
  unfold Install. do 2 early_stop.
  apply guar_bind; [apply install_keeps_step, keeps_read|]. intros existing. cbv zeta. do 2 early_stop.
  apply guar_bind; [apply install_keeps_step; unfold ensure_accounts; repeat keeps_step|intros _].
  apply guar_bind; [apply install_keeps_step; cbn [for_each install_dirs]; unfold install_dir; repeat keeps_step|intros _].
  case_match; [|done].
  apply guar_bind; [apply install_keeps_step; unfold backup_binary; repeat keeps_step|intros _].
  apply guar_bind; [apply install_keeps_step; unfold install_binary; repeat keeps_step|intros _].
  apply guar_bind; [apply install_keeps_step; unfold install_helper; cbv zeta; repeat keeps_step|intros _].
  apply guar_bind; [apply install_keeps_step; unfold install_config; repeat keeps_step|intros _].
  apply guar_bind; [apply install_token_guar|intros _].
  apply guar_bind; [apply install_keeps_step; unfold install_ca; repeat keeps_step|intros _].
  apply guar_bind; [apply install_keeps_step; unfold install_service; repeat keeps_step|intros _].
  apply guar_bind; [apply install_keeps_step, wait_guar|]. intros [|]; [|done]. apply install_keeps_step, wait_enrolled_guar.
Qed.

(** *** The service user *)

Lemma private_unreadable user group n : user <> "root" -> private n -> can_read user group n = false.
Proof.
  intros Hu [Ho Hm]. unfold can_read, bits_for. rewrite Ho. rewrite (proj2 (seqb_neq user _) Hu).
  rewrite (proj2 (seqb_neq _ user)) by congruence. rewrite orb_false_l. case_match; [rewrite Z.shiftr_spec by lia|]; apply Hm; lia.
Qed.

Lemma readable_none user group m p :
  (forall n, node m p = Some n -> can_read user group n = false) -> readable user group m !! p = None.
Proof.
  intros H. unfold readable. rewrite map_lookup_imap. destruct (node m p) as [n|]; simpl; [|done].
  by rewrite (H n), andb_false_r.
Qed.

(** Without an ID and without a token there is nothing to start with. *)
Lemma start_without_token {R : Type} cl sv plat env s :
  fs_files (bt_fs s) !! AgentIDPath plat = None -> fs_files (bt_fs s) !! EnrollmentTokenPath plat = None ->
  run_result (start_agent (R := R) cl sv plat) env s = inr None.
Proof.
  intros Hid Htok. by_rg (fun _ : Env => True) (fun _ _ : Boot => True); [done|].
  unfold start_agent, ensure_enrolled, ReadAgentID. rg_step. rg_step. apply on_disk_same. rg_step.
  apply read_rg; rewrite ?Hid; [intros _|]; rg_step; split; try done.
  all: unfold enroll_and_save, LoadCAPool; rg_step; apply on_disk_same; rg_step.
  all: apply read_rg; [intros _|]; rg_step; split; try done.
  all: rg_step; unfold EnrollClient; rg_step; apply on_disk_same, read_rg; rewrite ?Htok; [intros _|]; split; try done.
  all: by repeat rg_step.
Qed.

(** *** An installation without faults *)

Definition grows (m m' : Machine) : Prop := forall p, is_Some (node m p) -> is_Some (node m' p).

#[export] Instance grows_preorder : PreOrder grows.
Proof. split; [by intros m p|]. intros a b c H1 H2 p Hp. auto. Qed.

Lemma grows_insert path n m : grows m (put_nodes (<[path := n]> (mc_nodes m)) m).
Proof. intros p Hp. simpl. destruct (decide (path = p)) as [->|]; [by rewrite lookup_insert_eq | by rewrite lookup_insert_ne]. Qed.

Lemma grows_alter path f m : grows m (put_nodes (alter f path (mc_nodes m)) m).
Proof.
  intros p Hp. simpl. destruct (decide (path = p)) as [->|]; [rewrite lookup_alter_eq; by apply fmap_is_Some | by rewrite lookup_alter_ne].
Qed.

Lemma grows_make_dir umask perm m path : grows m (make_dir umask perm m path) /\ is_Some (node (make_dir umask perm m path) path).
Proof.
  unfold make_dir. destruct (node m path) eqn:E; [by rewrite E|]. split; [apply grows_insert|].
  cbn [mc_nodes put_nodes]. by rewrite lookup_insert_eq.
Qed.

Lemma grows_make_dirs umask perm ds : forall m, grows m (foldl (make_dir umask perm) m ds).
Proof. induction ds as [|d ds IH]; intros m; simpl; [done|]. etrans; [apply grows_make_dir|apply IH]. Qed.

(** A part of the installation goes on with [ok], and nothing disappears. *)
Definition goes {A : Type} (ok : A -> Machine -> Prop) (p : InstallProg A) (m : Machine) : Prop :=
  rg ok_env (=) (fun _ _ => True) p (fun r m' => (exists a, r = inr a /\ ok a m') /\ grows m m') m.

Definition fine {A : Type} (_ : A) (_ : Machine) : Prop := True.
Definition present (path : string) (b : bool) (m : Machine) : Prop := b = true /\ is_Some (node m path).

Lemma goes_ret {A : Type} (ok : A -> Machine -> Prop) a m : ok a m -> goes ok (mret a) m.
Proof. intros Ha. split; [by exists a|done]. Qed.

Lemma goes_bind {A B : Type} ok (ok' : B -> Machine -> Prop) (p : InstallProg A) (g : A -> InstallProg B) m :
  goes ok p m -> (forall a m', ok a m' -> grows m m' -> goes ok' (g a) m') -> goes ok' (p ≫= g) m.
Proof.
  intros Hp Hg. apply rg_bind. eapply rg_mono; [|exact Hp]. intros r m' [(a & -> & Ha) Hgr].
  eapply rg_mono; [|by apply Hg]. intros r' m'' [Hr Hgr']. split; [done|by etrans].
Qed.

Lemma goes_check path p err m : goes (present path) p m -> goes (fun _ m' => is_Some (node m' path)) (check p err) m.
Proof. intros Hp. eapply goes_bind; [exact Hp|]. intros a m' [-> ?] _. by apply goes_ret. Qed.

(** One access. *)
Lemma goes_step {A : Type} (ok : A -> Machine -> Prop) f m :
  (forall e, ok_env e -> grows m (f e m).1 /\ ok (f e m).2 (f e m).1) -> goes ok (PStep f PRet) m.
Proof. intros Hf m1 e He <-. destruct (Hf e He). repeat split; eauto. Qed.

Lemma read_goes {A : Type} (f : Env -> Machine -> A) (ok : A -> Machine -> Prop) m :
  (forall e, ok_env e -> ok (f e m) m) -> goes ok (PStep (fun e m => (m, f e m)) PRet) m.
Proof. intros Hf. apply goes_step. intros e He. split; [done|by apply Hf]. Qed.

Lemma write_goes umask path data perm m : goes (present path) (write_path umask path data perm) m.
Proof.
  apply goes_step. intros e [-> _]. split; [apply grows_insert|]. split; [done|].
  cbn [fst created mc_nodes put_nodes]. by rewrite lookup_insert_eq.
Qed.

Lemma chown_goes owner group path m : goes fine (chown owner group path) m.
Proof. apply goes_step. intros e [-> _]. split; [apply grows_alter|done]. Qed.

Lemma chmod_goes path perm m : is_Some (node m path) -> goes (present path) (chmod_path path perm) m.
Proof.
  intros [n Hn]. apply goes_step. intros e [-> _]. rewrite Hn. split; [apply grows_insert|]. split; [done|].
  cbn [fst mc_nodes put_nodes]. by rewrite lookup_insert_eq.
Qed.

Lemma mkdir_goes umask path perm m : goes (present path) (mkdir_all umask path perm) m.
Proof.
  apply goes_step. intros e [-> _]. cbn [fst snd]. split; [apply grows_make_dirs|]. split; [done|].
  rewrite foldl_app. apply grows_make_dir.
Qed.

Lemma copy_goes umask src dst m : is_Some (node m src) -> goes (present dst) (copy_path umask src dst) m.
Proof.
  intros [n Hn]. eapply (goes_bind (fun d _ => d = Some (nd_data n))).
  - apply read_goes. intros e [-> _]. by rewrite Hn.
  - intros a m' -> _. apply write_goes.
Qed.

Lemma account_goes f err m : (forall m, mc_nodes (f m) = mc_nodes m) -> goes fine (check (account_cmd f) err) m.
Proof.
  intros Hf. eapply (goes_bind (fun b _ => b = true)); [|intros a m' -> _; by apply goes_ret].
  apply goes_step. intros e [-> _]. split; [|done]. intros p. cbn [fst]. by rewrite Hf.
Qed.

Lemma systemctl_goes args err m : goes fine (check (systemctl args) err) m.
Proof.
  eapply (goes_bind (fun b _ => b = true)); [|intros a m' -> _; by apply goes_ret].
  apply goes_step. intros e [He _]. split; [by intros p|]. cbn [snd]. by rewrite He.
Qed.

(** A file is put in place, given to an owner and its permissions are set. *)
Lemma placed_goes p err owner group path perm err' m :
  goes (present path) p m ->
  goes fine (_ ← check p err; _ ← chown owner group path; check (chmod_path path perm) err') m.
Proof.
  intros Hp. eapply goes_bind; [by apply goes_check|]. intros u m1 H1 _. eapply goes_bind; [apply chown_goes|]. intros u2 m2 _ Hg.
  eapply rg_mono; [|apply goes_check, chmod_goes, Hg, H1]. intros r m' [(a & -> & _) ?]. split; [by exists a|done].
Qed.

(** The service's account, the directories and the files of a new installation. *)
Lemma ensure_accounts_goes plat m : goes fine (ensure_accounts plat) m.
Proof.
  eapply (goes_bind fine); [by apply read_goes|]. intros g m1 _ _.
  eapply (goes_bind fine); [destruct g; [by apply goes_ret | by apply account_goes]|]. intros _ m2 _ _.
  eapply (goes_bind fine); [by apply read_goes|]. intros u m3 _ _. destruct u; [by apply goes_ret | by apply account_goes].
Qed.

Lemma install_dir_goes inst u d m : goes fine (install_dir inst u d) m.
Proof. destruct d as [[[path owner] group] perm]. apply placed_goes, mkdir_goes. Qed.

Lemma install_dirs_goes inst ds : forall m, goes fine (for_each ds tt (install_dir inst)) m.
Proof.
  induction ds as [|d ds IH]; intros m; [by apply goes_ret|]. cbn [for_each].
  apply (goes_bind fine fine (install_dir inst tt d) (fun u => for_each ds u (install_dir inst))); [apply install_dir_goes|].
  intros [] m' _ _. apply IH.
Qed.

Lemma install_binary_goes inst plat self m : is_Some (node m self) -> goes fine (install_binary inst plat self) m.
Proof. intros Hs. unfold install_binary. case_match; [by apply goes_ret|]. by apply placed_goes, copy_goes. Qed.

(** Copies whose errors are dropped. *)
Lemma any_goes {A : Type} (f : Env -> Machine -> Machine * A) m :
  (forall e m, grows m (f e m).1) -> goes fine (PStep f PRet) m.
Proof. intros Hf. by apply goes_step. Qed.

Lemma chmod_fine path perm m : goes fine (chmod_path path perm) m.
Proof. apply any_goes. intros e m1. repeat case_match; simpl; first [done | apply grows_insert]. Qed.

Lemma copy_fine umask src dst m : goes fine (copy_path umask src dst) m.
Proof.
  eapply (goes_bind fine); [by apply read_goes|]. intros [d|] m' _ _; [|by apply goes_ret].
  apply any_goes. intros e m1. repeat case_match; simpl; first [done | apply grows_insert].
Qed.

Lemma install_helper_goes inst self m : goes fine (install_helper inst self) m.
Proof.
  unfold install_helper. eapply (goes_bind fine); [by apply read_goes|]. intros [] m1 _ _; [|by apply goes_ret..].
  eapply (goes_bind fine); [apply copy_fine|]. intros [] m2 _ _; [|by apply goes_ret]. cbn [negb].
  eapply (goes_bind fine); [apply chown_goes|]. intros _ m3 _ _.
  eapply (goes_bind fine); [apply chmod_fine|]. intros _ m4 _ _. by apply goes_ret.
Qed.

Lemma written_goes umask path data perm err owner group m :
  goes fine (_ ← check (write_path umask path data perm) err; chown owner group path) m.
Proof. eapply goes_bind; [apply goes_check, write_goes|]. intros _ m' _ _. apply chown_goes. Qed.

Lemma install_config_goes inst plat args m : goes fine (install_config inst plat args) m.
Proof.
  unfold install_config. eapply (goes_bind fine); [by apply read_goes|]. intros [] m1 _ _; [by apply goes_ret| |by apply goes_ret].
  case_match; [by apply goes_ret|]. apply written_goes.
Qed.

Lemma install_token_goes inst plat args m : goes fine (install_token inst plat args) m.
Proof. unfold install_token. case_match; [by apply goes_ret|]. apply written_goes. Qed.

Lemma install_ca_goes inst plat args m : (ia_ca args <> "" -> is_Some (node m (ia_ca args))) -> goes fine (install_ca inst plat args) m.
Proof.
  intros Hca. unfold install_ca. destruct (ia_ca args =s "") eqn:E; [by apply goes_ret|]. apply seqb_neq in E.
  eapply goes_bind; [by apply goes_check, copy_goes, Hca|]. intros _ m1 _ _.
  eapply (goes_bind fine); [apply chown_goes|]. intros _ m2 _ _. eapply (goes_bind fine); [apply chmod_fine|].
  intros _ m3 _ _. by apply goes_ret.
Qed.

Lemma install_service_goes inst plat m : goes fine (install_service inst plat false) m.
Proof.
  unfold install_service. eapply goes_bind; [apply goes_check, write_goes|]. intros _ m1 _ _.
  eapply (goes_bind fine); [apply systemctl_goes|]. intros _ m2 _ _.
  eapply (goes_bind (fun b _ => b = false)); [by apply goes_ret|]. intros a m3 -> _. apply systemctl_goes.
Qed.

Lemma wait_goes n m : goes fine (wait_for n is_active) m.
Proof.
  revert m. induction n as [|n IH]; intros m; [by apply goes_ret|]. eapply (goes_bind fine); [by apply read_goes|].
  intros [] m' _ _; [by apply goes_ret | apply IH].
Qed.

Lemma wait_enrolled_goes plat n m : goes fine (wait_enrolled plat n) m.
Proof.
  revert m. induction n as [|n IH]; intros m; [by apply goes_ret|]. eapply (goes_bind fine); [by apply read_goes|].
  assert (forall m', goes fine (active ← is_active; if negb active then mret StoppedUnexpectedly else wait_enrolled plat n) m') as Hrest.
  { intros m'. eapply (goes_bind fine); [by apply read_goes|]. intros [] m2 _ _; [apply IH | by apply goes_ret]. }
  intros [] m1 _ _; [|apply Hrest..]. eapply (goes_bind fine); [by apply read_goes|]. intros id m2 _ _. by apply goes_ret.
Qed.

(** A new installation by root, with its arguments and its sources there. *)
Definition ready (inst : InstallHost) (plat : Platform) (args : InstallArgs) (m : Machine) : Prop :=
  in_euid inst = 0%Z /\ in_systemctl inst = true /\ node m (BinaryPath plat) = None /\ ia_token args <> "" /\ ia_url args <> "" /\
  (exists self, in_executable inst = Some self /\ is_Some (node m self)) /\ (ia_ca args <> "" -> is_Some (node m (ia_ca args))).

Lemma Install_goes inst plat args m : ready inst plat args m -> goes fine (Install inst plat args) m.
Proof.
  intros (Hroot & Hsys & Hnew & Htok & Hurl & (self & Hself & Hthere) & Hca). unfold Install. rewrite Hroot, Hsys. cbn [negb Z.eqb].
  eapply (goes_bind (fun st _ => st = Absent)); [apply read_goes; intros e [-> _]; by rewrite Hnew|]. intros st m0 -> G0. cbv zeta.
  rewrite (proj2 (seqb_neq _ _) Htok), (proj2 (seqb_neq _ _) Hurl), Hself. cbn [negb andb].
  eapply goes_bind; [apply ensure_accounts_goes|]. intros _ m1 _ G1. eapply goes_bind; [apply install_dirs_goes|]. intros _ m2 _ G2.
  assert (grows m m2) as G by (by do 2 (etrans; [eassumption|])).
  eapply (goes_bind fine); [by apply goes_ret|]. intros _ m3 _ G3.
  eapply goes_bind; [apply install_binary_goes; apply G3, G, Hthere|]. intros _ m4 _ G4.
  eapply goes_bind; [apply install_helper_goes|]. intros _ m5 _ G5. eapply goes_bind; [apply install_config_goes|]. intros _ m6 _ G6.
  eapply goes_bind; [apply install_token_goes|]. intros _ m7 _ G7.
  eapply goes_bind; [apply install_ca_goes; intros Hne; by apply G7, G6, G5, G4, G3, G, Hca|]. intros _ m8 _ _.
  eapply goes_bind; [apply install_service_goes|]. intros _ m9 _ _. eapply goes_bind; [apply wait_goes|].
  intros [] m10 _ _; [apply wait_enrolled_goes | by apply goes_ret].
Qed.

(** *** Removal *)

(** What is below a path stays below it. *)
Lemma cut_prefix_spec p s r : cut_prefix p s = Some r <-> s = String.append p r.
Proof.
  revert s. induction p as [|c p IH]; intros s; cbn [cut_prefix]; [rewrite append_nil; split; congruence|].
  rewrite append_cons. destruct s as [|d s]; [done|]. destruct (Ascii.eqb c d) eqn:E.
  - apply Ascii.eqb_eq in E as ->. rewrite IH. split; congruence.
  - apply Ascii.eqb_neq in E. split; congruence.
Qed.

Lemma HasPrefix_spec s p : HasPrefix s p = true <-> exists r, s = String.append p r.
Proof.
  unfold HasPrefix. rewrite bool_decide_eq_true. split; intros [r Hr]; exists r; by apply cut_prefix_spec.
Qed.

Lemma beneath_spec dir p : beneath dir p = true <-> p = dir \/ exists r, p = String.append dir (String.append "/" r).
Proof.
  unfold beneath. rewrite orb_true_iff, seqb_eq, HasPrefix_spec.
  split; intros [?|[r Hr]]; try (by left); right; exists r; by rewrite ?append_assoc in *.
Qed.

Lemma beneath_trans a b c : beneath a b = true -> beneath b c = true -> beneath a c = true.
Proof.
  rewrite !beneath_spec. intros [->|[r ->]] [->|[r' ->]]; eauto. right. exists (String.append r (String.append "/" r')).
  by rewrite !append_assoc.
Qed.

(** Nothing below some paths is left. *)
Definition without_paths (ps : list string) (t : gmap string Node) : gmap string Node :=
  filter (fun pn => existsb (fun d => beneath d pn.1) ps = false) t.

Lemma without_paths_lookup ps t p :
  without_paths ps t !! p = if existsb (fun d => beneath d p) ps then None else t !! p.
Proof.
  unfold without_paths. destruct (existsb _ ps) eqn:E.
  - apply map_lookup_filter_None. right. intros n _. simpl. congruence.
  - destruct (t !! p) as [n|] eqn:Et.
    + by apply map_lookup_filter_Some.
    + apply map_lookup_filter_None. by left.
Qed.

Lemma without_paths_app ps qs t : without_paths qs (without_paths ps t) = without_paths (ps ++ qs) t.
Proof. apply map_eq. intros p. rewrite !without_paths_lookup, existsb_app. by destruct (existsb _ ps), (existsb _ qs). Qed.

(** A path that is not there has nothing below it. *)
Definition closed_at (t : gmap string Node) (dir : string) : Prop := t !! dir = None -> forall p, beneath dir p = true -> t !! p = None.

Lemma closed_without ps t dir : closed_at t dir -> closed_at (without_paths ps t) dir.
Proof.
  intros Hc Hn p Hb. rewrite without_paths_lookup in *. destruct (existsb (fun d => beneath d dir) ps) eqn:E.
  - apply existsb_exists in E as (d & Hin & Hd). rewrite (proj2 (existsb_exists _ _)); [done|]. exists d. split; [done|].
    by eapply beneath_trans.
  - case_match; [done|]. by apply Hc.
Qed.

Lemma without_absent t dir : closed_at t dir -> t !! dir = None -> without_paths [dir] t = t.
Proof.
  intros Hc Hn. apply map_eq. intros p. rewrite without_paths_lookup. simpl. destruct (beneath dir p) eqn:E; simpl; [|done].
  by rewrite Hc.
Qed.

Section Removal.
Context {R : Type}.

(** One access of a fault-free run. *)
Lemma ok_step {A : Type} (f : Env -> Machine -> Machine * A) (Q : R + A -> Machine -> Prop) m :
  (forall e, ok_env e -> Q (inr (f e m).2) (f e m).1) -> rg ok_env (=) (fun _ _ : Machine => True) (PStep f PRet) Q m.
Proof. intros HQ m1 e He <-. split; [done|]. by apply HQ. Qed.

(** The nodes after a removal, the accounts kept. *)
Definition cleared (ps : list string) (m : Machine) : Machine := put_nodes (without_paths ps (mc_nodes m)) m.

Lemma remove_all_ok path (Q : R + bool -> Machine -> Prop) m :
  Q (inr true) (cleared [path] m) -> rg ok_env (=) (fun _ _ : Machine => True) (remove_all path) Q m.
Proof.
  intros HQ. apply ok_step. intros e [-> _]. cbn [fst snd].
  replace (filter _ (mc_nodes m)) with (without_paths [path] (mc_nodes m)); [done|].
  apply map_filter_ext. intros p n _. simpl. by rewrite orb_false_r.
Qed.

Lemma removeIfExists_ok path (Q : R + bool -> Machine -> Prop) m :
  closed_at (mc_nodes m) path -> Q (inr true) (cleared [path] m) ->
  rg ok_env (=) (fun _ _ : Machine => True) (removeIfExists path) Q m.
Proof.
  intros Hc HQ. apply rg_bind, ok_step. intros e [-> _]. cbn [fst snd]. destruct (node m path) eqn:E.
  - by apply remove_all_ok.
  - unfold cleared in HQ. rewrite without_absent in HQ by done. by destruct m.
Qed.

Lemma removals_ok (rm : string -> prog Machine R bool) (P : gmap string Node -> string -> Prop) paths (Q : R + unit -> Machine -> Prop) : forall m,
  (forall path m (Q : R + bool -> Machine -> Prop), P (mc_nodes m) path -> Q (inr true) (cleared [path] m) ->
     rg ok_env (=) (fun _ _ : Machine => True) (rm path) Q m) ->
  (forall ps t d, P t d -> P (without_paths ps t) d) ->
  Forall (P (mc_nodes m)) paths -> Q (inr tt) (cleared paths m) ->
  rg ok_env (=) (fun _ _ : Machine => True) (for_each paths tt (fun _ p => _ ← rm p; mret tt)) Q m.
Proof.
  induction paths as [|p paths IH]; intros m Hrm HP Hc HQ.
  - simpl. replace (cleared [] m) with m in HQ; [done|]. unfold cleared.
    replace (without_paths [] (mc_nodes m)) with (mc_nodes m); [by destruct m|].
    apply map_eq. intros q. by rewrite without_paths_lookup.
  - apply Forall_cons in Hc as [Hp Hc]. apply rg_for_each_cons. rg_step. apply Hrm; [done|]. rg_step.
    apply IH; [done|done| |].
    + eapply Forall_impl; [exact Hc|]. intros d. apply HP.
    + unfold cleared. cbn [mc_nodes put_nodes]. by rewrite without_paths_app.
Qed.
End Removal.

(** Removing the account, when it is there. *)
Lemma userdel_ok {R : Type} svc (Q : R + bool -> Machine -> Prop) m :
  (forall b, Q (inr b) (accounts (mc_groups m) (mc_users m ∖ {[svc]}) m)) ->
  rg ok_env (=) (fun _ _ : Machine => True) (u ← user_exists svc; if u : bool then userdel svc else mret false) Q m.
Proof.
  intros HQ. apply rg_bind, ok_step. intros e [-> _]. cbn [fst snd negb andb]. case_bool_decide as Hin.
  - apply ok_step. intros e' [-> _]. apply HQ.
  - replace (accounts _ _ m) with m in HQ; [by apply (HQ false)|]. destruct m as [t gs us sc]. unfold accounts. simpl in *. f_equal. set_solver.
Qed.

Lemma groupdel_ok {R : Type} svc (Q : R + bool -> Machine -> Prop) m :
  (forall b, Q (inr b) (accounts (mc_groups m ∖ {[svc]}) (mc_users m) m)) ->
  rg ok_env (=) (fun _ _ : Machine => True) (g ← group_exists svc; if g : bool then groupdel svc else mret false) Q m.
Proof.
  intros HQ. apply rg_bind, ok_step. intros e [-> _]. cbn [fst snd negb andb]. case_bool_decide as Hin.
  - apply ok_step. intros e' [-> _]. apply HQ.
  - replace (accounts _ _ m) with m in HQ; [by apply (HQ false)|]. destruct m as [t gs us sc]. unfold accounts. simpl in *. f_equal. set_solver.
Qed.

Lemma bind_assoc {S R A B C : Type} (p : prog S R A) (g : A -> prog S R B) (h : B -> prog S R C) E Rl G Q s :
  rg E Rl G ((p ≫= g) ≫= h) Q s -> rg E Rl G (p ≫= fun a => g a ≫= h) Q s.
Proof.
  intros H. apply rg_bind. revert s H. induction p as [a|r|X f k IH]; intros s H; simpl in *; [done..|].
  intros s1 e He Hs. destruct (H s1 e He Hs). split; [done|]. by apply IH.
Qed.

(** ** Theorems *)

(** [Uninstall] by root, when no operation fails, removes the service's unit,
    the binaries, the helper, the socket, the runtime directory and the service's
    account, with [purge] the configuration, the data and the logs as well, and
    nothing else: the drop directory stays in both cases. *)
Theorem uninstall_spec inst purge m env :
  (forall n, ok_env (env n)) -> in_euid inst = 0%Z -> Forall (closed_at (mc_nodes m)) (uninstalled linux) ->
  let m' := run_store (Uninstall inst linux purge) env m in
  run_result (Uninstall inst linux purge) env m = inr true /\
  mc_nodes m' = without_paths (uninstalled linux ++ if purge then purged linux else []) (mc_nodes m) /\
  mc_groups m' = mc_groups m ∖ {[ServiceName linux]} /\ mc_users m' = mc_users m ∖ {[ServiceName linux]} /\
  node m' (DropDir linux) = node m (DropDir linux).
Proof.
  intros Henv Hroot Hc. cbv zeta.
  assert (existsb (fun d => beneath d (DropDir linux)) (uninstalled linux ++ if purge then purged linux else []) = false) as Hdrop
    by (by destruct purge).
  by_rg ok_env (fun _ _ : Machine => True); [done|]. unfold Uninstall. rewrite Hroot. cbn [negb Z.eqb].
  do 2 (rg_step; apply ok_step; intros ? _; cbn [fst snd]).
  change (uninstalled linux) with (unit_path linux :: tail (uninstalled linux)) in Hc. apply Forall_cons in Hc as [Hu Hc].
  rg_step. apply removeIfExists_ok; [done|]. rg_step. apply ok_step. intros ? _. cbn [fst snd]. rg_step.
  apply (removals_ok _ closed_at); [intros; by apply removeIfExists_ok|intros ps t d; apply closed_without| |].
  { eapply Forall_impl; [exact Hc|]. intros d. apply closed_without. }
  apply bind_assoc, rg_bind, userdel_ok. intros _. apply bind_assoc, rg_bind, groupdel_ok. intros _. rg_step.
  assert (forall ps, node (cleared ps m) (DropDir linux) = if existsb (fun d => beneath d (DropDir linux)) ps then None else node m (DropDir linux))
    as Hkeep by (intros ps; apply without_paths_lookup).
  destruct purge.
  - apply (removals_ok _ (fun _ _ => True)); [intros; by apply remove_all_ok|done|by apply Forall_forall|]. rg_step. split; [done|].
    cbn [cleared accounts mc_nodes put_nodes mc_groups mc_users]. rewrite !without_paths_app.
    split; [done|]. split_and!; [done..|]. specialize (Hkeep (uninstalled linux ++ purged linux)). by rewrite Hdrop in Hkeep.
  - rg_step. rg_step. split; [done|]. cbn [cleared accounts mc_nodes put_nodes mc_groups mc_users]. rewrite !without_paths_app.
    split; [done|]. split_and!; [done..|]. specialize (Hkeep (uninstalled linux ++ [])). by rewrite Hdrop in Hkeep.
Qed.

(** C38: A new installation by root whose operations all work reports no error, and
    yet the installed agent never gets an identity: the token file is left to
    root with permissions 0600, so the service's user cannot read it, and each
    start of the agent ends before it reaches the server. *)
Theorem installed_agent_never_starts {R : Type} inst args m env cl sv db pending env' :
  ready inst linux args m -> node m (EnrollmentTokenPath linux) = None -> node m (AgentIDPath linux) = None ->
  let m' := run_store (Install inst linux args) env m in
  ((forall n, ok_env (env n)) -> exists o, run_result (Install inst linux args) env m = inr o) /\
  run_result (start_agent (R := R) cl sv linux) env'
    {| bt_db := db; bt_fs := {| fs_files := readable (ServiceName linux) (ServiceName linux) m'; fs_pending := pending |} |} = inr None.
Proof.
  intros Hready Htok Hid m'. split.
  - intros Hok. eapply (rg_run _ _ _ _ env 0 m) in Hok; [|by apply Install_goes]. destruct Hok as [(o & Ho & _) _]. by exists o.
  - assert (install_keeps linux m m') as [Hid' Hp] by apply (guar_run_preorder (install_keeps linux) _ env 0 m), Install_guar.
    apply start_without_token; cbn [bt_fs fs_files].
    + unfold readable. rewrite map_lookup_imap. fold m'. by rewrite Hid', Hid.
    + apply readable_none. intros n Hn. apply private_unreadable; [done|]. eapply Hp; [|exact Hn]. intros n0. by rewrite Htok.
Qed.
