(* ===== verification/InstallWindows.v ===== *)
(** * Installing the agent on Windows

    [agent/installer/install_windows.go] and [uninstall_windows.go], and
    [restartService] of [agent/cmd/agent/restart_linux.go] and
    [restart_windows.go].  The programs of the system (sc.exe, icacls, certutil,
    powershell, ping, systemctl) are a parameter: what one prints, and whether it
    succeeds, depends on the commands run before it and on the environment.  They
    are recorded in the order in which they run.  Paths are compared as they are
    written. *)

From stdpp Require Import relations.
From S2P Require Import Prelude Text Platform Prog Models JobState Database Scope Quota JobSteps JobsApi Requests Enrollment AgentAuth Update Credentials Install.

(** ** The machine *)

Record Command := { cd_argv : list string; cd_ok : bool }.

Record Box := {
  bx_files : gmap string string;
  bx_dirs : gset string;
  bx_images : gset string;        (* the files of running programs, which cannot be written or removed *)
  bx_log : list Command;
}.

Definition put_files (t : gmap string string) (b : Box) : Box :=
  {| bx_files := t; bx_dirs := bx_dirs b; bx_images := bx_images b; bx_log := bx_log b |}.
Definition put_dirs (ds : gset string) (b : Box) : Box :=
  {| bx_files := bx_files b; bx_dirs := ds; bx_images := bx_images b; bx_log := bx_log b |}.
Definition put_log (l : list Command) (b : Box) : Box :=
  {| bx_files := bx_files b; bx_dirs := bx_dirs b; bx_images := bx_images b; bx_log := l |}.

(** The output of a command and whether it succeeds. *)
Definition System := list Command -> list string -> Env -> string * bool.

Definition backslash : Ascii.ascii := Ascii.ascii_of_nat 92.

(** A path and its ancestors, the drive first. *)
Fixpoint prefixes (base : string) (rest : list string) : list string :=
  base :: match rest with [] => [] | c :: rest' => prefixes (win_join base c) rest' end.
Definition with_ancestors (path : string) : list string :=
  match split_on backslash path with [] => [] | c :: rest => prefixes c rest end.

(** [strings.Contains]. *)
Fixpoint Contains (s sub : string) : bool :=
  HasPrefix s sub || match s with EmptyString => false | String _ s' => Contains s' sub end.

(** [strings.ReplaceAll] of a backslash by two. *)
Fixpoint escape_backslashes (s : string) : string :=
  match s with
  | EmptyString => EmptyString
  | String c s' => if Ascii.eqb c backslash then String c (String c (escape_backslashes s')) else String c (escape_backslashes s')
  end.

(** What is at a path or below it. *)
Definition win_beneath (dir path : string) : bool := (path =s dir) || HasPrefix path (String.append dir (char backslash)).

Section Operations.
Context {R : Type} (sys : System).

Definition command (argv : list string) : prog Box R (string * bool) :=
  PStep (fun e b => let r := sys (bx_log b) argv e in
                    (put_log (bx_log b ++ [{| cd_argv := argv; cd_ok := r.2 |}]) b, r)) PRet.

(** [runCmd]: the output goes to the console. *)
Definition runCmd (argv : list string) : prog Box R bool := r ← command argv; mret r.2.

Definition mkdir_path (path : string) : prog Box R bool :=
  PStep (fun e b => if e_fault e then (b, false)
                    else (put_dirs (list_to_set (with_ancestors path) ∪ bx_dirs b) b, true)) PRet.

Definition stat_file (path : string) : prog Box R Stat :=
  PStep (fun e b => (b, if e_fault e then StatError
                        else if bool_decide (is_Some (bx_files b !! path) \/ path ∈ bx_dirs b) then Present else Absent)) PRet.

Definition read_bytes (path : string) : prog Box R (option string) :=
  PStep (fun e b => (b, if e_fault e then None else bx_files b !! path)) PRet.

(** [os.WriteFile]: a failure may leave a part of the data; the file of a running
    program cannot be opened for writing. *)
Definition write_bytes (path data : string) : prog Box R bool :=
  PStep (fun e b =>
    if bool_decide (path ∈ bx_images b) then (b, false)
    else if e_fault e then (if e_faults e 0 then b else put_files (<[path := e_id e]> (bx_files b)) b, false)
    else (put_files (<[path := data]> (bx_files b)) b, true)) PRet.

(** [copyFile] of helpers.go. *)
Definition copy_bytes (src dst : string) : prog Box R bool :=
  data ← read_bytes src;
  match data with None => mret false | Some d => write_bytes dst d end.

(** [os.RemoveAll]: the files of running programs, and the directories above them,
    stay, and are an error. *)
Definition held (path : string) (b : Box) : bool :=
  existsb (fun p => win_beneath path p) (elements (bx_images b)).
Definition removed (path : string) (b : Box) : Box :=
  let stays q := negb (win_beneath path q) || existsb (fun i => win_beneath q i) (elements (bx_images b)) in
  put_files (filter (fun pd : string * string => stays pd.1 = true) (bx_files b))
    (put_dirs (filter (fun d => stays d = true) (bx_dirs b)) b).
Definition remove_tree (path : string) : prog Box R bool :=
  PStep (fun e b => if e_fault e then (b, false) else (removed path b, negb (held path b))) PRet.

(** [removeIfExists] of helpers.go. *)
Definition remove_present (path : string) : prog Box R bool :=
  st ← stat_file path;
  match st with Absent => mret true | _ => remove_tree path end.

(** ** install_windows.go: the helpers *)

(** [isElevated]: the first disk opens. *)
Definition isElevated (admin : bool) : prog Box R bool := PStep (fun e b => (b, admin && negb (e_fault e))) PRet.

Definition serviceAccount (name : string) : string := String.append "NT SERVICE\" name.

Definition icacls_argv (dataDir serviceName : string) : list string :=
  ["icacls"; dataDir; "/inheritance:r"; "/grant:r"; "SYSTEM:(OI)(CI)F"; "/grant:r"; "BUILTIN\Administrators:(OI)(CI)F"; "/grant:r";
   String.append (serviceAccount serviceName) ":(OI)(CI)M"].
Definition setACLs (dataDir serviceName : string) : prog Box R unit :=
  _ ← command (icacls_argv dataDir serviceName); mret tt.

Definition create_argv (name binaryPath : string) : list string :=
  ["sc.exe"; "create"; name; "binPath="; String.append (quoted binaryPath) " run"; "start="; "auto";
   "DisplayName="; "Moebius Device Management Agent"; "obj="; serviceAccount name].
Definition registerService (name binaryPath : string) : prog Box R bool :=
  r ← command ["sc.exe"; "query"; name];
  _ ← (if Contains r.1 name then
         _ ← runCmd ["sc.exe"; "stop"; name];
         _ ← runCmd ["sc.exe"; "delete"; name];
         mret tt
       else mret tt);
  runCmd (create_argv name binaryPath).

Fixpoint waitForService (name : string) (timeoutSec : nat) : prog Box R bool :=
  match timeoutSec with
  | 0 => mret false
  | S n =>
      r ← command ["sc.exe"; "query"; name];
      if r.2 && Contains r.1 "RUNNING" then mret true
      else
        _ ← command ["ping"; "-n"; "2"; "127.0.0.1"];
        waitForService name n
  end.

(** ** uninstall_windows.go: the helpers *)

Definition serviceExists (name : string) : prog Box R bool :=
  r ← command ["sc.exe"; "query"; name]; mret (r.2 && Contains r.1 name).

Definition removeCACertFromStore : prog Box R unit :=
  _ ← command ["powershell.exe"; "-NoProfile"; "-NonInteractive"; "-ExecutionPolicy"; "Bypass"; "-Command";
    "Get-ChildItem Cert:\LocalMachine\Root | Where-Object { $_.Subject -like '*Moebius*' } | Remove-Item -Force -ErrorAction SilentlyContinue"];
  mret tt.

(** [os.Remove] fails on a directory with entries, which the check excludes. *)
Definition is_empty_dir (path : string) (b : Box) : bool :=
  bool_decide (path ∈ bx_dirs b) &&
  forallb (fun q => negb (HasPrefix q (String.append path (char backslash)))) (elements (dom (bx_files b)) ++ elements (bx_dirs b)).
Definition removeEmptyDir (path : string) : prog Box R unit :=
  empty ← PStep (fun e b => (b, negb (e_fault e) && is_empty_dir path b)) PRet;
  if empty : bool then PStep (fun e b => (if e_fault e then b else put_dirs (bx_dirs b ∖ {[path]}) b, tt)) PRet else mret tt.

(** ** restart_linux.go and restart_windows.go *)

(** [true] is a nil error. *)
Definition restartService_linux (name : string) : prog Box R bool :=
  r ← command ["systemctl"; "restart"; name];
  mret r.2.

Definition restartService_windows (name : string) : prog Box R bool :=
  stopped ← command ["sc"; "stop"; name];
  if negb stopped.2 then mret false
  else
    started ← command ["sc"; "start"; name];
    mret started.2.
End Operations.

(** ** install_windows.go: Install *)

(** The configuration file; the URL is not escaped. *)
Definition win_config (serverURL dropDir : string) (cdmEnabled : bool) : string := text
  ["[server]"; String.append "url = " (quoted serverURL); "poll_interval_seconds = 30"; "";
   "[storage]"; String.append "drop_directory = " (quoted (escape_backslashes dropDir)); "space_check_enabled = true";
   "space_check_threshold = 0.50"; "";
   "[local_ui]"; "enabled = true"; "port = 57000"; "";
   "[logging]"; String.append "level = " (quoted "info"); "";
   "[cdm]"; String.append "enabled = " (if cdmEnabled then "true" else "false")].

(** What the process finds out about itself. *)
Record WinHost := {
  wh_admin : bool;                  (* the process is elevated *)
  wh_executable : option string;    (* os.Executable, its symbolic links resolved *)
}.

Inductive WinError :=
| NotElevated | WinCreateDir (path : string) | WinNoExecutable | WinCopyBinary | WinWriteConfig | WinWriteToken | WinCopyCA
| WinRegister | WinStart.

Inductive WinOutcome := WinEnrolled (id : string) | WinPending | WinNotStarted.

Definition WinProg := prog Box WinError.

Definition win_check (p : WinProg bool) (err : WinError) : WinProg unit :=
  ok ← p; if ok : bool then mret tt else stop err.

Section Install.
Context (sys : System) (host : WinHost) (plat : Platform) (args : InstallArgs).
Notation svc := (ServiceName plat).

Definition win_dirs : WinProg unit :=
  for_each [BinaryDir plat; DataDir plat; DropDir plat] tt (fun _ d => win_check (mkdir_path d) (WinCreateDir d)).

Definition win_binary (selfPath : string) : WinProg unit :=
  if selfPath =s BinaryPath plat then mret tt else win_check (copy_bytes selfPath (BinaryPath plat)) WinCopyBinary.

Definition win_configure : WinProg unit :=
  st ← stat_file (ConfigPath plat);
  match st with
  | Absent => win_check (write_bytes (ConfigPath plat) (win_config (ia_url args) (DropDir plat) (ia_cdm args))) WinWriteConfig
  | _ => mret tt
  end.

Definition win_token : WinProg unit :=
  if ia_token args =s "" then mret tt
  else win_check (write_bytes (EnrollmentTokenPath plat) (ia_token args)) WinWriteToken.

Definition win_ca : WinProg unit :=
  if ia_ca args =s "" then mret tt
  else
    _ ← win_check (copy_bytes (ia_ca args) (CACertPath plat)) WinCopyCA;
    _ ← command sys ["certutil.exe"; "-addstore"; "Root"; CACertPath plat];
    mret tt.

(** Steps 6 to 9. *)
Definition win_service : WinProg unit :=
  _ ← setACLs sys (DataDir plat) svc;
  _ ← win_check (registerService sys svc (BinaryPath plat)) WinRegister;
  _ ← runCmd sys ["sc.exe"; "failure"; svc; "reset="; "86400"; "actions="; "restart/10000/restart/10000/restart/10000"];
  win_check (runCmd sys ["sc.exe"; "start"; svc]) WinStart.

(** Step 10. *)
Definition win_wait : WinProg WinOutcome :=
  running ← waitForService sys svc 30;
  if running : bool then
    id ← read_bytes (win_join (DataDir plat) "agent_id");
    mret (match id with Some id => WinEnrolled (TrimSpace id) | None => WinPending end)
  else mret WinNotStarted.

Definition Install : WinProg WinOutcome :=
  elevated ← isElevated (wh_admin host);
  if negb elevated then stop NotElevated
  else
    _ ← win_dirs;
    match wh_executable host with
    | None => stop WinNoExecutable
    | Some selfPath =>
        _ ← win_binary selfPath;
        _ ← win_configure;
        _ ← win_token;
        _ ← win_ca;
        _ ← win_service;
        win_wait
    end.

(** ** uninstall_windows.go: Uninstall *)

(** Steps 2 and 3: what is removed, errors dropped. *)
Definition win_binaries : list string :=
  [BinaryPath plat; BinaryPreviousPath plat; BinaryStagingPath plat; String.append (BinaryDir plat) "\Setup.ps1"].

(** Step 1. *)
Definition win_unregister : WinProg unit :=
  there ← serviceExists sys svc;
  if there : bool then
    _ ← runCmd sys ["sc.exe"; "stop"; svc];
    _ ← runCmd sys ["sc.exe"; "delete"; svc];
    mret tt
  else mret tt.

Definition Uninstall (purge : bool) : WinProg unit :=
  elevated ← isElevated (wh_admin host);
  if negb elevated then stop NotElevated
  else
    _ ← win_unregister;
    _ ← for_each win_binaries tt (fun _ p => _ ← remove_present p; mret tt);
    _ ← removeEmptyDir (BinaryDir plat);
    _ ← remove_present (SocketPath plat);
    if purge then
      _ ← removeCACertFromStore sys;
      if DataDir plat =s "" then mret tt
      else
        _ ← remove_tree (DataDir plat);
        mret tt
    else mret tt.
End Install.

(** ** Lemmas *)

Section Lemmas.
Context {R : Type} (sys : System).
Notation any := (fun _ _ : Box => True).

(** One access. *)
Lemma box_step {A : Type} (E : Env -> Prop) (f : Env -> Box -> Box * A) (Q : R + A -> Box -> Prop) b :
  (forall e, E e -> Q (inr (f e b).2) (f e b).1) -> rg E (=) any (PStep f PRet) Q b.
Proof. intros HQ b1 e He <-. split; [done|]. by apply HQ. Qed.

(** A command changes the log only. *)
Lemma command_rg (E : Env -> Prop) argv (Q : R + (string * bool) -> Box -> Prop) b :
  (forall r e, E e -> r = sys (bx_log b) argv e -> Q (inr r) (put_log (bx_log b ++ [{| cd_argv := argv; cd_ok := r.2 |}]) b)) ->
  rg E (=) any (command sys argv) Q b.
Proof. intros HQ. apply box_step. intros e He. by apply (HQ _ e). Qed.

(** Programs that change the log only. *)
Definition logs_only : relation Box := fun b b' =>
  bx_files b' = bx_files b /\ bx_dirs b' = bx_dirs b /\ bx_images b' = bx_images b /\ bx_log b `prefix_of` bx_log b'.

#[global] Instance logs_only_preorder : PreOrder logs_only.
Proof.
  split; [done|]. unfold logs_only. intros a b c. intros (?&?&?&Hp) (?&?&?&Hq). split_and!; try congruence. by etrans.
Qed.

Lemma logged b l : bx_log b `prefix_of` l -> logs_only b (put_log l b).
Proof. done. Qed.

Lemma command_logs E argv (Q : R + (string * bool) -> Box -> Prop) b :
  (forall r b', logs_only b b' -> Q (inr r) b') -> rg E (=) any (command sys argv) Q b.
Proof. intros HQ. apply command_rg. intros r e _ _. apply HQ, logged. by apply prefix_app_r. Qed.

Lemma runCmd_logs E argv (Q : R + bool -> Box -> Prop) b :
  (forall r b', logs_only b b' -> Q (inr r) b') -> rg E (=) any (runCmd sys argv) Q b.
Proof. intros HQ. unfold runCmd. rg_step. apply command_logs. intros r b' Hb. rg_step. by apply HQ. Qed.

Lemma registerService_logs E name binaryPath (Q : R + bool -> Box -> Prop) b :
  (forall r b', logs_only b b' -> Q (inr r) b') -> rg E (=) any (registerService sys name binaryPath) Q b.
Proof.
  intros HQ. unfold registerService. rg_step. apply command_logs. intros r b1 H1. rg_step. case_match.
  - rg_step. apply runCmd_logs. intros _ b2 H2. rg_step. apply runCmd_logs. intros _ b3 H3. rg_step.
    apply runCmd_logs. intros ok b4 H4. apply HQ. by do 3 (etrans; [eassumption|]).
  - rg_step. apply runCmd_logs. intros ok b2 H2. apply HQ. by etrans.
Qed.

Lemma waitForService_logs E name n (Q : R + bool -> Box -> Prop) : forall b,
  (forall r b', logs_only b b' -> Q (inr r) b') -> rg E (=) any (waitForService sys name n) Q b.
Proof.
  induction n as [|n IH]; intros b HQ; [by apply HQ|]. cbn [waitForService]. rg_step. apply command_logs. intros r b1 H1.
  case_match; [rg_step; by apply HQ|]. rg_step. apply command_logs. intros _ b2 H2. apply IH. intros ok b3 H3.
  apply HQ. by do 2 (etrans; [eassumption|]).
Qed.

(** Writes and copies when nothing fails. *)
Lemma write_bytes_ok path data (Q : R + bool -> Box -> Prop) b :
  path ∉ bx_images b -> Q (inr true) (put_files (<[path := data]> (bx_files b)) b) -> rg ok_env (=) any (write_bytes path data) Q b.
Proof. intros Hi HQ. apply box_step. intros e [He _]. by rewrite bool_decide_eq_false_2, He. Qed.

Lemma copy_bytes_ok src dst d (Q : R + bool -> Box -> Prop) b :
  bx_files b !! src = Some d -> dst ∉ bx_images b -> Q (inr true) (put_files (<[dst := d]> (bx_files b)) b) ->
  rg ok_env (=) any (copy_bytes src dst) Q b.
Proof.
  intros Hs Hi HQ. apply rg_bind, box_step. intros e [He _]. rewrite He. cbn [fst snd]. rewrite Hs. by apply write_bytes_ok.
Qed.
End Lemmas.

(** ** An installation *)

(** The directories change nothing else, and may fail. *)
Lemma win_dirs_rg E plat (Q : WinError + unit -> Box -> Prop) b :
  (forall d ds, may_fault E -> Q (inl (WinCreateDir d)) (put_dirs ds b)) -> (forall ds, Q (inr tt) (put_dirs ds b)) ->
  rg E (=) (fun _ _ => True) (win_dirs plat) Q b.
Proof.
  intros Hf HQ. unfold win_dirs. replace b with (put_dirs (bx_dirs b) b) by (by destruct b).
  generalize (bx_dirs b) [BinaryDir plat; DataDir plat; DropDir plat]. intros ds dirs. revert ds.
  induction dirs as [|d dirs IH]; intros ds; [by apply HQ|].
  apply rg_for_each_cons. unfold win_check. rg_step. apply box_step. intros e He. destruct (e_fault e) eqn:Ef; cbn [fst snd].
  - rg_step. apply Hf. by exists e.
  - rg_step. apply IH.
Qed.

(** The files that the steps of an installation leave. *)
Definition with_binary (plat : Platform) (selfPath d : string) (t : gmap string string) : gmap string string :=
  if selfPath =s BinaryPath plat then t else <[BinaryPath plat := d]> t.
Definition with_config (plat : Platform) (args : InstallArgs) (t : gmap string string) : gmap string string :=
  if bool_decide (is_Some (t !! ConfigPath plat)) then t
  else <[ConfigPath plat := win_config (ia_url args) (DropDir plat) (ia_cdm args)]> t.
Definition with_token (plat : Platform) (args : InstallArgs) (t : gmap string string) : gmap string string :=
  if ia_token args =s "" then t else <[EnrollmentTokenPath plat := ia_token args]> t.
Definition with_ca (plat : Platform) (args : InstallArgs) (t : gmap string string) : gmap string string :=
  match t !! ia_ca args with
  | Some d => if ia_ca args =s "" then t else <[CACertPath plat := d]> t
  | None => t
  end.
Definition installed (plat : Platform) (args : InstallArgs) (selfPath d : string) (t : gmap string string) : gmap string string :=
  with_ca plat args (with_token plat args (with_config plat args (with_binary plat selfPath d t))).

(** No step but the last takes a file away from the operator. *)
Lemma steps_keep plat args selfPath d t p :
  is_Some (t !! p) -> is_Some (with_token plat args (with_config plat args (with_binary plat selfPath d t)) !! p).
Proof.
  intros H. unfold with_token, with_config, with_binary.
  repeat (case_match; try done; rewrite ?lookup_insert_is_Some'; auto).
Qed.

Section Fresh.
Context (sys : System) (host : WinHost) (args : InstallArgs).
Notation svc := (ServiceName windows).
Notation any := (fun _ _ : Box => True).

(** The directories of the installation hold no file of it. *)
Lemma config_not_dir ds : ConfigPath windows ∉ ds ->
  ConfigPath windows ∉ list_to_set (with_ancestors (DropDir windows)) ∪ (list_to_set (with_ancestors (DataDir windows)) ∪
    (list_to_set (with_ancestors (BinaryDir windows)) ∪ ds : gset string)).
Proof. intros Hds. rewrite !not_elem_of_union, !elem_of_list_to_set. split_and!; [apart..|done]. Qed.

Lemma win_dirs_ok (Q : WinError + unit -> Box -> Prop) b :
  ConfigPath windows ∉ bx_dirs b -> (forall ds, ConfigPath windows ∉ ds -> Q (inr tt) (put_dirs ds b)) -> rg ok_env (=) any (win_dirs windows) Q b.
Proof.
  intros Hc HQ. unfold win_dirs.
  do 3 (apply rg_for_each_cons; unfold win_check; rg_step; apply box_step; intros ? [-> _]; cbn [fst snd]; rg_step).
  cbn [put_dirs bx_dirs]. by apply HQ, config_not_dir.
Qed.

Lemma win_configure_ok (Q : WinError + unit -> Box -> Prop) b :
  ConfigPath windows ∉ bx_dirs b -> ConfigPath windows ∉ bx_images b ->
  Q (inr tt) (put_files (with_config windows args (bx_files b)) b) ->
  rg ok_env (=) any (win_configure windows args) Q b.
Proof.
  intros Hd Hi HQ. unfold with_config in HQ. unfold win_configure. rg_step. apply box_step. intros e [-> _]. cbn [fst snd].
  destruct (decide (is_Some (bx_files b !! ConfigPath windows))) as [Hs|Hs].
  - rewrite bool_decide_eq_true_2 in HQ by done. rewrite bool_decide_eq_true_2 by (by left). destruct b. by apply rg_mret.
  - rewrite bool_decide_eq_false_2 in HQ by done. rewrite bool_decide_eq_false_2 by tauto. unfold win_check. rg_step.
    apply write_bytes_ok; [done|]. by rg_step.
Qed.

Lemma win_token_ok (Q : WinError + unit -> Box -> Prop) b :
  EnrollmentTokenPath windows ∉ bx_images b ->
  Q (inr tt) (put_files (with_token windows args (bx_files b)) b) ->
  rg ok_env (=) any (win_token windows args) Q b.
Proof.
  intros Hi HQ. unfold with_token in HQ. unfold win_token. destruct (_ =s "").
  - destruct b. by apply rg_mret.
  - unfold win_check. rg_step. apply write_bytes_ok; [done|]. by rg_step.
Qed.

Lemma win_ca_ok (Q : WinError + unit -> Box -> Prop) b :
  CACertPath windows ∉ bx_images b -> ia_ca args = "" \/ is_Some (bx_files b !! ia_ca args) ->
  (forall l, Q (inr tt) (put_log l (put_files (with_ca windows args (bx_files b)) b))) ->
  rg ok_env (=) any (win_ca sys windows args) Q b.
Proof.
  intros Hi Hca HQ. unfold with_ca in HQ. unfold win_ca. destruct (_ =s "") eqn:E.
  - apply rg_mret. specialize (HQ (bx_log b)). destruct b. simpl in HQ. by case_match.
  - apply seqb_neq in E. destruct Hca as [?|[d Hd]]; [done|]. unfold win_check. rg_step. rg_step.
    eapply copy_bytes_ok; [done|done|]. rg_step. rg_step. apply command_rg. intros r e _ _. rg_step. rewrite Hd in HQ. apply HQ.
Qed.

Lemma win_service_rg E (Q : WinError + unit -> Box -> Prop) b :
  (forall r b', logs_only b b' -> r = inr tt \/ r = inl WinRegister \/ r = inl WinStart -> Q r b') ->
  rg E (=) any (win_service sys windows) Q b.
Proof.
  intros HQ. unfold win_service, setACLs, win_check. rg_step. rg_step. apply command_logs. intros _ b1 H1. rg_step.
  rg_step. rg_step. apply registerService_logs. intros ok b2 H2. destruct ok; rg_step.
  - rg_step. apply runCmd_logs. intros _ b3 H3. rg_step. apply runCmd_logs. intros ok b4 H4.
    assert (logs_only b b4) by (by do 3 (etrans; [eassumption|])). destruct ok; rg_step; apply HQ; auto.
  - apply HQ; [by etrans|auto].
Qed.

Lemma win_wait_rg E (Q : WinError + WinOutcome -> Box -> Prop) b :
  (forall o b', logs_only b b' -> Q (inr o) b') -> rg E (=) any (win_wait sys windows) Q b.
Proof.
  intros HQ. unfold win_wait. rg_step. apply waitForService_logs. intros ok b1 H1. destruct ok; [|rg_step; by apply HQ].
  rg_step. apply box_step. intros e _. cbn [fst snd]. rg_step. by apply HQ.
Qed.

Lemma win_binary_ok selfPath d (Q : WinError + unit -> Box -> Prop) b :
  BinaryPath windows ∉ bx_images b -> bx_files b !! selfPath = Some d ->
  Q (inr tt) (put_files (with_binary windows selfPath d (bx_files b)) b) -> rg ok_env (=) any (win_binary windows selfPath) Q b.
Proof.
  intros Hi Hd HQ. unfold win_binary, with_binary in *. destruct (_ =s _).
  - destruct b. by apply rg_mret.
  - unfold win_check. rg_step. eapply copy_bytes_ok; [done|done|]. by rg_step.
Qed.
End Fresh.

(** An installation by an administrator in which no file operation fails, and which
    writes over no running program: whatever the programs of the system answer, it
    leaves the binary, the configuration unless there was one, the token and the
    server's CA in their places and no other file changed, and ends with an error
    only when the service could not be created or started. *)
Theorem windows_install_files sys host args selfPath d b env :
  (forall n, ok_env (env n)) -> wh_admin host = true -> wh_executable host = Some selfPath ->
  bx_files b !! selfPath = Some d -> ia_ca args = "" \/ is_Some (bx_files b !! ia_ca args) ->
  Forall (fun p => p ∉ bx_images b) [BinaryPath windows; ConfigPath windows; EnrollmentTokenPath windows; CACertPath windows] ->
  ConfigPath windows ∉ bx_dirs b ->
  let r := run_result (Install sys host windows args) env b in
  bx_files (run_store (Install sys host windows args) env b) = installed windows args selfPath d (bx_files b) /\
  ((exists o, r = inr o) \/ r = inl WinRegister \/ r = inl WinStart).
Proof.
  intros Henv Hadmin Hself Hd Hca Himg Hdir r. rewrite !Forall_cons in Himg. destruct Himg as (Hi1 & Hi2 & Hi3 & Hi4 & _).
  unfold r. by_rg ok_env (fun _ _ : Box => True); [done|]. unfold Install. rewrite Hself.
  rg_step. apply box_step. intros e [-> _]. rewrite Hadmin. cbn [fst snd andb negb]. rg_step. apply win_dirs_ok; [done|]. intros ds Hds.
  rg_step. eapply win_binary_ok; [done|exact Hd|]. rg_step. apply win_configure_ok; [done|done|]. rg_step. apply win_token_ok; [done|].
  rg_step. apply win_ca_ok; [done| |].
  { destruct Hca as [?|Hca]; [by left|right]. by apply steps_keep. }
  intros l. rg_step. apply win_service_rg. intros o b' (Hf & _) Ho.
  destruct o as [err|[]]; [split; [exact Hf|]; destruct Ho as [?|[Ho|Ho]]; [done|injection Ho as ->; auto..]|].
  apply win_wait_rg. intros o b2 (Hf2 & _). split; [by rewrite Hf2|by left; eexists].
Qed.

(** ** The three weak points *)

(** Installing over a running agent: the binary is written before the service is
    stopped, so the installation ends with an error before it runs any command, and
    no file has changed. *)
Theorem windows_upgrade_refused sys host args selfPath b env :
  BinaryPath windows ∈ bx_images b -> wh_executable host = Some selfPath -> selfPath <> BinaryPath windows ->
  let b' := run_store (Install sys host windows args) env b in
  (exists err, run_result (Install sys host windows args) env b = inl err) /\ bx_files b' = bx_files b /\ bx_log b' = bx_log b.
Proof.
  intros Hi Hself Hne b'. unfold b'. by_rg any_env (fun _ _ : Box => True); [done|]. unfold Install. rewrite Hself.
  rg_step. apply box_step. intros e _. cbn [fst snd]. case_match; [rg_step; split; [by eexists|done]|].
  rg_step. apply win_dirs_rg; [intros; split; [by eexists|done]|]. intros ds. rg_step. unfold win_binary, win_check.
  apply seqb_neq in Hne as ->. rg_step. unfold copy_bytes. rg_step. apply box_step. intros e' _. cbn [fst snd].
  case_match; [|rg_step; rg_step; split; [by eexists|done]]. apply box_step. intros e'' _. cbn [fst snd put_dirs bx_images].
  rewrite bool_decide_eq_true_2 by done. cbn [fst snd]. rg_step. split; [by eexists|done].
Qed.

(** icacls cannot name an account that does not exist, and the account of a service
    exists once the service has been created. *)
Definition created_in (name : string) (log : list Command) : Prop :=
  exists cmd, cmd ∈ log /\ take 3 (cd_argv cmd) = ["sc.exe"; "create"; name] /\ cd_ok cmd = true.
Class AccountLaw (sys : System) (dataDir name : string) : Prop :=
  unknown_account log e : ~ created_in name log -> (sys log (icacls_argv dataDir name) e).2 = false.

(** Only commands of some programs are run. *)
Definition runs (names : list string) : relation Box := fun b b' =>
  exists l, bx_log b' = bx_log b ++ l /\ Forall (fun c => exists n, n ∈ names /\ head (cd_argv c) = Some n) l.

#[global] Instance runs_preorder names : PreOrder (runs names).
Proof.
  split.
  - intros b. exists []. by rewrite app_nil_r.
  - intros a b c (l & Hl & Hf) (l' & Hl' & Hf'). exists (l ++ l'). rewrite Hl', Hl, <- app_assoc. split; [done|by apply Forall_app].
Qed.

Lemma runs_same names b b' : bx_log b' = bx_log b -> runs names b b'.
Proof. intros H. exists []. by rewrite app_nil_r. Qed.

Lemma command_runs {R : Type} sys names n argv : n ∈ names -> guar (runs names) (command (R := R) sys (n :: argv)).
Proof.
  intros Hn. split; [|done]. intros e b. eexists. split; [done|]. apply Forall_singleton. by exists n.
Qed.

(** Walks down to the accesses, which leave the log or add a command to it. *)
Ltac runs_all := repeat first
  [ guar_step | apply command_runs; set_solver
  | apply guar_for_each; intros ? ?
  | split; [intros; apply runs_same; simpl; by repeat case_match|done] ].

Lemma files_run plat args sys selfPath :
  guar (runs ["certutil.exe"]) (win_dirs plat) /\ guar (runs ["certutil.exe"]) (win_binary plat selfPath) /\
  guar (runs ["certutil.exe"]) (win_configure plat args) /\ guar (runs ["certutil.exe"]) (win_token plat args) /\
  guar (runs ["certutil.exe"]) (win_ca sys plat args).
Proof.
  unfold win_dirs, win_binary, win_configure, win_token, win_ca, win_check, copy_bytes, mkdir_path, stat_file, read_bytes, write_bytes.
  split_and!; runs_all.
Qed.

Lemma waitForService_runs {R : Type} sys name n : guar (runs ["sc.exe"; "ping"]) (waitForService (R := R) sys name n).
Proof. induction n as [|n IH]; [done|]. cbn [waitForService]. runs_all; done. Qed.

Lemma service_run sys plat :
  guar (runs ["sc.exe"; "ping"]) (_ ← win_check (registerService sys (ServiceName plat) (BinaryPath plat)) WinRegister;
    _ ← runCmd sys ["sc.exe"; "failure"; ServiceName plat; "reset="; "86400"; "actions="; "restart/10000/restart/10000/restart/10000"];
    win_check (runCmd sys ["sc.exe"; "start"; ServiceName plat]) WinStart) /\
  guar (runs ["sc.exe"; "ping"]) (win_wait sys plat).
Proof.
  unfold win_wait, registerService, runCmd, win_check, read_bytes. split; runs_all. apply waitForService_runs.
Qed.

Lemma ends_runs {R A : Type} names E (p : prog Box R A) (Q : R + A -> Box -> Prop) b :
  guar (runs names) p -> (forall r b', runs names b b' -> Q r b') -> rg E (=) (fun _ _ => True) p Q b.
Proof.
  intros Hp HQ. apply (rg_weaken_G _ _ (runs names)); [done|].
  eapply rg_mono; [|eapply (guar_rg_stable _ _ _ (runs names b)); [by intros ? ? ->|intros x y Hxy Hx; by etrans|exact Hp|done]].
  intros r b'. apply HQ.
Qed.

Lemma then_runs {R A B : Type} names E (p : prog Box R A) (g : A -> prog Box R B) (Q : R + B -> Box -> Prop) b :
  guar (runs names) p -> (forall r b', runs names b b' -> Q (inl r) b') ->
  (forall a b', runs names b b' -> rg E (=) (fun _ _ => True) (g a) Q b') -> rg E (=) (fun _ _ => True) (p ≫= g) Q b.
Proof.
  intros Hp Hl Hg. apply rg_bind, (ends_runs names); [done|]. intros [r|a] b' Hb; auto.
Qed.

(** The new commands that are [argv] have all failed. *)
Definition acl_failed (argv : list string) (b b' : Box) : Prop :=
  exists l, bx_log b' = bx_log b ++ l /\ forall cmd, cmd ∈ l -> cd_argv cmd = argv -> cd_ok cmd = false.

Lemma runs_acl names dataDir name b b' : "icacls" ∉ names -> runs names b b' -> acl_failed (icacls_argv dataDir name) b b'.
Proof.
  intros Hn (l & Hl & Hf). exists l. split; [done|]. intros cmd Hc Ha. rewrite Forall_forall in Hf.
  destruct (Hf cmd Hc) as (n & Hin & Hh). rewrite Ha in Hh. injection Hh as <-. done.
Qed.

#[global] Instance acl_failed_trans argv : Transitive (acl_failed argv).
Proof.
  intros a b c (l & Hl & Hf) (l' & Hl' & Hf'). exists (l ++ l'). rewrite Hl', Hl, <- app_assoc. split; [done|].
  intros cmd [Hc|Hc]%elem_of_app; eauto.
Qed.

(** A first installation never protects the data directory, which then holds the
    enrollment token and later the agent's key: icacls runs before the service, and
    so its account, is created, and its error is dropped.  Whatever else happens,
    every icacls command of the installation has failed. *)
Theorem windows_data_unprotected sys `{!AccountLaw sys (DataDir windows) (ServiceName windows)} host args b env :
  ~ created_in (ServiceName windows) (bx_log b) ->
  acl_failed (icacls_argv (DataDir windows) (ServiceName windows)) b (run_store (Install sys host windows args) env b).
Proof.
  intros Hnew. set (argv := icacls_argv _ _). by_rg any_env (fun _ _ : Box => True); [done|].
  assert (forall b1, runs ["certutil.exe"] b b1 -> acl_failed argv b b1) as Hearly by (intros b1; apply runs_acl; set_solver).
  assert (acl_failed argv b b) as Hrefl by (by apply Hearly).
  unfold Install. rg_step. apply box_step. intros e _. cbn [fst snd]. case_match; [by rg_step|].
  destruct (files_run windows args sys (default "" (wh_executable host))) as (G1 & G2 & G3 & G4 & G5).
  destruct (service_run sys windows) as [G6 G7].
  eapply then_runs; [exact G1|auto|]. intros _ b1 H1. destruct (wh_executable host) as [selfPath|]; [|rg_step; auto].
  do 4 (eapply then_runs; [eassumption|intros ? ? Hb; apply Hearly; etrans; eauto|];
        intros _ ? Hb; eapply transitivity in Hb; [|exact H1]; clear H1; rename Hb into H1).
  unfold win_service, setACLs. rg_step. rg_step. rg_step. apply command_rg. intros r e' _ ->. rg_step.
  match goal with |- context [put_log ?l ?b1] => set (b2 := put_log l b1) end.
  assert (acl_failed argv b b2) as H2.
  { etrans; [by apply Hearly|]. eexists. split; [done|]. intros cmd ->%list_elem_of_singleton _. apply unknown_account.
    intros (cmd & Hin & Hc & Hcok). apply Hnew. destruct H1 as (l & Hl & Hf). rewrite Hl in Hin. apply elem_of_app in Hin as [?|Hin]; [by exists cmd|].
    rewrite Forall_forall in Hf. destruct (Hf cmd Hin) as (n & ->%list_elem_of_singleton & Hh). destruct (cd_argv cmd); [done|].
    injection Hh as ->. done. }
  assert (forall b3, runs ["sc.exe"; "ping"] b2 b3 -> acl_failed argv b b3) as Hlate.
  { intros b3 H3. etrans; [exact H2|]. eapply runs_acl; [|exact H3]. set_solver. }
  apply (ends_runs ["sc.exe"; "ping"]); [exact G6|]. intros [err|[]] b3 H3; [by apply Hlate|].
  apply (ends_runs ["sc.exe"; "ping"]); [exact G7|]. intros o b4 H4. apply Hlate. by etrans.
Qed.

(** ** Removing the agent *)

Lemma win_beneath_spec dir p : win_beneath dir p = true <-> p = dir \/ exists r, p = String.append dir (String backslash r).
Proof.
  unfold win_beneath. rewrite orb_true_iff, seqb_eq, HasPrefix_spec.
  split; intros [?|[r Hr]]; try (by left); right; exists r; by rewrite ?append_assoc in *.
Qed.

Lemma win_beneath_refl p : win_beneath p p = true.
Proof. apply win_beneath_spec. by left. Qed.

Lemma win_beneath_trans a b c : win_beneath a b = true -> win_beneath b c = true -> win_beneath a c = true.
Proof.
  rewrite !win_beneath_spec. intros [->|[r ->]] [->|[r' ->]]; eauto. right. exists (String.append r (String backslash r')).
  by rewrite append_assoc.
Qed.

(** Files only disappear, only below some paths, and no running program does. *)
Definition clears (ps : list string) : relation Box := fun b b' =>
  bx_images b' = bx_images b /\ bx_files b' ⊆ bx_files b /\
  forall q, q ∈ bx_images b \/ existsb (fun p => win_beneath p q) ps = false -> bx_files b' !! q = bx_files b !! q.

#[global] Instance clears_preorder ps : PreOrder (clears ps).
Proof.
  split; [done|]. intros a b c (Hi & Hs & Hk) (Hi' & Hs' & Hk'). split; [congruence|]. split; [by etrans|].
  intros q Hq. rewrite Hk', Hk; rewrite ?Hi; done.
Qed.

Lemma clears_same ps b b' : bx_images b' = bx_images b -> bx_files b' = bx_files b -> clears ps b b'.
Proof. intros Hi Hf. split_and!; [done|by rewrite Hf|by rewrite Hf]. Qed.

Lemma removed_clears ps p b : p ∈ ps -> clears ps b (removed p b).
Proof.
  intros Hp. split_and!; [done|apply map_filter_subseteq|]. intros q Hq. cbn. destruct (bx_files b !! q) as [d|] eqn:E.
  - apply map_lookup_filter_Some. split; [done|]. cbn. apply orb_true_iff. destruct Hq as [Hq|Hq].
    + right. apply existsb_exists. exists q. split; [|apply win_beneath_refl]. by apply list_elem_of_In, elem_of_elements.
    + left. apply negb_true_iff. apply not_true_iff_false. intros Hb. apply not_true_iff_false in Hq. apply Hq.
      apply existsb_exists. exists p. by rewrite <- list_elem_of_In.
  - apply map_lookup_filter_None. by left.
Qed.

(** What is left below a path after it has been removed. *)
Lemma removed_gone p q b : held p b = false -> win_beneath p q = true -> bx_files (removed p b) !! q = None.
Proof.
  intros Hh Hb. apply map_lookup_filter_None. right. intros d _ Hs. cbn in Hs. rewrite Hb in Hs. cbn in Hs.
  apply existsb_exists in Hs as (i & Hi & Hqi). unfold held in Hh. apply not_true_iff_false in Hh. apply Hh.
  apply existsb_exists. exists i. split; [done|]. by eapply win_beneath_trans.
Qed.

Section Removal.
Context {R : Type} (ps : list string).
Notation any := (fun _ _ : Box => True).

Lemma remove_present_ok p (Q : R + bool -> Box -> Prop) b :
  p ∈ ps -> (forall r b', clears ps b b' -> (held p b = false -> bx_files b' !! p = None) -> Q (inr r) b') ->
  rg ok_env (=) any (remove_present p) Q b.
Proof.
  intros Hp HQ. unfold remove_present. rg_step. apply box_step. intros e [-> _]. cbn [fst snd]. case_bool_decide as Hs.
  - apply box_step. intros e' [-> _]. cbn [fst snd]. apply HQ; [by apply removed_clears|]. intros Hh. apply removed_gone; [done|apply win_beneath_refl].
  - rg_step. apply HQ; [done|]. intros _. destruct (bx_files b !! p) eqn:E; [|done]. destruct Hs. left. by eexists.
Qed.

Lemma remove_list_ok l (Q : R + unit -> Box -> Prop) : forall b,
  Forall (fun p => p ∈ ps) l ->
  (forall b', clears ps b b' -> (forall p, p ∈ l -> held p b = false -> bx_files b' !! p = None) -> Q (inr tt) b') ->
  rg ok_env (=) any (for_each l tt (fun _ p => _ ← remove_present p; mret tt)) Q b.
Proof.
  induction l as [|p l IH]; intros b Hl HQ; [apply HQ; [done|set_solver]|]. apply Forall_cons in Hl as [Hp Hl].
  apply rg_for_each_cons. rg_step. apply remove_present_ok; [done|]. intros _ b1 H1 G1. rg_step. apply IH; [done|].
  intros b2 H2 G2. apply HQ; [by etrans|]. intros q [->|Hq]%elem_of_cons Hh.
  - eapply lookup_weaken_None; [by apply G1|apply H2].
  - apply G2; [done|]. unfold held in *. by destruct H1 as [-> _].
Qed.
End Removal.

Lemma logs_clears ps b b' : logs_only b b' -> clears ps b b'.
Proof. intros (Hf & _ & Hi & _). by apply clears_same. Qed.

Lemma win_unregister_logs sys plat E (Q : WinError + unit -> Box -> Prop) b :
  (forall b', logs_only b b' -> Q (inr tt) b') -> rg E (=) (fun _ _ => True) (win_unregister sys plat) Q b.
Proof.
  intros HQ. unfold win_unregister, serviceExists. rg_step. rg_step. apply command_logs. intros r b1 H1. rg_step.
  case_match; [|rg_step; by apply HQ]. rg_step. apply runCmd_logs. intros _ b2 H2. rg_step. apply runCmd_logs. intros _ b3 H3.
  rg_step. apply HQ. by do 2 (etrans; [eassumption|]).
Qed.

Lemma removeEmptyDir_rg {R : Type} ps path E (Q : R + unit -> Box -> Prop) b :
  (forall b', clears ps b b' -> Q (inr tt) b') -> rg E (=) (fun _ _ => True) (removeEmptyDir path) Q b.
Proof.
  intros HQ. unfold removeEmptyDir. rg_step. apply box_step. intros e _. cbn [fst snd].
  case_match; [|rg_step; by apply HQ]. apply box_step. intros e' _. apply HQ. cbn [fst snd]. by case_match; apply clears_same.
Qed.

(** Everything that [Uninstall] removes. *)
Definition win_removed (plat : Platform) (purge : bool) : list string :=
  win_binaries plat ++ [SocketPath plat] ++ if purge then [DataDir plat] else [].

(** [Uninstall] by an administrator, when no file operation fails: it reports no
    error, whatever the programs of the system answer; the binaries are gone, with
    [purge] everything in the data directory too, and no other file is touched,
    but the binary of a service that has not stopped yet stays behind, since the
    error of its removal is dropped. *)
Theorem windows_uninstall_spec sys host purge b env :
  (forall n, ok_env (env n)) -> wh_admin host = true ->
  let b' := run_store (Uninstall sys host windows purge) env b in
  run_result (Uninstall sys host windows purge) env b = inr tt /\ clears (win_removed windows purge) b b' /\
  (forall p, p ∈ win_binaries windows -> held p b = false -> bx_files b' !! p = None) /\
  (purge = true -> held (DataDir windows) b = false -> forall q, win_beneath (DataDir windows) q = true -> bx_files b' !! q = None).
Proof.
  intros Henv Hadmin b'. unfold b'. set (ps := win_removed windows purge).
  assert (forall p, p ∈ win_binaries windows ++ [SocketPath windows] -> p ∈ ps) as Hps.
  { intros p Hp. unfold ps, win_removed. set_solver. }
  by_rg ok_env (fun _ _ : Box => True); [done|]. unfold Uninstall.
  rg_step. apply box_step. intros e [-> _]. rewrite Hadmin. cbn [fst snd andb negb]. rg_step. apply win_unregister_logs. intros b1 H1.
  assert (bx_images b1 = bx_images b) as Hi1 by apply H1. apply (logs_clears ps) in H1.
  rg_step. apply (remove_list_ok ps); [apply Forall_forall; set_solver|]. intros b2 H2 G2.
  rg_step. apply (removeEmptyDir_rg ps). intros b3 H3. rg_step. apply (remove_present_ok ps); [apply Hps; set_solver|]. intros _ b4 H4 _.
  assert (clears ps b2 b4) as H24 by (by etrans). assert (clears ps b b4) as H04 by (do 2 (etrans; [eassumption|]); done).
  assert (forall b5, clears ps b4 b5 -> forall p, p ∈ win_binaries windows -> held p b = false -> bx_files b5 !! p = None) as Hgone.
  { intros b5 H5 p Hp Hh. eapply lookup_weaken_None; [|etrans; [apply H5|apply H24]]. apply G2; [done|]. unfold held in *. by rewrite Hi1. }
  destruct purge.
  - unfold removeCACertFromStore. rg_step. rg_step. apply command_logs. intros _ b5 H5%(logs_clears ps). rg_step.
    change (DataDir windows =s "") with false. cbv iota. rg_step. apply box_step. intros e' [-> _]. cbn [fst snd]. rg_step.
    assert (clears ps b5 (removed (DataDir windows) b5)) as H6 by (apply removed_clears; unfold ps, win_removed; set_solver).
    split_and!; [done|do 2 (etrans; [eassumption|]); done|by apply Hgone; etrans|].
    intros _ Hh q Hq. apply removed_gone; [|done]. unfold held in *. destruct H5 as [-> _]. by destruct H04 as [-> _].
  - rg_step. split_and!; [done|done|by apply Hgone|done].
Qed.
