(* ===== verification/Ids.v ===== *)
(** * Identifiers

    [shared/models/id.go]: the kinds of rows that have an id, the prefix of each,
    and the test for a prefix.  The handlers draw their ids with [new_id] of file
    [Prog], which puts the prefix in front of a value of the environment. *)

From stdpp Require Import relations.
From S2P Require Import Prelude Text Prog Install.

Inductive IdKind :=
| TenantID | UserID | RoleID | APIKeyID | DeviceID | GroupID | TagID | SiteID | JobID | JobResultID | ScheduledJobID | AuditEntryID
| AlertRuleID | CertificateID | EnrollmentTokenID | SigningKeyID | FileID | UploadID | AgentVersionID | InstallerID | InventoryHWID
| InventoryPkgID | DeviceLogID | AgentVersionBinaryID | UpdatePolicyID | RolloutID.

#[export] Instance id_kind_eq_dec : EqDecision IdKind.
Proof. solve_decision. Defined.

(** The functions [New...ID]. *)
Definition id_prefix (k : IdKind) : string :=
  match k with
  | TenantID => "ten" | UserID => "usr" | RoleID => "rol" | APIKeyID => "key" | DeviceID => "dev" | GroupID => "grp" | TagID => "tag"
  | SiteID => "sit" | JobID => "job" | JobResultID => "jrs" | ScheduledJobID => "sjb" | AuditEntryID => "aud" | AlertRuleID => "alr"
  | CertificateID => "crt" | EnrollmentTokenID => "enr" | SigningKeyID => "sgk" | FileID => "fil" | UploadID => "upl"
  | AgentVersionID => "avg" | InstallerID => "ins" | InventoryHWID => "ihw" | InventoryPkgID => "ipk" | DeviceLogID => "dlg"
  | AgentVersionBinaryID => "avb" | UpdatePolicyID => "aup" | RolloutID => "rol"
  end.

(** [hex.EncodeToString] of the random bytes. *)
Definition hex_digit (n : nat) : Ascii.ascii := Ascii.ascii_of_nat (if (n <? 10)%nat then 48 + n else 87 + n).
Fixpoint hex_encode (b : list Byte.byte) : string :=
  match b with
  | [] => EmptyString
  | x :: b' => let n := Byte.to_nat x in String (hex_digit (n / 16)) (String (hex_digit (n mod 16)) (hex_encode b'))
  end.

(** [newID] with the bytes that were drawn. *)
Definition newID (prefix : string) (b : list Byte.byte) : string := String.append prefix (String.append "_" (hex_encode b)).

Definition ValidPrefix (id prefix : string) : bool := HasPrefix id (String.append prefix "_").

(** ** Theorems *)

Lemma append_prefix a b r r' : String.length a = String.length b -> String.append a r = String.append b r' -> a = b.
Proof.
  revert b. induction a as [|c a IH]; intros [|d b] Hl He; simplify_eq/=; [done|]. f_equal. by eapply IH.
Qed.

Lemma prefix_lengths : forall k, String.length (id_prefix k) = 3.
Proof. by intros []. Qed.

(** The prefix of an id tells its kind, whatever bytes are drawn, except that roles
    and rollouts cannot be told apart. *)
Theorem id_kind_recognised k k' b :
  ValidPrefix (newID (id_prefix k) b) (id_prefix k') = true <->
  k' = k \/ (k = RoleID /\ k' = RolloutID) \/ (k = RolloutID /\ k' = RoleID).
Proof.
  unfold ValidPrefix, newID. rewrite HasPrefix_spec. split.
  - intros [r Hr]. rewrite append_assoc in Hr. assert (id_prefix k = id_prefix k') as Hk.
    { eapply append_prefix; [|exact Hr]. by rewrite !prefix_lengths. }
    destruct k, k'; try discriminate Hk; tauto.
  - intros Hk. assert (id_prefix k' = id_prefix k) as -> by (by destruct Hk as [->|[[-> ->]|[-> ->]]]). exists (hex_encode b).
    by rewrite append_assoc.
Qed.

Lemma hex_encode_length b : String.length (hex_encode b) = 2 * length b.
Proof. induction b as [|x b IH]; [done|]. cbn. rewrite IH. lia. Qed.

Lemma hex_digit_inj n m : n < 16 -> m < 16 -> hex_digit n = hex_digit m -> n = m.
Proof.
  intros Hn Hm H. apply (f_equal Ascii.nat_of_ascii) in H. unfold hex_digit in H.
  destruct (Nat.ltb_spec n 10), (Nat.ltb_spec m 10); rewrite !Ascii.nat_ascii_embedding in H by lia; lia.
Qed.

Lemma byte_inj x y : Byte.to_nat x = Byte.to_nat y -> x = y.
Proof. intros H. apply (f_equal Byte.of_nat) in H. rewrite !Byte.of_to_nat in H. congruence. Qed.

Lemma hex_encode_inj : forall b b', hex_encode b = hex_encode b' -> b = b'.
Proof.
  assert (forall c d s t, String c s = String d t -> c = d /\ s = t) as Hinj by (by intros c d s t [= -> ->]).
  induction b as [|x b IH]; intros [|y b'] H; [done|discriminate..|]. cbn [hex_encode] in H.
  apply Hinj in H as [H1 H]. apply Hinj in H as [H2 H3].
  pose proof (Byte.to_nat_bounded x). pose proof (Byte.to_nat_bounded y).
  apply hex_digit_inj in H1; [|apply Nat.Div0.div_lt_upper_bound; lia..]. apply hex_digit_inj in H2; [|apply Nat.mod_upper_bound; lia..].
  f_equal; [|by apply IH]. apply byte_inj. rewrite (Nat.div_mod_eq (Byte.to_nat x) 16), (Nat.div_mod_eq (Byte.to_nat y) 16). lia.
Qed.

(** An id of eight random bytes has twenty characters, and different bytes give
    different ids. *)
Theorem ids_injective k b b' :
  (length b = 8 -> String.length (newID (id_prefix k) b) = 20) /\
  (newID (id_prefix k) b = newID (id_prefix k) b' -> b = b').
Proof.
  unfold newID. split.
  - intros Hb. rewrite !length_append, prefix_lengths, hex_encode_length, Hb. done.
  - intros H. apply hex_encode_inj. by destruct k; injection H.
Qed.
