(* ===== verification/Pki.v ===== *)
(** * The server's certificate authority

    [server/pki/ca.go] and [runGenerateCA] of [server/cmd/api/main.go]: making and
    loading the root and the intermediate CA ([SignCSR] is in file [Enrollment]).

    Keys and certificates are made and read by the fields of [CertLib], with the
    laws [CertLaws]; the web UI's own CA (file [LocalCA]) uses the same functions. *)

From stdpp Require Import relations.
From S2P Require Import Prelude Text Platform Prog Models JobState Enrollment Update Credentials.

Definition day : Z := 24 * hour.

Record CertTemplate := {
  lt_serial : string;
  lt_common_name : string;
  lt_not_before : Z;
  lt_not_after : Z;
  lt_is_ca : bool;
  lt_max_path_len : Z;          (* -1 when there is no limit *)
  lt_permitted : list string;   (* name constraints: domains and address ranges *)
  lt_names : list string;       (* DNSNames and IPAddresses *)
}.

(** A parsed certificate: its contents, its key and the key that signed it. *)
Record ParsedCert := { lc_template : CertTemplate; lc_key : string; lc_signer : string }.

Record CertLib := {
  ll_create : CertTemplate -> option ParsedCert -> string -> string -> option string;
    (* CreateCertificate: template, parent (none is the template itself), public key, signing key; the PEM file *)
  ll_key_pem : string -> option string;                 (* MarshalECPrivateKey, the PEM file *)
  ll_parse_cert : string -> option ParsedCert;           (* pem.Decode, ParseCertificate *)
  ll_parse_key : string -> option string;               (* pem.Decode, ParseECPrivateKey *)
  ll_pair : string -> string -> option ParsedCert;       (* tls.LoadX509KeyPair *)
}.

(** What is relied on of the certificate functions. *)
Class CertLaws (ll : CertLib) := {
  create_works : forall tpl parent key signer,
    match parent with Some ca => lc_key ca = signer | None => True end -> is_Some (ll_create ll tpl parent key signer);
  create_parses : forall tpl parent key signer pem, ll_create ll tpl parent key signer = Some pem ->
    ll_parse_cert ll pem = Some {| lc_template := tpl; lc_key := key; lc_signer := signer |};
  key_works : forall key, exists pem, ll_key_pem ll key = Some pem /\ ll_parse_key ll pem = Some key;
  pair_spec : forall cert key c k, ll_parse_cert ll cert = Some c -> ll_parse_key ll key = Some k ->
    ll_pair ll cert key = if lc_key c =s k then Some c else None;
}.

(** [ecdsa.GenerateKey], [randomSerial] and [time.Now]: a new key, a serial number and the time. *)
Definition fresh_key {S R : Type} : prog S R (option (string * string * Z)) :=
  key ← random_hex;
  match key with
  | None => mret None
  | Some key =>
      serial ← random_hex;
      match serial with
      | None => mret None
      | Some serial => now ← time_now; mret (Some (key, serial, now))
      end
  end.


(** ** server/pki/ca.go *)

Record CA := { ca_cert : ParsedCert; ca_key : string }.

Definition ca_kind (cn : string) (isRoot : bool) (serial : string) (now : Z) : CertTemplate :=
  {| lt_serial := serial; lt_common_name := cn; lt_not_before := now; lt_not_after := now + (if isRoot then 10 * 365 * day else 365 * day);
     lt_is_ca := true; lt_max_path_len := if isRoot then 1 else 0; lt_permitted := []; lt_names := [] |}.

Section Pki.
Context {R : Type} (ll : CertLib).

(** [ParseCA]; [None] is an error.  The key is not compared with the certificate. *)
Definition ParseCA (certPEM keyPEM : string) : option CA :=
  cert ← ll_parse_cert ll certPEM;
  if negb (lt_is_ca (lc_template cert)) then None
  else key ← ll_parse_key ll keyPEM; Some {| ca_cert := cert; ca_key := key |}.

Definition LoadCA (certPath keyPath : string) : prog FS R (option CA) :=
  certPEM ← read_file certPath;
  match certPEM with
  | None => mret None
  | Some certPEM => keyPEM ← read_file keyPath; mret (k ← keyPEM; ParseCA certPEM k)
  end.

(** [GenerateCA]: the certificate and the key in PEM; [None] is an error. *)
Definition GenerateCA (cn : string) (isRoot : bool) (parent : option CA) : prog FS R (option (string * string)) :=
  fr ← fresh_key;
  mret ('(key, serial, now) ← fr;
        let signer := match parent with Some p => ca_key p | None => key end in
        certPEM ← ll_create ll (ca_kind cn isRoot serial now) (ca_cert <$> parent) key signer;
        keyPEM ← ll_key_pem ll key;
        Some (certPEM, keyPEM)).

(** ** runGenerateCA *)

(** The files of the map; [order] is the order in which the range visits them. *)
Definition ca_files (outDir : string) (root inter : string * string) : list (string * string) :=
  [(Join [outDir; "root-ca.crt"], root.1); (Join [outDir; "root-ca.key"], root.2);
   (Join [outDir; "intermediate-ca.crt"], inter.1); (Join [outDir; "intermediate-ca.key"], inter.2)].

(** [true] is exit status 0. *)
Definition runGenerateCA (outDir : string) (order : list (string * string) -> list (string * string)) : prog FS R bool :=
  made ← PStep (fun e fs => (fs, negb (e_fault e))) PRet;
  if negb made then mret false
  else
    root ← GenerateCA "Moebius Root CA" true None;
    match (r ← root; ca ← ParseCA r.1 r.2; Some (r, ca)) with
    | None => mret false
    | Some (root, rootCA) =>
        inter ← GenerateCA "Moebius Intermediate CA" false (Some rootCA);
        match inter with
        | None => mret false
        | Some inter => write_all (order (ca_files outDir root inter))
        end
    end.
End Pki.

(** ** Lemmas *)

Section Lemmas.
Context {S R : Type} (E : Env -> Prop) (Hok : ~ may_fault E).

Lemma quiet_no_fault e : E e -> e_fault e = false.
Proof. intros He. destruct (e_fault e) eqn:Ef; [|done]. destruct Hok. by exists e. Qed.

Lemma fresh_key_ok (Q : R + option (string * string * Z) -> S -> Prop) fs :
  (forall key serial e, E e -> Q (inr (Some (key, serial, e_now e))) fs) -> rg E (=) (fun _ _ : S => True) fresh_key Q fs.
Proof.
  intros HQ. unfold fresh_key. apply rg_bind. intros fs1 e1 He1 <-. split; [done|]. cbn [fst snd]. rewrite (quiet_no_fault e1 He1).
  apply rg_bind. intros fs1 e2 He2 <-. split; [done|]. cbn [fst snd]. rewrite (quiet_no_fault e2 He2).
  apply rg_bind. intros fs1 e3 He3 <-. split; [done|]. by apply HQ.
Qed.

End Lemmas.

Section Chain.
Context {R : Type} (ll : CertLib) `{!CertLaws ll} (E : Env -> Prop) (Hok : ~ may_fault E).

(** What a generated pair parses to. *)
Definition generated (cn : string) (isRoot : bool) (parent : option CA) (pair : string * string) (ca : CA) : Prop :=
  ParseCA ll pair.1 pair.2 = Some ca /\ lc_key (ca_cert ca) = ca_key ca /\
  lc_signer (ca_cert ca) = match parent with Some p => ca_key p | None => ca_key ca end /\
  exists serial e, E e /\ lc_template (ca_cert ca) = ca_kind cn isRoot serial (e_now e).

Lemma GenerateCA_ok cn isRoot parent (Q : R + option (string * string) -> FS -> Prop) fs :
  match parent with Some p => lc_key (ca_cert p) = ca_key p | None => True end ->
  (forall pair ca, generated cn isRoot parent pair ca -> Q (inr (Some pair)) fs) ->
  rg E (=) (fun _ _ : FS => True) (GenerateCA ll cn isRoot parent) Q fs.
Proof.
  intros Hpar HQ. unfold GenerateCA. rg_step. apply fresh_key_ok; [done|]. intros key serial e He. rg_step. cbn [mbind option_bind]. cbv zeta.
  set (signer := match parent with Some p => ca_key p | None => key end).
  destruct (create_works (ca_kind cn isRoot serial (e_now e)) (ca_cert <$> parent) key signer) as [pem Hpem].
  { unfold signer. by destruct parent. }
  destruct (key_works key) as (kpem & Hk & Hkp). rewrite Hpem. cbn [mbind option_bind]. rewrite Hk. cbn [mbind option_bind].
  apply HQ with {| ca_cert := {| lc_template := ca_kind cn isRoot serial (e_now e); lc_key := key; lc_signer := signer |}; ca_key := key |}.
  split; [|split; [done|split; [by destruct parent|by exists serial, e]]].
  unfold ParseCA. cbn [fst snd]. rewrite (create_parses _ _ _ _ _ Hpem). cbn. by rewrite Hkp.
Qed.

(** The files of the two CAs. *)
Definition ca_written (outDir : string) (root inter : string * string) (fs : FS) : Prop :=
  forall p d, (p, d) ∈ ca_files outDir root inter -> fs_files fs !! p = Some d.

Lemma runGenerateCA_ok outDir order (Q : R + bool -> FS -> Prop) fs :
  (forall files, order files ≡ₚ files) -> NoDup (ca_files outDir ("", "") ("", "")).*1 ->
  (forall rp root ip ca fs', generated "Moebius Root CA" true None rp root -> generated "Moebius Intermediate CA" false (Some root) ip ca ->
     ca_written outDir rp ip fs' -> Q (inr true) fs') ->
  rg E (=) (fun _ _ : FS => True) (runGenerateCA ll outDir order) Q fs.
Proof.
  intros Hord Hnd HQ. unfold runGenerateCA. rg_step. intros fs1 e He <-. split; [done|]. cbn [fst snd rg]. rewrite (quiet_no_fault E Hok e He). cbn [negb].
  rg_step. apply GenerateCA_ok; [done|]. intros rp root Hr. cbn [mbind option_bind]. rewrite (proj1 Hr). cbn [mbind option_bind].
  rg_step. apply GenerateCA_ok; [apply Hr|]. intros ip ca Hi. apply write_all_rg; [|done|].
  - by rewrite (Hord (ca_files outDir rp ip)).
  - intros fs' _ Hall. eapply HQ; [exact Hr|exact Hi|]. intros p d Hin. apply Hall. by rewrite Hord.
Qed.
End Chain.

Lemma LoadCA_result {R : Type} ll cf kf cert key ca env fs :
  (forall n, ok_env (env n)) -> fs_files fs !! cf = Some cert -> fs_files fs !! kf = Some key -> ParseCA ll cert key = Some ca ->
  run_result (LoadCA (R := R) ll cf kf) env fs = inr (Some ca).
Proof.
  intros Henv Hc Hk Hp. unfold run_result, LoadCA. rewrite run_bind. cbn [run read_file fst snd]. rewrite (proj1 (Henv 0)), Hc.
  rewrite run_bind. cbn [run read_file fst snd]. rewrite (proj1 (Henv 1)), Hk. cbn. by rewrite Hp.
Qed.

(** A run of [generate-ca]. *)
Lemma generate_ca_result {R : Type} ll `{!CertLaws ll} outDir order fs env :
  (forall n, ok_env (env n)) -> (forall files, order files ≡ₚ files) -> NoDup (ca_files outDir ("", "") ("", "")).*1 ->
  run_result (runGenerateCA (R := R) ll outDir order) env fs = inr true /\ exists rp root ip ca,
    generated ll (envs env) "Moebius Root CA" true None rp root /\ generated ll (envs env) "Moebius Intermediate CA" false (Some root) ip ca /\
    ca_written outDir rp ip (run_store (runGenerateCA (R := R) ll outDir order) env fs).
Proof.
  intros Henv Hord Hnd. by_rg (envs env) (fun _ _ : FS => True); [by eexists|].
  apply runGenerateCA_ok; [done|by apply envs_no_fault|done|done|].
  intros rp root ip ca fs1 Hr Hi Hw. split; [done|]. by exists rp, root, ip, ca.
Qed.

(** ** Theorem *)

(** [generate-ca], in whatever order it writes its files, leaves an intermediate CA
    that the server loads: its key belongs to its certificate, it is signed by the
    root, it may sign agents but no further CA, and it is good for one year. *)
Theorem generated_ca_loads {R : Type} ll `{!CertLaws ll} outDir order fs env env' :
  (forall n, ok_env (env n)) -> (forall n, ok_env (env' n)) -> (forall files, order files ≡ₚ files) ->
  NoDup (ca_files outDir ("", "") ("", "")).*1 ->
  let fs' := run_store (runGenerateCA (R := R) ll outDir order) env fs in
  run_result (runGenerateCA (R := R) ll outDir order) env fs = inr true /\
  exists root ca t,
    run_result (LoadCA (R := R) ll (Join [outDir; "root-ca.crt"]) (Join [outDir; "root-ca.key"])) env' fs' = inr (Some root) /\
    run_result (LoadCA (R := R) ll (Join [outDir; "intermediate-ca.crt"]) (Join [outDir; "intermediate-ca.key"])) env' fs' = inr (Some ca) /\
    lc_key (ca_cert ca) = ca_key ca /\ lc_signer (ca_cert ca) = lc_key (ca_cert root) /\ lc_signer (ca_cert root) = ca_key root /\
    lt_max_path_len (lc_template (ca_cert ca)) = 0%Z /\
    (exists n, e_now (env n) = t) /\ lt_not_after (lc_template (ca_cert ca)) = (t + 365 * day)%Z.
Proof.
  intros Henv Henv' Hord Hnd fs'. destruct (generate_ca_result (R := R) ll outDir order fs env Henv Hord Hnd)
    as (Hres & rp & root & ip & ca & (Hr1 & Hr2 & Hr3 & _) & (Hi1 & Hi2 & Hi3 & serial & e & [n <-] & Ht) & Hw).
  split; [done|]. exists root, ca, (e_now (env n)). unfold ca_written, ca_files in Hw.
  split_and!; [apply (LoadCA_result ll _ _ rp.1 rp.2); [done|apply Hw; set_solver..|done]|apply (LoadCA_result ll _ _ ip.1 ip.2); [done|apply Hw; set_solver..|done]|done|congruence|done|..].
  - by rewrite Ht.
  - by exists n.
  - by rewrite Ht.
Qed.
