(* ===== verification/LocalCA.v ===== *)
(** * The certificate of the local web UI

    [agent/localui/localca.go], [truststore_linux.go] and the start of
    [Server.Serve] ([agent/localui/server.go]): a CA of the device's own, limited
    to localhost, and a server certificate under it that is replaced before it
    ends.  Keys and certificates are made and read by the fields of [CertLib],
    with the laws [CertLaws] of file [Pki]; file operations may fail half way. *)

From stdpp Require Import relations.
From S2P Require Import Prelude Text Platform Prog Models JobState Enrollment Update Credentials Pki.

Definition caValidity : Z := 10 * 365 * day.
Definition certValidity : Z := 90 * day.
Definition renewBefore : Z := 30 * day.

Section LocalCA.
Context {R : Type} (ll : CertLib) (dataDir : string).

Definition caCertPath : string := Join [dataDir; "local-ca.crt"].
Definition caKeyPath : string := Join [dataDir; "local-ca.key"].
Definition certPath : string := Join [dataDir; "local-tls.crt"].
Definition keyPath : string := Join [dataDir; "local-tls.key"].

Definition fileExists (path : string) : prog FS R bool := stat path.

(** [writePEM]; [true] is a nil error. *)
Definition writePEM (path pem : string) : prog FS R bool := write_file path pem.

Definition ca_template (serial : string) (now : Z) : CertTemplate :=
  {| lt_serial := serial; lt_common_name := "Moebius Agent Local CA"; lt_not_before := now; lt_not_after := now + caValidity;
     lt_is_ca := true; lt_max_path_len := 0; lt_permitted := ["localhost"; "127.0.0.1/32"]; lt_names := [] |}.

Definition leaf_template (serial : string) (now : Z) : CertTemplate :=
  {| lt_serial := serial; lt_common_name := "localhost"; lt_not_before := now; lt_not_after := now + certValidity;
     lt_is_ca := false; lt_max_path_len := -1; lt_permitted := []; lt_names := ["localhost"; "127.0.0.1"] |}.

(** The certificate is written before the key is encoded. *)
Definition write_pair (certFile keyFile : string) (cert : option string) (key : string) : prog FS R bool :=
  match cert with
  | None => mret false
  | Some pem =>
      ok ← writePEM certFile pem;
      if negb ok then mret false
      else match ll_key_pem ll key with
           | None => mret false
           | Some kpem => writePEM keyFile kpem
           end
  end.

Definition generateCA : prog FS R bool :=
  fr ← fresh_key;
  match fr with
  | None => mret false
  | Some (key, serial, now) => write_pair caCertPath caKeyPath (ll_create ll (ca_template serial now) None key key) key
  end.

Definition loadCA : prog FS R (option (ParsedCert * string)) :=
  certPEM ← read_file caCertPath;
  match (p ← certPEM; ll_parse_cert ll p) with
  | None => mret None
  | Some cert =>
      keyPEM ← read_file caKeyPath;
      mret (p ← keyPEM; key ← ll_parse_key ll p; Some (cert, key))
  end.

Definition issueCert : prog FS R bool :=
  ca ← loadCA;
  match ca with
  | None => mret false
  | Some (caCert, caKey) =>
      fr ← fresh_key;
      match fr with
      | None => mret false
      | Some (key, serial, now) => write_pair certPath keyPath (ll_create ll (leaf_template serial now) (Some caCert) key caKey) key
      end
  end.

Definition needsRotation : prog FS R bool :=
  certPEM ← read_file certPath;
  match (p ← certPEM; ll_parse_cert ll p) with
  | None => mret true
  | Some cert => now ← time_now; mret (lt_not_after (lc_template cert) <? now + renewBefore)%Z
  end.

Definition both_exist (a b : string) : prog FS R bool :=
  x ← fileExists a;
  if negb x then mret false else fileExists b.

Definition EnsureCA : prog FS R bool :=
  there ← both_exist caCertPath caKeyPath;
  if there : bool then mret true else generateCA.

Definition EnsureCert : prog FS R bool :=
  there ← both_exist certPath keyPath;
  needs ← (if there : bool then needsRotation else mret true);
  if needs : bool then issueCert else mret true.

(** The certificate and key the server is configured with; [None] is an error. *)
Definition TLSConfig : prog FS R (option ParsedCert) :=
  cert ← read_file certPath;
  match cert with
  | None => mret None
  | Some cert => key ← read_file keyPath; mret (key ← key; ll_pair ll cert key)
  end.

(** ** truststore_linux.go *)

(** The directories of the two supported families that exist. *)
Record TrustStore := { ts_debian : bool; ts_rhel : bool }.

Definition trust_file : string := "moebius-agent-local-ca.crt".

(** The commands that update the trust database may fail; [true] is a nil error. *)
Definition InstallCATrustStore (ts : TrustStore) : prog FS R bool :=
  caPEM ← read_file caCertPath;
  match caPEM with
  | None => mret false
  | Some pem =>
      let install dir :=
        ok ← write_file (Join [dir; trust_file]) pem;
        if negb ok then mret false else PStep (fun e fs => (fs, negb (e_fault e))) PRet in
      if ts_debian ts then install "/usr/local/share/ca-certificates"
      else if ts_rhel ts then install "/etc/pki/ca-trust/source/anchors"
      else mret false
  end.

(** ** The start of [Server.Serve] *)

(** The certificate that the web UI serves until it stops; [None] is an error. *)
Definition serve_tls (ts : TrustStore) : prog FS R (option ParsedCert) :=
  ok ← EnsureCA;
  if negb ok then mret None
  else
    ok ← EnsureCert;
    if negb ok then mret None
    else
      _ ← InstallCATrustStore ts;
      TLSConfig.

End LocalCA.

(** ** Lemmas *)

Section Lemmas.
Context {R : Type} (ll : CertLib) `{!CertLaws ll} (E : Env -> Prop).
Implicit Types (fs : FS).

Notation dir := (DataDir linux).

(** A certificate and its key in two files. *)
Definition pair_at (cf kf : string) (c : ParsedCert) fs : Prop :=
  exists pem kpem, fs_files fs !! cf = Some pem /\ fs_files fs !! kf = Some kpem /\
    ll_parse_cert ll pem = Some c /\ ll_parse_key ll kpem = Some (lc_key c).
Definition missing (cf kf : string) fs : Prop := fs_files fs !! cf = None \/ fs_files fs !! kf = None.

(** A server certificate for localhost under the key of a CA. *)
Definition serves_localhost (c ca : ParsedCert) : Prop :=
  lc_signer c = lc_key ca /\ lt_names (lc_template c) = ["localhost"; "127.0.0.1"] /\ lt_is_ca (lc_template c) = false.

(** What the files hold between starts that do not fail. *)
Definition consistent fs : Prop :=
  missing (caCertPath dir) (caKeyPath dir) fs /\ missing (certPath dir) (keyPath dir) fs \/
  exists ca, pair_at (caCertPath dir) (caKeyPath dir) ca fs /\
    (missing (certPath dir) (keyPath dir) fs \/ exists c, pair_at (certPath dir) (keyPath dir) c fs /\ serves_localhost c ca).

Lemma pair_kept ps cf kf c fs fs' : kept ps fs fs' -> cf ∉ ps -> kf ∉ ps -> pair_at cf kf c fs -> pair_at cf kf c fs'.
Proof. intros [Hk _] H1 H2 (pem & kpem & Hc & Hkf & Hp). exists pem, kpem. by rewrite !Hk. Qed.

Lemma missing_kept ps cf kf fs fs' : kept ps fs fs' -> cf ∉ ps -> kf ∉ ps -> missing cf kf fs -> missing cf kf fs'.
Proof. intros [Hk _] H1 H2 Hm. unfold missing. by rewrite !Hk. Qed.

(** The first CA, and a server certificate under the CA that is there. *)
Lemma issued_consistent c ca fs :
  pair_at (caCertPath dir) (caKeyPath dir) ca fs -> pair_at (certPath dir) (keyPath dir) c fs -> serves_localhost c ca -> consistent fs.
Proof. intros H1 H2 H3. right. exists ca. split; [done|]. right. by exists c. Qed.

(** The files of the system's trust store, and the four files of the web UI. *)
Definition trust_files : list string :=
  [Join ["/usr/local/share/ca-certificates"; trust_file]; Join ["/etc/pki/ca-trust/source/anchors"; trust_file]].

(** The server certificate and how long it is good for. *)
Definition served (c : ParsedCert) fs : Prop :=
  exists ca, pair_at (caCertPath dir) (caKeyPath dir) ca fs /\ pair_at (certPath dir) (keyPath dir) c fs /\ serves_localhost c ca /\
    exists e, E e /\ (e_now e + renewBefore <= lt_not_after (lc_template c))%Z.

Lemma served_kept ps c fs fs' :
  kept ps fs fs' -> Forall (fun p => p ∉ ps) [caCertPath dir; caKeyPath dir; certPath dir; keyPath dir] -> served c fs -> served c fs'.
Proof.
  intros Hk Hps (ca & H1 & H2 & H3). rewrite !Forall_cons in Hps. destruct Hps as (P1 & P2 & P3 & P4 & _).
  exists ca. split; [by eapply pair_kept|]. split; [by eapply pair_kept|done].
Qed.

Context (Hok : ~ may_fault E).
Notation any := (fun _ _ : FS => True).

Lemma both_exist_ok cf kf (Q : R + bool -> FS -> Prop) fs :
  (missing cf kf fs -> Q (inr false) fs) -> (forall a b, fs_files fs !! cf = Some a -> fs_files fs !! kf = Some b -> Q (inr true) fs) ->
  rg E (=) any (both_exist cf kf) Q fs.
Proof.
  intros Hno Hyes. unfold both_exist. apply rg_bind. intros fs1 e He <-. split; [done|]. cbn [fst snd]. rewrite (quiet_no_fault E Hok e He).
  destruct (fs_files fs !! cf) as [a|] eqn:Ea; [|apply Hno; by left]. cbn. intros fs1 e' He' <-. split; [done|]. cbn [fst snd].
  rewrite (quiet_no_fault E Hok e' He'). destruct (fs_files fs !! kf) as [b|] eqn:Eb; [by eapply Hyes | apply Hno; by right].
Qed.

(** Writing a certificate and its key. *)
Lemma write_pair_ok cf kf tpl parent key signer (Q : R + bool -> FS -> Prop) fs :
  cf <> kf -> match parent with Some ca => lc_key ca = signer | None => True end ->
  (forall fs', kept [cf; kf] fs fs' -> pair_at cf kf {| lc_template := tpl; lc_key := key; lc_signer := signer |} fs' -> Q (inr true) fs') ->
  rg E (=) any (write_pair ll cf kf (ll_create ll tpl parent key signer) key) Q fs.
Proof.
  intros Hne Hpar HQ. destruct (create_works tpl parent key signer Hpar) as [pem Hpem]. rewrite Hpem. unfold write_pair.
  destruct (key_works key) as (kpem & Hk & Hkp). rewrite Hk.
  rg_step. apply write_rg; [done|]. cbn [negb]. apply write_rg; [done|]. apply HQ.
  - etrans; apply kept_set; set_solver.
  - exists pem, kpem. simpl. rewrite lookup_insert_ne, !lookup_insert_eq by done. split_and!; try done. by eapply create_parses.
Qed.

Lemma EnsureCA_ok (Q : R + bool -> FS -> Prop) fs :
  consistent fs ->
  (forall fs' ca, consistent fs' -> pair_at (caCertPath dir) (caKeyPath dir) ca fs' -> Q (inr true) fs') ->
  rg E (=) any (EnsureCA ll dir) Q fs.
Proof.
  intros Hc HQ. unfold EnsureCA. rg_step. apply both_exist_ok.
  - intros Hm. unfold generateCA. rg_step. apply fresh_key_ok; [done|]. intros key serial e He. apply write_pair_ok; [done|done|].
    intros fs' Hk Hp. eapply HQ; [|exact Hp]. right. eexists. split; [exact Hp|]. left.
    destruct Hc as [[_ Hl]|(ca & (pem & kpem & H1 & H2 & _) & _)].
    + by eapply missing_kept; [exact Hk|apart..|].
    + destruct Hm; congruence.
  - intros a b Ha Hb. rg_step. destruct Hc as [[[?|?] _]|(ca & Hp & Hl)]; [congruence..|]. eapply HQ; [|exact Hp]. right. by exists ca.
Qed.

Lemma issueCert_ok ca (Q : R + bool -> FS -> Prop) fs :
  pair_at (caCertPath dir) (caKeyPath dir) ca fs ->
  (forall fs' c, served c fs' -> Q (inr true) fs') -> rg E (=) any (issueCert ll dir) Q fs.
Proof.
  intros Hp HQ. pose proof Hp as (pem & kpem & H1 & H2 & H3 & H4). unfold issueCert, loadCA. rg_step. rg_step. apply read_rg; [done|].
  rewrite H1. cbn [mbind option_bind]. rewrite H3. rg_step. apply read_rg; [done|]. rewrite H2. cbn [mbind option_bind]. rewrite H4. rg_step.
  rg_step. apply fresh_key_ok; [done|]. intros key serial e He. apply write_pair_ok; [done|done|]. intros fs' Hk Hc. eapply HQ. exists ca.
  split; [by eapply pair_kept; [exact Hk|apart..|]|]. split; [exact Hc|]. split; [done|]. exists e. split; [done|]. cbn. unfold renewBefore, certValidity, day, hour. lia.
Qed.

Lemma EnsureCert_ok ca (Q : R + bool -> FS -> Prop) fs :
  consistent fs -> pair_at (caCertPath dir) (caKeyPath dir) ca fs ->
  (forall fs' c, served c fs' -> Q (inr true) fs') -> rg E (=) any (EnsureCert ll dir) Q fs.
Proof.
  intros Hc Hca HQ. unfold EnsureCert. rg_step. apply both_exist_ok.
  - intros _. rg_step. rg_step. by eapply issueCert_ok.
  - intros a b Ha Hb. rg_step. unfold needsRotation. rg_step. apply read_rg; [done|].
    destruct Hc as [[[?|?] _]|(ca' & Hp' & [[?|?]|(c & Hp & Hs)])]; [destruct Hca as (?&?&?&?&_); congruence..|congruence|congruence|].
    pose proof Hp as (pem & kpem & H1 & H2 & H3 & H4). rewrite H1. cbn [mbind option_bind]. rewrite H3.
    rg_step. intros fs1 e He <-. split; [done|]. cbn [fst snd rg mret prog_ret]. destruct (Z.ltb_spec (lt_not_after (lc_template c)) (e_now e + renewBefore)).
    + by eapply issueCert_ok.
    + rg_step. apply HQ with c. exists ca'. split; [done|]. split; [done|]. split; [done|]. by exists e.
Qed.

Lemma InstallCATrustStore_ok ts (Q : R + bool -> FS -> Prop) fs :
  (forall r fs', kept trust_files fs fs' -> Q (inr r) fs') -> rg E (=) any (InstallCATrustStore dir ts) Q fs.
Proof.
  intros HQ. unfold InstallCATrustStore. rg_step. apply read_rg; [done|]. case_match; [|rg_step; by apply HQ]. cbv zeta.
  assert (forall d, Join [d; trust_file] ∈ trust_files ->
    rg E (=) any (ok ← write_file (Join [d; trust_file]) s; if negb ok then mret false else PStep (fun e fs => (fs, negb (e_fault e))) PRet) Q fs) as Hinst.
  { intros d Hd. rg_step. apply write_rg; [done|]. cbn [negb]. intros fs1 e He <-. split; [done|]. cbn [fst snd rg]. apply HQ.
    by apply kept_set. }
  repeat case_match; [apply Hinst; apart..|]. rg_step. by apply HQ.
Qed.

Lemma TLSConfig_ok c (Q : R + option ParsedCert -> FS -> Prop) fs :
  served c fs -> Q (inr (Some c)) fs -> rg E (=) any (TLSConfig ll dir) Q fs.
Proof.
  intros (ca & _ & (pem & kpem & H1 & H2 & H3 & H4) & _) HQ. unfold TLSConfig. rg_step. apply read_rg; [done|]. rewrite H1.
  rg_step. apply read_rg; [done|]. rewrite H2. rg_step. cbn [mbind option_bind]. rewrite (pair_spec _ _ _ _ H3 H4), seqb_refl. done.
Qed.
End Lemmas.

(** The write of a new key that does not happen. *)
Definition interrupted_at (n : nat) (t : Z) (id : string) (k : nat) : Env :=
  {| e_fault := bool_decide (k = n); e_faults := fun _ => true; e_now := t; e_id := id |}.

(** A server certificate that is not due, with the key of another. *)
Definition mismatched (ll : CertLib) (until : Z) (fs : FS) : Prop :=
  (exists a b, fs_files fs !! caCertPath (DataDir linux) = Some a /\ fs_files fs !! caKeyPath (DataDir linux) = Some b) /\
  exists pem kpem c k, fs_files fs !! certPath (DataDir linux) = Some pem /\ fs_files fs !! keyPath (DataDir linux) = Some kpem /\
    ll_parse_cert ll pem = Some c /\ ll_parse_key ll kpem = Some k /\ lc_key c <> k /\ (until + renewBefore <= lt_not_after (lc_template c))%Z.

Lemma mismatched_fails {R : Type} ll `{!CertLaws ll} ts fs env until :
  mismatched ll until fs -> (forall n, ok_env (env n)) -> (forall n, e_now (env n) <= until)%Z ->
  run_result (serve_tls (R := R) ll (DataDir linux) ts) env fs = inr None.
Proof.
  intros [(a & b & Ha & Hb) (pem & kpem & c & k & H1 & H2 & H3 & H4 & Hne & Hu)] Henv Hnow.
  pose proof (envs_no_fault env Henv) as Hok.
  by_rg (envs env) (fun _ _ : FS => True); [by eexists|]. unfold serve_tls, EnsureCA. rg_step. rg_step.
  apply both_exist_ok; [done|intros [?|?]; congruence|]. intros _ _ _ _. rg_step. cbn [negb]. unfold EnsureCert. rg_step. rg_step.
  apply both_exist_ok; [done|intros [?|?]; congruence|]. intros _ _ _ _. unfold needsRotation. rg_step. rg_step.
  apply read_rg; [done|]. rewrite H1. cbn [mbind option_bind]. rewrite H3. rg_step. intros fs1 e [n <-] <-. split; [done|].
  cbn [fst snd rg mret prog_ret]. specialize (Hnow n).
  destruct (Z.ltb_spec (lt_not_after (lc_template c)) (e_now (env n) + renewBefore)); [lia|]. rg_step. cbn [negb].
  rg_step. apply InstallCATrustStore_ok; [done|]. intros _ fs' [Hk _]. unfold TLSConfig. rg_step. apply read_rg; [done|].
  rewrite Hk, H1 by apart. rg_step. apply read_rg; [done|]. rewrite Hk, H2 by apart. rg_step. cbn [mbind option_bind].
  by rewrite (pair_spec _ _ _ _ H3 H4), (proj2 (seqb_neq _ _) Hne).
Qed.

(** *** Runs in a known environment *)

Section Runs.
Context {R : Type} (ll : CertLib) (env : nat -> Env).
Implicit Types (n : nat) (fs : FS).

Lemma run_both a b pa pb n fs :
  fs_files fs !! a = Some pa -> fs_files fs !! b = Some pb -> e_fault (env n) = false -> e_fault (env (S n)) = false ->
  run (both_exist a b : prog FS R bool) env n fs = (fs, S (S n), inr true).
Proof. intros Ha Hb H1 H2. unfold both_exist. rewrite run_bind. cbn. rewrite H1, Ha. cbn. by rewrite H2, Hb. Qed.

Lemma run_read path n fs : e_fault (env n) = false -> run (read_file path : prog FS R _) env n fs = (fs, S n, inr (fs_files fs !! path)).
Proof. intros H. cbn. by rewrite H. Qed.

Lemma run_loadCA dataDir a b ca k n fs :
  fs_files fs !! caCertPath dataDir = Some a -> fs_files fs !! caKeyPath dataDir = Some b -> ll_parse_cert ll a = Some ca ->
  ll_parse_key ll b = Some k -> e_fault (env n) = false -> e_fault (env (S n)) = false ->
  run (loadCA ll dataDir : prog FS R _) env n fs = (fs, S (S n), inr (Some (ca, k))).
Proof.
  intros Ha Hb Hpa Hpb H1 H2. unfold loadCA. rewrite run_bind, run_read, Ha by done. cbn [mbind option_bind]. rewrite Hpa.
  rewrite run_bind, run_read, Hb by done. cbn [mbind option_bind]. by rewrite Hpb.
Qed.

Lemma run_needsRotation dataDir a c n fs :
  fs_files fs !! certPath dataDir = Some a -> ll_parse_cert ll a = Some c -> e_fault (env n) = false ->
  run (needsRotation ll dataDir : prog FS R _) env n fs =
    (fs, S (S n), inr (lt_not_after (lc_template c) <? e_now (env (S n)) + renewBefore)%Z).
Proof.
  intros Ha Hc H1. unfold needsRotation. rewrite run_bind, run_read, Ha by done. cbn [mbind option_bind]. by rewrite Hc.
Qed.

Lemma run_fresh_key n fs : e_fault (env n) = false -> e_fault (env (S n)) = false ->
  run (fresh_key : prog FS R _) env n fs = (fs, S (S (S n)), inr (Some (e_id (env n), e_id (env (S n)), e_now (env (S (S n)))))).
Proof. intros H1 H2. unfold fresh_key. rewrite run_bind. cbn [run random_hex fst snd]. rewrite H1. rewrite run_bind. cbn [run random_hex fst snd]. by rewrite H2. Qed.

(** The certificate is written and the key is not. *)
Lemma run_write_pair cf kf pem kpem key n fs :
  ll_key_pem ll key = Some kpem -> e_fault (env n) = false -> e_fault (env (S n)) = true -> e_faults (env (S n)) 0 = true ->
  run (write_pair ll cf kf (Some pem) key : prog FS R _) env n fs = (set_file cf pem fs, S (S n), inr false).
Proof. intros Hk H1 H2 H3. unfold write_pair. rewrite run_bind. cbn. rewrite H1. cbn. rewrite Hk. cbn. by rewrite H2, H3. Qed.
End Runs.

(** ** Theorems *)

(** C33: The web UI starts with a certificate for localhost under the device's own CA
    that is good for at least 30 more days, and leaves the files consistent for the
    next start, when nothing fails. *)
Theorem local_ui_certificate {R : Type} ll `{!CertLaws ll} ts fs env :
  (forall n, ok_env (env n)) -> consistent ll fs ->
  let fs' := run_store (serve_tls (R := R) ll (DataDir linux) ts) env fs in
  consistent ll fs' /\
  exists c, run_result (serve_tls (R := R) ll (DataDir linux) ts) env fs = inr (Some c) /\ served ll (envs env) c fs'.
Proof.
  intros Henv Hc. pose proof (envs_no_fault env Henv) as Hok. cbv zeta.
  by_rg (envs env) (fun _ _ : FS => True); [by eexists|]. unfold serve_tls. rg_step. apply EnsureCA_ok; [done..|]. intros fs1 ca Hc1 Hca.
  cbn [negb]. rg_step. apply (EnsureCert_ok ll (envs env) Hok ca); [exact Hc1|exact Hca|]. intros fs2 c Hs. cbn [negb]. rg_step.
  apply InstallCATrustStore_ok; [done|]. intros r fs3 Hk.
  assert (served ll (envs env) c fs3) as Hs3 by (eapply served_kept; [exact Hk|apart|done]).
  apply (TLSConfig_ok ll (envs env) Hok c); [exact Hs3|]. split; [|by exists c]. destruct Hs3 as (ca' & H1 & H2 & H3 & _). by eapply issued_consistent.
Qed.

(** A replacement of the certificate that stops between the two writes keeps the
    web UI from starting for the next 60 days, although nothing else fails: both
    files are there and the new certificate is not due, so it is not issued again. *)
Theorem interrupted_rotation {R : Type} ll `{!CertLaws ll} ts ca c fs t id :
  pair_at ll (caCertPath (DataDir linux)) (caKeyPath (DataDir linux)) ca fs ->
  pair_at ll (certPath (DataDir linux)) (keyPath (DataDir linux)) c fs ->
  (lt_not_after (lc_template c) < t + renewBefore)%Z -> lc_key c <> id ->
  let fs' := run_store (serve_tls (R := R) ll (DataDir linux) ts) (interrupted_at 12 t id) fs in
  forall ts' env', (forall n, ok_env (env' n)) -> (forall n, e_now (env' n) <= t + 60 * day)%Z ->
    run_result (serve_tls (R := R) ll (DataDir linux) ts') env' fs' = inr None.
Proof.
  intros (apem & akpem & A1 & A2 & A3 & A4) (pem & kpem & H1 & H2 & H3 & H4) Hdue Hne fs' ts' env' Henv Hnow.
  eapply mismatched_fails; [done| |done|exact Hnow].
  assert (is_Some (ll_create ll (leaf_template id t) (Some ca) id (lc_key ca))) as [npem Hnpem] by (by apply create_works).
  destruct (key_works id) as (nkpem & Hnk & _).
  assert (fs' = set_file (certPath (DataDir linux)) npem fs) as ->.
  { unfold fs', run_store, serve_tls, EnsureCA, EnsureCert, issueCert. rewrite !run_bind, (run_both _ _ _ _ _ _ _ A1 A2) by done.
    cbn [run mret prog_ret negb]. rewrite !run_bind, (run_both _ _ _ _ _ _ _ H1 H2) by done.
    rewrite run_bind, (run_needsRotation _ _ _ _ _ _ _ H1 H3) by done. cbn [e_now interrupted_at]. rewrite (proj2 (Z.ltb_lt _ _) Hdue).
    rewrite run_bind, (run_loadCA _ _ _ _ _ _ _ _ _ A1 A2 A3 A4) by done. rewrite run_bind, run_fresh_key by done.
    cbn [e_id e_now interrupted_at]. rewrite Hnpem. by rewrite (run_write_pair ll _ _ _ _ _ _ _ _ Hnk). }
  split; [exists apem, akpem; simpl; by rewrite !lookup_insert_ne by apart|].
  exists npem, kpem, {| lc_template := leaf_template id t; lc_key := id; lc_signer := lc_key ca |}, (lc_key c).
  simpl. rewrite lookup_insert_eq, lookup_insert_ne by apart. split_and!; try done; [by eapply create_parses|].
  unfold renewBefore, certValidity, day, hour. lia.
Qed.
