(* ===== verification/TrustStore.v ===== *)
(** * The trust store of the system

    [RemoveCATrustStore] of [agent/localui/truststore_linux.go] and both functions
    of [agent/localui/truststore_windows.go] (installing on Linux is part of the
    start of the web UI, file [LocalCA]).  On Windows the store is that of
    crypt32.dll: adding an encoded certificate to it is a parameter. *)

From stdpp Require Import relations.
From S2P Require Import Prelude Text Platform Prog Models JobState Enrollment Update Credentials Pki LocalCA Install.

(** ** truststore_linux.go *)

Section Linux.
Context {R : Type}.

Definition debianPath : string := String.append "/usr/local/share/ca-certificates/" trust_file.
Definition rhelPath : string := String.append "/etc/pki/ca-trust/source/anchors/" trust_file.

(** [os.Remove]; [true] is a nil error. *)
Definition remove_existing (path : string) : prog FS R bool :=
  PStep (fun e fs => match fs_files fs !! path with
                     | Some _ => if e_fault e then (fs, false) else (drop_file path fs, true)
                     | None => (fs, false)
                     end) PRet.

(** The outcome of the command that updates the trust database is dropped. *)
Definition refresh_trust : prog FS R unit := PStep (fun _ fs => (fs, tt)) PRet.

Definition RemoveCATrustStore : prog FS R bool :=
  d ← remove_existing debianPath;
  _ ← (if d : bool then refresh_trust else mret tt);
  r ← remove_existing rhelPath;
  _ ← (if r : bool then refresh_trust else mret tt);
  mret (d || r).
End Linux.

(** ** truststore_windows.go *)

(** PEM and X.509 as far as they are used, and the system's root store. *)
Record CertStore := {
  cs_store : Type;
  cs_block : string -> option string;          (* pem.Decode: the bytes of the first block *)
  cs_parses : string -> bool;                  (* x509.ParseCertificate *)
  cs_add : string -> cs_store -> cs_store;     (* CertAddEncodedCertificateToStore, replacing *)
}.

Section Windows.
Context {R : Type} (lib : CertStore).
Notation WinTrust := (FS * cs_store lib)%type.

(** CertOpenStore; closing it again has no effect on the store. *)
Definition open_store : prog WinTrust R bool := PStep (fun e s => (s, negb (e_fault e))) PRet.

Definition InstallCATrustStore_windows (caCertPath : string) : prog WinTrust R bool :=
  certPEM ← zoom fst (fun fs s => (fs, s.2)) (read_file caCertPath);
  match certPEM with
  | None => mret false
  | Some pem =>
      match cs_block lib pem with
      | None => mret false
      | Some der =>
          if negb (cs_parses lib der) then mret false
          else
            opened ← open_store;
            if negb opened then mret false
            else PStep (fun e s => if e_fault e then (s, false) else ((s.1, cs_add lib der s.2), true)) PRet
      end
  end.

(** The removal itself is not written yet. *)
Definition RemoveCATrustStore_windows : prog WinTrust R bool :=
  _ ← open_store;
  mret false.
End Windows.

(** ** Theorems *)

Definition trust_path (ts : TrustStore) : string := if ts_debian ts then debianPath else rhelPath.

Lemma drop_set p c fs : fs_files fs !! p = None -> drop_file p (set_file p c fs) = fs.
Proof. intros H. unfold drop_file, set_file. destruct fs. cbn in *. by rewrite delete_insert_id. Qed.

Lemma set_there p c fs : fs_files (set_file p c fs) !! p = Some c.
Proof. apply lookup_insert_eq. Qed.

(** On Linux removing undoes installing: when nothing fails and one of the two
    directories exists, the certificate is put into the trust store, and afterwards
    the files are what they were. *)
Theorem trust_roundtrip {R : Type} dataDir ts pem fs env :
  (forall n, ok_env (env n)) -> fs_files fs !! caCertPath dataDir = Some pem -> ts_debian ts || ts_rhel ts = true ->
  fs_files fs !! debianPath = None -> fs_files fs !! rhelPath = None ->
  let fs1 := run_store (InstallCATrustStore (R := R) dataDir ts) env fs in
  run_result (InstallCATrustStore (R := R) dataDir ts) env fs = inr true /\ fs_files fs1 !! trust_path ts = Some pem /\
  run_result (RemoveCATrustStore (R := R)) env fs1 = inr true /\ run_store (RemoveCATrustStore (R := R)) env fs1 = fs.
Proof.
  intros Hok Hca Hts Hd Hr. cbv zeta. unfold run_result, run_store.
  assert (run (InstallCATrustStore (R := R) dataDir ts) env 0 fs = (set_file (trust_path ts) pem fs, 3, inr true)) as ->.
  { unfold InstallCATrustStore, trust_path. rewrite run_bind. cbn [run read_file fst snd]. destruct (Hok 0) as [-> _]. rewrite Hca. cbv zeta.
    destruct (ts_debian ts); [|destruct (ts_rhel ts); [|done]]; rewrite run_bind; cbn [run write_file fst snd].
    all: destruct (Hok 1) as [-> _]; cbn [run negb fst snd]; by destruct (Hok 2) as [-> _]. }
  cbn [fst snd]. split; [done|]. split; [by apply lookup_insert_eq|].
  unfold RemoveCATrustStore, trust_path. destruct (ts_debian ts); rewrite run_bind; cbn [run remove_existing fst snd].
  - rewrite set_there. destruct (Hok 0) as [-> _]. rewrite run_bind. cbn [run refresh_trust fst snd].
    rewrite run_bind. cbn [run remove_existing fst snd]. by rewrite drop_set, Hr.
  - cbn [set_file fs_files]. rewrite lookup_insert_ne, Hd by done. rewrite run_bind. cbn [run mret prog_ret fst snd].
    rewrite run_bind. cbn [run remove_existing fst snd]. rewrite set_there. destruct (Hok 1) as [-> _]. rewrite run_bind.
    cbn [run refresh_trust fst snd]. by rewrite drop_set.
Qed.

(** Nothing calls it, though: after an uninstallation, and after a purge too, the
    certificate of the agent's local CA is still in the trust store. *)
Theorem purge_leaves_trust inst purge m env ts :
  (forall n, ok_env (env n)) -> in_euid inst = 0%Z -> Forall (closed_at (mc_nodes m)) (uninstalled linux) ->
  mc_nodes (run_store (Install.Uninstall inst linux purge) env m) !! trust_path ts = mc_nodes m !! trust_path ts.
Proof.
  intros Hok Hroot Hc. destruct (uninstall_spec inst purge m env Hok Hroot Hc) as (_ & -> & _).
  rewrite without_paths_lookup. destruct ts as [[] ?], purge; done.
Qed.

(** On Windows the removal always fails and leaves the store as it is. *)
Theorem windows_removal_fails {R : Type} lib env s :
  run_result (RemoveCATrustStore_windows (R := R) lib) env s = inr false /\ run_store (RemoveCATrustStore_windows (R := R) lib) env s = s.
Proof. done. Qed.

(** What an installation on Windows adds, and when. *)
Theorem windows_trust_spec {R : Type} lib path env s :
  (forall n, ok_env (env n)) ->
  let p := InstallCATrustStore_windows (R := R) lib path in
  match pem ← fs_files s.1 !! path; cs_block lib pem with
  | Some der => if cs_parses lib der then run_result p env s = inr true /\ run_store p env s = (s.1, cs_add lib der s.2)
                else run_result p env s = inr false /\ run_store p env s = s
  | None => run_result p env s = inr false /\ run_store p env s = s
  end.
Proof.
  intros Hok p. unfold p, InstallCATrustStore_windows, run_result, run_store. destruct s as [fs st]. cbn [fst].
  rewrite run_bind, run_zoom by (by intros []). cbn [run read_file fst snd]. destruct (Hok 0) as [-> _].
  destruct (fs_files fs !! path) as [pem|]; [|done]. cbn [mbind option_bind]. destruct (cs_block lib pem) as [der|]; [|done].
  destruct (cs_parses lib der); cbn [negb]; [|done]. rewrite run_bind. cbn [run open_store fst snd].
  destruct (Hok 1) as [-> _]. cbn [negb run fst snd]. by destruct (Hok 2) as [-> _].
Qed.
