(* ===== verification/Packages.v ===== *)
(** * Packages on the device

    [agent/executor/package.go] (the three package jobs),
    [agent/platform/pkgmanager.go] (the interface), its implementations
    [agent/platform/linux/pkgmanager.go] and [agent/platform/windows/pkgmanager.go],
    and the setuid helper [agent/cmd/pkg-helper/main.go].

    Starting a program is a parameter ([Shell]), except for the helper, which is
    defined here.  The text
    of operating-system errors is left out. *)

From stdpp Require Import relations.
From S2P Require Import Prelude Text Platform Prog Models JobState Database Checkin Inventory Host Poller Update.

(** ** The machine *)

(** What the agent's job handlers work on: its files, its inventory collector and
    the machine. *)
Record Agent := { ag_fs : FS; ag_inv : Collector; ag_host : Host }.

Definition put_fs (x : FS) (a : Agent) : Agent := {| ag_fs := x; ag_inv := ag_inv a; ag_host := ag_host a |}.
Definition put_inv (x : Collector) (a : Agent) : Agent := {| ag_fs := ag_fs a; ag_inv := x; ag_host := ag_host a |}.
Definition put_host (x : Host) (a : Agent) : Agent := {| ag_fs := ag_fs a; ag_inv := ag_inv a; ag_host := x |}.

(** The outcome of [cmd.Run]: its output and its error, with the exit code when
    it is an [ExitError]. *)
Record CmdOut := { co_stdout : string; co_stderr : string; co_error : option (option Z * string) }.

(** [filepath.SplitList] on Unix. *)
Definition SplitList (path : string) : list string := if path =s "" then [] else split_on (Ascii.ascii_of_nat 58) path.
Notation IsAbs := is_rooted.

(** The loop of [exec.LookPath]: the first directory with an executable of that name
    decides; a match that is not an absolute path is an error ([ErrDot]). *)
Fixpoint look_in (executable : string -> bool) (dirs : list string) (file : string) : option string :=
  match dirs with
  | [] => None
  | dir :: dirs' =>
      let path := Join [if dir =s "" then "." else dir; file] in
      if executable path then (if IsAbs path then Some path else None) else look_in executable dirs' file
  end.

(** [exec.LookPath] on Unix, with the PATH of the process; [None] is an error. *)
Definition LookPath (PATH : string) (executable : string -> bool) (file : string) : option string :=
  if ContainsAny file [slash] then (if executable file then Some file else None)
  else look_in executable (SplitList PATH) file.

Record Shell := {
  env_path : string;                         (* the agent's PATH, which the helper inherits *)
  executable : string -> bool;               (* a file that can be executed *)
  look_windows : string -> option string;    (* exec.LookPath on Windows *)
  run_program : string -> list string -> Env -> Host -> Host * CmdOut;    (* path, argv *)
}.

(** ** agent/platform/linux/pkgmanager.go: the commands *)

Definition buildAptArgs (action name version : string) : option (string * list string) :=
  let pkg := if version =s "" then name else String.append name (String.append "=" version) in
  if action =s "install" then Some ("apt-get", ["install"; "-y"; "--no-install-recommends"; pkg])
  else if action =s "remove" then Some ("apt-get", ["remove"; "-y"; name])
  else if action =s "update" then Some ("apt-get", ["install"; "-y"; "--only-upgrade"; pkg])
  else None.

Definition buildDnfArgs (action name version : string) : option (string * list string) :=
  let pkg := if version =s "" then name else String.append name (String.append "-" version) in
  if action =s "install" then Some ("dnf", ["install"; "-y"; pkg])
  else if action =s "remove" then Some ("dnf", ["remove"; "-y"; name])
  else if action =s "update" then Some ("dnf", ["update"; "-y"; pkg])
  else None.

Definition BuildNativeArgs (manager action name version : string) : option (string * list string) :=
  if manager =s "apt" then buildAptArgs action name version
  else if manager =s "dnf" then buildDnfArgs action name version
  else None.

(** Semicolon, bar, ampersand, dollar, backquote, backslash, both quotes, angle
    brackets, parentheses, braces, exclamation mark, white space. *)
Definition metacharacters : list Ascii.ascii :=
  Ascii.ascii_of_nat <$> [59; 124; 38; 36; 96; 92; 34; 39; 60; 62; 40; 41; 123; 125; 33; 10; 13; 9; 32].

Definition metachar_free (s : string) : bool := negb (ContainsAny s metacharacters).

(** [None] is a nil error. *)
Definition ValidateHelperArgs (args : list string) : option string :=
  let check manager action name version :=
    if negb ((manager =s "apt") || (manager =s "dnf")) then Some "invalid manager"
    else if negb ((action =s "install") || (action =s "remove") || (action =s "update")) then Some "invalid action"
    else if name =s "" then Some "empty package name"
    else if ContainsAny name metacharacters then Some "invalid package name: contains shell metacharacters"
    else match version with
         | Some v => if ContainsAny v metacharacters then Some "invalid version: contains shell metacharacters" else None
         | None => None
         end in
  match args with
  | [manager; action; name] => check manager action name None
  | [manager; action; name; version] => check manager action name (Some version)
  | _ => Some "expected 3-4 arguments: <manager> <action> <package> [version]"
  end.

(** ** agent/cmd/pkg-helper/main.go *)

Definition helper_env : list string :=
  ["PATH=/usr/local/sbin:/usr/local/bin:/usr/sbin:/usr/bin:/sbin:/bin"; "DEBIAN_FRONTEND=noninteractive"; "LC_ALL=C"].

(** What the helper becomes, by [syscall.Exec]. *)
Record Exec := { xc_path : string; xc_argv : list string; xc_env : list string }.

(** [PATH] is the caller's: it is read before the environment is replaced.  [inr]: the
    error the helper prints before it exits with 1. *)
Definition pkg_helper (PATH : string) (executable : string -> bool) (args : list string) : Exec + string :=
  match ValidateHelperArgs args with
  | Some err => inr err
  | None =>
      let arg i := default "" (args !! i) in
      match BuildNativeArgs (arg 0) (arg 1) (arg 2) (arg 3) with
      | None => inr "unsupported"
      | Some (binary, cmdArgs) =>
          match LookPath PATH executable binary with
          | None => inr (String.append "package manager not found: " binary)
          | Some binPath => inl {| xc_path := binPath; xc_argv := binary :: cmdArgs; xc_env := helper_env |}
          end
      end
  end.

(** Running the helper, as a child of the agent. *)
Definition run_helper (sh : Shell) (args : list string) (e : Env) (h : Host) : Host * CmdOut :=
  match pkg_helper (env_path sh) (executable sh) args with
  | inr err => (h, {| co_stdout := ""; co_stderr := String.append "pkg-helper: " (String.append err (char newline));
                      co_error := Some (Some 1%Z, "exit status 1") |})
  | inl x => run_program sh (xc_path x) (xc_argv x) e h
  end.

(** ** agent/platform/pkgmanager.go *)

Record PackageResult := {
  pkr_success : bool;
  pkr_exit_code : Z;
  pkr_stdout : string;
  pkr_stderr : string;
  pkr_error : string;
}.

Notation HostProg := (prog Host JobResultSubmission).

Record PackageManager := {
  Install : string -> string -> HostProg PackageResult;
  Remove : string -> HostProg PackageResult;
  UpdatePkg : string -> string -> HostProg PackageResult;
  DetectedManager : string;
}.

Definition no_manager (need : string) : PackageResult :=
  {| pkr_success := false; pkr_exit_code := -1; pkr_stdout := ""; pkr_stderr := "";
     pkr_error := String.append "no supported package manager detected (need " (String.append need ")") |}.

(** The result made of a finished command. *)
Definition package_result (out : CmdOut) : PackageResult :=
  {| pkr_success := match co_error out with None => true | Some _ => false end;
     pkr_exit_code := match co_error out with None => 0 | Some (Some code, _) => code | Some (None, _) => -1 end;
     pkr_stdout := co_stdout out; pkr_stderr := co_stderr out;
     pkr_error := match co_error out with None => "" | Some (_, msg) => msg end |}.

(** [cmd.Run]; a program that cannot be started is an error without exit code. *)
Definition run_cmd (program : Env -> Host -> Host * CmdOut) : HostProg CmdOut :=
  PStep (fun e h =>
    if e_fault e then (h, {| co_stdout := ""; co_stderr := ""; co_error := Some (None, e_id e) |}) else program e h) PRet.

(** ** agent/platform/linux/pkgmanager.go: the manager *)

Module Linux.

Definition detectManager (sh : Shell) : string :=
  let found name := match LookPath (env_path sh) (executable sh) name with Some p => negb (p =s "") | None => false end in
  if found "apt-get" then "apt" else if found "dnf" then "dnf" else "".

Definition buildHelperArgs (manager action name version : string) : list string :=
  [manager; action; name] ++ (if version =s "" then [] else [version]).

Definition pkg_run (sh : Shell) (manager action name version : string) : HostProg PackageResult :=
  if manager =s "" then mret (no_manager "apt-get or dnf")
  else
    out ← run_cmd (run_helper sh (buildHelperArgs manager action name version));
    mret (package_result out).

Definition NewPkgManager (sh : Shell) (managerHint : string) : PackageManager :=
  let mgr := if managerHint =s "" then detectManager sh else managerHint in
  {| Install := fun name version => pkg_run sh mgr "install" name version;
     Remove := fun name => pkg_run sh mgr "remove" name "";
     UpdatePkg := fun name version => pkg_run sh mgr "update" name version;
     DetectedManager := mgr |}.

End Linux.

(** ** agent/platform/windows/pkgmanager.go *)

Module Windows.

Definition detectManagerWindows (sh : Shell) : string :=
  let found name := match look_windows sh name with Some p => negb (p =s "") | None => false end in
  if found "winget" then "winget" else if found "choco" then "choco" else "".

Definition with_version (version : string) (args : list string) : list string :=
  if version =s "" then args else args ++ ["--version"; version].

Definition buildInstallArgs (manager name version : string) : list string :=
  if manager =s "winget"
  then with_version version ["install"; "--id"; name; "--silent"; "--accept-package-agreements"; "--accept-source-agreements"]
  else if manager =s "choco" then with_version version ["install"; name; "-y"; "--no-progress"]
  else [].

Definition buildRemoveArgs (manager name : string) : list string :=
  if manager =s "winget" then ["uninstall"; "--id"; name; "--silent"]
  else if manager =s "choco" then ["uninstall"; name; "-y"]
  else [].

Definition buildUpdateArgs (manager name version : string) : list string :=
  if manager =s "winget"
  then with_version version ["upgrade"; "--id"; name; "--silent"; "--accept-package-agreements"; "--accept-source-agreements"]
  else if manager =s "choco" then with_version version ["upgrade"; name; "-y"; "--no-progress"]
  else [].

Definition runCommand (sh : Shell) (program : string) (args : list string) : HostProg PackageResult :=
  out ← run_cmd (run_program sh program (program :: args));
  mret (package_result out).

Definition NewPkgManagerWindows (sh : Shell) (managerHint : string) : PackageManager :=
  let mgr := if managerHint =s "" then detectManagerWindows sh else managerHint in
  let guarded p : HostProg PackageResult := if mgr =s "" then mret (no_manager "winget or choco") else p in
  {| Install := fun name version => guarded (runCommand sh mgr (buildInstallArgs mgr name version));
     Remove := fun name => guarded (runCommand sh mgr (buildRemoveArgs mgr name));
     UpdatePkg := fun name version => guarded (runCommand sh mgr (buildUpdateArgs mgr name version));
     DetectedManager := mgr |}.

Definition ValidatePackageName (name : string) : bool := negb (name =s "") && negb (ContainsAny name metacharacters).

End Windows.

(** ** agent/executor/package.go *)

(** The payload of the three jobs; a removal has no version. *)
Record PackagePayload := { pp_name : string; pp_version : string; pp_manager : string }.

Record PackageConfig := {
  pc_shell : Shell;
  pc_windows : bool;                        (* which getPackageManager is compiled in *)
  pc_injected : option PackageManager;      (* e.pkgMgr *)
  pc_inventory : bool;                      (* e.inventory is set *)
}.

Notation AgentProg := (prog Agent JobResultSubmission).
Definition on_host {A : Type} (p : HostProg A) : AgentProg A := zoom ag_host put_host p.
Definition on_files {A : Type} (p : prog FS JobResultSubmission A) : AgentProg A := zoom ag_fs put_fs p.

Definition getPackageManager (c : PackageConfig) (managerHint : string) : PackageManager :=
  if pc_windows c then Windows.NewPkgManagerWindows (pc_shell c) managerHint else Linux.NewPkgManager (pc_shell c) managerHint.

Definition resolvePackageManager (c : PackageConfig) (managerHint : string) : PackageManager :=
  default (getPackageManager c managerHint) (pc_injected c).

(** [e.inventory.ComputeDelta()], its result dropped. *)
Definition refresh_inventory (c : PackageConfig) : AgentProg unit :=
  PStep (fun _ a => (put_inv (ComputeDelta (CollectPackages (pc_windows c) (ag_host a)) (ag_inv a)).1 a, tt)) PRet.

Definition package_job_result (r : PackageResult) (action pkgName : string) : JobResultSubmission :=
  {| sub_status := if pkr_success r then "completed" else "failed"; sub_exit_code := Some (pkr_exit_code r);
     sub_stdout := pkr_stdout r; sub_stderr := pkr_stderr r;
     sub_message := if pkr_success r then String.append action (String.append " succeeded for " pkgName) else pkr_error r;
     sub_started_at := None; sub_completed_at := None |}.

Definition packageResultToJob (c : PackageConfig) (r : PackageResult) (action pkgName : string) : AgentProg JobResultSubmission :=
  _ ← (if pkr_success r && pc_inventory c then refresh_inventory c else mret tt);
  stop (package_job_result r action pkgName).

Definition package_job (c : PackageConfig) (job action : string) (payload : Json PackagePayload)
    (call : PackageManager -> PackagePayload -> HostProg PackageResult) : AgentProg JobResultSubmission :=
  match unmarshal payload with
  | None => stop (failed (String.append "invalid " (String.append job " payload")))
  | Some p =>
      if pp_name p =s "" then stop (failed "package name is required")
      else
        r ← on_host (call (resolvePackageManager c (pp_manager p)) p);
        packageResultToJob c r action (pp_name p)
  end.

Definition executePackageInstall (c : PackageConfig) (payload : Json PackagePayload) : AgentProg JobResultSubmission :=
  package_job c "package_install" "install" payload (fun m p => Install m (pp_name p) (pp_version p)).
Definition executePackageRemove (c : PackageConfig) (payload : Json PackagePayload) : AgentProg JobResultSubmission :=
  package_job c "package_remove" "remove" payload (fun m p => Remove m (pp_name p)).
Definition executePackageUpdate (c : PackageConfig) (payload : Json PackagePayload) : AgentProg JobResultSubmission :=
  package_job c "package_update" "update" payload (fun m p => UpdatePkg m (pp_name p) (pp_version p)).

(** ** Lemmas *)

Lemma native_shape manager action name version binary cmdArgs :
  BuildNativeArgs manager action name version = Some (binary, cmdArgs) ->
  exists verb flags pkg, cmdArgs = verb :: "-y" :: flags ++ [pkg] /\
    (binary, verb, flags) ∈ [("apt-get", "install", ["--no-install-recommends"]); ("apt-get", "remove", []);
                             ("apt-get", "install", ["--only-upgrade"]); ("dnf", "install", []); ("dnf", "remove", []);
                             ("dnf", "update", [])] /\
    (pkg = name \/ pkg = String.append name (String.append "=" version) \/ pkg = String.append name (String.append "-" version)).
Proof.
  unfold BuildNativeArgs, buildAptArgs, buildDnfArgs. intros H.
  repeat case_match; simplify_eq;
    first [eexists _, [], _; split; [reflexivity|]|eexists _, [_], _; split; [reflexivity|]]; (split; [set_solver|tauto]).
Qed.

(** A program of that name in a directory of the PATH. *)
Definition in_dir (dir file : string) : string := Join [if dir =s "" then "." else dir; file].

Lemma look_in_Some executable dirs file path :
  look_in executable dirs file = Some path ->
  exists before dir after, dirs = before ++ dir :: after /\ path = in_dir dir file /\
    executable path = true /\ IsAbs path = true /\ Forall (fun d => executable (in_dir d file) = false) before.
Proof.
  induction dirs as [|d dirs IH]; [done|]. cbn [look_in]. fold (in_dir d file). destruct (executable (in_dir d file)) eqn:Ee.
  - destruct (IsAbs (in_dir d file)) eqn:Ea; [|done]. intros [= <-]. by exists [], d, dirs.
  - intros (before & dir & after & -> & -> & ? & ? & ?)%IH. exists (d :: before), dir, after. split_and!; try done. by constructor.
Qed.

Lemma append_nonempty a b : a <> "" -> String.append a b <> "".
Proof. by destruct a. Qed.

Lemma metachar_free_append a b : metachar_free (String.append a b) = metachar_free a && metachar_free b.
Proof. unfold metachar_free. by rewrite ContainsAny_append, negb_orb. Qed.

(** What the helper's validation leaves. *)
Lemma validated args : ValidateHelperArgs args = None ->
  exists manager action name version, (args = [manager; action; name] /\ version = "" \/ args = [manager; action; name; version]) /\
    name <> "" /\ metachar_free name = true /\ metachar_free version = true.
Proof.
  unfold ValidateHelperArgs, metachar_free. destruct args as [|m [|a [|n [|v [|]]]]]; try done; intros H;
    repeat case_match; simplify_eq; reflect_bools; exists m, a, n; [exists ""|exists v];
    (split_and!; [auto|done|by apply negb_true_iff|by apply negb_true_iff]).
Qed.

Lemma run_package_job c job action p call env a h' n r :
  pp_name p <> "" ->
  run (call (resolvePackageManager c (pp_manager p)) p) env 0 (ag_host a) = (h', n, inr r) ->
  let out := run (package_job c job action (JValid p) call) env 0 a in
  out.2 = inl (package_job_result r action (pp_name p)) /\ ag_host out.1.1 = h' /\ ag_fs out.1.1 = ag_fs a /\
  ag_inv out.1.1 = if pkr_success r && pc_inventory c then (ComputeDelta (CollectPackages (pc_windows c) h') (ag_inv a)).1 else ag_inv a.
Proof.
  intros Hn Hr. unfold package_job. cbn [unmarshal]. apply seqb_neq in Hn. rewrite Hn. cbv zeta. rewrite run_bind.
  unfold on_host. rewrite run_zoom by (by try intros []). rewrite Hr. cbn [fst snd]. unfold packageResultToJob. rewrite run_bind.
  destruct (pkr_success r && pc_inventory c); done.
Qed.

(** A finished package job has called its manager. *)
Lemma package_job_ends c job action payload call env a res :
  (forall p n h, exists h' n' r, run (call (resolvePackageManager c (pp_manager p)) p) env n h = (h', n', inr r)) ->
  run_result (package_job c job action payload call) env a = inl res -> sub_status res = "completed" -> pc_inventory c = true ->
  let a' := run_store (package_job c job action payload call) env a in
  ag_inv a' = (ComputeDelta (CollectPackages (pc_windows c) (ag_host a')) (ag_inv a)).1.
Proof.
  intros Hcall. unfold run_result, run_store. destruct payload as [p|p].
  { cbn [package_job unmarshal run stop]. by intros [= <-]. }
  destruct (pp_name p =s "") eqn:En; [unfold package_job; cbn [unmarshal]; rewrite En; by intros [= <-]|].
  destruct (Hcall p 0 (ag_host a)) as (h' & n' & r & Hr).
  apply seqb_neq in En. destruct (run_package_job c job action p call env a h' n' r En Hr) as (-> & -> & _ & ->).
  intros [= <-]. simpl. destruct (pkr_success r); [by intros _ ->|done].
Qed.

Lemma linux_run_ends sh m action name version env n h :
  exists h' n' r, run (Linux.pkg_run sh m action name version) env n h = (h', n', inr r).
Proof. unfold Linux.pkg_run. destruct (m =s ""); [by eexists _, _, _|]. rewrite run_bind. simpl. by eexists _, _, _. Qed.

Lemma resolved_ends c : pc_injected c = None ->
  forall hint env n h,
    (forall name version, exists h' n' r, run (Install (resolvePackageManager c hint) name version) env n h = (h', n', inr r)) /\
    (forall name, exists h' n' r, run (Remove (resolvePackageManager c hint) name) env n h = (h', n', inr r)) /\
    (forall name version, exists h' n' r, run (UpdatePkg (resolvePackageManager c hint) name version) env n h = (h', n', inr r)).
Proof.
  intros Hi hint env n h. unfold resolvePackageManager. rewrite Hi. simpl. unfold getPackageManager.
  destruct (pc_windows c); [|split_and!; intros; apply linux_run_ends].
  unfold Windows.NewPkgManagerWindows. cbn [Install Remove UpdatePkg].
  split_and!; intros; (destruct (_ =s ""); [by eexists _, _, _|]); unfold Windows.runCommand; rewrite run_bind; simpl; by eexists _, _, _.
Qed.

Definition package_jobs (c : PackageConfig) (payload : Json PackagePayload) : list (AgentProg JobResultSubmission) :=
  [executePackageInstall c payload; executePackageRemove c payload; executePackageUpdate c payload].

(** ** Properties *)

(** C24: Whatever arguments the setuid helper is given, and whatever the caller's PATH,
    what it becomes runs with a fixed environment, as apt-get or dnf with one of
    six fixed command lines, ending in one argument that is not empty and has no
    shell metacharacters.  The program itself is the first executable file of that
    name in the directories of the caller's PATH, and has an absolute path: it is
    the system's apt-get or dnf only when those directories are the system's. *)
Theorem helper_sound PATH executable args x :
  pkg_helper PATH executable args = inl x ->
  exists binary verb flags pkg, xc_argv x = binary :: verb :: "-y" :: flags ++ [pkg] /\ xc_env x = helper_env /\
    (binary, verb, flags) ∈ [("apt-get", "install", ["--no-install-recommends"]); ("apt-get", "remove", []);
                             ("apt-get", "install", ["--only-upgrade"]); ("dnf", "install", []); ("dnf", "remove", []);
                             ("dnf", "update", [])] /\
    pkg <> "" /\ metachar_free pkg = true /\
    exists before dir after, SplitList PATH = before ++ dir :: after /\
      xc_path x = in_dir dir binary /\ executable (xc_path x) = true /\ IsAbs (xc_path x) = true /\
      Forall (fun d => executable (in_dir d binary) = false) before.
Proof.
  unfold pkg_helper. destruct (ValidateHelperArgs args) eqn:Hv; [done|].
  apply validated in Hv as (m & a & nm & v & Hargs & Hne & Hn & Hv).
  assert (default "" (args !! 2) = nm /\ default "" (args !! 3) = v) as [-> ->] by (by destruct Hargs as [[-> ->]| ->]).
  destruct (BuildNativeArgs _ _ _ _) as [[binary cmdArgs]|] eqn:Hb; [|done].
  destruct (LookPath _ _ binary) as [binPath|] eqn:Hl; [|done]. intros [= <-]. cbn [xc_path xc_argv xc_env].
  apply native_shape in Hb as (verb & flags & pkg & -> & Hin & Hpkg). exists binary, verb, flags, pkg.
  split_and!; [done..| | |].
  - destruct Hpkg as [->|[->| ->]]; [done|by apply append_nonempty..].
  - destruct Hpkg as [->|[->| ->]]; [done|..]; rewrite !metachar_free_append, Hn, Hv; reflexivity.
  - unfold LookPath in Hl. replace (ContainsAny binary [slash]) with false in Hl; [by apply look_in_Some|].
    rewrite !elem_of_cons, elem_of_nil in Hin. by destruct_or! Hin; simplify_eq.
Qed.

(** The program is the caller's choice: an executable apt-get in the first directory
    of the PATH the helper was started with is what becomes root's. *)
Theorem helper_runs_callers_program PATH executable dir dirs name :
  SplitList PATH = dir :: dirs -> executable (in_dir dir "apt-get") = true -> IsAbs (in_dir dir "apt-get") = true ->
  name <> "" -> metachar_free name = true ->
  exists argv, pkg_helper PATH executable ["apt"; "remove"; name] =
    inl {| xc_path := in_dir dir "apt-get"; xc_argv := argv; xc_env := helper_env |}.
Proof.
  intros Hs He Ha Hn Hm. unfold pkg_helper, ValidateHelperArgs. unfold metachar_free in Hm. apply negb_true_iff in Hm.
  apply seqb_neq in Hn. rewrite Hm, Hn. cbn [orb negb]. simpl lookup. cbn [default].
  change (BuildNativeArgs _ _ _ _) with (Some ("apt-get", ["remove"; "-y"; name])). cbv iota beta. unfold LookPath.
  change (ContainsAny "apt-get" [slash]) with false. rewrite Hs. cbn [look_in]. fold (in_dir dir "apt-get").
  rewrite He, Ha. by eexists.
Qed.

(** The name may be an option: what starts with a dash passes the validation and
    reaches apt-get, which runs as root, where a package is expected. *)
Theorem helper_passes_options PATH executable path opt :
  LookPath PATH executable "apt-get" = Some path -> metachar_free opt = true ->
  pkg_helper PATH executable ["apt"; "install"; String.append "-" opt] =
    inl {| xc_path := path; xc_argv := ["apt-get"; "install"; "-y"; "--no-install-recommends"; String.append "-" opt];
           xc_env := helper_env |}.
Proof.
  intros Hl Ho. assert (metachar_free (String.append "-" opt) = true) as Hm by by rewrite metachar_free_append, Ho.
  unfold pkg_helper, ValidateHelperArgs. unfold metachar_free in Hm. apply negb_true_iff in Hm. rewrite Hm. cbn [orb negb].
  simpl lookup. cbn [default]. unfold BuildNativeArgs, buildAptArgs. simpl. by rewrite Hl.
Qed.

(** The packages that a package job installs or removes are not reported: the job
    moves the collector's snapshot and drops the delta, so that the server keeps
    the inventory it had, however many check-ins are delivered afterwards. *)
Theorem package_change_unreported c payload job env a res pkgs :
  job ∈ package_jobs c payload -> pc_injected c = None -> pc_inventory c = true ->
  run_result job env a = inl res -> sub_status res = "completed" ->
  let a' := run_store job env a in
  CollectPackages (pc_windows c) (ag_host a') = Some pkgs -> is_Some (ag_inv a) ->
  ag_inv a' = Some (snapshot_of pkgs) /\
  forall ctx env' p nows db last,
    (forall k, ok_env (env' k)) -> ctx_agent ctx <> "" -> ctx_tenant ctx <> "" -> synced db (ctx_agent ctx) last ->
    synced (checkins ctx env' p pkgs nows db) (ctx_agent ctx) last.
Proof.
  intros Hjob Hi Hinv Hres Hst a' Hpkgs Hcol.
  assert (ag_inv a' = (ComputeDelta (CollectPackages (pc_windows c) (ag_host a')) (ag_inv a)).1) as Ha'.
  { unfold package_jobs in Hjob. rewrite !elem_of_cons, elem_of_nil in Hjob.
    destruct Hjob as [->|[->|[->|[]]]]; unfold a'; (eapply package_job_ends; [|exact Hres|done|done]);
      intros p n h; destruct (resolved_ends c Hi (pp_manager p) env n h) as (H1 & H2 & H3); auto. }
  split.
  - rewrite Ha', Hpkgs. by destruct Hcol as [m ->].
  - intros ctx env' p nows db last Hok Ha Ht Hs. eapply synced_same; [apply quiet_checkins; try done|done].
    unfold CollectPackages in Hpkgs. pose proof (manager_names (ag_host a')) as Hn.
    destruct (pc_windows c); [done|]. destruct (collectPackages (ag_host a')); by simplify_eq.
Qed.
