(* ===== verification/Transfer.v ===== *)
(** * Commands, files and inventory: the agent's other job handlers

    [executeExec] and [executeInventoryFull] of [agent/executor/executor.go],
    [agent/executor/filetransfer.go], [agent/executor/diskspace_linux.go] and
    [diskspace_windows.go].
    Running a command, the file system's free space and the server's answer are
    parameters; every file operation may fail. *)

From Stdlib Require Import QArith.
From stdpp Require Import relations.
From S2P Require Import Prelude Text Platform Float64 Prog Models JobState Checkin Inventory Host Update Packages.

Local Close Scope Q_scope.
Local Open Scope nat_scope.

(** ** What the handlers are given *)

Record JobLib := {
  jl_windows : bool;                                                     (* runtime.GOOS *)
  jl_command : list string -> option Z -> Env -> Host -> Host * CmdOut * bool;
    (* argv and timeout; whether the deadline of the context has passed *)
  jl_hook : list string -> string -> Env -> Host -> Host * (string * bool);
    (* argv, MOEBIUS_FILE_PATH; the combined output, and whether it succeeded *)
  jl_info : string -> option fileDownloadResponse;                       (* GET .../files/{id}/download *)
  jl_statfs : string -> Env -> option (Z * Z);                           (* Bavail, Bsize *)
  jl_files : Lib;
  jl_marshal : HardwareInventory -> list PackageRef -> string;
}.

Definition shell_argv (windows : bool) (command : string) : list string :=
  if windows then ["cmd"; "/C"; command] else ["sh"; "-c"; command].

(** ** agent/executor/executor.go *)

Record ExecPayload := { xp_command : string; xp_timeout_seconds : Z }.

Definition exec_result (out : CmdOut) (deadline : bool) : JobResultSubmission :=
  let ended status code message :=
    {| sub_status := status; sub_exit_code := Some code; sub_stdout := co_stdout out; sub_stderr := co_stderr out;
       sub_message := message; sub_started_at := None; sub_completed_at := None |} in
  match co_error out with
  | None => ended "completed" 0%Z ""
  | Some (code, msg) =>
      let exitCode := match code with Some c => c | None => if deadline then 0%Z else (-1)%Z end in
      if deadline then ended "timed_out" exitCode "command timed out" else ended "failed" exitCode msg
  end.

(** The access of the command is made when the command returns.  One that never does
    (no timeout, or a child that holds its output open) leaves the program before
    this access: a run cut short there. *)
Definition executeExec (lib : JobLib) (payload : Json ExecPayload) : AgentProg JobResultSubmission :=
  match unmarshal payload with
  | None => stop (failed "invalid exec payload")
  | Some p =>
      if xp_command p =s "" then stop (failed "empty command")
      else
        let timeout := if (0 <? xp_timeout_seconds p)%Z then Some (wrap64 (xp_timeout_seconds p * 1000000000)) else None in
        r ← on_host (PStep (fun e h =>
              let '(h', out, late) := jl_command lib (shell_argv (jl_windows lib) (xp_command p)) timeout e h in
              (h', (out, late && match timeout with Some _ => true | None => false end))) PRet);
        stop (exec_result r.1 r.2)
  end.

Definition executeInventoryFull (lib : JobLib) (inventory : bool) : AgentProg JobResultSubmission :=
  if negb inventory then stop (failed "inventory collector not configured")
  else
    data ← on_host (PStep (fun _ h => (h, CollectFull (jl_marshal lib) (jl_windows lib) h)) PRet);
    stop {| sub_status := "completed"; sub_exit_code := None; sub_stdout := data; sub_stderr := ""; sub_message := "";
            sub_started_at := None; sub_completed_at := None |}.

(** On Windows the job completes with an inventory that is empty whatever the machine
    has, and no check-in reports a package. *)
Theorem windows_inventory_empty lib env a c :
  jl_windows lib = true ->
  (exists res, run_result (executeInventoryFull lib true) env a = inl res /\ sub_status res = "completed" /\
     sub_stdout res = jl_marshal lib {| hi_cpu := None; hi_ram_mb := 0; hi_disks := []; hi_nics := [] |} []) /\
  ComputeDelta (CollectPackages true (ag_host a)) c = (c, None).
Proof.
  intros Hw. split; [|done]. eexists. split; [done|]. split; [done|]. cbn. by rewrite Hw.
Qed.

(** ** agent/executor/filetransfer.go *)

Record FileTransferStorage := { fts_space_check_enabled : option bool; fts_space_check_threshold : option Q }.

Record FileTransferPayload := {
  ftp_file_id : string;
  ftp_integrity : option (bool * bool);       (* require_sha256, require_signature *)
  ftp_storage : option FileTransferStorage;
  ftp_on_complete : option string;            (* exec *)
}.

Definition shouldCheckSpace (storage : option FileTransferStorage) : bool :=
  match storage with
  | Some s => default true (fts_space_check_enabled s)
  | None => true
  end.

(** agent/executor/diskspace_linux.go; [true] is a nil error. *)
Definition checkDiskSpace (stat : option (Z * Z)) (fileSize : Z) (threshold : Q) : bool :=
  match stat with
  | None => false
  | Some (bavail, bsize) =>
      let freeBytes := wrap64 (wrap64 bavail * bsize) in
      let maxSize := ftrunc (fmul (float_of_int freeBytes) threshold) in
      negb (maxSize <? fileSize)%Z
  end.

(** agent/executor/diskspace_windows.go: always an error. *)
Definition checkDiskSpaceWindows : bool := false.

Definition half : Q := 1 # 2.

(** The check before the download. *)
Definition space_ok (lib : JobLib) (dropDir : string) (p : FileTransferPayload) (size : Z) (e : Env) : bool :=
  if shouldCheckSpace (ftp_storage p) then
    let threshold := default half (s ← ftp_storage p; fts_space_check_threshold s) in
    if jl_windows lib then checkDiskSpaceWindows else checkDiskSpace (jl_statfs lib dropDir e) size threshold
  else true.

(** [os.MkdirAll]; [true] is a nil error. *)
Definition mkdir : prog FS JobResultSubmission bool := PStep (fun e fs => (fs, negb (e_fault e))) PRet.

Definition temp_path (dropDir fileID : string) : string := Join [dropDir; String.append ".downloading-" fileID].
Definition final_path (dropDir fileID : string) : string := Join [dropDir; Base fileID].

(** Download and verification: the temporary file is in place afterwards. *)
Definition fetch_checked (lib : JobLib) (tempFile : string) (p : FileTransferPayload) (info : fileDownloadResponse)
    : prog FS JobResultSubmission unit :=
  ok ← downloadFile (jl_files lib) (fd_url info) tempFile;
  if negb ok then abandon tempFile "download failed"
  else
    let requireSHA := match ftp_integrity p with Some (sha, _) => sha | None => true end in
    if requireSHA && negb (fd_sha256 info =s "") then
      actualHash ← fileSHA256 (jl_files lib) tempFile;
      match actualHash with
      | None => abandon tempFile "failed to compute SHA-256"
      | Some h =>
          if negb (h =s fd_sha256 info)
          then abandon tempFile (String.concat "" ["checksum_mismatch: expected "; fd_sha256 info; ", got "; h])
          else mret tt
      end
    else mret tt.

Definition getDownloadInfo (lib : JobLib) (fileID : string) : prog FS JobResultSubmission (option fileDownloadResponse) :=
  get (jl_info lib fileID).

(** The handler up to the rename. *)
Definition transfer_file (lib : JobLib) (dropDir : string) (p : FileTransferPayload) : prog FS JobResultSubmission unit :=
  dlResp ← getDownloadInfo lib (ftp_file_id p);
  match dlResp with
  | None => stop (failed "failed to get download info")
  | Some info =>
      room ← PStep (fun e fs => (fs, space_ok lib dropDir p (fd_size_bytes info) e)) PRet;
      if negb room then stop (failed "insufficient_disk_space")
      else
        made ← mkdir;
        if negb made then stop (failed "failed to create drop directory")
        else
          let tempFile := temp_path dropDir (ftp_file_id p) in
          _ ← fetch_checked lib tempFile p info;
          ok ← rename tempFile (final_path dropDir (ftp_file_id p));
          if negb ok then abandon tempFile "failed to move file to drop directory" else mret tt
  end.

Definition runOnComplete (lib : JobLib) (command filePath : string) : HostProg (string * bool) :=
  PStep (fun e h => jl_hook lib (shell_argv (jl_windows lib) command) filePath e h) PRet.

Definition executeFileTransfer (lib : JobLib) (dropDir : string) (payload : Json FileTransferPayload) : AgentProg JobResultSubmission :=
  match unmarshal payload with
  | None => stop (failed "invalid file_transfer payload")
  | Some p =>
      if ftp_file_id p =s "" then stop (failed "file_id is required")
      else if dropDir =s "" then stop (failed "drop directory not configured")
      else
        _ ← on_files (transfer_file lib dropDir p);
        let finalPath := final_path dropDir (ftp_file_id p) in
        let finish := stop (result "completed" (String.append "file transferred to " finalPath)) in
        match ftp_on_complete p with
        | None => finish
        | Some command =>
            if command =s "" then finish
            else
              out ← on_host (runOnComplete lib command finalPath);
              if (out.2 : bool) then finish
              else stop {| sub_status := "failed"; sub_exit_code := None; sub_stdout := out.1; sub_stderr := "";
                           sub_message := "on_complete failed"; sub_started_at := None; sub_completed_at := None |}
        end
  end.

(** ** Lemmas *)

(** What the agent checked of a transferred file. *)
Definition file_checked (lib : JobLib) (p : FileTransferPayload) (info : fileDownloadResponse) (c : string) : Prop :=
  match ftp_integrity p with Some (false, _) => False | _ => True end -> fd_sha256 info <> "" ->
  hex_encode (jl_files lib) (sha256_raw (jl_files lib) c) = fd_sha256 info.

Section Rules.
Context (E : Env -> Prop) (lib : JobLib) (dropDir : string) (p : FileTransferPayload).
Notation tmp := (temp_path dropDir (ftp_file_id p)).
Notation fin := (final_path dropDir (ftp_file_id p)).

Lemma fetch_checked_rg info fs0 (Q : JobResultSubmission + unit -> FS -> Prop) :
  (forall msg fs, kept [tmp] fs0 fs -> Q (inl (failed msg)) fs) ->
  (supported_url (fd_url info) = true -> forall c fs, kept [tmp] fs0 fs -> fs_files fs !! tmp = Some c -> file_checked lib p info c -> Q (inr tt) fs) ->
  rg E (=) any (fetch_checked lib tmp p info) Q fs0.
Proof.
  intros Hf Hok. unfold fetch_checked, downloadFile. rg_step. rg_step. apply rg_get.
  { rg_step. cbn [negb]. eapply abandon_rg; [reflexivity|auto]. }
  destruct (supported_url (fd_url info)) eqn:Eu; [|done]. intros c _.
  assert (forall c', kept [tmp] fs0 (set_file tmp c' fs0)) as Hk by (intros; apply kept_set; set_solver).
  apply rg_write; cbn [negb]; [by eapply abandon_rg; [reflexivity|auto]|by intros; eapply abandon_rg; [apply Hk|auto]|].
  destruct ((match ftp_integrity p with Some (sha, _) => sha | None => true end) && negb (fd_sha256 info =s "")) eqn:Es.
  - rg_step. apply rg_sha; [eapply abandon_rg; [apply Hk|auto]|]. intros c' Hc'. simpl in Hc'. rewrite lookup_insert_eq in Hc'.
    injection Hc' as <-.
    destruct (negb (hex_encode _ _ =s fd_sha256 info)) eqn:Eh; [eapply abandon_rg; [apply Hk|auto]|]. reflect_bools.
    rg_step. apply (Hok eq_refl c); [done|simpl; by rewrite lookup_insert_eq|]. by intros _ _.
  - rg_step. apply (Hok eq_refl c); [done|simpl; by rewrite lookup_insert_eq|]. intros Hreq Hne. exfalso.
    apply andb_false_iff in Es as [Es|Es]; [by destruct (ftp_integrity p) as [[[] ?]|]|reflect_bools; done].
Qed.

Lemma transfer_file_rg fs0 (Q : JobResultSubmission + unit -> FS -> Prop) :
  (forall msg fs, kept [tmp] fs0 fs -> Q (inl (failed msg)) fs) ->
  (forall info c fs, jl_info lib (ftp_file_id p) = Some info -> supported_url (fd_url info) = true ->
     kept [tmp; fin] fs0 fs -> fs_files fs !! fin = Some c -> file_checked lib p info c -> Q (inr tt) fs) ->
  rg E (=) any (transfer_file lib dropDir p) Q fs0.
Proof.
  intros Hf Hok. unfold transfer_file, getDownloadInfo. rg_step. apply rg_get; [rg_step; by apply Hf|].
  intros info Hi. rg_step. intros ? e _ <-. split; [done|]. destruct (space_ok _ _ _ _ _); cbn [negb fst snd rg]; [|by apply Hf].
  rg_step. intros ? e' _ <-. split; [done|]. destruct (e_fault e'); cbn [negb fst snd rg]; [by apply Hf|].
  rg_step. apply fetch_checked_rg; [intros; by apply Hf|]. intros Hu c fs Hk Hc Hch. rg_step. apply rg_rename; cbn [negb].
  - eapply abandon_rg; [exact Hk|auto].
  - intros c' Hc'. rewrite Hc in Hc'. injection Hc' as <-. rg_step. apply (Hok info c); try done.
    + etrans; [apply (kept_more [tmp]); [set_solver|exact Hk]|]. etrans; [apply (kept_drop _ tmp); set_solver|].
      apply kept_set. set_solver.
    + simpl. by rewrite lookup_insert_eq.
Qed.
End Rules.

(** The two outcomes of a transfer: a failure that leaves every file but the
    temporary one as it was, or a checked file in the drop directory. *)
Definition transferred (lib : JobLib) (dropDir : string) (payload : Json FileTransferPayload) (a : Agent)
    (res : JobResultSubmission) (a' : Agent) : Prop :=
  (sub_status res = "failed" /\ ag_host a' = ag_host a /\ ag_inv a' = ag_inv a /\
     (ag_fs a' = ag_fs a \/ exists p, payload = JValid p /\ kept [temp_path dropDir (ftp_file_id p)] (ag_fs a) (ag_fs a'))) \/
  exists p info c, payload = JValid p /\ jl_info lib (ftp_file_id p) = Some info /\ supported_url (fd_url info) = true /\
    fs_files (ag_fs a') !! final_path dropDir (ftp_file_id p) = Some c /\ file_checked lib p info c /\
    kept [temp_path dropDir (ftp_file_id p); final_path dropDir (ftp_file_id p)] (ag_fs a) (ag_fs a') /\
    (sub_status res = "completed" \/ sub_status res = "failed" /\ ftp_on_complete p <> None).

Lemma transfer_rg lib dropDir payload a :
  rg any_env (=) (fun _ _ : Agent => True) (executeFileTransfer lib dropDir payload)
    (fun r a' => exists res, r = inl res /\ transferred lib dropDir payload a res a') a.
Proof.
  destruct payload as [p|p]; [eexists; split; [done|]; left; by auto|].
  unfold executeFileTransfer. cbn [unmarshal].
  destruct (ftp_file_id p =s ""); [eexists; split; [done|]; left; by auto|].
  destruct (dropDir =s ""); [eexists; split; [done|]; left; by auto|].
  rg_step. unfold on_files. apply rg_zoom; [by intros []|done|done|]. apply transfer_file_rg.
  - intros msg fs Hk. eexists. split; [done|]. left. split_and!; try done. right. by exists p.
  - intros info c fs Hi Hu Hk Hc Hch. cbv zeta.
    assert (forall a' res, ag_fs a' = fs -> sub_status res = "completed" \/ sub_status res = "failed" /\ ftp_on_complete p <> None ->
      exists res', (inl res : JobResultSubmission + JobResultSubmission) = inl res' /\ transferred lib dropDir (JValid p) a res' a') as Hend.
    { intros a' res <- Hs. exists res. split; [done|]. right. by exists p, info, c. }
    destruct (ftp_on_complete p) as [command|] eqn:Eo; [|rg_step; apply Hend; auto].
    destruct (command =s ""); [rg_step; apply Hend; auto|].
    rg_step. unfold on_host. apply rg_zoom; [by intros []|done|done|]. intros ? e _ <-. split; [done|]. cbn [fst snd rg].
    destruct (jl_hook _ _ _ _ _) as [h' [out []]]; cbn [fst snd]; rg_step; (apply Hend; [done|]); [by left|by right].
Qed.

(** ** Properties *)

(** A file transfer ends, and either fails and leaves every file but its temporary
    one as it was, or puts a file into the drop directory whose SHA-256 is the
    one the server gave (unless it gave none, or the payload waives the check),
    changes no other file, and is reported as completed unless the command that
    follows it fails. *)
Theorem transfer_spec lib dropDir payload env a :
  let job := executeFileTransfer lib dropDir payload in
  exists res, run_result job env a = inl res /\ transferred lib dropDir payload a res (run_store job env a).
Proof. intros job. unfold job. by_rg any_env (fun _ _ : Agent => True); [done|]. apply transfer_rg. Qed.
