(* ===== verification/Executor.v ===== *)
(** * The agent's job runner

    [agent/executor/executor.go]: the CDM gate, the acknowledgement, the
    execution and the report of one dispatched job, against the server's
    handlers ([Acknowledge] and [SubmitResult], file [AgentJobs]) and the CDM
    manager (file [Cdm]), over a network that may lose requests and answers.

    [execute] runs the handlers of the files [Transfer], [Packages] and [Update] on
    the agent's own state; the decoders of the payloads are parameters. *)

From stdpp Require Import relations.
From S2P Require Import Prelude Platform Prog Models JobState Database Scope Quota JobSteps JobsApi Requests AgentJobs Checkin Scheduler JobSystem JobSpecs Cdm Host Update Packages Transfer.

(** ** State: the server's database, the agent's CDM world, its files, packages
    and inventory snapshot, the jobs whose work was started, and the service
    restarts asked for *)

Record Sys := {
  sy_db : DB;
  sy_cdm : World;
  sy_agent : Agent;
  sy_executed : list string;
  sy_restarts : nat;
}.

Definition set_db (db : DB) (s : Sys) : Sys :=
  {| sy_db := db; sy_cdm := sy_cdm s; sy_agent := sy_agent s; sy_executed := sy_executed s; sy_restarts := sy_restarts s |}.
Definition set_cdm (w : World) (s : Sys) : Sys :=
  {| sy_db := sy_db s; sy_cdm := w; sy_agent := sy_agent s; sy_executed := sy_executed s; sy_restarts := sy_restarts s |}.
Definition set_agent (a : Agent) (s : Sys) : Sys :=
  {| sy_db := sy_db s; sy_cdm := sy_cdm s; sy_agent := a; sy_executed := sy_executed s; sy_restarts := sy_restarts s |}.
Definition add_executed (id : string) (s : Sys) : Sys :=
  {| sy_db := sy_db s; sy_cdm := sy_cdm s; sy_agent := sy_agent s; sy_executed := sy_executed s ++ [id]; sy_restarts := sy_restarts s |}.
Definition add_restart (s : Sys) : Sys :=
  {| sy_db := sy_db s; sy_cdm := sy_cdm s; sy_agent := sy_agent s; sy_executed := sy_executed s; sy_restarts := S (sy_restarts s) |}.

(** What the system answers a CDM call, from the environment of the access. *)
Definition io_of (e : Env) : Io :=
  {| io_now := e_now e;
     io_write := if e_fault e then WFail (if e_faults e 0 then Kept else if e_faults e 1 then Partial else Written)
                 else WOk;
     io_read_ok := negb (e_faults e 2);
     io_audit := if e_faults e 3 then None else Some (e_now e) |}.

(** [json.Unmarshal] of a payload, at the type of each handler. *)
Record Payloads := {
  pl_exec : string -> Json ExecPayload;
  pl_file_transfer : string -> Json FileTransferPayload;
  pl_package : string -> Json PackagePayload;
  pl_agent_update : string -> Json AgentUpdatePayload;
  pl_agent_rollback : string -> Json AgentRollbackPayload;
}.

Record ExecutorConfig := {
  ex_ctx : Ctx;                                  (* the identity the agent's certificate gives *)
  ex_audit : bool;                               (* of the server *)
  ex_decode : string -> option FullInventory;    (* of the server *)
  ex_lib : JobLib;
  ex_packages : PackageConfig;
  ex_payloads : Payloads;
  ex_dropDir : string;
  ex_platform : option Platform;
  ex_version : string;                           (* version.Version *)
  ex_pollInterval : Z;
  ex_restart : bool;                             (* restartFunc is set *)
}.

Definition unsupported (type : string) : JobResultSubmission :=
  {| sub_status := "failed"; sub_exit_code := None; sub_stdout := ""; sub_stderr := "";
     sub_message := String.append "unsupported job type: " type; sub_started_at := None; sub_completed_at := None |}.

Definition execute (c : ExecutorConfig) (job : JobDispatch) : AgentProg JobResultSubmission :=
  let raw := jd_payload job in
  if jd_type job =s "exec" then executeExec (ex_lib c) (pl_exec (ex_payloads c) raw)
  else if jd_type job =s "inventory_full" then executeInventoryFull (ex_lib c) (pc_inventory (ex_packages c))
  else if jd_type job =s "file_transfer" then executeFileTransfer (ex_lib c) (ex_dropDir c) (pl_file_transfer (ex_payloads c) raw)
  else if jd_type job =s "package_install" then executePackageInstall (ex_packages c) (pl_package (ex_payloads c) raw)
  else if jd_type job =s "package_remove" then executePackageRemove (ex_packages c) (pl_package (ex_payloads c) raw)
  else if jd_type job =s "package_update" then executePackageUpdate (ex_packages c) (pl_package (ex_payloads c) raw)
  else if jd_type job =s "agent_update" then
    on_files (executeAgentUpdate (jl_files (ex_lib c)) (ex_platform c) (ex_version c) (ex_pollInterval c)
                (jd_job_id job) (pl_agent_update (ex_payloads c) raw))
  else if jd_type job =s "agent_rollback" then
    on_files (executeAgentRollback (ex_platform c) (pl_agent_rollback (ex_payloads c) raw))
  else stop (unsupported (jd_type job)).

(** ** Programs *)

Section Programs.
Context {R : Type}.

Definition success (resp : option Response) : bool :=
  match resp with
  | Some r => (resp_status r =? 204)%Z || (resp_status r =? 200)%Z
  | None => false
  end.

(** [true] is a nil error. *)
Definition acknowledge (c : ExecutorConfig) (jobID : string) : prog Sys R bool :=
  r ← do_request sy_db set_db (Acknowledge (ex_audit c) (ex_ctx c) jobID);
  mret (success r).

Definition submitResult (c : ExecutorConfig) (jobID : string) (res : JobResultSubmission) : prog Sys R bool :=
  r ← do_request sy_db set_db (SubmitResult (ex_decode c) (ex_audit c) (ex_ctx c) jobID (Some res));
  mret (success r).

Definition cdm_call (op : Op) : prog Sys R Answer :=
  PStep (fun e s => let r := cdm_step (sy_cdm s) (io_of e, op) in (set_cdm r.1 s, r.2)) PRet.

(** The block that records the execution when a session is active. *)
Definition log_execution (job : JobDispatch) : prog Sys R unit :=
  enabled ← PStep (fun _ s => (s, match w_mem (sy_cdm s) with Some st => Enabled st | None => false end)) PRet;
  if enabled : bool then
    snap ← cdm_call OSnapshot;
    match snap with
    | AState st =>
        if st_session_active st then
          PStep (fun e s => (set_cdm {| w_mem := w_mem (sy_cdm s); w_file := w_file (sy_cdm s);
                                        w_log := LogJobExecution (io_of e) (jd_job_id job) (jd_type job)
                                                   (st_session_granted_by st) (w_log (sy_cdm s)) |} s, tt)) PRet
        else mret tt
    | _ => mret tt
    end
  else mret tt.

Definition with_times (started completed : Z) (r : JobResultSubmission) : JobResultSubmission :=
  {| sub_status := sub_status r; sub_exit_code := sub_exit_code r; sub_stdout := sub_stdout r;
     sub_stderr := sub_stderr r; sub_message := sub_message r; sub_started_at := Some started;
     sub_completed_at := Some completed |}.

(** The part of [runJob] after the acknowledgement. *)
Definition run_acknowledged (c : ExecutorConfig) (job : JobDispatch) : prog Sys R unit :=
  _ ← log_execution job;
  startedAt ← time_now;
  _ ← PStep (fun _ s => (add_executed (jd_job_id job) s, tt)) PRet;
  result ← zoom sy_agent set_agent (call (execute c job));
  completedAt ← time_now;
  let result := with_times startedAt completedAt result in
  ok ← submitResult c (jd_job_id job) result;
  if negb ok then mret tt
  else if (sub_status result =s "restarting") && ex_restart c
  then PStep (fun _ s => (add_restart s, tt)) PRet
  else mret tt.

Definition runJob (c : ExecutorConfig) (job : JobDispatch) : prog Sys R unit :=
  gate ← cdm_call OCanExecute;
  match gate with
  | ABool true =>
      ok ← acknowledge c (jd_job_id job);
      if negb ok then mret tt else run_acknowledged c job
  | _ => mret tt
  end.

End Programs.

(** ** Lemmas *)

(** The value a function returned, early or not. *)
Definition ended {A : Type} (r : A + A) : A := match r with inl a | inr a => a end.

Section Requests.
Context {R : Type}.

(** A refused request does not count as a success. *)
Lemma success_error resp : (400 <= resp_status resp)%Z -> success (Some resp) = false.
Proof. intros H. simpl. apply orb_false_iff. split; apply Z.eqb_neq; lia. Qed.

Definition not_dispatched (id : string) (db : DB) : Prop :=
  forall j, jobs db !! id = Some j -> job_status j <> JobStatusDispatched.

Lemma target_not_dispatched st st' : target_status st = Some st' -> st' <> JobStatusDispatched.
Proof. intros [->|[->| ->]]%target_status_ok; vm_compute; discriminate. Qed.

Lemma submitted_not_dispatched ctx id body db r db' :
  submitted ctx id body db r db' -> not_dispatched id db -> not_dispatched id db'.
Proof.
  intros [(_ & req & st & j & now & _ & Hst & _ & _ & _ & Hj)|(_ & _ & _ & Hj & _)] Hn; [|unfold not_dispatched; by rewrite Hj].
  cbv zeta in Hj. pose proof (target_not_dispatched _ _ Hst) as Hne. intros j' Hj'.
  destruct Hj as [Hj|(_ & nid & t & Hnid & Hj)]; rewrite Hj in Hj'.
  - rewrite lookup_insert_eq in Hj'. by injection Hj' as <-.
  - apply lookup_insert_Some in Hj' as [[-> _]|[_ Hj']]; [by rewrite lookup_insert_eq in Hnid|].
    rewrite lookup_insert_eq in Hj'. by injection Hj' as <-.
Qed.

(** The acknowledgement: a nil error means the job was dispatched to this agent
    and no longer counts as dispatched. *)
Lemma run_acknowledge c id env n s :
  exists db' n' ok, run (acknowledge c id : prog Sys R bool) env n s = (set_db db' s, n', inr ok) /\
  (ok = true -> not_dispatched id db' /\ acknowledged (ex_ctx c) id (sy_db s) (inl NoContent) db' /\ exists j,
     find_agent_job id (ctx_agent (ex_ctx c)) (ctx_tenant (ex_ctx c)) (sy_db s) = Some j
     /\ job_status j = JobStatusDispatched).
Proof.
  unfold acknowledge. rewrite run_bind.
  destruct (run_request (R := R) sy_db set_db ltac:(by intros []) ltac:(done) ltac:(done) (Acknowledge (ex_audit c) (ex_ctx c) id) env n s) as (s' & n' & o & -> & Ho).
  cbn [run mret prog_ret]. destruct Ho as [(-> & -> & _)|(env' & -> & Ho)].
  { exists (sy_db s), n', false. split; [by destruct s|done]. }
  eexists _, n', _. split; [done|]. intros Hok.
  destruct (acknowledge_run (ex_audit c) env' (ex_ctx c) id (sy_db s)) as [Ha _]. pose proof Ha as Ha'.
  destruct Ha as [(Hr & j & now & Hj & Hst & Hjobs)|(resp & Hr & Hge & _)].
  - rewrite Hr in Ha'. split_and!; [|done|by eauto]. intros j'. rewrite Hjobs, lookup_insert_eq. intros [= <-]. vm_compute. discriminate.
  - destruct Ho as [->|Ho]; [done|]. rewrite Hr in Ho. subst o. by rewrite success_error in Hok.
Qed.

(** What a report does to the server: what [SubmitResult] does with it, or nothing,
    and then the request was lost. *)
Definition reported (lost : Prop) (ctx : Ctx) (id : string) (res : JobResultSubmission) (db db' : DB) : Prop :=
  (lost /\ db' = db) \/ exists r, submitted ctx id (Some res) db r db'.

Lemma reported_not_dispatched lost ctx id res db db' :
  reported lost ctx id res db db' -> not_dispatched id db -> not_dispatched id db'.
Proof. intros [[_ ->]|[r Hs]]; [done|]. by eapply submitted_not_dispatched. Qed.

(** The report of the result. *)
Lemma run_submit c id res env n s :
  exists db' n' ok, run (submitResult c id res : prog Sys R bool) env n s = (set_db db' s, n', inr ok) /\
  reported (e_fault (env n) = true) (ex_ctx c) id res (sy_db s) db' /\ (ok = true -> target_status (sub_status res) <> None).
Proof.
  unfold submitResult. rewrite run_bind.
  destruct (run_request (R := R) sy_db set_db ltac:(by intros []) ltac:(done) ltac:(done) (SubmitResult (ex_decode c) (ex_audit c) (ex_ctx c) id (Some res)) env n s)
    as (s' & n' & o & -> & Ho).
  cbn [run mret prog_ret]. destruct Ho as [(-> & -> & Hf)|(env' & -> & Ho)].
  { exists (sy_db s), n', false. split; [by destruct s|]. split; [by left|done]. }
  pose proof (submit_run (ex_decode c) (ex_audit c) env' (ex_ctx c) id (Some res) (sy_db s)) as Hs.
  eexists _, n', _. split; [done|]. split; [right; by eexists|]. intros Hok.
  destruct Hs as [(_ & req & st & j & now & [= <-] & Hst & _)|(resp & Hr & Hge & _)]; [by rewrite Hst|].
  destruct Ho as [->|Ho]; [done|]. rewrite Hr in Ho. subst o. by rewrite success_error in Hok.
Qed.

Lemma run_log_execution job env n s :
  exists w n', run (log_execution job : prog Sys R unit) env n s = (set_cdm w s, n', inr tt).
Proof.
  unfold log_execution. rewrite run_bind. cbn [run fst snd].
  destruct (match w_mem (sy_cdm s) with Some st => Enabled st | None => false end).
  2:{ exists (sy_cdm s), (Datatypes.S n). by destruct s. }
  rewrite run_bind. cbn [run cdm_call fst snd]. destruct (cdm_step _ _) as [w [| | |st]]; simpl;
    try (destruct (st_session_active st); simpl); eexists _, _; done.
Qed.

(** The handler of the job ran on the agent's state [a], left [a'] and reported
    [res], of which the server was told unless the request was lost. *)
Definition job_ran (env : nat -> Env) (c : ExecutorConfig) (job : JobDispatch) (a a' : Agent) (db db' : DB) : Prop :=
  exists env' res started completed,
    run_store (execute c job) env' a = a' /\ ended (run_result (execute c job) env' a) = res /\
    reported (may_fault (envs env)) (ex_ctx c) (jd_job_id job) (with_times started completed res) db db'.

Lemma run_execute c job env n s :
  exists env' n', run (zoom sy_agent set_agent (call (execute c job)) : prog Sys R _) env n s =
    (set_agent (run_store (execute c job) env' (sy_agent s)) s, n', inr (ended (run_result (execute c job) env' (sy_agent s)))).
Proof.
  rewrite run_zoom, run_call by (by intros []). exists (fun k => env (n + k)). destruct (run_shift (execute c job) env n (sy_agent s)) as [H1 H2].
  destruct (run (execute c job) env n (sy_agent s)) as [[a' n'] r]. cbn [fst snd] in H1, H2. rewrite <-H1, <-H2.
  exists n'. by destruct r.
Qed.

(** After the acknowledgement the work is started once and nothing is restarted. *)
Lemma run_acknowledged_spec c job env n s :
  exists s' n', run (run_acknowledged c job : prog Sys R unit) env n s = (s', n', inr tt)
  /\ sy_executed s' = sy_executed s ++ [jd_job_id job] /\ sy_restarts s' = sy_restarts s
  /\ job_ran env c job (sy_agent s) (sy_agent s') (sy_db s) (sy_db s').
Proof.
  unfold run_acknowledged. rewrite run_bind. destruct (run_log_execution job env n s) as (w & n1 & ->).
  rewrite run_bind. cbn [run time_now fst snd]. rewrite run_bind. cbn [run fst snd].
  rewrite run_bind. edestruct run_execute as (env' & n2 & ->). rewrite run_bind. cbn [run time_now fst snd]. cbv zeta. rewrite run_bind.
  set (res := with_times _ _ _). set (s1 := set_agent _ _).
  destruct (run_submit c (jd_job_id job) res env (Datatypes.S n2) s1) as (db' & n3 & ok & -> & Hrep & Hok).
  assert (job_ran env c job (sy_agent s) (sy_agent s1) (sy_db s) db') as Hran.
  { eexists env', _, _, _. split; [done|]. split; [done|]. destruct Hrep as [[Hf ->]|Hs]; [left|by right].
    split; [|done]. by eexists; split; [eexists|]. }
  destruct ok; cbn [negb]; [|by eexists _, _; split; [done|]; split_and!].
  assert (sub_status res =s "restarting" = false) as ->.
  { apply seqb_neq. intros Hst. apply (Hok eq_refl). by rewrite Hst. }
  cbn [andb]. by eexists _, _; split; [done|]; split_and!.
Qed.

End Requests.

Lemma job_ran_not_dispatched env c job a a' db db' :
  job_ran env c job a a' db db' -> not_dispatched (jd_job_id job) db -> not_dispatched (jd_job_id job) db'.
Proof. intros (env' & res & t & t' & _ & _ & Hr). by eapply reported_not_dispatched. Qed.

(** What one run of the runner did: nothing on the agent, or the whole job. *)
Definition ran_gated (env : nat -> Env) (c : ExecutorConfig) (job : JobDispatch) (gate : Answer) (s s' : Sys) : Prop :=
  (sy_executed s' = sy_executed s /\ sy_agent s' = sy_agent s) \/
  (sy_executed s' = sy_executed s ++ [jd_job_id job] /\ not_dispatched (jd_job_id job) (sy_db s') /\ gate = ABool true /\
   (exists j, find_agent_job (jd_job_id job) (ctx_agent (ex_ctx c)) (ctx_tenant (ex_ctx c)) (sy_db s) = Some j
      /\ job_status j = JobStatusDispatched) /\
   exists db1, acknowledged (ex_ctx c) (jd_job_id job) (sy_db s) (inl NoContent) db1 /\
     job_ran env c job (sy_agent s) (sy_agent s') db1 (sy_db s')).

(** A run of one job, whatever fails. *)
Lemma run_job_spec {R : Type} c job env n s :
  exists s' n', run (runJob c job : prog Sys R unit) env n s = (s', n', inr tt) /\ sy_restarts s' = sy_restarts s /\
  ran_gated env c job (cdm_step (sy_cdm s) (io_of (env n), OCanExecute)).2 s s'.
Proof.
  unfold runJob. rewrite run_bind. cbn [run cdm_call fst snd].
  destruct (cdm_step (sy_cdm s) (io_of (env n), OCanExecute)) as [w g] eqn:Eg. cbn [fst snd].
  destruct g as [| |[]|]; try (by eexists _, _; split; [done|]; split; [done|left]).
  rewrite run_bind. destruct (run_acknowledge (R := R) c (jd_job_id job) env (Datatypes.S n) (set_cdm w s))
    as (db' & n1 & ok & -> & Hok).
  destruct ok; cbn [negb]; [|by eexists _, _; split; [done|]; split; [done|left]].
  destruct (Hok eq_refl) as (Hnd & Ha & Hj).
  destruct (run_acknowledged_spec (R := R) c job env n1 (set_db db' (set_cdm w s))) as (s' & n2 & -> & He & Hr & Hd).
  eexists _, _. split; [done|]. split; [by rewrite Hr|]. right.
  split_and!; [by rewrite He|by eapply job_ran_not_dispatched|done|done|by exists db'].
Qed.

(** *** A run cut short *)

(** What the accesses other than those of the handler leave alone. *)
Definition same_work : relation Sys := fun s s' => sy_executed s' = sy_executed s /\ sy_agent s' = sy_agent s.
#[export] Instance same_work_preorder : PreOrder same_work.
Proof. split; [done|]. intros a b c [??] [??]. split; congruence. Qed.

(** Splits a run cut short at the first bind. *)
Tactic Notation "cut_bind" "as" simple_intropattern(pat) :=
  match goal with
  | |- context [run_some ?k (mbind ?g ?p) ?env ?n ?s] => destruct (run_some_bind g env k p n s) as pat
  end.

Section CutShort.
Context {R : Type} (c : ExecutorConfig) (job : JobDispatch) (env : nat -> Env).



(** The handler was started on the agent's state and is somewhere in its run. *)
Definition started (s s' : Sys) : Prop :=
  sy_executed s' = sy_executed s ++ [jd_job_id job] /\
  exists k env', sy_agent s' = (run_some k (execute c job) env' 0 (sy_agent s)).1.




End CutShort.

(** ** Properties *)


(** One dispatch is executed at most once: the same job handed to the runner
    again, after a first run that executed it, is not started a second time
    unless the server has put it back in the queue in between. *)
Theorem executed_once c job env env' s :
  let s1 := run_store (runJob c job : prog Sys Empty_set unit) env s in
  let s2 := run_store (runJob c job : prog Sys Empty_set unit) env' s1 in
  length (sy_executed s2) <= length (sy_executed s) + 1.
Proof.
  unfold run_store. destruct (run_job_spec (R := Empty_set) c job env 0 s) as (s1 & n1 & -> & _ & H1). cbn [fst].
  destruct (run_job_spec (R := Empty_set) c job env' 0 s1) as (s2 & n2 & -> & _ & H2). cbn [fst].
  destruct H1 as [[H1 _]|(H1 & Hnd & _)].
  - destruct H2 as [[-> _]|(-> & _)]; rewrite ?length_app, H1; simpl; lia.
  - destruct H2 as [[-> _]|(_ & _ & _ & (j & Hj & Hst) & _)]; [rewrite H1, length_app; simpl; lia|].
    apply find_agent_job_Some in Hj as (Hj & _). by destruct (Hnd j Hj).
Qed.

(** C36: The service restart that an installed update needs is never asked for: the
    server refuses the status "restarting", the runner takes that for a failed
    submission and stops, whatever the job reports. *)
Theorem never_restarts c job env s :
  sy_restarts (run_store (runJob c job : prog Sys Empty_set unit) env s) = sy_restarts s.
Proof. unfold run_store. by destruct (run_job_spec (R := Empty_set) c job env 0 s) as (s' & n' & -> & Hr & _). Qed.
