(* ===== verification/EndToEnd.v ===== *)
(** * A job from the user's request to its result

    The parts of the system put together: [Create] (file [JobsApi]), the check-in of
    the device's poller (files [Poller] and [Checkin]), the runner with the handler
    of the job's type (file [Executor]), and the server's [Acknowledge] and
    [SubmitResult]. *)

From stdpp Require Import relations.
From S2P Require Import Prelude Prog Models JobState Database Scope Quota JobSteps JobsApi Requests AgentJobs Checkin Scheduler JobSystem JobSpecs Cdm Inventory Host Poller Update Packages Transfer Executor.

(** ** The server's side of the report *)

(** The ids an environment gives to results are new. *)
Definition fresh_results (env : nat -> Env) (db : DB) : Prop :=
  forall n, job_results db !! String.append "jrs" (String.append "_" (e_id (env n))) = None.

(** A result the tables have room for. *)
Definition storable (res : JobResultSubmission) : Prop := int4_opt_ok (sub_exit_code res) = true.

Lemma accepts_result st : target_status st <> None -> exists st', target_status st = Some st' /\ ValidateTransition JobStatusRunning st' = None.
Proof.
  destruct (target_status st) as [st'|] eqn:E; [|done]. intros _. exists st'. split; [done|].
  destruct (target_status_ok _ _ E) as [->|[->| ->]]; by vm_compute.
Qed.

Lemma insert_result_new rid r db :
  job_results db !! rid = None -> is_Some (jobs db !! jr_job r) -> int4_opt_ok (jr_exit_code r) = true ->
  stmt_opt (insert_result rid r) db = Some (set_job_results (<[rid := r]> (job_results db)) db, tt).
Proof.
  intros Hn Hj Hi. unfold stmt_opt, insert_result, insert_new. by rewrite (proj2 (fk_spec _ _) Hj), Hi, Hn.
Qed.

(** A report on an acknowledged job of the agent is accepted when nothing fails. *)
Lemma submit_accepted decode audit env ctx id req j db :
  (forall n, ok_env (env n)) -> fresh_results env db -> storable req -> target_status (sub_status req) <> None ->
  find_agent_job id (ctx_agent ctx) (ctx_tenant ctx) db = Some j -> job_status j = JobStatusAcknowledged ->
  run_result (SubmitResult decode audit ctx id (Some req)) env db = inl NoContent.
Proof.
  intros Hok Hfresh Hint Hst Hj Hack. destruct (accepts_result _ Hst) as (st & Htgt & Hv).
  pose proof Hj as (Hjid & Hd & Ht)%find_agent_job_Some.
  unfold run_result, SubmitResult. unfold Handler. rewrite run_bind. cbn [run time_now fst snd]. rewrite Htgt, run_bind. cbn [run query_row fst snd].
  destruct (Hok 1) as [-> _]. rewrite Hj. cbn [fst snd]. rewrite Hack. change (JobStatusAcknowledged =s JobStatusAcknowledged) with true.
  cbv iota. rewrite Hv, run_bind. cbn [run new_id fst snd]. rewrite run_bind. cbn [run exec fst snd].
  destruct (Hok 3) as [-> _]. rewrite insert_result_new by first [apply Hfresh|by eexists|done]. cbn [fst snd].
  rewrite run_bind. cbn [run exec fst snd]. destruct (Hok 4) as [-> _]. cbn [stmt fst snd].
  set (db1 := update_jobs _ _ _). rewrite <-Hd, <-Ht.
  eapply (rg_run any_env any_step _ (fun r _ => r = inl NoContent)); [done|].
  eapply submit_tail_rg; [|apply apply_change_identity|done].
  unfold db1. erewrite update_by_id by exact Hjid. apply lookup_insert_eq.
Qed.

(** ** The runner when nothing fails *)

Section Runner.
Context {R : Type} (c : ExecutorConfig) (env : nat -> Env).
Hypothesis Hok : forall n, ok_env (env n).

Lemma ok_shift k : forall n, ok_env (env (k + n)).
Proof. intros n. apply Hok. Qed.

(** A request that is not lost. *)
Lemma run_request_ok (h : Handler unit) n s :
  exists n', run (do_request sy_db set_db h : prog Sys R _) env n s
    = (set_db (run_store h (fun k => env (S n + k)) (sy_db s)) s, n', inr (Some (answer (run_result h (fun k => env (S n + k)) (sy_db s))))).
Proof.
  unfold do_request. rewrite run_bind. cbn [run delivered fst snd]. destruct (Hok n) as [-> _]. cbn [negb].
  rewrite run_bind, run_remote by (by intros []). rewrite run_bind. cbn [run delivered fst snd mret prog_ret].
  destruct (Hok (run h env (S n) (sy_db s)).1.2) as [-> _]. cbn [negb].
  destruct (run_shift h env (S n) (sy_db s)) as [-> ->]. by eexists.
Qed.

(** The acknowledgement touches no result. *)
Definition same_results : relation DB := fun a b => job_results b = job_results a.
#[local] Instance same_results_preorder : PreOrder same_results.
Proof. split; [done|]. unfold same_results. intros ? ? ? ? ?. congruence. Qed.

Lemma Acknowledge_results audit ctx id : guar same_results (Acknowledge audit ctx id).
Proof.
  unfold Acknowledge. guar_all; [by intros ->%stmt_Some|]. by apply LogAction_any_guar; [apply _|].
Qed.

Lemma acknowledge_ok id j n s :
  find_agent_job id (ctx_agent (ex_ctx c)) (ctx_tenant (ex_ctx c)) (sy_db s) = Some j -> job_status j = JobStatusDispatched ->
  exists db' n' now, run (acknowledge c id : prog Sys R bool) env n s = (set_db db' s, n', inr true) /\
    jobs db' = <[id := apply_change (CAck now) j]> (jobs (sy_db s)) /\ job_results db' = job_results (sy_db s).
Proof.
  intros Hj Hst. unfold acknowledge. rewrite run_bind.
  destruct (run_request_ok (Acknowledge (ex_audit c) (ex_ctx c) id) n s) as (n' & ->).
  set (env' := fun k => env (S n + k)).
  destruct (acknowledge_run (ex_audit c) env' (ex_ctx c) id (sy_db s)) as [Ha Hgo].
  specialize (Hgo (ok_shift (S n)) j Hj Hst).
  destruct Ha as [(_ & j' & now & Hj' & _ & Hjobs)|(resp & Hr & Hge & _)]; [|rewrite Hgo in Hr; by injection Hr as <-].
  rewrite Hj in Hj'. injection Hj' as <-. rewrite Hgo. cbn [run mret prog_ret]. eexists _, _, now. split; [done|]. split; [done|].
  apply (guar_run_preorder same_results _ env' 0), Acknowledge_results.
Qed.

Lemma submit_ok id res j n s :
  storable res -> target_status (sub_status res) <> None -> fresh_results env (sy_db s) ->
  find_agent_job id (ctx_agent (ex_ctx c)) (ctx_tenant (ex_ctx c)) (sy_db s) = Some j -> job_status j = JobStatusAcknowledged ->
  exists db' n', run (submitResult c id res : prog Sys R bool) env n s = (set_db db' s, n', inr true) /\
    submitted (ex_ctx c) id (Some res) (sy_db s) (inl NoContent) db'.
Proof.
  intros Hint Hst Hfresh Hj Hack. unfold submitResult. rewrite run_bind.
  destruct (run_request_ok (SubmitResult (ex_decode c) (ex_audit c) (ex_ctx c) id (Some res)) n s) as (n' & ->).
  set (env' := fun k => env (S n + k)).
  pose proof (submit_run (ex_decode c) (ex_audit c) env' (ex_ctx c) id (Some res) (sy_db s)) as Hs.
  assert (run_result (SubmitResult (ex_decode c) (ex_audit c) (ex_ctx c) id (Some res)) env' (sy_db s) = inl NoContent) as Hr.
  { apply (submit_accepted _ _ env' _ _ _ j); [apply ok_shift|intros k; apply Hfresh|done..]. }
  rewrite Hr in *. cbn [run mret prog_ret]. eexists _, _. by split.
Qed.
End Runner.

(** What is left of a job that was reported on. *)
Definition reported_on (id : string) (res : JobResultSubmission) (db : DB) : Prop :=
  exists j st rid, target_status (sub_status res) = Some st /\ jobs db !! id = Some j /\ job_status j = st /\
    job_results db !! rid = Some (result_of id res).

Lemma submitted_reported ctx id res db db' : submitted ctx id (Some res) db (inl NoContent) db' -> reported_on id res db'.
Proof.
  intros [(_ & req & st & j & now & [= <-] & Hst & _ & _ & (rid & Hrid) & Hj)|(resp & [= <-] & Hge & _)]; [|done].
  cbv zeta in Hj. assert (jobs db' !! id = Some (apply_change (CFinish st now (sub_message res) (sub_started_at res)) j)) as Hid.
  { destruct Hj as [->|(_ & nid & t & Hn & ->)]; [apply lookup_insert_eq|].
    rewrite lookup_insert_ne; [apply lookup_insert_eq|]. intros ->. by rewrite lookup_insert_eq in Hn. }
  eexists _, st, rid. split_and!; [done|exact Hid|done|by rewrite Hrid, lookup_insert_eq].
Qed.

(** The runner, when nothing fails and the CDM manager lets the job pass: the work is
    done once, and the job is finished with what its handler reported. *)
Lemma runner_finishes {R : Type} c job env j s :
  (forall n, ok_env (env n)) -> fresh_results env (sy_db s) ->
  (forall env' a, let res := ended (run_result (execute c job) env' a) in storable res /\ target_status (sub_status res) <> None) ->
  (cdm_step (sy_cdm s) (io_of (env 0%nat), OCanExecute)).2 = ABool true ->
  find_agent_job (jd_job_id job) (ctx_agent (ex_ctx c)) (ctx_tenant (ex_ctx c)) (sy_db s) = Some j ->
  job_status j = JobStatusDispatched ->
  exists s' n' env' started completed, run (runJob c job : prog Sys R unit) env 0 s = (s', n', inr tt) /\
    sy_executed s' = sy_executed s ++ [jd_job_id job] /\ sy_agent s' = run_store (execute c job) env' (sy_agent s) /\
    reported_on (jd_job_id job) (with_times started completed (ended (run_result (execute c job) env' (sy_agent s)))) (sy_db s').
Proof.
  intros Hok Hfresh Hres Hgate Hj Hst. unfold runJob. rewrite run_bind. cbn [run cdm_call fst snd].
  destruct (cdm_step (sy_cdm s) (io_of (env 0%nat), OCanExecute)) as [w g]. cbn [fst snd] in Hgate |- *. subst g.
  rewrite run_bind. destruct (acknowledge_ok (R := R) c env Hok (jd_job_id job) j 1 (set_cdm w s) Hj Hst) as (db1 & n1 & now & -> & Hjobs & Hresults).
  cbn [negb]. unfold run_acknowledged. rewrite run_bind.
  destruct (run_log_execution (R := R) job env n1 (set_db db1 (set_cdm w s))) as (w' & n2 & ->).
  rewrite run_bind. cbn [run time_now fst snd]. rewrite run_bind. cbn [run fst snd].
  rewrite run_bind. edestruct (run_execute (R := R)) as (env' & n3 & ->). rewrite run_bind. cbn [run time_now fst snd]. cbv zeta. rewrite run_bind.
  set (res := with_times _ _ _). set (s1 := set_agent _ _).
  destruct (Hres env' (sy_agent s)) as [Hint Htgt].
  destruct (submit_ok (R := R) c env Hok (jd_job_id job) res (apply_change (CAck now) j) (S n3) s1) as (db2 & n4 & -> & Hsub);
    [done|done| | |done|].
  { intros k. cbn. by rewrite Hresults. }
  { apply find_agent_job_Some in Hj as (Hj & Hd & Ht). unfold find_agent_job. cbn. rewrite Hjobs, lookup_insert_eq. cbn.
    by rewrite Hd, Ht, !seqb_refl. }
  cbn [negb]. assert (sub_status res =s "restarting" = false) as ->.
  { apply seqb_neq. intros E. apply Htgt. change (target_status (sub_status res) = None). by rewrite E. }
  cbn [andb run mret prog_ret]. eexists _, _, env', _, _. split_and!; [done..|]. by eapply submitted_reported.
Qed.

(** ** What the handlers report *)

Definition final_status (res : JobResultSubmission) : Prop := target_status (sub_status res) <> None.

Lemma final_failed msg : final_status (failed msg).
Proof. done. Qed.

Lemma final_result_of_package r action name : final_status (package_job_result r action name).
Proof. unfold final_status. simpl. by destruct (pkr_success r). Qed.

Lemma final_exec out deadline : final_status (exec_result out deadline).
Proof. unfold final_status, exec_result. destruct (co_error out) as [[code msg]|]; [|done]. by destruct deadline. Qed.

Section Handlers.
Context (c : ExecutorConfig).

Lemma exec_final payload a env : final_status (ended (run_result (executeExec (ex_lib c) payload) env a)).
Proof.
  unfold run_result, executeExec. destruct (unmarshal payload) as [p|]; [|done]. destruct (_ =s ""); [done|].
  cbv zeta. rewrite run_bind. unfold on_host. rewrite run_zoom by (by intros []). cbn [run fst snd]. apply final_exec.
Qed.

Lemma inventory_final inventory a env : final_status (ended (run_result (executeInventoryFull (ex_lib c) inventory) env a)).
Proof. unfold run_result, executeInventoryFull. by destruct inventory. Qed.

Lemma transfer_final payload a env : final_status (ended (run_result (executeFileTransfer (ex_lib c) (ex_dropDir c) payload) env a)).
Proof.
  unfold executeFileTransfer. destruct (unmarshal payload) as [p|]; [|done]. destruct (_ =s ""); [done|]. destruct (_ =s ""); [done|].
  by_rg any_env (fun _ _ : Agent => True); [done|]. rg_step. unfold on_files. apply rg_zoom; [by intros []|done|done|].
  apply transfer_file_rg; [done|]. intros info d fs _ _ _ _ _. cbv beta iota zeta.
  destruct (ftp_on_complete p) as [command|]; [|done]. destruct (command =s ""); [done|].
  rg_step. unfold on_host, runOnComplete. apply rg_zoom; [by intros []|done|done|]. intros h e _ <-. split; [done|]. cbn [fst snd rg].
  by destruct (jl_hook _ _ _ _ _) as [h' [out ok]]; destruct ok.
Qed.

Lemma package_final job action payload call a env :
  (forall p n h, exists h' n' r, run (call (resolvePackageManager (ex_packages c) (pp_manager p)) p) env n h = (h', n', inr r)) ->
  final_status (ended (run_result (package_job (ex_packages c) job action payload call) env a)).
Proof.
  intros Hcall. unfold run_result, package_job. destruct (unmarshal payload) as [p|]; [|done]. destruct (_ =s ""); [done|].
  rewrite run_bind. unfold on_host. rewrite run_zoom by (by intros []). destruct (Hcall p 0 (ag_host a)) as (h' & n' & r & ->).
  cbn [fst snd]. unfold packageResultToJob. rewrite run_bind.
  destruct (_ && _); cbn [run refresh_inventory mret prog_ret fst snd]; apply final_result_of_package.
Qed.
End Handlers.

(** Whatever fails, the handlers of all jobs but updates and rollbacks of the agent
    itself end, and report a status that the server accepts. *)
Lemma handlers_report_final c job env a :
  pc_injected (ex_packages c) = None -> jd_type job <> "agent_update" -> jd_type job <> "agent_rollback" ->
  final_status (ended (run_result (execute c job) env a)).
Proof.
  intros Hi Hu Hr. unfold execute. apply seqb_neq in Hu, Hr. rewrite Hu, Hr.
  destruct (_ =s "exec"); [apply exec_final|]. destruct (_ =s "inventory_full"); [apply inventory_final|].
  destruct (_ =s "file_transfer"); [apply transfer_final|].
  destruct (_ =s "package_install"); [apply package_final; intros; by apply resolved_ends|].
  destruct (_ =s "package_remove"); [apply package_final; intros; by apply resolved_ends|].
  destruct (_ =s "package_update"); [apply package_final; intros; by apply resolved_ends|]. done.
Qed.

(** ** The answer to a check-in *)

(** What the poller makes of a check-in that the server answers. *)
Lemma run_answered {R : Type} ctx now provider pkgs p coll p' coll' req env db t ds :
  build_request now provider pkgs p coll = (p', coll', req) ->
  run_result (Checkin ctx (Some req)) env db = inl (JSON 200 (BCheckin t ds)) ->
  exists n, run (checkin ctx Answered now provider pkgs p coll : prog DB R _) env 0 db
    = (run_store (Checkin ctx (Some req)) env db, n, inr (p', coll', ds)).
Proof.
  intros Hb Hr. unfold checkin. rewrite Hb, run_bind, run_respond. unfold run_result, run_store in *.
  destruct (run (Checkin _ _) env 0 db) as [[s n] r]. cbn [snd fst] in Hr |- *. subst r. by eexists.
Qed.

Lemma build_request_status now provider pkgs p coll :
  exists p' coll' req, build_request now provider pkgs p coll = (p', coll', req) /\
    as_cdm_enabled (cr_status req) = pl_cdm_enabled p /\ as_cdm_session_active (cr_status req) = pl_cdm_session_active p /\
    as_last_update_failed (cr_status req) = false.
Proof. unfold build_request. destruct (if provider then _ else _) as [coll' delta]. by eexists _, _, _. Qed.

(** A check-in changes no job's identity. *)
Lemma checkin_grows ctx body env db : jobs_grow db (run_store (Checkin ctx body) env db).
Proof.
  unfold run_store. pose proof (guar_run any_step _ env 0 db (Checkin_guar ctx body)) as Hs.
  induction Hs as [|a b c Hab _ IH]; [reflexivity|]. etrans; [by apply any_step_grow|done].
Qed.

(** A queued job of a device whose poller gets an answer is handed out with its type
    and payload, unless ten jobs at least as old go first. *)
Lemma handed_out {R : Type} ctx env now provider pkgs p coll db id j :
  (forall n, ok_env (env n)) -> ctx_agent ctx <> "" -> ctx_tenant ctx <> "" ->
  pl_cdm_enabled p && negb (pl_cdm_session_active p) = false ->
  jobs db !! id = Some j -> job_device j = ctx_agent ctx -> job_tenant j = ctx_tenant ctx -> job_status j = JobStatusQueued ->
  exists db' n p' coll' ds, run (checkin ctx Answered now provider pkgs p coll : prog DB R _) env 0 db = (db', n, inr (p', coll', ds)) /\
    (length ds = 10 /\ (forall d, d ∈ ds -> (jd_created_at d <= job_created_at j)%Z) \/
     exists jd j', jd ∈ ds /\ jd_job_id jd = id /\ jd_type jd = job_type j /\ jd_payload jd = job_payload j /\
       find_agent_job id (ctx_agent ctx) (ctx_tenant ctx) db' = Some j' /\ job_status j' = JobStatusDispatched).
Proof.
  intros Hok Ha Ht Hcdm Hj Hd Hten Hst.
  destruct (build_request_status now provider pkgs p coll) as (p' & coll' & req & Hb & He & Hs & Hu).
  destruct (fifo_run env ctx req db id j) as (t & ds & Hr & Hout); try done; [by rewrite He, Hs|].
  destruct (run_answered (R := R) ctx now provider pkgs p coll p' coll' req env db t ds Hb Hr) as (n & ->).
  eexists _, _, _, _, ds. split; [done|]. destruct Hout as [Hin|Hten']; [right|by left].
  apply list_elem_of_fmap in Hin as (jd & -> & Hin). destruct (dispatch_run _ _ _ _ _ _ Hr) as (_ & _ & Hds & _).
  destruct (Hds jd Hin) as (j' & Hj' & Hd' & Ht' & Hst' & _ & Hty & Hpl).
  destruct (checkin_grows ctx (Some req) env db _ j Hj) as (j2 & Hj2 & Hid). rewrite Hj' in Hj2. injection Hj2 as <-.
  unfold same_identity in Hid. destruct_and!. exists jd, j'. split_and!; try congruence; try done.
  unfold find_agent_job. rewrite Hj'. simpl. by rewrite Hd', Ht', !seqb_refl.
Qed.

(** A job that [Create] answered with, as it is stored. *)
Lemma created_stored audit quota env ctx req db ids k id :
  run_result (Create audit quota ctx (Some req)) env db = inl (JSON 201 (BJobsCreated ids k)) -> id ∈ ids ->
  exists d now, targeted db (ctx_tenant ctx) (cq_target req) d /\ device_allowed ctx db d /\
    jobs (run_store (Create audit quota ctx (Some req)) env db) !! id = Some (created_for ctx req now d).
Proof.
  intros Hr Hid. destruct (create_run audit quota env ctx (Some req) db) as [(req' & ds & ids' & now & Hreq & _ & _ & _ & _ & Hds & _ & Hm)|(resp & Hr' & Hge & _)].
  - injection Hreq as <-. destruct Hm as [[Hr' (_ & Hf & _)]|[Hr' _]]; rewrite Hr in Hr'; [|done]. injection Hr' as <- _.
    apply list_elem_of_lookup in Hid as [i Hi]. destruct (Forall2_lookup_l _ _ _ _ _ Hf Hi) as (d & Hd & _ & Hj).
    apply list_elem_of_lookup_2 in Hd. apply Hds in Hd as [Htg Hal]. by exists d, now.
  - rewrite Hr in Hr'. by injection Hr' as <-.
Qed.

(** ** Properties *)

(** C3: A job from the user's request to its result.  A [Create] that is answered
    201 has queued, for each id of the answer, a job of the requested type and
    payload on a device that was targeted and allowed.  As long as that job is
    untouched, a check-in of the device's agent in which no access fails, and which
    does not report the CDM mode without a session, either hands out ten jobs at
    least as old or hands out this one, with the requested type and payload.  The
    runner that takes it then executes it exactly once and leaves it on the server
    finished with what its handler reported, the result stored, on these
    conditions: the type is neither [agent_update] nor [agent_rollback], the CDM
    manager lets the job pass, no request is lost and no access fails, what the job
    starts returns, its exit code fits the column, the ids drawn for results are
    fresh, and the agent runs with the package manager of its system. *)
Theorem job_end_to_end audit quota env1 uctx req db ids k id :
  run_result (Create audit quota uctx (Some req)) env1 db = inl (JSON 201 (BJobsCreated ids k)) -> id ∈ ids ->
  exists j, jobs (run_store (Create audit quota uctx (Some req)) env1 db) !! id = Some j /\
    targeted db (ctx_tenant uctx) (cq_target req) (job_device j) /\ device_allowed uctx db (job_device j) /\
    forall c env2 now provider pkgs p coll db1,
      jobs db1 !! id = Some j -> ctx_agent (ex_ctx c) = job_device j -> ctx_tenant (ex_ctx c) = ctx_tenant uctx ->
      ctx_agent (ex_ctx c) <> "" -> ctx_tenant (ex_ctx c) <> "" -> (forall n, ok_env (env2 n)) ->
      pl_cdm_enabled p && negb (pl_cdm_session_active p) = false ->
      exists db2 n p' coll' ds,
        run (checkin (ex_ctx c) Answered now provider pkgs p coll : prog DB Empty_set _) env2 0 db1 = (db2, n, inr (p', coll', ds)) /\
        (length ds = 10 /\ (forall d, d ∈ ds -> (jd_created_at d <= job_created_at j)%Z) \/
         exists jd, jd ∈ ds /\ jd_job_id jd = id /\ jd_type jd = cq_type req /\ jd_payload jd = cq_payload req /\
           forall env3 s, jobs (sy_db s) !! id = jobs db2 !! id -> (forall n, ok_env (env3 n)) -> fresh_results env3 (sy_db s) ->
             (cdm_step (sy_cdm s) (io_of (env3 0%nat), OCanExecute)).2 = ABool true ->
             pc_injected (ex_packages c) = None -> cq_type req <> "agent_update" -> cq_type req <> "agent_rollback" ->
             (forall env' a, storable (ended (run_result (execute c jd) env' a))) ->
             exists s' n' env' started completed, run (runJob c jd : prog Sys Empty_set unit) env3 0 s = (s', n', inr tt) /\
               sy_executed s' = sy_executed s ++ [id] /\ sy_agent s' = run_store (execute c jd) env' (sy_agent s) /\
               reported_on id (with_times started completed (ended (run_result (execute c jd) env' (sy_agent s)))) (sy_db s')).
Proof.
  intros Hc Hid. destruct (created_stored _ _ _ _ _ _ _ _ _ Hc Hid) as (d & t & Htg & Hal & Hj).
  eexists. split; [exact Hj|]. split; [done|]. split; [done|]. intros c env2 now provider pkgs p coll db1 Hj1 Ha Ht Hna Hnt Hok Hcdm.
  destruct (handed_out (R := Empty_set) (ex_ctx c) env2 now provider pkgs p coll db1 id _ Hok Hna Hnt Hcdm Hj1)
    as (db2 & n & p' & coll' & ds & Hrun & Hout); [done..|].
  exists db2, n, p', coll', ds. split; [done|].
  destruct Hout as [Hten|(jd & j' & Hin & Hjd & Hty & Hpl & Hfind & Hst)]; [by left|right].
  exists jd. split_and!; [done..|]. intros env3 s Hs Hok3 Hfresh Hgate Hinj Hu Hr Hstore. rewrite <- Hjd.
  eapply (runner_finishes (R := Empty_set) c jd env3 j' s Hok3 Hfresh); [|done| |done].
  - intros env' a. split; [done|]. apply handlers_report_final; [done|by rewrite Hty..].
  - unfold find_agent_job in *. by rewrite Hjd, Hs.
Qed.
