(* ===== verification/FleetSpecs.v ===== *)
(** * Theorems on the fleet

    Isolation of tenants, revocation of devices and what survives it, the
    listing of devices under a scope, and the membership statements that do not
    look at tenants. *)

From stdpp Require Import relations.
From S2P Require Import Prelude Prog Models JobState Database Scope Quota JobSteps JobsApi AgentJobs Checkin Scheduler Enrollment AgentAuth Tenancy Fleet JobSystem.

(** ** What a kind of container promises *)

Class KindLaws (k : Kind) := {
  kl_table : forall x db, k_table k (k_set_table k x db) = x;
  kl_rel : forall x db, k_rel k (k_set_rel k x db) = x;
  kl_frame : forall P x db, kept P (k_table k db) x -> tenant_frame P db (k_set_table k x db);
  kl_rel_frame : forall P x db, tenant_frame P db (k_set_rel k x db);
  kl_certs : forall x db, agent_certificates (k_set_table k x db) = agent_certificates db;
  kl_rel_certs : forall x db, agent_certificates (k_set_rel k x db) = agent_certificates db;
}.

#[export] Instance kind_laws n : KindLaws (kind n).
Proof. destruct n; (split; [done|done|intros P x db Hk; by frame_table|intros P x db; by frame_table|done|done]). Qed.

(** ** Isolation *)

Section Frame.
Context (P : string -> Prop).

Lemma audited_frame audit ctx ac rt ri m :
  P (ctx_tenant ctx) -> guar (tenant_frame P) (audited audit ctx ac rt ri m).
Proof. intros HP. unfold audited. guar_all. Qed.

Lemma affected_frame {R : Type} f :
  (forall a b n, f a = Some (b, n) -> tenant_frame P a b) -> guar (tenant_frame P) (affected_rows f : prog DB R bool).
Proof. intros Hf. unfold affected_rows. guar_all. apply Hf. Qed.

Lemma job_in_scope_frame ctx d : guar (tenant_frame P) (job_in_scope ctx d).
Proof. unfold job_in_scope. guar_all. Qed.

Lemma in_device_scope_frame ctx d deny k :
  guar (tenant_frame P) k -> guar (tenant_frame P) (in_device_scope ctx d deny k).
Proof. intros Hk. unfold in_device_scope. guar_step; [apply job_in_scope_frame|]. guar_all. Qed.

(** *** Revocation *)

Lemma revoked_db_frame T d reason now s dv :
  P T -> devices s !! d = Some dv -> dev_tenant dv = T -> tenant_frame P s (revoked_db T d reason now s).
Proof.
  intros HT Hd Ht. frame_table.
  - apply kept_update. intros k v _ [Ho _]%own_row_owner. by rewrite Ho.
  - apply kept_update. intros k j _ Hj. unfold cancellable in Hj. reflect_bools.
    split; [|done]. by replace (owner j) with T.
  - intros k. simpl. rewrite lookup_update_where. destruct (agent_certificates s !! k) as [c|]; [|by left]. simpl.
    destruct (active_cert_of d k c) eqn:E; [|by left]. right. unfold active_cert_of in E. reflect_bools.
    assert (mine P s d) by (intros dv' ?; simplify_eq; done).
    split; intros ? [= <-]; simpl; by subst.
Qed.

Lemma RevokeDevice_frame {R : Type} T d reason : P T -> guar (tenant_frame P) (RevokeDevice T d reason : prog DB R bool).
Proof.
  intros HT. unfold RevokeDevice. guar_all. apply guar_transact; [apply _|].
  intros fault s s' (-> & dv & Hd & Ht)%revoke_tx. by eapply revoked_db_frame.
Qed.

(** *** Containers *)
Section Kinds.
Context (k : Kind) `{!KindLaws k}.

Lemma insert_container_frame id c a b :
  P (ct_tenant c) -> insert_container k id c a = Some b -> tenant_frame P a b.
Proof.
  intros HP. unfold insert_container. case_match; [|done]. intros (t & Ht & [= <-])%bind_Some.
  apply kl_frame. by eapply kept_insert.
Qed.

Lemma update_container_frame {R : Type} T id name loc :
  P T -> guar (tenant_frame P) (update_container k T id name loc : prog DB R bool).
Proof.
  intros HT. apply affected_frame. intros a b n [= <- _]. apply kl_frame, kept_update.
  intros i v _ [Ho _]%own_row_owner. by rewrite Ho.
Qed.

Lemma delete_container_frame {R : Type} T id : P T -> guar (tenant_frame P) (delete_container k T id : prog DB R bool).
Proof.
  intros HT. apply affected_frame. intros a b n. unfold delete_container_row.
  case_match; [intros [= <- _]; reflexivity|]. case_match; [done|]. intros [= <- _].
  etrans; [apply kl_frame|apply kl_rel_frame]. apply kept_delete. intros i v _ [Ho _]%own_row_owner. by rewrite Ho.
Qed.

Lemma add_members_frame {R : Type} ps : guar (tenant_frame P) (add_members k ps : prog DB R bool).
Proof.
  unfold add_members. guar_all. intros Hx%stmt_opt_Some. unfold insert_member in Hx. case_match; [|done].
  injection Hx as <-. apply kl_rel_frame.
Qed.

Lemma remove_member_frame {R : Type} d id : guar (tenant_frame P) (remove_member k d id : prog DB R bool).
Proof. unfold remove_member. guar_all. intros ->%stmt_Some. apply kl_rel_frame. Qed.
End Kinds.

#[local] Hint Resolve audited_frame RevokeDevice_frame update_container_frame delete_container_frame
  add_members_frame remove_member_frame job_in_scope_frame : moebius.

Lemma GetDevice_frame {R : Type} T d : guar (tenant_frame P) (GetDevice T d : prog DB R _).
Proof. unfold GetDevice. guar_all. Qed.
#[local] Hint Resolve GetDevice_frame : moebius.

Lemma UpdateDevice_frame {R : Type} T d h : P T -> guar (tenant_frame P) (UpdateDevice T d h : prog DB R bool).
Proof.
  intros HT. apply affected_frame. intros a b n [= <- _]. frame_table. apply kept_update.
  intros i v _ [Ho _]%own_row_owner. by rewrite Ho.
Qed.

Lemma UpdateTenant_frame {R : Type} T name c : P T -> guar (tenant_frame P) (UpdateTenant T name c : prog DB R bool).
Proof.
  intros HT. apply affected_frame. intros a b n [= <- _]. frame_table. intros i. simpl. rewrite lookup_update_where.
  destruct (tenants a !! i); [|by left]. simpl. destruct (i =s T) eqn:E; [|by left]. reflect_bools. subst. by right.
Qed.
#[local] Hint Resolve UpdateDevice_frame UpdateTenant_frame : moebius.

Lemma get_container_frame {R : Type} k T id : guar (tenant_frame P) (get_container k T id : prog DB R _).
Proof. unfold get_container. guar_all. Qed.
#[local] Hint Resolve get_container_frame : moebius.

Lemma rollback_frame m ctx d b : P (ctx_tenant ctx) -> guar (tenant_frame P) (RollbackDevice m ctx d b).
Proof.
  intros HT. unfold RollbackDevice. guar_all. intros Hx%stmt_opt_Some. apply insert_job_Some in Hx as [Hn ->].
  frame_table. apply kept_put; [intros ??; congruence|done].
Qed.
#[local] Hint Resolve rollback_frame : moebius.

Lemma fleet_frame w ctx q : P (ctx_tenant ctx) -> guar (tenant_frame P) (fleet_serve w ctx q).
Proof.
  intros HT. destruct q; unfold fleet_serve, Revoke, ListDevicesHandler, ListDevices, GetDeviceHandler, UpdateDeviceHandler,
    list_handler, get_handler, create_handler, update_handler, delete_handler, list_devices_handler,
    add_devices_handler, remove_device_handler, AddToDevice, RemoveFromDevice, GetTenantHandler, UpdateTenantHandler,
    GetTenant, GetDeviceInventory, in_field_scope, AddTagsToDevice, RemoveTagFromDevice;
  repeat first [apply in_device_scope_frame | apply (add_members_frame (kind Tags)) |
                apply (remove_member_frame (kind Tags)) | guar_step].
  intros Hx%stmt_opt_Some. refine (insert_container_frame (kind n) _ _ _ _ _ Hx). exact HT.
Qed.
End Frame.

(** ** Revocation *)

Lemma job_in_scope_any (E : Env -> Prop) (G : relation DB) `{!Reflexive G} ctx d db (Q : Response + bool -> DB -> Prop) :
  (forall b, Q (inr b) db) -> rg E (=) G (job_in_scope ctx d) Q db.
Proof.
  intros HQ. unfold job_in_scope. case_match; [apply HQ|].
  apply (rg_weaken_G E (=) (=) G); [by intros ?? ->|]. rg_step.
  apply ResolveScope_rg; intros; apply HQ.
Qed.

(** The audit entry at the end of a handler, and the response after it. *)
Lemma audited_rg (E : Env -> Prop) audit ctx ac rt ri m db (Q : Response + unit -> DB -> Prop) :
  (forall l, Q (inr tt) (set_audit_log l db)) -> rg E (=) (fun _ _ => True) (audited audit ctx ac rt ri m) Q db.
Proof.
  intros HQ. unfold audited. destruct audit; [by apply LogAction_any_rg|].
  rg_step. specialize (HQ (audit_log db)). by destruct db.
Qed.

Lemma audited_then (E : Env -> Prop) audit ctx ac rt ri m r db (Q : Response + unit -> DB -> Prop) :
  (forall l, Q (inl r) (set_audit_log l db)) ->
  rg E (=) (fun _ _ => True) (_ ← audited audit ctx ac rt ri m; stop r) Q db.
Proof. intros HQ. rg_step. apply audited_rg. intros l. rg_step. apply HQ. Qed.

(** The handler, alone, whatever fails. *)
Lemma Revoke_rg (E : Env -> Prop) audit ctx d body db (Q : Response + unit -> DB -> Prop) :
  (forall r, (400 <= resp_status r)%Z -> Q (inl r) db) ->
  (forall reason now l dv, devices db !! d = Some dv -> dev_tenant dv = ctx_tenant ctx ->
     Q (inl NoContent) (set_audit_log l (revoked_db (ctx_tenant ctx) d reason now db))) ->
  rg E (=) (fun _ _ => True) (Revoke audit ctx d body) Q db.
Proof.
  intros Herr Hok. unfold Revoke, in_device_scope. rg_step. apply job_in_scope_any; [done|].
  intros [|]; cbv beta iota delta [negb]; [|apply rg_stop, Herr; simpl; lia].
  assert (forall reason, rg E (=) (fun _ _ => True)
    (ok ← RevokeDevice (ctx_tenant ctx) d reason;
     if negb ok then stop revoke_not_found
     else _ ← audited audit ctx "device.revoke" "device" d [("reason", reason)]; stop NoContent) Q db) as Hgo.
  { intros reason. unfold RevokeDevice. do 3 rg_step; [intros _; apply rg_mret, rg_stop, Herr; simpl; lia|].
    do 3 rg_step. apply rg_transact. intros s e _ <-.
    destruct (tx_run _ _ _ _) eqn:Htx; (split; [done|]); apply rg_mret; cbv beta iota delta [negb].
    - apply revoke_tx in Htx as (-> & dv & Hd & Ht). apply audited_then. intros l. by eapply Hok.
    - apply rg_stop, Herr. simpl. lia. }
  destruct body as [[reason|]|]; [apply Hgo|apply rg_stop, Herr; simpl; lia|apply Hgo].
Qed.

(** ** Who touches certificates *)

(** The certificates are untouched and no device goes away. *)
Definition same_certs : relation DB := fun a b =>
  agent_certificates b = agent_certificates a /\ forall id, is_Some (devices a !! id) -> is_Some (devices b !! id).
#[export] Instance same_certs_preorder : PreOrder same_certs.
Proof. split; [done|]. intros a b c [E1 D1] [E2 D2]. split; [congruence|auto]. Qed.

(** Every certificate of the device is revoked. *)
Definition all_revoked (d : string) (db : DB) : Prop :=
  forall id c, agent_certificates db !! id = Some c -> crt_device c = d -> crt_revoked_at c <> None.

(** The device is there, and no certificate of it is accepted. *)
Definition locked (d : string) (db : DB) : Prop := is_Some (devices db !! d) /\ all_revoked d db.

Definition stays_locked (d : string) : relation DB := fun a b => locked d a -> locked d b.
#[export] Instance stays_locked_preorder d : PreOrder (stays_locked d).
Proof. split; [by intros ? ?|]. intros a b c H1 H2 H. auto. Qed.

Lemma same_certs_stays d a b : same_certs a b -> stays_locked d a b.
Proof. intros [E D] [Hd H]. split; [auto|]. intros id c. rewrite E. apply H. Qed.

Lemma revoked_db_revokes T d reason now db : all_revoked d (revoked_db T d reason now db).
Proof.
  intros id c Hc Hd. simpl in Hc. rewrite lookup_update_where in Hc.
  destruct (agent_certificates db !! id) as [c0|]; [|done]. injection Hc as <-.
  destruct (active_cert_of d id c0) eqn:Ea; [done|]. unfold active_cert_of in Ea. rewrite Hd, seqb_refl in Ea.
  by destruct (crt_revoked_at c0).
Qed.

Lemma revoked_db_stays d T d' reason now db : stays_locked d db (revoked_db T d' reason now db).
Proof.
  intros [Hdev H]. split; [simpl; by rewrite lookup_update_where, fmap_is_Some|]. intros id c Hc Hd. simpl in Hc. rewrite lookup_update_where in Hc.
  destruct (agent_certificates db !! id) as [c0|] eqn:E0; simplify_eq/=. case_match; [done|eauto].
Qed.

(** Evaluates a statement down to the table it sets. *)
Ltac one_table :=
  let Hx := fresh "Hx" in intros Hx;
  unfold stmt, stmt_opt, insert_job, insert_audit, insert_result, insert_hardware, insert_package,
    insert_package_nothing, insert_container, delete_container_row, insert_member, mbind, option_bind,
    sql_requeue_missed, sql_hold, sql_release, sql_dispatch, sql_rollback, sql_update_package,
    sql_delete_package, sql_reap_dispatched, sql_reap_inflight, sql_reap_tokens, sql_mark_run, update_jobs in Hx;
  repeat case_match; simplify_eq; try done.

Ltac keep_certs :=
  one_table; (split; [done|]; intros ??; simpl; by rewrite ?lookup_update_where, ?fmap_is_Some).

Lemma LogAction_certs {R : Type} T a at' ac rt ri m : guar same_certs (LogAction T a at' ac rt ri m : prog DB R unit).
Proof. by apply LogAction_any_guar; [apply _|]. Qed.
#[local] Hint Resolve LogAction_certs : moebius.

(** A program that leaves the certificates alone leaves the lock alone. *)
Lemma certs_locked d {A : Type} (p : Handler A) : guar same_certs p -> guar (stays_locked d) p.
Proof. apply guar_weaken. intros a b. apply same_certs_stays. Qed.

Lemma Revoke_locked d audit ctx d' body : guar (stays_locked d) (Revoke audit ctx d' body).
Proof.
  apply Revoke_all_guar; [apply _|intros; by apply same_certs_stays|]. intros. apply revoked_db_stays.
Qed.

(** The job system only ever revokes. *)
Lemma serve_locked d w q : guar (stays_locked d) (serve w q).
Proof.
  destruct q; first [apply Revoke_locked | apply certs_locked]; unfold serve, Create, GetJob, ListJobs, Cancel, Retry, Acknowledge, SubmitResult, Checkin, runTick,
    restrict_to_scope, insert_jobs, quota_guard, processFullInventory, createRetryJob, processPackageDelta,
    report_rollback, dispatch_jobs, fetchDispatchableJobs, evaluateScheduledJobs, dispatchScheduledJob,
    evaluateAlertRules, evaluateAgentOffline, reapStuckDispatchedJobs, reapStuckInflightJobs,
    reapExpiredEnrollmentTokens, sched_resolveTargets, sched_expand, RollbackDevice; guar_all; keep_certs.
Qed.

Lemma audited_certs audit ctx ac rt ri m : guar same_certs (audited audit ctx ac rt ri m).
Proof. unfold audited. guar_all. Qed.
#[local] Hint Resolve audited_certs : moebius.

(** The fleet requests only ever revoke. *)
Lemma fleet_locked d w ctx q : guar (stays_locked d) (fleet_serve w ctx q).
Proof.
  destruct q; [apply Revoke_locked|try destruct n; apply certs_locked..].
  all: unfold fleet_serve, ListDevicesHandler, ListDevices, GetDeviceHandler, UpdateDeviceHandler,
    list_handler, get_handler, create_handler, update_handler, update_container, delete_handler,
    delete_container, list_devices_handler, add_devices_handler, add_members, remove_device_handler, remove_member,
    AddToDevice, AddTagsToDevice, RemoveFromDevice, RemoveTagFromDevice, add_members, remove_member,
    GetTenantHandler, UpdateTenantHandler, UpdateTenant, GetTenant, GetDeviceInventory, RollbackDevice, in_field_scope,
    GetDevice, UpdateDevice, get_container, affected_rows,
    in_device_scope; guar_all; keep_certs.
Qed.

(** What the statements of a transaction all keep. *)
Lemma run_stmts_rel (T : relation DB) `{!PreOrder T} fs : forall a b,
  Forall (fun f : DB -> option DB => forall x y, f x = Some y -> T x y) fs -> run_stmts fs a = Some b -> T a b.
Proof.
  induction fs as [|f fs IH]; intros a b; simpl; [by intros _ [= ->]|].
  intros [Hf Hfs]%Forall_cons (s & Hs & Hr)%bind_Some. etrans; eauto.
Qed.

(** Enrollment adds a certificate of a device that was not there. *)
Lemma insert_device_certs id dv a b : insert_device id dv a = Some b ->
  same_certs a b /\ devices a !! id = None.
Proof.
  unfold insert_device. case_match; [|done]. intros (t & Ht & [= <-])%bind_Some.
  apply insert_new_Some in Ht as [Hn ->]. split; [|done]. split; [done|]. intros k Hk. simpl.
  destruct (decide (k = id)) as [->|Hne]; [by rewrite lookup_insert_eq|by rewrite lookup_insert_ne].
Qed.

Lemma scope_stmts_certs d' T sc : Forall (fun f => forall a b, f a = Some b -> same_certs a b) (scope_stmts d' T sc).
Proof.
  destruct sc as [sc|]; [|constructor]. unfold scope_stmts, applyScope.
  rewrite !Forall_app; split_and!; apply Forall_forall; intros f (i & -> & _)%list_elem_of_fmap a b;
    unfold add_member; case_match; intros [= <-]; done.
Qed.

Lemma insert_cert_locked d id c a b : crt_device c <> d -> insert_cert id c a = Some b -> stays_locked d a b.
Proof.
  intros Hne (Hn & _ & ->)%insert_cert_Some [Hd H]. split; [done|]. intros k c' Hk. simpl in Hk.
  apply lookup_insert_Some in Hk as [[-> <-]|[_ Hk]]; [done|]. by eapply H.
Qed.

Lemma enroll_device_locked d x audit quota req token : guar (stays_locked d) (enroll_device x audit quota req token).
Proof.
  unfold enroll_device, SignCSR, random_hex. guar_all; try (by split; intros);
    try (apply quota_guard_guar); guar_all; try (by split; intros).
  all: try (apply certs_locked, LogAction_certs).
  apply guar_transact; [apply _|]. intros fault u0 v0 Htx%tx_run_inl [Hd Ha]. simpl in Htx.
  apply bind_Some in Htx as (s1 & Hi & Htx). apply insert_device_certs in Hi as [Hc Hn].
  match type of Hn with devices _ !! ?i = None => assert (i <> d) as Hne by (intros ->; destruct Hd; congruence) end.
  refine (run_stmts_rel (stays_locked d) _ s1 v0 _ Htx _); [|by eapply same_certs_stays].
  apply Forall_app. split; [|apply Forall_singleton; intros ? ?; by apply insert_cert_locked].
  eapply Forall_impl; [apply scope_stmts_certs|]. intros f Hf s2 s3 H23. by eapply same_certs_stays, Hf.
Qed.

Lemma Enroll_locked d x audit quota method body : guar (stays_locked d) (Enroll x audit quota method body).
Proof.
  unfold Enroll, ValidateAndConsume. guar_all; try apply enroll_device_locked. all: try (by guar_all).
  intros [= <- _]. by apply same_certs_stays.
Qed.

(** A renewal as another device's agent. *)
Lemma Renew_locked d x audit method ctx body :
  ctx_agent ctx <> d -> guar (stays_locked d) (Renew x audit method ctx body).
Proof.
  intros Hne. unfold Renew, SignCSR, random_hex. guar_all; try (by split; intros);
    try (apply certs_locked, LogAction_certs).
  apply guar_transact_obs; [apply _|]. intros fault u0 v0 Htx%tx_run_inl. simpl in Htx.
  apply bind_Some in Htx as (s1 & Hi & [= <-]). eapply insert_cert_locked in Hi; [|exact Hne].
  intros Hl. apply Hi in Hl as [Hd Hl]. split; [done|]. intros k c Hk Hc. simpl in Hk.
  rewrite lookup_update_where in Hk. destruct (agent_certificates s1 !! k) as [c0|] eqn:E0; simplify_eq/=.
  case_match; [done|eauto].
Qed.

(** A renewal behind the middleware, started when the device was locked out. *)
Lemma MTLS_locked d lib caPool (next : Ctx -> Handler unit) ctx req db :
  (forall ctx', ctx_agent ctx' <> d -> guar (stays_locked d) (next ctx')) -> locked d db ->
  rg any_env (stays_locked d) (stays_locked d) (MTLS lib caPool next ctx req) (fun _ _ => True) db.
Proof.
  intros Hnext Hl. unfold MTLS. destruct (client_cert _ _ _) as [cert|]; [|done]. case_match; [done|].
  apply rg_bind, rg_now. intros s1 now H1. split; [done|]. case_match; [done|].
  apply rg_bind, rg_query_row. intros s2 H2. split; [done|]. split; [done|].
  destruct (find_identity _ _ s2) as [[[T st] rev]|] eqn:Hf; [|done].
  apply find_identity_Some in Hf as (dv & id & c & Hd & <- & <- & Hc & Hcd & Hcs & <-).
  destruct (crt_revoked_at c) eqn:Hr; [done|]. case_match; [done|]. apply guar_rg, Hnext. simpl.
  intros Hcn. subst d. destruct (H2 (H1 Hl)) as [_ Ha]. by destruct (Ha id c Hc Hcd).
Qed.

(** ** Listing devices *)

(** The rows a listing may show: devices of the tenant, within the scope of the
    key, that pass the filters. *)
Definition listable (ilike : Ilike) (ctx : Ctx) (q : DeviceFilters) (db : DB) (id : string) (d : Device) : Prop :=
  devices db !! id = Some d /\ device_matches ilike (ctx_tenant ctx) (list_filters q []) db id d = true
  /\ (ctx_is_admin ctx = true \/ match ctx_scope ctx with None => True | Some sc => in_scope db (ctx_tenant ctx) sc id end).

Lemma device_matches_scope ilike T q ids db id d :
  ids <> [] -> device_matches ilike T (list_filters q ids) db id d = true <->
  device_matches ilike T (list_filters q []) db id d = true /\ id ∈ ids.
Proof.
  intros Hne. unfold device_matches. simpl. destruct ids as [|i ids]; [done|]. simpl.
  destruct (bool_decide (id ∈ i :: ids)) eqn:E; reflect_bools; rewrite ?andb_true_r, ?andb_false_r; simpl;
    intuition congruence.
Qed.

#[export] Instance registered_desc_trans : Transitive registered_desc.
Proof. intros a b c. unfold registered_desc. lia. Qed.
#[export] Instance registered_desc_total : Total registered_desc.
Proof. intros a b. unfold registered_desc. lia. Qed.

(** The rows of a page: newest first, at most 100, none left out that is newer. *)
Lemma select_devices_spec ilike T f db :
  let l := select_devices ilike T f db in
  length l <= 100 /\ StronglySorted registered_desc l /\
  (forall id d', (id, d') ∈ l -> exists d, devices db !! id = Some d /\ device_matches ilike T f db id d = true
     /\ d' = list_columns d) /\
  (forall id d, devices db !! id = Some d -> device_matches ilike T f db id d = true ->
     (id, list_columns d) ∈ l \/ length l = 100 /\ forall r, r ∈ l -> registered_desc r (id, d)).
Proof.
  simpl. unfold select_devices. set (s := merge_sort _ _).
  assert (forall id d, (id, d) ∈ s <-> devices db !! id = Some d /\ device_matches ilike T f db id d = true) as Hin.
  { intros id d. unfold s. rewrite merge_sort_Permutation. apply elem_of_select_where. }
  destruct (limit_spec registered_desc 100 s) as (Hl & Hs & Hsub & Hall);
    [apply StronglySorted_merge_sort; apply _|].
  rewrite length_map. split_and!; [done| | |].
  - by apply (StronglySorted_fmap _ registered_desc).
  - intros id d' ((id0 & d) & [= -> ->] & Hd%Hsub%Hin)%list_elem_of_fmap. naive_solver.
  - intros id d Hd Hm. destruct (Hall (id, d)) as [H|[Hl' H]]; [by apply Hin| |].
    + left. apply list_elem_of_fmap. by exists (id, d).
    + right. split; [done|]. intros r ((id0 & d0) & -> & Hr)%list_elem_of_fmap. apply (H _ Hr).
Qed.

(** ** The rest of a check-in leaves devices alone *)

Definition same_devices : relation DB := fun a b => devices b = devices a.
#[export] Instance same_devices_preorder : PreOrder same_devices.
Proof. split; [done|]. unfold same_devices. intros ???; congruence. Qed.

Lemma LogAction_devices {R : Type} T a at' ac rt ri m : guar same_devices (LogAction T a at' ac rt ri m : prog DB R unit).
Proof. by apply LogAction_any_guar; [apply _|]. Qed.
#[local] Hint Resolve LogAction_devices : moebius.

Lemma checkin_rg (E : Env -> Prop) ctx req db d (Q : Response + unit -> DB -> Prop) :
  ctx_agent ctx <> "" -> ctx_tenant ctx <> "" ->
  devices db !! ctx_agent ctx = Some d -> dev_tenant d = ctx_tenant ctx -> ~ may_fault E ->
  (forall r now s, devices s !! ctx_agent ctx = Some (checkin_device now req d) -> Q r s) ->
  rg E (=) (fun _ _ => True) (Checkin ctx (Some req)) Q db.
Proof.
  intros Ha Ht Hd Hdt Hok HQ. unfold Checkin. apply seqb_neq in Ha as ->, Ht as ->. simpl orb. cbv beta iota.
  do 2 rg_step. do 2 rg_step; [intros Hm; by destruct (Hok Hm)|]. split; [done|]. cbv beta iota.
  match goal with |- rg _ _ _ ?p _ ?s => set (tail := p); set (db1 := s) end.
  assert (exists now, devices db1 !! ctx_agent ctx = Some (checkin_device now req d)) as (now & Hnow).
  { unfold db1, stmt; simpl. rewrite lookup_update_where, Hd. simpl. rewrite Hdt, !seqb_refl. eauto. }
  apply (rg_weaken_G _ _ same_devices); [done|]. eapply rg_mono;
    [|apply (guar_rg_stable _ _ _ (fun s => devices s !! ctx_agent ctx = Some (checkin_device now req d)))].
  - intros r s' Hs'. exact (HQ r now s' Hs').
  - by intros ?? ->.
  - intros a b E'. by rewrite E'.
  - unfold tail, report_rollback, processPackageDelta, fetchDispatchableJobs, dispatch_jobs. guar_all; one_table.
  - done.
Qed.

(** ** Quotas *)

Definition unlimited : TenantQuotas :=
  {| tq_max_devices := -1; tq_max_queued_jobs := -1; tq_max_api_keys := -1; tq_max_file_size_bytes := -1 |}.

Definition with_quotas (q : TenantQuotas) : TenantConfig :=
  {| tc_default_poll_interval_seconds := 0; tc_default_cert_lifetime_days := 0; tc_sso := None; tc_storage := None;
     tc_quotas := Some q |}.

(** ** Properties *)

(** C10: Tenants are isolated under concurrency: after any interleaving of requests on
    devices, groups, sites, tags, tenants, inventory and rollbacks, with any
    failures, everything that differs, memberships apart, belongs to a tenant
    that sent one of the requests, the audit entries included. *)
Theorem fleet_isolation w qs db db' pool :
  rtc pstep (db, map (fun cq => fleet_serve w cq.1 cq.2) qs) (db', pool) ->
  tenant_frame (fun T => exists cq, cq ∈ qs /\ ctx_tenant cq.1 = T) db db'.
Proof.
  intros Hs. eapply psteps_guar_preorder; [apply _|exact Hs|].
  apply Forall_forall. intros p (cq & -> & Hcq)%list_elem_of_fmap. apply fleet_frame. eauto.
Qed.

(** POST /v1/devices/{id}/revoke on every branch, whatever fails.  A 204 is for a
    device of the caller's tenant, and then, in one step, the device is revoked,
    no certificate of it is left unrevoked, its pending, queued and dispatched
    jobs are cancelled, and every other device, certificate and job is as it
    was.  Any other answer is an error and changes nothing. *)
Theorem revoke_spec audit env ctx d body db :
  let r := run_result (Revoke audit ctx d body) env db in
  let db' := run_store (Revoke audit ctx d body) env db in
  (r = inl NoContent
   /\ (exists dv, devices db !! d = Some dv /\ dev_tenant dv = ctx_tenant ctx
        /\ devices db' !! d = Some (set_status DeviceStatusRevoked dv))
   /\ (forall k, k <> d -> devices db' !! k = devices db !! k)
   /\ all_revoked d db'
   /\ (forall k c, crt_device c <> d -> agent_certificates db' !! k = Some c <-> agent_certificates db !! k = Some c)
   /\ (forall k j, jobs db !! k = Some j -> jobs db' !! k = Some (
        if decide (job_device j = d /\ job_tenant j = ctx_tenant ctx /\
                   job_status j ∈ [JobStatusPending; JobStatusQueued; JobStatusDispatched])
        then set_job_status JobStatusCancelled j else j))) \/
  (exists e, r = inl e /\ (400 <= resp_status e)%Z /\ db' = db).
Proof.
  simpl. by_rg any_env (fun _ _ : DB => True); [done|]. apply Revoke_rg.
  - intros r Hr. right. eauto.
  - intros reason now l dv Hd Ht. left. split_and!; [done| | | | |]; simpl.
    + exists dv. split_and!; [done..|]. rewrite lookup_update_where, Hd. simpl. unfold own_row.
      rewrite seqb_refl. by replace (owner dv =s _) with true by (symmetry; by apply seqb_eq).
    + intros k Hk. rewrite lookup_update_where. destruct (devices db !! k); [|done]. simpl. unfold own_row.
      by replace (k =s d) with false by (symmetry; by apply seqb_neq).
    + apply revoked_db_revokes.
    + intros k c Hc. rewrite lookup_update_where. destruct (agent_certificates db !! k) as [c0|]; [|done]. simpl.
      destruct (active_cert_of d k c0) eqn:E; [|done]. unfold active_cert_of in E. reflect_bools.
      split; intros [= <-]; [done|congruence].
    + intros k j Hj. unfold update_jobs. simpl. rewrite lookup_update_where, Hj. simpl. f_equal. unfold cancellable.
      case_decide as Hc.
      * destruct Hc as (-> & -> & Hst). rewrite !seqb_refl. simpl.
        rewrite !elem_of_cons, elem_of_nil in Hst. destruct Hst as [->|[->|[->|[]]]]; done.
      * destruct (_ && _) eqn:E; [|done]. exfalso. apply Hc. reflect_bools. split_and!; [done..|].
        rewrite !orb_true_iff, !seqb_eq in *. set_solver.
Qed.

(** What the server may run after the revocation: requests of the job system, from
    their handlers on (so also those that were past authentication when the device
    was revoked), the scheduler's ticks, requests on the fleet, enrollments, and
    renewals that start from the middleware. *)
Inductive LaterRequest :=
| LJobs (q : Request)
| LFleet (ctx : Ctx) (q : FleetRequest)
| LEnroll (method : string) (body : option EnrollRequest)
| LRenew (lib : HeaderLib) (caPool : bool) (ctx : Ctx) (req : AgentRequest) (method : string) (body : option string).

Definition later_serve (x : X509) (w : Wiring) (fw : FleetWiring) (q : LaterRequest) : Handler unit :=
  match q with
  | LJobs q => serve w q
  | LFleet ctx q => fleet_serve fw ctx q
  | LEnroll method body => Enroll x (wr_audit w) (wr_quota w) method body
  | LRenew lib caPool ctx req method body =>
      MTLS lib caPool (fun ctx' => Renew x (wr_audit w) method ctx' body) ctx req
  end.

Lemma later_locked d x w fw q db : locked d db ->
  rg any_env (stays_locked d) (stays_locked d) (later_serve x w fw q) (fun _ _ => True) db.
Proof.
  intros Hl. destruct q; cbv beta iota delta [later_serve].
  - apply guar_rg, serve_locked.
  - apply guar_rg, fleet_locked.
  - apply guar_rg, Enroll_locked.
  - apply MTLS_locked; [|done]. intros ctx' Hne. by apply Renew_locked.
Qed.

(** C32: A revoked device stays locked out: after the 204, however requests of the job
    system (check-ins that were already past authentication included), scheduler
    ticks, fleet requests, enrollments and certificate renewals that start from
    authentication interleave, every request with a certificate of the device is
    refused before it reaches a handler.  A renewal that was already past
    authentication when the device was revoked is not among them. *)
Theorem revoked_locked_out audit env ctx d body db x w fw qs db' pool :
  run_result (Revoke audit ctx d body) env db = inl NoContent ->
  rtc pstep (run_store (Revoke audit ctx d body) env db, map (later_serve x w fw) qs) (db', pool) ->
  forall lib caPool (next : Ctx -> Handler unit) env' ctx' req cert,
    client_cert lib caPool req = Some cert -> pc_common_name cert = d ->
    exists r, run_result (MTLS lib caPool next ctx' req) env' db' = inl r /\ (401 <= resp_status r)%Z.
Proof.
  intros Hres Hs lib caPool next env' ctx' req cert Hcert Hcn.
  assert (locked d (run_store (Revoke audit ctx d body) env db)) as H0.
  { revert Hres. clear Hs. by_rg any_env (fun _ _ : DB => True); [done|]. apply Revoke_rg.
    - intros r Hr [= ->]. simpl in Hr. lia.
    - intros reason now l dv Hd _ _. split; [|apply revoked_db_revokes]. simpl. by rewrite lookup_update_where, Hd. }
  apply (psteps_rg (stays_locked d)) in Hs; simpl in Hs.
  - destruct (Hs H0) as [_ Ha]. eapply MTLS_refused; [done|]. intros dv id c _ (Hc & Hd & Hr) _. subst.
    by destruct (Ha id c Hc Hd).
  - apply Forall_forall. intros p (q & -> & _)%list_elem_of_fmap. by apply later_locked.
Qed.

(** A check-in that was past authentication when the device was revoked puts the
    device's status back to online. *)
Theorem late_checkin_unrevokes ctx req env db d :
  (forall n, ok_env (env n)) -> ctx_agent ctx <> "" -> ctx_tenant ctx <> "" ->
  devices db !! ctx_agent ctx = Some d -> dev_tenant d = ctx_tenant ctx -> dev_status d = DeviceStatusRevoked ->
  exists d', devices (run_store (Checkin ctx (Some req)) env db) !! ctx_agent ctx = Some d'
    /\ dev_status d' = DeviceStatusOnline.
Proof.
  intros Henv Ha Ht Hd Hdt _. by_rg ok_env (fun _ _ : DB => True); [done|].
  eapply checkin_rg; [done..|apply ok_env_no_fault|]. intros _ now s Hs. by exists (checkin_device now req d).
Qed.

Lemma Checkin_certs ctx body : guar same_certs (Checkin ctx body).
Proof. unfold Checkin, report_rollback, processPackageDelta, fetchDispatchableJobs, dispatch_jobs. guar_all; keep_certs. Qed.

(** A renewal that was past authentication when the device was revoked hands out a
    certificate that is not revoked; with a check-in that was past it too, the
    middleware accepts the device again. *)
Theorem late_renewal_reopens x audit method env ctx csr db cpem chain env' req dv :
  run_result (Renew x audit method ctx (Some csr)) env db = inl (JSON 200 (BRenew cpem chain)) ->
  devices db !! ctx_agent ctx = Some dv -> dev_tenant dv = ctx_tenant ctx -> ctx_tenant ctx <> "" ->
  (forall n, ok_env (env' n)) ->
  let db1 := run_store (Renew x audit method ctx (Some csr)) env db in
  exists sg, cpem = sg_pem sg /\ forall cert, pc_common_name cert = ctx_agent ctx -> pc_serial cert = sg_serial sg ->
    valid_identity (ctx_agent ctx) cert (ctx_tenant ctx) (run_store (Checkin ctx (Some req)) env' db1).
Proof.
  intros Hres Hd Ht HT Henv db1. revert Hres. unfold db1. by_rg any_env (fun _ _ : DB => True); [done|].
  apply renew_rg; [intros resp Hr [= ->]; done|].
  intros csr' certID sg now s _ Hsg Ha Hn Hser Hdev Hcerts [= <- _]. exists sg. split; [done|].
  intros cert Hcn Hcs. split; [done|]. split; [done|]. exists DeviceStatusOnline. split; [|done].
  assert (exists d', devices (run_store (Checkin ctx (Some req)) env' s) !! ctx_agent ctx = Some d'
    /\ dev_tenant d' = ctx_tenant ctx /\ dev_status d' = DeviceStatusOnline) as (d' & Hd' & <- & <-).
  { by_rg ok_env (fun _ _ : DB => True); [done|].
    eapply checkin_rg; [done..|by rewrite Hdev|done|apply ok_env_no_fault|].
    intros _ now' s' Hs'. by exists (checkin_device now' req dv). }
  destruct (guar_run_preorder same_certs _ env' 0 s (Checkin_certs ctx (Some req))) as [Hc _].
  rewrite Hcs.
  apply (find_identity_unique _ _ _ d' certID (new_cert (ctx_agent ctx) sg now)); [done| |done|done|]; rewrite Hc, Hcerts.
  - unfold renewed. rewrite lookup_update_where, lookup_insert_eq. simpl. unfold superseded. by rewrite !seqb_refl.
  - intros k c' [[-> ->]|(Hne & c & Hk & ->)]%lookup_renewed Hcs'; [done|]. destruct (Hser k c Hk). by case_match.
Qed.

(** GET /v1/devices, whatever database accesses fail: a 200 lists, newest first,
    devices of the caller's tenant within the scope of its key that match the
    filters, at most 100 of them, and leaves none out that is newer than what it
    lists; any other answer is a 500; nothing is written. *)
Theorem list_devices_spec ilike env ctx q db :
  match run_result (ListDevicesHandler ilike ctx q) env db with
  | inl (ROk 200 (BDeviceList l)) =>
      length l <= 100 /\ StronglySorted registered_desc l /\
      (forall id d', (id, d') ∈ l -> exists d, listable ilike ctx q db id d /\ d' = list_columns d) /\
      (forall id d, listable ilike ctx q db id d ->
         (id, list_columns d) ∈ l \/ length l = 100 /\ forall r, r ∈ l -> registered_desc r (id, d))
  | inl r => resp_status r = 500%Z
  | inr _ => False
  end /\ run_store (ListDevicesHandler ilike ctx q) env db = db.
Proof.
  by_rg any_env (=@{DB}); [done|]. unfold ListDevicesHandler.
  match goal with |- rg _ _ _ _ ?Q _ => set (post := Q) end.
  assert (forall ids,
    (forall id d, devices db !! id = Some d -> device_matches ilike (ctx_tenant ctx) (list_filters q ids) db id d = true
       <-> listable ilike ctx q db id d) ->
    rg any_env (=) (=)
      (r ← ListDevices ilike (ctx_tenant ctx) (list_filters q ids);
       match r with
       | None => stop (Error 500 "failed to list devices")
       | Some ds => stop (JSON 200 (BDeviceList ds))
       end) post db) as Hq.
  { intros ids Hids. unfold ListDevices. do 2 rg_step; [intros _; by rg_step|]. rg_step. unfold post. split; [|done].
    destruct (select_devices_spec ilike (ctx_tenant ctx) (list_filters q ids) db) as (Hl & Hs & Hin & Hall).
    split_and!; [done..| |].
    - intros id d' (d & Hd & Hm & ->)%Hin. exists d. split; [|done]. by apply Hids.
    - intros id d Hd. apply Hall; [apply Hd|]. apply Hids; [apply Hd|done]. }
  rg_step. unfold listable in Hq. destruct (ctx_is_admin ctx) eqn:Eadm; [rg_step; apply Hq; naive_solver|].
  destruct (ctx_scope ctx) as [sc|] eqn:Esc; [|rg_step; apply Hq; naive_solver].
  rg_step. apply ResolveScope_rg; [intros _; by rg_step|done|].
  intros sc' al [= <-] Hal. simpl. destruct (nonempty (elements al)) eqn:Ene; simpl negb; cbv beta iota.
  - rg_step. apply Hq. intros id d Hd. rewrite device_matches_scope by (by intros E; rewrite E in Ene).
    rewrite elem_of_elements, Hal. naive_solver.
  - rg_step. unfold post. split; [|done]. apply nonempty_false, elements_empty_inv in Ene.
    split_and!; [simpl; lia|constructor|intros ?? []%elem_of_nil|].
    intros id d (Hd & Hm & [?|Hs]); [congruence|]. rewrite Esc in Hs. apply Hal in Hs. set_solver.
Qed.

(** Adding devices to a group looks at no tenant: any caller with an unscoped key,
    of whatever tenant, puts a device of tenant [T] into a group of [T], which
    widens what [T]'s keys scoped to that group reach. *)
Theorem foreign_membership audit env ctx T g d db grp dv :
  (forall n, ok_env (env n)) -> ctx_scope ctx = None -> ctx_tenant ctx <> T ->
  groups db !! g = Some grp -> ct_tenant grp = T -> devices db !! d = Some dv -> dev_tenant dv = T ->
  let db' := run_store (add_devices_handler GroupKind audit ctx g (Some [d])) env db in
  run_result (add_devices_handler GroupKind audit ctx g (Some [d])) env db = inl NoContent /\
  forall sc, g ∈ sc_group_ids sc -> in_scope db' T sc d.
Proof.
  intros Henv Hsc _ Hg _ Hd Hdt. simpl. by_rg ok_env (fun _ _ : DB => True); [done|].
  unfold add_devices_handler, in_field_scope. rewrite Hsc. simpl IDInScopeField. rewrite andb_false_r. simpl nonempty.
  cbv beta iota delta [negb]. rg_step. unfold add_members. rg_step. rg_step. apply rg_for_each_cons.
  do 2 rg_step; [by intros ?%ok_env_no_fault|].
  unfold stmt_opt, insert_member. simpl k_table. rewrite (proj2 (fk_spec _ d)), (proj2 (fk_spec _ g)) by eauto.
  simpl andb. cbv beta iota. split; [done|]. rg_step. simpl. apply audited_then.
  intros l. split; [done|]. intros sc Hin. right. left. exists g. split; [done|]. apply elem_of_members. simpl.
  split; [set_solver|eauto].
Qed.

(** A tenant lifts its own quotas: once PATCH /v1/tenant with unlimited quotas is
    answered with 200, none of the quota checks refuses the tenant anything. *)
Theorem tenant_lifts_quota audit env ctx name db t c r env' :
  (forall n, ok_env (env' n)) ->
  run_result (UpdateTenantHandler audit ctx (Some (name, Some (with_quotas unlimited)))) env db
    = inl (JSON 200 (BTenant (ctx_tenant ctx) t c)) ->
  let db' := run_store (UpdateTenantHandler audit ctx (Some (name, Some (with_quotas unlimited)))) env db in
  forall n, run_result (CheckDevices r (ctx_tenant ctx) : Handler _) env' db' = inr None
    /\ run_result (CheckQueuedJobs r (ctx_tenant ctx) n : Handler _) env' db' = inr None
    /\ run_result (CheckAPIKeys r (ctx_tenant ctx) : Handler _) env' db' = inr None
    /\ run_result (CheckFileSize r (ctx_tenant ctx) n : Handler _) env' db' = inr None.
Proof.
  intros Henv Hres db'.
  assert (exists t', tenants db' !! ctx_tenant ctx = Some t' /\ tn_config t' = Some (JValid (with_quotas unlimited)))
    as (t' & Ht' & Hc').
  { revert Hres. unfold db'. by_rg any_env (fun _ _ : DB => True); [done|]. unfold UpdateTenantHandler, GetTenant.
    do 3 rg_step; [by intros _ [=]|]. destruct (tenants db !! ctx_tenant ctx) as [t0|] eqn:Ht; rg_step; [|by intros [=]].
    cbv beta iota. unfold UpdateTenant, affected_rows. do 3 rg_step; [by intros _ [=]|done|]. rg_step.
    case_match; cbv beta iota; [by intros [=]|]. apply audited_then. intros l _. simpl.
    rewrite lookup_update_where, Ht. simpl. rewrite seqb_refl. eauto. }
  clear Hres. clearbody db'. assert (e_fault (env' 0%nat) = false) as Hf by apply Henv.
  intros n. destruct r as [d|].
  2: { unfold CheckDevices, CheckQueuedJobs, CheckAPIKeys, CheckFileSize. done. }
  unfold CheckDevices, CheckQueuedJobs, CheckAPIKeys, CheckFileSize, check_count, Effective, run_result.
  destruct (n <=? 0)%Z; simpl; rewrite Hf, Ht'; simpl; unfold effective_of; rewrite Hc'; done.
Qed.
