(* ===== verification/Paging.v ===== *)
(** * Cursor pagination

    [ParsePagination] of [server/api/middleware.go] and the pagination that the
    listings of files, agent versions, users and audit entries share: the query
    orders by creation time and cuts with [id < cursor], asks for one row more
    than the limit, and the handler turns the extra row into [has_more] and the
    id of the last row shown into the next cursor.  [collect] is the client that
    follows the cursors. *)

From S2P Require Import Prelude Models.

Definition ParsePagination (limit_param cursor : string) : Z * string :=
  let limit := if limit_param =s "" then 50%Z
               else match Atoi limit_param with
                    | Some n => if (0 <? n)%Z then n else 50%Z
                    | None => 50%Z
                    end in
  (if (500 <? limit)%Z then 500%Z else limit, cursor).

Section Listing.
Context {V : Type} (R : relation (string * V)) `{!RelDecision R}.
Implicit Types rows : list (string * V).

(** [AND id < $cursor], left out for an empty cursor. *)
Definition below (cursor : string) (kv : string * V) : bool := (cursor =s "") || string_ltb kv.1 cursor.

Definition page_rows (limit : Z) (cursor : string) (rows : list (string * V)) : list (string * V) :=
  take (Z.to_nat (limit + 1)) (merge_sort R (filter (fun kv => below cursor kv = true) rows)).

Definition paginate (limit : Z) (rows : list (string * V)) : list (string * V) * Pagination :=
  let hasMore := (limit <? Z.of_nat (length rows))%Z in
  let shown := if hasMore then take (Z.to_nat limit) rows else rows in
  let next := if hasMore then from_option fst "" (last shown) else "" in
  (shown, {| pg_next_cursor := next; pg_has_more := hasMore; pg_limit := limit |}).

(** A client that follows the cursors, for at most [fuel] requests. *)
Fixpoint collect (fuel : nat) (limit : Z) (cursor : string) (rows : list (string * V)) : option (list (string * V)) :=
  match fuel with
  | O => None
  | S n =>
      let '(shown, p) := paginate limit (page_rows limit cursor rows) in
      if pg_has_more p then rest ← collect n limit (pg_next_cursor p) rows; Some (shown ++ rest)
      else Some shown
  end.

(** ** Lemmas *)

Definition remaining (cursor : string) rows : list (string * V) := filter (fun kv => below cursor kv = true) rows.
Definition listing (cursor : string) rows : list (string * V) := merge_sort R (remaining cursor rows).

Lemma listing_elem cursor rows kv : kv ∈ listing cursor rows <-> kv ∈ rows /\ below cursor kv = true.
Proof. unfold listing, remaining. rewrite merge_sort_Permutation, list_elem_of_filter. naive_solver. Qed.

Lemma listing_length cursor rows : length (listing cursor rows) = length (remaining cursor rows).
Proof. unfold listing. by rewrite merge_sort_Permutation. Qed.

(** What the client sees of one page. *)
Lemma collect_step fuel limit cursor rows : (0 < limit)%Z ->
  let l := listing cursor rows in
  (length l <= Z.to_nat limit /\ collect (S fuel) limit cursor rows = Some l) \/
  (Z.to_nat limit < length l /\ exists kv, last (take (Z.to_nat limit) l) = Some kv /\
     collect (S fuel) limit cursor rows
     = rest ← collect fuel limit kv.1 rows; Some (take (Z.to_nat limit) l ++ rest)).
Proof.
  intros Hl l. cbn [collect]. unfold paginate, page_rows. fold (remaining cursor rows) (listing cursor rows) l.
  rewrite length_take. cbn [pg_has_more pg_next_cursor]. destruct (Z.ltb_spec limit (Z.of_nat (Z.to_nat (limit + 1) `min` length l))) as [H|H].
  - right. split; [lia|]. rewrite take_take. replace (Z.to_nat limit `min` Z.to_nat (limit + 1)) with (Z.to_nat limit) by lia.
    destruct (last (take (Z.to_nat limit) l)) as [kv|] eqn:E; [by exists kv|].
    apply last_None in E. apply (f_equal length) in E. rewrite length_take in E. simpl in E. lia.
  - left. split; [lia|]. by rewrite take_ge by lia.
Qed.

Lemma below_next c (kv kv' : string * V) :
  below c kv = true -> kv.1 <> "" -> below kv.1 kv' = true -> below c kv' = true.
Proof.
  unfold below. intros Hc Hne H. apply seqb_neq in Hne. rewrite Hne in H. simpl in H.
  apply orb_true_iff in Hc as [->|Hc]; [done|]. rewrite (string_ltb_trans _ _ _ H Hc). by rewrite orb_true_r.
Qed.

(** Every request leaves fewer rows below its cursor. *)
Lemma remaining_shrinks c kv rows :
  kv ∈ rows -> below c kv = true -> kv.1 <> "" ->
  length (remaining kv.1 rows) < length (remaining c rows).
Proof.
  intros Hin Hc Hne. unfold remaining.
  assert (forall l, length (filter (fun kv' => below kv.1 kv' = true) l) <= length (filter (fun kv' => below c kv' = true) l)
    /\ (kv ∈ l -> length (filter (fun kv' => below kv.1 kv' = true) l) < length (filter (fun kv' => below c kv' = true) l)))
    as H; [|by apply H].
  induction l as [|x l [IH1 IH2]]; [by split; [|intros ?%elem_of_nil]|]. rewrite !filter_cons.
  assert (below kv.1 x = true -> below c x = true) by (by apply below_next).
  split.
  - repeat case_decide; simpl; first [lia | exfalso; auto].
  - intros [<-|Hx]%elem_of_cons.
    + rewrite (decide_False (P := below kv.1 kv = true)), decide_True; [simpl; lia|done|].
      unfold below. apply seqb_neq in Hne. by rewrite Hne, string_ltb_irrefl.
    + specialize (IH2 Hx). repeat case_decide; simpl; first [lia | exfalso; auto].
Qed.
End Listing.

Section Complete.
Context {V : Type} (R : relation (string * V)) `{!RelDecision R, !Transitive R, !Total R}.
Context (rows : list (string * V)) (Hids : NoDup rows.*1) (Hne : forall kv, kv ∈ rows -> kv.1 <> "").
(** The order of the listing agrees with the order of ids. *)
Context (Hagree : forall a b, a ∈ rows -> b ∈ rows -> R a b -> string_leb b.1 a.1 = true).

Lemma same_id_same_row a b : a ∈ rows -> b ∈ rows -> a.1 = b.1 -> a = b.
Proof.
  intros Ha Hb E. apply list_elem_of_lookup_1 in Ha as [i Ha], Hb as [j Hb].
  assert (i = j) as ->.
  { eapply (NoDup_lookup rows.*1); [done| |]; rewrite list_lookup_fmap; [by rewrite Ha|rewrite Hb; simpl; by rewrite E]. }
  congruence.
Qed.

(** Sorted rows below the id of a row are the rows after it. *)
Lemma listing_after c pre kv post :
  listing R c rows = pre ++ kv :: post -> listing R kv.1 rows = post.
Proof.
  intros El.
  assert (forall x, x ∈ pre ++ kv :: post <-> x ∈ rows /\ below c x = true) as Hin.
  { intros x. rewrite <-El. apply listing_elem. }
  pose proof (StronglySorted_merge_sort R (remaining c rows)) as Hs. fold (listing R c rows) in Hs. rewrite El in Hs.
  assert (NoDup (listing R c rows)) as Hnd.
  { unfold listing. rewrite merge_sort_Permutation. apply NoDup_filter. by eapply NoDup_fmap_1. }
  rewrite El in Hnd. assert (kv ∈ rows /\ below c kv = true) as [Hkv Hc] by (apply Hin; set_solver).
  assert (Hkvne := Hne kv Hkv). apply seqb_neq in Hkvne as Hseq.
  apply (StronglySorted_unique_strong R).
  - intros a b Ha Hb Hab Hba. apply listing_elem in Ha as [Ha _]. assert (b ∈ rows) by (apply Hin; set_solver).
    apply same_id_same_row; [done..|]. apply string_leb_antisym; apply Hagree; auto.
  - unfold listing. apply (StronglySorted_merge_sort R).
  - clear -Hs. induction pre as [|x pre IH]; simpl in Hs; apply StronglySorted_inv in Hs as [Hs _]; auto.
  - apply NoDup_Permutation.
    + unfold listing. rewrite merge_sort_Permutation. apply NoDup_filter. by eapply NoDup_fmap_1.
    + apply NoDup_app in Hnd as (_ & _ & Hnd). by apply NoDup_cons in Hnd as [_ Hnd].
    + intros x. rewrite listing_elem. split.
      * intros [Hx Hb]. assert (x ∈ pre ++ kv :: post) as Hx' by (apply Hin; split; [done|]; by eapply (below_next c kv)).
        unfold below in Hb. rewrite Hseq in Hb. simpl in Hb. unfold string_ltb in Hb. apply negb_true_iff in Hb.
        apply elem_of_app in Hx' as [Hx'|[->|Hx']%elem_of_cons]; [exfalso|by rewrite string_leb_refl in Hb|done].
        assert (R x kv) as Hr.
        { clear -Hs Hx'. induction pre as [|y pre IH]; [by apply elem_of_nil in Hx'|]. simpl in Hs.
          apply StronglySorted_inv in Hs as [Hs Hy]. apply elem_of_cons in Hx' as [->|Hx']; [|auto].
          rewrite Forall_forall in Hy. apply Hy. set_solver. }
        rewrite (Hagree x kv) in Hb; done.
      * intros Hx. assert (x ∈ rows /\ below c x = true) as [Hxr _] by (apply Hin; set_solver). split; [done|].
        unfold below. rewrite Hseq. simpl. unfold string_ltb. apply negb_true_iff, not_true_iff_false. intros Hle.
        assert (R kv x) as Hr.
        { clear -Hs Hx. induction pre as [|y pre IH]; simpl in Hs; apply StronglySorted_inv in Hs as [Hs Hy]; [|auto].
          rewrite Forall_forall in Hy. by apply Hy. }
        assert (x = kv) as ->.
        { apply same_id_same_row; [done..|]. apply string_leb_antisym; [by apply Hagree|done]. }
        apply NoDup_app in Hnd as (_ & _ & Hnd). by apply NoDup_cons in Hnd as [? _].
Qed.

Lemma collect_complete limit : (0 < limit)%Z -> forall fuel c,
  length (remaining c rows) < fuel -> collect R fuel limit c rows = Some (listing R c rows).
Proof.
  intros Hl. induction fuel as [|fuel IH]; intros c Hf; [lia|].
  destruct (collect_step R fuel limit c rows Hl) as [[_ ->]|(Hlen & kv & Hkv & ->)]; [done|].
  set (l := listing R c rows) in *. apply last_Some in Hkv as [pre Hpre].
  assert (l = pre ++ kv :: drop (Z.to_nat limit) l) as El.
  { rewrite <-(take_drop (Z.to_nat limit) l) at 1. rewrite Hpre, <-app_assoc. done. }
  assert (kv ∈ rows /\ below c kv = true) as [Hin Hc].
  { apply (listing_elem R). fold l. rewrite El. set_solver. }
  pose proof (remaining_shrinks c kv rows Hin Hc (Hne kv Hin)) as Hsh.
  rewrite IH by lia. simpl. rewrite (listing_after c pre kv _ El). f_equal. by rewrite take_drop.
Qed.
End Complete.

(** ** Properties *)

(** Whatever the query says, the limit of a listing is between 1 and 500. *)
Theorem limit_bounds limit_param cursor : (1 <= (ParsePagination limit_param cursor).1 <= 500)%Z.
Proof. unfold ParsePagination. simpl. repeat case_match; reflect_bools; simpl; lia. Qed.

(** C35: Following the cursors ends: a client that asks for page after page is done
    after at most one request more than there are rows. *)
Theorem paging_terminates {V : Type} (R : relation (string * V)) `{!RelDecision R} limit cursor rows :
  (0 < limit)%Z -> (forall kv, kv ∈ rows -> kv.1 <> "") ->
  is_Some (collect R (S (length rows)) limit cursor rows).
Proof.
  intros Hl Hne.
  assert (forall fuel c, length (remaining c rows) < fuel -> is_Some (collect R fuel limit c rows)) as H.
  { induction fuel as [|fuel IH]; intros c Hf; [lia|].
    destruct (collect_step R fuel limit c rows Hl) as [[_ ->]|(_ & kv & Hkv & ->)]; [by eexists|].
    apply last_Some in Hkv as [pre Hpre].
    assert (kv ∈ rows /\ below c kv = true) as [Hin Hc].
    { apply (listing_elem R). eapply subseteq_take. rewrite Hpre. set_solver. }
    pose proof (remaining_shrinks c kv rows Hin Hc (Hne kv Hin)).
    destruct (IH kv.1) as [rest ->]; [lia|]. by eexists. }
  apply H. unfold remaining. pose proof (length_filter (fun kv => below cursor kv = true) rows). lia.
Qed.

(** Where the order of the listing agrees with the order of ids, following the
    cursors gives exactly the whole listing, in order, without gaps or
    repetitions. *)
Theorem paging_complete {V : Type} (R : relation (string * V)) `{!RelDecision R, !Transitive R, !Total R} limit rows :
  (0 < limit)%Z -> NoDup rows.*1 -> (forall kv, kv ∈ rows -> kv.1 <> "") ->
  (forall a b, a ∈ rows -> b ∈ rows -> R a b -> string_leb b.1 a.1 = true) ->
  collect R (S (length rows)) limit "" rows = Some (merge_sort R rows).
Proof.
  intros Hl Hids Hne Hag. rewrite (collect_complete R rows Hids Hne Hag limit Hl).
  - f_equal. unfold listing, remaining. f_equal.
    clear. induction rows as [|x l IH]; [done|]. rewrite filter_cons_True by done. by rewrite IH.
  - unfold remaining. pose proof (length_filter (fun kv => below "" kv = true) rows). lia.
Qed.

(** Ids are random, so the orders need not agree: when the newer of two rows has
    the smaller id, the older one is never shown to a client that pages by one. *)
Theorem paging_skips {V : Type} (R : relation (string * V)) `{!RelDecision R} a b v w :
  R (a, v) (b, w) -> a <> "" -> string_ltb a b = true ->
  collect R 2 1 "" [(a, v); (b, w)] = Some [(a, v)].
Proof.
  intros Hab Ha Hlt.
  assert (listing R "" [(a, v); (b, w)] = [(a, v); (b, w)]) as Hm.
  { unfold listing, remaining, merge_sort. simpl. by rewrite decide_True. }
  assert (listing R a [(a, v); (b, w)] = []) as Hm'.
  { unfold listing, remaining, below. apply seqb_neq in Ha. simpl. rewrite Ha. simpl.
    assert (string_ltb b a = false) as Hba; [|by rewrite !filter_cons_False by (simpl; rewrite ?string_ltb_irrefl; congruence)].
    apply not_true_iff_false. intros H. pose proof (string_ltb_trans _ _ _ Hlt H) as E. by rewrite string_ltb_irrefl in E. }
  destruct (collect_step R 1 1 "" [(a, v); (b, w)]) as [[Hl _]|(_ & kv & Hkv & ->)]; [done|..]; rewrite Hm in *;
    [simpl in Hl; lia|]. injection Hkv as <-. change ((a, v).1) with a.
  destruct (collect_step R 0 1 a [(a, v); (b, w)]) as [[_ ->]|(Hl & _)]; [done|..]; rewrite Hm' in *; [done|simpl in Hl; lia].
Qed.
