(* ===== verification/Users.v ===== *)
(** * Reading users

    [ListUsers] and [GetUser] of [server/store/users.go] and the handlers [List]
    and [Get] of [server/api/users.go]; what changes users is in [Identity]. *)

From S2P Require Import Prelude Prog Models Database Identity Paging.

(** ** server/store/users.go *)

(** [ORDER BY created_at DESC]. *)
Definition user_order (a b : string * User) : Prop := (usr_created_at b.2 <= usr_created_at a.2)%Z.
#[export] Instance user_order_dec : RelDecision user_order.
Proof. intros a b. unfold user_order. apply _. Defined.
#[export] Instance user_order_trans : Transitive user_order.
Proof. intros a b c. unfold user_order. lia. Qed.
#[export] Instance user_order_total : Total user_order.
Proof. intros a b. unfold user_order. lia. Qed.

Definition tenant_users (tenantID : string) (db : DB) : list (string * User) :=
  select_where (fun _ u => usr_tenant u =s tenantID) (users db).

Definition ListUsers {R : Type} (tenantID cursor : string) (limit : Z) : prog DB R (option (list (string * User))) :=
  query (fun db => page_rows user_order limit cursor (tenant_users tenantID db)).

(** [Some None] is the nil user of a missing row. *)
Definition GetUser {R : Type} (tenantID userID : string) : prog DB R (option (option User)) :=
  row ← query_row (find_user tenantID userID);
  mret (match row with Row u => Some (Some u) | NoRows => Some None | DbErr => None end).

(** ** server/api/users.go *)

Definition ListUsersHandler (ctx : Ctx) (limit_param cursor : string) : Handler unit :=
  let '(limit, cursor) := ParsePagination limit_param cursor in
  r ← ListUsers (ctx_tenant ctx) cursor limit;
  match r with
  | None => stop (Error 500 "failed to list users")
  | Some rows => let '(shown, p) := paginate limit rows in stop (JSON 200 (BUserList shown p))
  end.

Definition GetUserHandler (ctx : Ctx) (userID : string) : Handler unit :=
  r ← GetUser (ctx_tenant ctx) userID;
  match r with
  | None => stop (Error 500 "failed to get user")
  | Some None => stop (ErrorWithCode 404 "user_not_found" (Lit "No user with the given ID exists"))
  | Some (Some u) => stop (JSON 200 (BUser (Some (userID, u))))
  end.

(** ** What a listing shows *)

(** One page of a sorted listing: at most the limit, sorted, of rows below the
    cursor; a row left out comes later in the order, and then there is more. *)
Lemma page_spec {V} (R : relation (string * V)) `{!RelDecision R, !Transitive R, !Total R} limit cursor rows :
  (0 < limit)%Z ->
  let '(shown, p) := paginate limit (page_rows R limit cursor rows) in
  (Z.of_nat (length shown) <= limit)%Z /\ StronglySorted R shown /\
  (forall x, x ∈ shown -> x ∈ rows /\ below cursor x = true) /\
  (forall x, x ∈ rows -> below cursor x = true ->
     x ∈ shown \/ pg_has_more p = true /\ forall y, y ∈ shown -> R y x).
Proof.
  intros Hl. unfold paginate, page_rows. fold (remaining cursor rows) (listing R cursor rows).
  set (l := listing R cursor rows).
  assert (StronglySorted R l) as Hs by (apply StronglySorted_merge_sort; apply _).
  pose proof (fun x => listing_elem R cursor rows x) as Hin. fold l in Hin. rewrite length_take.
  destruct (Z.ltb_spec limit (Z.of_nat (Z.to_nat (limit + 1) `min` length l))) as [H|H]; cbn [pg_has_more].
  - rewrite take_take. replace (Z.to_nat limit `min` Z.to_nat (limit + 1)) with (Z.to_nat limit) by lia.
    destruct (limit_spec R (Z.to_nat limit) l Hs) as (Hlen & Hst & Hsub & Hall). split_and!; [lia|done| |].
    + intros x Hx. by apply Hin, Hsub.
    + intros x Hx Hb. destruct (Hall x) as [|[_ ?]]; [by apply Hin|by left|by right].
  - rewrite take_ge by lia. split_and!; [lia|done|by intros x; apply Hin|]. intros x Hx Hb. left. by apply Hin.
Qed.

(** GET /v1/users, whatever fails: a 200 shows, newest first, at most the limit
    (500 at most) of the users of the caller's tenant below the cursor, and says
    that there is more when it leaves one out, which is then no newer than what
    it shows. *)
Theorem users_listed env ctx limit_param cursor db :
  let mine x := x ∈ tenant_users (ctx_tenant ctx) db /\ below cursor x = true in
  match run_result (ListUsersHandler ctx limit_param cursor) env db with
  | inl (ROk 200 (BUserList l p)) =>
      (Z.of_nat (length l) <= pg_limit p <= 500)%Z /\ StronglySorted user_order l /\ (forall x, x ∈ l -> mine x) /\
      (forall x, mine x -> x ∈ l \/ pg_has_more p = true /\ forall y, y ∈ l -> user_order y x)
  | inl r => resp_status r = 500%Z
  | inr _ => False
  end /\ run_store (ListUsersHandler ctx limit_param cursor) env db = db.
Proof.
  intros mine. unfold run_result, run_store, ListUsersHandler, ListUsers, query.
  pose proof (limit_bounds limit_param cursor) as Hb.
  assert ((ParsePagination limit_param cursor).2 = cursor) as Hc by done.
  destruct (ParsePagination limit_param cursor) as [limit c]. simpl in Hb, Hc. subst c. simpl.
  destruct (e_fault (env 0)); [done|]. simpl.
  pose proof (page_spec user_order limit cursor (tenant_users (ctx_tenant ctx) db) ltac:(lia)) as H.
  unfold paginate in H. cbv zeta iota beta in H. destruct H as (Hl & Hs & Hsub & Hall). split; [|done].
  split_and!; [done|lia|done|by apply Hsub|]. intros x [Hx Hbx]. by apply Hall.
Qed.

(** A user who was invited can be read back: after a 201 an undisturbed GET of
    the id gives the user of the answer. *)
Theorem invited_user_found audit env env' ctx body db id u :
  run_result (Invite audit ctx body) env db = inl (JSON 201 (BUser (Some (id, u)))) -> e_fault (env' 0) = false ->
  run_result (GetUserHandler ctx id) env' (run_store (Invite audit ctx body) env db) = inl (JSON 200 (BUser (Some (id, u)))).
Proof.
  intros Hres He. revert Hres. unfold Invite. by_rg any_env (fun _ _ : DB => True); [done|].
  destruct body as [[email roleID]|]; [|by rg_step]. destruct (_ || _); [by rg_step|].
  do 4 rg_step. set (new := {| usr_tenant := _ |}).
  do 2 rg_step; [by intros; rg_step|].
  destruct (stmt_opt _ db) as [[db' t']|] eqn:Hi; [|by rg_step].
  apply stmt_opt_Some, insert_user_Some in Hi as [_ ->]. split; [done|]. rg_step.
  assert (forall l, (run (GetUserHandler ctx i) env' 0 (set_audit_log l (set_users (<[i := new]> (users db)) db))).2
    = inl (JSON 200 (BUser (Some (i, new))))) as Hget.
  { intros l. simpl. rewrite He. unfold find_user. simpl. rewrite lookup_insert_eq. simpl. by rewrite seqb_refl. }
  destruct audit.
  - apply LogAction_any_rg; [done|done|]. intros l. rg_step. intros [= <- <-]. apply Hget.
  - rg_step. rg_step. intros [= <- <-]. specialize (Hget (audit_log db)). by destruct db.
Qed.
