(* ===== verification/Files.v ===== *)
(** * Files

    [server/api/files.go]: chunked uploads, their assembly and verification, the
    listing, download and deletion of files; [server/storage/storage.go]: the
    local backend behind them; [server/api/signingkeys.go] and
    [agent_signingkeys.go]: the keys that signatures are checked against.

    The store is the database together with the staging directory of chunks and
    the directory of the backend.  A handler that never answers is [Hang]. *)

From stdpp Require Import relations.
From S2P Require Import Prelude Prog Models JobState Database Scope Quota Float64 Paging Tenancy Fleet.

Record FStore := {
  fs_db : DB;
  fs_dirs : gset string;                      (* staging directories, by upload id *)
  fs_staged : gmap (string * Z) string;       (* chunks, by upload id and index *)
  fs_blobs : gmap string string;              (* files of the backend, by key *)
}.

Definition put_db (db : DB) (s : FStore) : FStore :=
  {| fs_db := db; fs_dirs := fs_dirs s; fs_staged := fs_staged s; fs_blobs := fs_blobs s |}.
Definition put_dirs (x : gset string) (s : FStore) : FStore :=
  {| fs_db := fs_db s; fs_dirs := x; fs_staged := fs_staged s; fs_blobs := fs_blobs s |}.
Definition put_staged (x : gmap (string * Z) string) (s : FStore) : FStore :=
  {| fs_db := fs_db s; fs_dirs := fs_dirs s; fs_staged := x; fs_blobs := fs_blobs s |}.
Definition put_blobs (x : gmap string string) (s : FStore) : FStore :=
  {| fs_db := fs_db s; fs_dirs := fs_dirs s; fs_staged := fs_staged s; fs_blobs := x |}.

Inductive Outcome := Answer (r : Response) | Hang.

Definition FProg := prog FStore Outcome.

Definition answer {A : Type} (r : Response) : FProg A := stop (Answer r).
Definition on_db {A : Type} (p : prog DB Outcome A) : FProg A := zoom fs_db put_db p.

(** SHA-256, hexadecimal and base64, PEM and Ed25519. *)
Record SigLib := {
  sha256 : string -> string;
  hex : string -> string;
  b64_decode : string -> option string;
  parse_pem : string -> option string;                    (* pem.Decode: the DER bytes *)
  parse_pkix : string -> option (option string);          (* [Some None]: a key that is not Ed25519 *)
  ed25519_verify : string -> string -> string -> bool;    (* key, message, signature *)
}.

Definition sha256_hex_of (lib : SigLib) (data : string) : string := hex lib (sha256 lib data).

(** ** server/api/signingkeys.go: keys *)

Inductive KeyError := InvalidPEM | InvalidPublicKey | NotEd25519.

(** The DER bytes and the key. *)
Definition parseEd25519PublicKeyPEM (lib : SigLib) (pem : string) : (string * string) + KeyError :=
  match parse_pem lib pem with
  | None => inr InvalidPEM
  | Some der =>
      match parse_pkix lib der with
      | None => inr InvalidPublicKey
      | Some None => inr NotEd25519
      | Some (Some pub) => inl (der, pub)
      end
  end.

Definition validateEd25519PEM (lib : SigLib) (pem : string) : string + KeyError :=
  match parseEd25519PublicKeyPEM lib pem with
  | inr e => inr e
  | inl (der, _) => inl ("SHA256:" +++ sha256_hex_of lib der)
  end.

(** ** server/storage/storage.go: the local backend

    Faults of the file system: a failing write leaves the old contents, nothing,
    or a prefix of the data ([e_faults 0], [e_faults 1]; the cut is arbitrary). *)

Section FileSystem.
Context {R : Type}.

Definition cut (e : Env) (data : string) : string := String.substring 0 (Z.to_nat (e_now e)) data.

Definition mkdir_stage (uploadID : string) : prog FStore R unit :=
  PStep (fun e s => (if e_fault e then s else put_dirs ({[uploadID]} ∪ fs_dirs s) s, tt)) PRet.

(** [os.WriteFile] of a chunk; it needs the staging directory. *)
Definition write_chunk (uploadID : string) (i : Z) (data : string) : prog FStore R bool :=
  PStep (fun e s =>
    if bool_decide (uploadID ∉ fs_dirs s) then (s, false)
    else if e_fault e then
      (if e_faults e 0 then s
       else put_staged (<[(uploadID, i) := if e_faults e 1 then "" else cut e data]> (fs_staged s)) s, false)
    else (put_staged (<[(uploadID, i) := data]> (fs_staged s)) s, true)) PRet.

Definition read_chunk (uploadID : string) (i : Z) : prog FStore R (option string) :=
  PStep (fun e s => (s, if e_fault e then None else fs_staged s !! (uploadID, i))) PRet.

(** [os.RemoveAll(stageDir)], whose error is ignored. *)
Definition remove_stage (uploadID : string) : prog FStore R unit :=
  PStep (fun e s =>
    (if e_fault e then s
     else put_staged (filter (fun kv : string * Z * string => kv.1.1 <> uploadID) (fs_staged s))
            (put_dirs (fs_dirs s ∖ {[uploadID]}) s), tt)) PRet.

(** [MkdirAll] and [os.Create] of [Save]: [false] is an error. *)
Definition create_blob (key : string) : prog FStore R bool :=
  PStep (fun e s => if e_fault e then (s, false) else (put_blobs (<[key := ""]> (fs_blobs s)) s, true)) PRet.

(** [Delete], and the [os.Remove] of a failed [Save]: errors are ignored. *)
Definition delete_blob (key : string) : prog FStore R unit :=
  PStep (fun e s => (if e_fault e then s else put_blobs (delete key (fs_blobs s)) s, tt)) PRet.

(** One chunk copied by [io.Copy] to the created file: [None] when the copy went
    on, [Some stuck] when it failed, [stuck] when it stopped before it had read
    the whole chunk from the pipe. *)
Definition copy_chunk (key sofar data : string) : prog FStore R (option bool) :=
  PStep (fun e s =>
    if e_fault e then (put_blobs (<[key := sofar +++ cut e data]> (fs_blobs s)) s, Some (e_faults e 0))
    else (put_blobs (<[key := sofar +++ data]> (fs_blobs s)) s, None)) PRet.

Definition open_blob (key : string) : prog FStore R (option string) :=
  PStep (fun e s => (s, if e_fault e then None else fs_blobs s !! key)) PRet.
End FileSystem.

Definition Name : string := "local".
Definition blob_path (baseDir key : string) : string := baseDir +++ "/" +++ key.
Definition URL (key : string) : string := "/v1/files/data/" +++ key.

(** ** The tables *)

Definition nullIfEmpty (s : string) : option string := if s =s "" then None else Some s.

Definition insert_file (id : string) (f : File) (db : DB) : option DB :=
  if fk (tenants db) (fil_tenant f) && fk_opt (signing_keys db) (fil_signature_key f) && fk_opt (users db) (fil_created_by f)
  then t ← insert_new id f (files db); Some (set_files t db)
  else None.

Definition insert_upload (id : string) (u : FileUpload) (db : DB) : option DB :=
  if fk (files db) (upl_file u) && fk (tenants db) (upl_tenant u) && int4_ok (upl_chunk_size_bytes u) && int4_ok (upl_total_chunks u)
  then t ← insert_new id u (file_uploads db); Some (set_file_uploads t db)
  else None.

Definition find_file (tenantID fileID : string) (db : DB) : option File :=
  f ← files db !! fileID; if fil_tenant f =s tenantID then Some f else None.

(** [WHERE id = $1 AND tenant_id = $2 AND completed_at IS NULL]. *)
Definition find_upload (tenantID uploadID : string) (db : DB) : option FileUpload :=
  u ← file_uploads db !! uploadID;
  if (upl_tenant u =s tenantID) && match upl_completed_at u with None => true | Some _ => false end then Some u else None.

Definition no_columns (f : File) (sig key mime : option string) : File :=
  {| fil_tenant := fil_tenant f; fil_filename := fil_filename f; fil_size_bytes := fil_size_bytes f;
     fil_sha256 := fil_sha256 f; fil_signature := sig; fil_signature_key := key; fil_signature_verified := false;
     fil_mime_type := mime; fil_storage_backend := ""; fil_storage_path := ""; fil_created_by := None;
     fil_created_at := 0 |}.

(** [Scan] of a file row into strings, column by column: [scan_null] is what the
    driver makes of a NULL there ([None]: it refuses).  The row as far as it was
    filled, and whether there was no error. *)
Definition scan_file (scan_null : option string) (f : File) : File * bool :=
  let str (c : option string) := match c with Some x => Some x | None => scan_null end in
  match str (fil_signature f) with
  | None => (no_columns f None None None, false)
  | Some sig =>
      match str (fil_signature_key f) with
      | None => (no_columns f (Some sig) None None, false)
      | Some key =>
          let known mime backend path by_ at_ :=
            {| fil_tenant := fil_tenant f; fil_filename := fil_filename f; fil_size_bytes := fil_size_bytes f;
               fil_sha256 := fil_sha256 f; fil_signature := Some sig; fil_signature_key := Some key;
               fil_signature_verified := fil_signature_verified f; fil_mime_type := mime;
               fil_storage_backend := backend; fil_storage_path := path; fil_created_by := by_; fil_created_at := at_ |} in
          match str (fil_mime_type f) with
          | None => (known None "" "" None 0%Z, false)
          | Some mime =>
              match str (fil_created_by f) with
              | None => (known (Some mime) (fil_storage_backend f) (fil_storage_path f) None 0%Z, false)
              | Some by_ => (known (Some mime) (fil_storage_backend f) (fil_storage_path f) (Some by_) (fil_created_at f), true)
              end
          end
      end
  end.

(** ** server/api/files.go *)

Record FilesHandler := {
  fh_base : string;             (* the directory of the local backend *)
  fh_quota : Resolver;
  fh_lib : SigLib;
  fh_scan_null : option string; (* what the driver makes of NULL in a string *)
  fh_ilike : Ilike;
  fh_payload_file : string -> option string;   (* payload->>'file_id' *)
}.

Definition defaultChunkSize : Z := 5 * 1024 * 1024.
Definition uploadExpiry : Z := 24 * 3600 * 1000000000.

(** [int(math.Ceil(float64(size) / float64(defaultChunkSize)))]. *)
Definition total_chunks (size : Z) : Z := fceil (fdiv (float_of_int size) (float_of_int defaultChunkSize)).

Record initiateUploadRequest := {
  iq_filename : string;
  iq_size_bytes : Z;
  iq_sha256 : string;
  iq_signature : string;
  iq_signature_key_id : string;
  iq_mime_type : string;
}.

Definition new_file (ctx : Ctx) (req : initiateUploadRequest) (now : Z) : File :=
  {| fil_tenant := ctx_tenant ctx; fil_filename := iq_filename req; fil_size_bytes := iq_size_bytes req;
     fil_sha256 := iq_sha256 req; fil_signature := nullIfEmpty (iq_signature req);
     fil_signature_key := nullIfEmpty (iq_signature_key_id req); fil_signature_verified := false;
     fil_mime_type := Some (iq_mime_type req); fil_storage_backend := Name; fil_storage_path := "";
     fil_created_by := Some (ctx_user ctx); fil_created_at := now |}.

Definition new_upload (ctx : Ctx) (fileID : string) (chunks now : Z) : FileUpload :=
  {| upl_file := fileID; upl_tenant := ctx_tenant ctx; upl_chunk_size_bytes := defaultChunkSize;
     upl_total_chunks := chunks; upl_uploaded_chunks := []; upl_completed_at := None;
     upl_expires_at := now + uploadExpiry; upl_created_at := now |}.

Definition InitiateUpload (h : FilesHandler) (ctx : Ctx) (body : option initiateUploadRequest) : FProg unit :=
  match body with
  | None => answer (Error 400 "invalid request body")
  | Some req =>
      if (iq_filename req =s "") || (iq_size_bytes req <=? 0)%Z || (iq_sha256 req =s "")
      then answer (Error 400 "filename, size_bytes, and sha256 are required")
      else
        e ← on_db (CheckFileSize (fh_quota h) (ctx_tenant ctx) (iq_size_bytes req));
        match e with
        | Some (EQuota e) => answer (ErrorWithCode 409 "quota_exceeded" (OfErr (EQuota e)))
        | Some _ => answer (Error 500 "failed to check quota")
        | None =>
            let chunks := total_chunks (iq_size_bytes req) in
            now ← time_now;
            fileID ← new_id "fil";
            uploadID ← new_id "upl";
            begin ← on_db (query (fun _ => tt));
            match begin with
            | None => answer (Error 500 "failed to initiate upload")
            | Some _ =>
                r ← on_db (transact [insert_file fileID (new_file ctx req now);
                                     insert_upload uploadID (new_upload ctx fileID chunks now)]);
                match r with
                | Some O => answer (Error 500 "failed to create file record")
                | Some 1 => answer (Error 500 "failed to create upload session")
                | Some _ => answer (Error 500 "failed to initiate upload")
                | None =>
                    _ ← mkdir_stage uploadID;
                    answer (JSON 201 (BUpload
                      {| iu_file_id := fileID; iu_upload_id := uploadID; iu_chunk_size_bytes := defaultChunkSize;
                         iu_total_chunks := chunks; iu_uploaded_chunks := []; iu_expires_at := now + uploadExpiry |}))
                end
            end
        end
  end.

(** [array_append(array_remove(uploaded_chunks, $1), $1)] and the new expiry. *)
Definition add_chunk (i expires : Z) (u : FileUpload) : FileUpload :=
  {| upl_file := upl_file u; upl_tenant := upl_tenant u; upl_chunk_size_bytes := upl_chunk_size_bytes u;
     upl_total_chunks := upl_total_chunks u;
     upl_uploaded_chunks := filter (fun j => j <> i) (upl_uploaded_chunks u) ++ [i];
     upl_completed_at := upl_completed_at u; upl_expires_at := expires; upl_created_at := upl_created_at u |}.

Definition sql_add_chunk (uploadID : string) (i expires : Z) (db : DB) : DB :=
  set_file_uploads (update_where (fun id _ => id =s uploadID) (add_chunk i expires) (file_uploads db)) db.

(** [body]: [None] is a read error; [expectedHash]: the header X-Chunk-SHA256. *)
Definition UploadChunk (h : FilesHandler) (ctx : Ctx) (uploadID chunkIndexStr expectedHash : string) (body : option string)
    : FProg unit :=
  match Atoi chunkIndexStr with
  | None => answer (Error 400 "invalid chunk_index")
  | Some chunkIndex =>
      row ← on_db (query_row (find_upload (ctx_tenant ctx) uploadID));
      match row with
      | NoRows | DbErr => answer (Error 404 "upload session not found or already completed")
      | Row u =>
          now ← time_now;
          if (upl_expires_at u <? now)%Z then answer (Error 410 "upload session expired")
          else if (chunkIndex <? 0)%Z || (upl_total_chunks u <=? chunkIndex)%Z
          then answer (Error 400 ("chunk_index must be 0-" +++ pretty (upl_total_chunks u - 1)%Z))
          else
            match body with
            | None => answer (Error 400 "chunk exceeds maximum size")
            | Some data =>
                if (defaultChunkSize + 1 <? Z.of_nat (String.length data))%Z
                then answer (Error 400 "chunk exceeds maximum size")
                else if negb (expectedHash =s "") && negb (sha256_hex_of (fh_lib h) data =s expectedHash)
                then answer (ErrorWithCode 400 "checksum_mismatch" (Lit "chunk SHA-256 does not match"))
                else
                  ok ← write_chunk uploadID chunkIndex data;
                  if negb ok then answer (Error 500 "failed to write chunk")
                  else
                    now2 ← time_now;
                    r ← on_db (exec (stmt (sql_add_chunk uploadID chunkIndex (now2 + uploadExpiry))));
                    match r with
                    | None => answer (Error 500 "failed to update upload session")
                    | Some _ =>
                        again ← on_db (query_row (fun db => upl_uploaded_chunks <$> file_uploads db !! uploadID));
                        let chunks := match again with Row l => l | _ => upl_uploaded_chunks u end in
                        answer (JSON 200 (BChunk
                          {| ch_chunk_index := chunkIndex; ch_received := true; ch_uploaded_chunks := chunks;
                             ch_remaining_chunks := upl_total_chunks u - Z.of_nat (length chunks) |}))
                    end
            end
      end
  end.

Definition UploadStatus (ctx : Ctx) (uploadID : string) : FProg unit :=
  row ← on_db (query_row (find_upload (ctx_tenant ctx) uploadID));
  match row with
  | Row u => answer (JSON 200 (BUploadStatus uploadID u))
  | _ => answer (Error 404 "upload session not found")
  end.

(** *** Signature verification *)

Inductive SigCheck := SigChecked (verified : bool) | SigInvalid (msg : string) | SigFailed.

Definition errSignatureInvalid : string := "signature does not verify against registered key".

Definition verifyFileSignature (lib : SigLib) (tenantID fileID digest : string) : FProg SigCheck :=
  row ← on_db (query_row (find_file tenantID fileID));
  match row with
  | NoRows | DbErr => mret SigFailed
  | Row f =>
      let sig := default "" (fil_signature f) in
      let keyID := default "" (fil_signature_key f) in
      if (sig =s "") || (keyID =s "") then mret (SigChecked false)
      else
        k ← on_db (query_row (fun db => k ← signing_keys db !! keyID; if sgk_tenant k =s tenantID then Some k else None));
        match k with
        | NoRows => mret (SigInvalid (errSignatureInvalid +++ ": signing key not found"))
        | DbErr => mret SigFailed
        | Row k =>
            match parseEd25519PublicKeyPEM lib (sgk_public_key k) with
            | inr _ => mret SigFailed
            | inl (_, pub) =>
                match b64_decode lib sig with
                | None => mret (SigInvalid (errSignatureInvalid +++ ": signature is not valid base64"))
                | Some s => mret (if ed25519_verify lib pub digest s then SigChecked true else SigInvalid errSignatureInvalid)
                end
            end
        end
  end.

(** *** Assembly

    The chunks go through a pipe to [Save], which runs beside the handler.  A
    read error closes the pipe and [Save] removes its file.  When [Save] ends
    before it has read everything, nothing reads the pipe any more and the next
    [pw.Write] blocks. *)
Fixpoint chunk_indices (n : nat) (i : Z) : list Z :=
  match n with O => [] | S n' => i :: chunk_indices n' (i + 1) end.

(** The accumulator: the data sent so far, and whether [Save] still reads. *)
Definition send_chunk (fileID uploadID : string) (acc : string * bool) (i : Z) : FProg (string * bool) :=
  data ← read_chunk uploadID i;
  match data with
  | None =>
      _ ← (if acc.2 then delete_blob fileID else mret tt);
      answer (Error 500 "failed to read chunk")
  | Some data =>
      if negb acc.2 then stop Hang
      else
        r ← copy_chunk fileID acc.1 data;
        match r with
        | None => mret (acc.1 +++ data, true)
        | Some stuck =>
            _ ← delete_blob fileID;
            if stuck : bool then stop Hang else mret (acc.1 +++ data, false)
        end
  end.

(** The assembled data, once [Save] has stored it. *)
Definition assemble (fileID uploadID : string) (total : Z) : FProg string :=
  created ← create_blob fileID;
  acc ← for_each (chunk_indices (Z.to_nat total) 0) ("", created) (send_chunk fileID uploadID);
  if negb acc.2 then answer (Error 500 "failed to store file") else mret acc.1.

Definition set_stored (path : string) (verified : bool) (f : File) : File :=
  {| fil_tenant := fil_tenant f; fil_filename := fil_filename f; fil_size_bytes := fil_size_bytes f;
     fil_sha256 := fil_sha256 f; fil_signature := fil_signature f; fil_signature_key := fil_signature_key f;
     fil_signature_verified := verified; fil_mime_type := fil_mime_type f;
     fil_storage_backend := fil_storage_backend f; fil_storage_path := path; fil_created_by := fil_created_by f;
     fil_created_at := fil_created_at f |}.

Definition set_completed (now : Z) (u : FileUpload) : FileUpload :=
  {| upl_file := upl_file u; upl_tenant := upl_tenant u; upl_chunk_size_bytes := upl_chunk_size_bytes u;
     upl_total_chunks := upl_total_chunks u; upl_uploaded_chunks := upl_uploaded_chunks u;
     upl_completed_at := Some now; upl_expires_at := upl_expires_at u; upl_created_at := upl_created_at u |}.

Definition sql_store_file (fileID path : string) (verified : bool) (db : DB) : DB :=
  set_files (update_where (fun id _ => id =s fileID) (set_stored path verified) (files db)) db.
Definition sql_complete (uploadID : string) (now : Z) (db : DB) : DB :=
  set_file_uploads (update_where (fun id _ => id =s uploadID) (set_completed now) (file_uploads db)) db.

(** The part of [CompleteUpload] after a successful verification: database errors
    are ignored. *)
Definition finish_upload (h : FilesHandler) (ctx : Ctx) (uploadID fileID : string) (verified : bool) : FProg unit :=
  now ← time_now;
  _ ← on_db (exec (stmt (sql_store_file fileID (blob_path (fh_base h) fileID) verified)));
  _ ← on_db (exec (stmt (sql_complete uploadID now)));
  _ ← remove_stage uploadID;
  _ ← on_db (LogAction (ctx_tenant ctx) (ctx_user ctx) ActorTypeUser "file.upload" "file" fileID []);
  row ← on_db (query_row (fun db => files db !! fileID));
  answer (JSON 200 (BFile fileID (match row with Row f => Some (scan_file (fh_scan_null h) f).1 | _ => None end))).

Definition CompleteUpload (h : FilesHandler) (ctx : Ctx) (uploadID : string) : FProg unit :=
  row ← on_db (query_row (find_upload (ctx_tenant ctx) uploadID));
  match row with
  | NoRows | DbErr => answer (Error 404 "upload session not found or already completed")
  | Row u =>
      if negb (Z.of_nat (length (upl_uploaded_chunks u)) =? upl_total_chunks u)%Z
      then answer (ErrorWithCode 400 "incomplete_upload"
                     (Lit ("uploaded " +++ pretty (length (upl_uploaded_chunks u)) +++ " of "
                           +++ pretty (upl_total_chunks u) +++ " chunks")))
      else
        let fileID := upl_file u in
        sha ← on_db (query_row (fun db => fil_sha256 <$> files db !! fileID));
        let expectedSHA := match sha with Row s => s | _ => "" end in
        data ← assemble fileID uploadID (upl_total_chunks u);
        let digest := sha256 (fh_lib h) data in
        if negb (hex (fh_lib h) digest =s expectedSHA) then
          _ ← delete_blob fileID;
          answer (ErrorWithCode 400 "checksum_mismatch" (Lit "assembled file SHA-256 does not match expected hash"))
        else
          v ← verifyFileSignature (fh_lib h) (ctx_tenant ctx) fileID digest;
          match v with
          | SigInvalid msg =>
              _ ← delete_blob fileID;
              answer (ErrorWithCode 400 "signature_invalid" (Lit msg))
          | SigFailed =>
              _ ← delete_blob fileID;
              answer (Error 500 "failed to verify file signature")
          | SigChecked verified => finish_upload h ctx uploadID fileID verified
          end
  end.

(** *** Listing, metadata, deletion, download *)

(** [ORDER BY created_at DESC, id DESC]. *)
Definition file_order (a b : string * File) : Prop :=
  (fil_created_at b.2 < fil_created_at a.2)%Z \/
  fil_created_at b.2 = fil_created_at a.2 /\ string_leb b.1 a.1 = true.
#[export] Instance file_order_dec : RelDecision file_order.
Proof. intros a b. unfold file_order. apply _. Defined.

Definition tenant_files (ilike : Ilike) (tenantID search : string) (db : DB) : list (string * File) :=
  select_where (fun _ f => (fil_tenant f =s tenantID)
                  && clause search (ilike (fil_filename f) ("%" +++ search +++ "%"))) (files db).

(** Every row scanned, or none. *)
Fixpoint scan_files (scan_null : option string) (rows : list (string * File)) : option (list (string * File)) :=
  match rows with
  | [] => Some []
  | (id, f) :: rows' =>
      let '(f', ok) := scan_file scan_null f in
      if ok : bool then rest ← scan_files scan_null rows'; Some ((id, f') :: rest) else None
  end.

Definition ListFiles (h : FilesHandler) (ctx : Ctx) (limit_param cursor search : string) : FProg unit :=
  let '(limit, cursor) := ParsePagination limit_param cursor in
  r ← on_db (query (fun db => page_rows file_order limit cursor (tenant_files (fh_ilike h) (ctx_tenant ctx) search db)));
  match r with
  | None => answer (Error 500 "failed to list files")
  | Some rows =>
      match scan_files (fh_scan_null h) rows with
      | None => answer (Error 500 "failed to read files")
      | Some rows => let '(shown, p) := paginate limit rows in answer (JSON 200 (BFileList shown p))
      end
  end.

(** The row of a file of the tenant, as far as [Scan] accepts it. *)
Definition load_file (h : FilesHandler) (tenantID fileID : string) : FProg File :=
  row ← on_db (query_row (find_file tenantID fileID));
  match row with
  | Row f => let '(f', ok) := scan_file (fh_scan_null h) f in
             if ok : bool then mret f' else answer (Error 404 "file not found")
  | _ => answer (Error 404 "file not found")
  end.

Definition GetFile (h : FilesHandler) (ctx : Ctx) (fileID : string) : FProg unit :=
  f ← load_file h (ctx_tenant ctx) fileID;
  answer (JSON 200 (BFile fileID (Some f))).

(** Transfer jobs of the tenant that still need the file. *)
Definition active_transfers (payload_file : string -> option string) (tenantID fileID : string) (db : DB) : nat :=
  count_where (fun _ j => (job_tenant j =s tenantID) && (job_type j =s JobTypeFileTransfer)
                 && negb (IsTerminalStatus (job_status j))
                 && bool_decide (payload_file (job_payload j) = Some fileID)) (jobs db).

(** [DELETE FROM files]: refused while a binary or an installer names the file,
    and passed on to its uploads. *)
Definition delete_file_row (tenantID fileID : string) (db : DB) : option (DB * nat) :=
  let n := count_where (own_row tenantID fileID) (files db) in
  if (n =? 0)%nat then Some (db, 0%nat)
  else if nonempty (select_where (fun _ b => avb_file b =s fileID) (agent_version_binaries db))
          || nonempty (select_where (fun _ i => ins_file i =s fileID) (installers db))
  then None
  else Some (set_file_uploads (delete_where (fun _ u => upl_file u =s fileID) (file_uploads db))
               (set_files (delete_where (own_row tenantID fileID) (files db)) db), n).

Definition DeleteFile (h : FilesHandler) (ctx : Ctx) (fileID : string) : FProg unit :=
  active ← on_db (query (active_transfers (fh_payload_file h) (ctx_tenant ctx) fileID));
  let n := default 0%nat active in
  if (0 <? n)%nat
  then answer (ErrorWithCode 409 "file_in_use" (Lit ("file is referenced by " +++ pretty n +++ " active job(s)")))
  else
    row ← on_db (query_row (fun db => fil_storage_path <$> find_file (ctx_tenant ctx) fileID db));
    match row with
    | Row path =>
        r ← on_db (exec (delete_file_row (ctx_tenant ctx) fileID));
        match r with
        | None => answer (Error 500 "failed to delete file")
        | Some O => answer (Error 404 "file not found")
        | Some _ =>
            _ ← (if path =s "" then mret tt else delete_blob fileID);
            _ ← on_db (LogAction (ctx_tenant ctx) (ctx_user ctx) ActorTypeUser "file.delete" "file" fileID []);
            answer NoContent
        end
    | _ => answer (Error 404 "file not found")
    end.

Definition Download (h : FilesHandler) (ctx : Ctx) (fileID : string) : FProg unit :=
  f ← load_file h (ctx_tenant ctx) fileID;
  let sig := default "" (fil_signature f) in
  if negb (sig =s "") && negb (fil_signature_verified f)
  then answer (ErrorWithCode 409 "signature_unverified" (Lit "file has a stored signature that was not verified server-side"))
  else
    now ← time_now;
    answer (JSON 200 (BDownload
      {| fd_url := URL fileID; fd_size_bytes := fil_size_bytes f; fd_chunk_size_bytes := defaultChunkSize;
         fd_total_chunks := total_chunks (fil_size_bytes f); fd_sha256 := fil_sha256 f; fd_signature := sig;
         fd_signature_key_id := default "" (fil_signature_key f); fd_expires_at := now + 300 * 1000000000 |})).

(** No caller is looked at. *)
Definition ServeFileData (fileID : string) : FProg unit :=
  data ← open_blob fileID;
  match data with
  | None => answer (Error 404 "file data not found")
  | Some d => answer (JSON 200 (BBytes "" d))
  end.

(** ** server/api/signingkeys.go and agent_signingkeys.go: handlers *)

Definition insert_signing_key (id : string) (k : SigningKey) (db : DB) : option DB :=
  if fk (tenants db) (sgk_tenant k) && fk_opt (users db) (sgk_created_by k)
  then t ← insert_new id k (signing_keys db); Some (set_signing_keys t db)
  else None.

Definition key_error (e : KeyError) : string :=
  match e with InvalidPEM => "invalid PEM data" | InvalidPublicKey => "invalid public key" | NotEd25519 => "key is not Ed25519" end.

Definition CreateSigningKey (lib : SigLib) (ctx : Ctx) (body : option (string * string)) : Handler unit :=
  match body with
  | None => stop (Error 400 "invalid request body")
  | Some (name, pem) =>
      if name =s "" then stop (Error 400 "name is required")
      else if pem =s "" then stop (Error 400 "public_key is required")
      else match validateEd25519PEM lib pem with
      | inr e => stop (ErrorWithCode 400 "invalid_key" (Lit (key_error e)))
      | inl fingerprint =>
          now ← time_now;
          id ← new_id "sgk";
          let key := {| sgk_tenant := ctx_tenant ctx; sgk_name := name; sgk_algorithm := "ed25519";
                        sgk_public_key := pem; sgk_fingerprint := fingerprint;
                        sgk_created_by := Some (ctx_user ctx); sgk_created_at := now |} in
          r ← exec (stmt_opt (insert_signing_key id key));
          match r with
          | None => stop (Error 500 "failed to create signing key")
          | Some _ =>
              _ ← LogAction (ctx_tenant ctx) (ctx_user ctx) ActorTypeUser "signing_key.create" "signing_key" id [];
              stop (JSON 201 (BSigningKey id key))
          end
      end
  end.

Definition newest_signing_key (a b : string * SigningKey) : Prop := (sgk_created_at b.2 <= sgk_created_at a.2)%Z.
#[export] Instance newest_signing_key_dec : RelDecision newest_signing_key.
Proof. intros a b. unfold newest_signing_key. apply _. Defined.

Definition list_signing_keys (tenantID : string) (db : DB) : list (string * SigningKey) :=
  merge_sort newest_signing_key (select_where (fun _ k => sgk_tenant k =s tenantID) (signing_keys db)).

(** A key without a creator does not scan, unless the driver accepts NULL. *)
Definition scans_creator (scan_null : option string) (kv : string * SigningKey) : bool :=
  match sgk_created_by kv.2, scan_null with None, None => false | _, _ => true end.

Definition ListSigningKeys (scan_null : option string) (ctx : Ctx) : Handler unit :=
  r ← query (list_signing_keys (ctx_tenant ctx));
  match r with
  | None => stop (Error 500 "failed to list signing keys")
  | Some ks =>
      if forallb (scans_creator scan_null) ks then stop (JSON 200 (BSigningKeyList ks))
      else stop (Error 500 "failed to read signing keys")
  end.

Definition key_refs (tenantID keyID : string) (db : DB) : nat :=
  count_where (fun _ f => bool_decide (fil_signature_key f = Some keyID) && (fil_tenant f =s tenantID)) (files db).

(** [DELETE FROM signing_keys]: refused while a file of whatever tenant, a binary
    or an installer names the key. *)
Definition delete_signing_key (tenantID keyID : string) (db : DB) : option (DB * nat) :=
  let n := count_where (own_row tenantID keyID) (signing_keys db) in
  if (n =? 0)%nat then Some (db, 0%nat)
  else if nonempty (select_where (fun _ f => bool_decide (fil_signature_key f = Some keyID)) (files db))
          || nonempty (select_where (fun _ b => avb_signature_key b =s keyID) (agent_version_binaries db))
          || nonempty (select_where (fun _ i => ins_signature_key i =s keyID) (installers db))
  then None
  else Some (set_signing_keys (delete_where (own_row tenantID keyID) (signing_keys db)) db, n).

Definition DeleteSigningKey (ctx : Ctx) (keyID : string) : Handler unit :=
  c ← query (key_refs (ctx_tenant ctx) keyID);
  match c with
  | None => stop (Error 500 "failed to check key references")
  | Some n =>
      if (0 <? n)%nat
      then stop (ErrorWithCode 409 "key_in_use" (Lit ("signing key is referenced by " +++ pretty n +++ " file(s)")))
      else
        r ← exec (delete_signing_key (ctx_tenant ctx) keyID);
        match r with
        | None => stop (Error 500 "failed to delete signing key")
        | Some O => stop (Error 404 "signing key not found")
        | Some _ =>
            _ ← LogAction (ctx_tenant ctx) (ctx_user ctx) ActorTypeUser "signing_key.delete" "signing_key" keyID [];
            stop NoContent
        end
  end.

(** The agents' view of a key. *)
Definition GetAgentSigningKey (ctx : Ctx) (keyID : string) : Handler unit :=
  if ctx_tenant ctx =s "" then stop (Error 401 "tenant not resolved")
  else
    row ← query_row (fun db => k ← signing_keys db !! keyID; if sgk_tenant k =s ctx_tenant ctx then Some (sgk_public_key k) else None);
    match row with
    | NoRows => stop (Error 404 "signing key not found")
    | DbErr => stop (Error 500 "failed to fetch signing key")
    | Row pk => stop (JSON 200 (BPublicKey pk))
    end.
