(* ===== verification/FileSpecs.v ===== *)
(** * Theorems on files

    Chunk counting and its bounds, what a completed upload guarantees, the
    invariant that stored files are what was declared, and where downloads and
    assembly fall short. *)

From stdpp Require Import relations.
From Stdlib Require Import QArith.
From S2P Require Import Prelude Prog Models JobState Database Scope Quota Float64 Paging Tenancy Fleet Files.

Local Close Scope Q_scope.
Local Open Scope nat_scope.

(** ** Running the accesses *)

Definition anyG : relation FStore := fun _ _ => True.

Section Rules.
Context (E : Env -> Prop).
Notation triple p Q s := (rg E (=) anyG p Q s).

Lemma on_db_rg {A : Type} (p : prog DB Outcome A) (Q : Outcome + A -> FStore -> Prop) s :
  rg E (=) (fun _ _ => True) p (fun r t => Q r (put_db t s)) (fs_db s) -> triple (on_db p) Q s.
Proof. apply rg_zoom; [by intros []|done|done]. Qed.

Lemma on_db_query_row {X : Type} (f : DB -> option X) (Q : Outcome + qres X -> FStore -> Prop) s :
  (may_fault E -> Q (inr DbErr) s) ->
  match f (fs_db s) with Some x => Q (inr (Row x)) s | None => Q (inr NoRows) s end ->
  triple (on_db (query_row f)) Q s.
Proof.
  intros H1 H2. apply on_db_rg, rg_query_row. intros ? <-. destruct s. split_and!; [done..|]. by destruct (f _).
Qed.

Lemma on_db_query {X : Type} (f : DB -> X) (Q : Outcome + option X -> FStore -> Prop) s :
  (may_fault E -> Q (inr None) s) -> Q (inr (Some (f (fs_db s)))) s -> triple (on_db (query f)) Q s.
Proof. intros H1 H2. apply on_db_rg, rg_query. intros ? <-. destruct s. by split_and!. Qed.

Lemma on_db_stmt (f : DB -> DB) (Q : Outcome + option unit -> FStore -> Prop) s :
  (may_fault E -> Q (inr None) s) -> Q (inr (Some tt)) (put_db (f (fs_db s)) s) -> triple (on_db (exec (stmt f))) Q s.
Proof. intros H1 H2. apply on_db_rg, rg_exec. intros ? <-. destruct s. by split_and!. Qed.

Lemma on_db_log T u at' ac rt ri m (Q : Outcome + unit -> FStore -> Prop) s :
  (forall l, Q (inr tt) (put_db (set_audit_log l (fs_db s)) s)) -> triple (on_db (LogAction T u at' ac rt ri m)) Q s.
Proof. intros H. apply on_db_rg, LogAction_any_rg; [done|done|]. intros l. apply H. Qed.

Lemma rg_access {X : Type} (f : Env -> FStore -> FStore * X) (Q : Outcome + X -> FStore -> Prop) s :
  (forall e, E e -> Q (inr (f e s).2) (f e s).1) -> triple (PStep f PRet) Q s.
Proof. intros H s1 e He <-. split; [done|]. by apply H. Qed.
End Rules.

Ltac f_step := first [rg_step | unfold answer; apply rg_stop]; cbv beta iota.

(** ** Assembly *)

(** The chunks of an upload, in order. *)
Fixpoint chunk_data (staged : gmap (string * Z) string) (uploadID : string) (ixs : list Z) : option string :=
  match ixs with
  | [] => Some ""
  | i :: ixs' => d ← staged !! (uploadID, i); rest ← chunk_data staged uploadID ixs'; Some (d +++ rest)
  end.

Lemma string_app_assoc (a b c : string) : (a +++ b) +++ c = a +++ (b +++ c).
Proof. induction a as [|x a IH]; [done|]. exact (f_equal (String x) IH). Qed.

Lemma string_app_nil (a : string) : a +++ "" = a.
Proof. induction a as [|x a IH]; [done|]. exact (f_equal (String x) IH). Qed.

Section Assemble.
Context (E : Env -> Prop) (fileID uploadID : string).

Definition blob_only (s s' : FStore) : Prop :=
  fs_db s' = fs_db s /\ fs_dirs s' = fs_dirs s /\ fs_staged s' = fs_staged s /\
  forall k, k <> fileID -> fs_blobs s' !! k = fs_blobs s !! k.

#[local] Instance blob_only_preorder : PreOrder blob_only.
Proof.
  split; [done|]. intros a b c (A1&A2&A3&A4) (B1&B2&B3&B4). split; [congruence|]. split; [congruence|]. split; [congruence|].
  intros k Hk. by rewrite B4, A4.
Qed.

Lemma blob_only_insert s d : blob_only s (put_blobs (<[fileID := d]> (fs_blobs s)) s).
Proof. split; [done|]. split; [done|]. split; [done|]. intros k Hk. simpl. by rewrite lookup_insert_ne. Qed.

Lemma blob_only_delete s : blob_only s (put_blobs (delete fileID (fs_blobs s)) s).
Proof. split; [done|]. split; [done|]. split; [done|]. intros k Hk. simpl. by rewrite lookup_delete_ne. Qed.

Lemma delete_blob_rg (Q : Outcome + unit -> FStore -> Prop) s :
  (forall s', blob_only s s' -> (~ may_fault E -> fs_blobs s' !! fileID = None) -> Q (inr tt) s') ->
  rg E (=) anyG (delete_blob fileID) Q s.
Proof.
  intros H. apply rg_access. intros e He. simpl. destruct (e_fault e) eqn:Ef; apply H.
  - reflexivity.
  - intros Hn. exfalso. apply Hn. by exists e.
  - apply blob_only_delete.
  - intros _. simpl. apply lookup_delete_eq.
Qed.

(** Assembly ends early because something failed or because a chunk is missing;
    then it answers with an error. *)
Definition bad_end (data : option string) (o : Outcome) : Prop :=
  (may_fault E \/ data = None /\ o <> Hang) /\ forall r, o = Answer r -> (400 <= resp_status r)%Z.

(** The loop over the chunks: it ends with all data sent and stored, or early,
    with an error or not at all. *)
Lemma send_chunks_rg ixs : forall sofar reading s (Q : Outcome + string * bool -> FStore -> Prop),
  (forall o s', blob_only s s' -> bad_end (chunk_data (fs_staged s) uploadID ixs) o -> Q (inl o) s') ->
  (reading = true -> fs_blobs s !! fileID = Some sofar) ->
  (reading = false -> may_fault E) ->
  (forall acc s', blob_only s s' ->
     (exists d, chunk_data (fs_staged s) uploadID ixs = Some d /\ acc.1 = sofar +++ d) ->
     (acc.2 = true -> fs_blobs s' !! fileID = Some acc.1) -> (acc.2 = false -> may_fault E) -> Q (inr acc) s') ->
  rg E (=) anyG (for_each ixs (sofar, reading) (send_chunk fileID uploadID)) Q s.
Proof.
  induction ixs as [|i ixs IH]; intros sofar reading s Q Hstop Hblob Hread Hdone.
  { apply Hdone; [reflexivity| |done..]. exists "". by rewrite string_app_nil. }
  apply rg_for_each_cons. unfold send_chunk. f_step. apply rg_access. intros e He. cbn [fst snd].
  destruct (if e_fault e then None else fs_staged s !! (uploadID, i)) as [d|] eqn:Ed.
  2: { assert (forall m, bad_end (chunk_data (fs_staged s) uploadID (i :: ixs)) (Answer (Error 500 m))) as Hbad.
       { intros m. split; [|by intros r [= <-]]. destruct (e_fault e) eqn:Ef; [left; by exists e|].
         right. simpl. by rewrite Ed. }
       f_step. destruct reading; [apply delete_blob_rg; intros s' Hs' _|f_step];
         (f_step; apply Hstop; [done || reflexivity|apply Hbad]). }
  assert (fs_staged s !! (uploadID, i) = Some d) as Hd by (by destruct (e_fault e)).
  assert (forall o, bad_end (chunk_data (fs_staged s) uploadID ixs) o ->
    bad_end (chunk_data (fs_staged s) uploadID (i :: ixs)) o) as Htail.
  { intros o [[?|[Hn ?]] ?]; (split; [|done]); [by left|right]. split; [|done]. simpl. by rewrite Hd, Hn. }
  assert (may_fault E -> bad_end (chunk_data (fs_staged s) uploadID (i :: ixs)) Hang) as Hhang.
  { intros ?. split; [by left|done]. }
  assert (forall acc s', (exists r, chunk_data (fs_staged s) uploadID ixs = Some r /\ acc.1 = (sofar +++ d) +++ r) ->
    blob_only s s' -> (acc.2 = true -> fs_blobs s' !! fileID = Some acc.1) -> (acc.2 = false -> may_fault E) ->
    Q (inr acc) s') as Hend.
  { intros acc s' (r & Hr & Hacc) ???. apply Hdone; try done. simpl. rewrite Hd. simpl. rewrite Hr. simpl.
    eexists. split; [done|]. by rewrite Hacc, string_app_assoc. }
  destruct reading; cbn [negb]; [|f_step; apply Hstop; [reflexivity|auto]].
  f_step. apply rg_access. intros e2 He2. destruct (e_fault e2) eqn:Ef2; cbn [fst snd].
  - assert (may_fault E) as Hm by (by exists e2). f_step. apply delete_blob_rg. intros s' Hs' _.
    assert (blob_only s s') as Hss by (etrans; [apply blob_only_insert|exact Hs']).
    assert (fs_staged s' = fs_staged s) as Hst by apply Hss.
    destruct (e_faults e2 0); f_step; [by apply Hstop; auto|].
    apply IH; [..|done|]; rewrite ?Hst.
    + intros o s2 H2 Ho. apply Hstop; [by etrans|auto].
    + done.
    + intros acc s2 H2 Hacc. apply Hend; [done|by etrans].
  - f_step. apply IH.
    + intros o s2 H2 Ho. apply Hstop; [etrans; [apply blob_only_insert|exact H2]|auto].
    + intros _. simpl. apply lookup_insert_eq.
    + done.
    + intros acc s2 H2 Hacc. apply Hend; [done|etrans; [apply blob_only_insert|exact H2]].
Qed.

Lemma assemble_rg total s (Q : Outcome + string -> FStore -> Prop) :
  (forall o s', blob_only s s' ->
     bad_end (chunk_data (fs_staged s) uploadID (chunk_indices (Z.to_nat total) 0)) o -> Q (inl o) s') ->
  (forall d s', blob_only s s' -> chunk_data (fs_staged s) uploadID (chunk_indices (Z.to_nat total) 0) = Some d ->
     fs_blobs s' !! fileID = Some d -> Q (inr d) s') ->
  rg E (=) anyG (assemble fileID uploadID total) Q s.
Proof.
  intros Hstop Hok. unfold assemble. f_step. apply rg_access. intros e He. simpl.
  set (s1 := (if e_fault e then (s, false) else _).1). set (created := (if e_fault e then (s, false) else _).2).
  assert (blob_only s s1) as H1.
  { unfold s1. destruct (e_fault e); [reflexivity|apply blob_only_insert]. }
  f_step. apply send_chunks_rg.
  - intros o s' Hs' Ho. destruct H1 as (A1 & A2 & A3 & A4). rewrite A3 in Ho.
    apply Hstop; [|done]. etrans; [|exact Hs']. by split_and!.
  - unfold created, s1. destruct (e_fault e); [done|]. intros _. simpl. apply lookup_insert_eq.
  - unfold created. destruct (e_fault e) eqn:Ef; [|done]. intros _. by exists e.
  - intros [data ok] s' Hs' (d & Hd & Hdata) Hb Hf. simpl in *. subst data.
    destruct H1 as (A1 & A2 & A3 & A4). rewrite A3 in Hd.
    destruct ok; cbn [negb]; f_step.
    + apply Hok; [|done|by apply Hb]. etrans; [|exact Hs']. by split_and!.
    + apply Hstop; [etrans; [|exact Hs']; by split_and!|]. split; [by left; apply Hf|by intros r [= <-]].
Qed.
End Assemble.

(** ** What a completed upload guarantees *)

(** The signature of a file against the keys of its tenant; [v] is what the row
    records. *)
Definition signature_checked (lib : SigLib) (tenantID : string) (f : File) (digest : string) (db : DB) (v : bool) : Prop :=
  let sig := default "" (fil_signature f) in
  let keyID := default "" (fil_signature_key f) in
  if (sig =s "") || (keyID =s "") then v = false
  else v = true /\ exists k der pub s,
    signing_keys db !! keyID = Some k /\ sgk_tenant k = tenantID /\
    parseEd25519PublicKeyPEM lib (sgk_public_key k) = inl (der, pub) /\
    b64_decode lib sig = Some s /\ ed25519_verify lib pub digest s = true.

Section Verify.
Context (E : Env -> Prop) (lib : SigLib) (T fileID digest : string).

Lemma verify_rg s (Q : Outcome + SigCheck -> FStore -> Prop) :
  (forall f v, find_file T fileID (fs_db s) = Some f -> signature_checked lib T f digest (fs_db s) v ->
     Q (inr (SigChecked v)) s) ->
  (forall m, (forall f v, find_file T fileID (fs_db s) = Some f -> ~ signature_checked lib T f digest (fs_db s) v) ->
     Q (inr (SigInvalid m)) s) ->
  (may_fault E \/ (forall f v, find_file T fileID (fs_db s) = Some f -> ~ signature_checked lib T f digest (fs_db s) v) ->
     Q (inr SigFailed) s) ->
  rg E (=) anyG (verifyFileSignature lib T fileID digest) Q s.
Proof.
  intros Hok Hbad Hfail. unfold verifyFileSignature. f_step. apply on_db_query_row.
  { intros ?. f_step. auto. }
  destruct (find_file T fileID (fs_db s)) as [f|] eqn:Hf.
  2: { f_step. apply Hfail. right. congruence. }
  cbv beta iota zeta.
  destruct ((default "" (fil_signature f) =s "") || (default "" (fil_signature_key f) =s "")) eqn:Es.
  { f_step. apply (Hok f); [done|]. unfold signature_checked. by rewrite Es. }
  assert (forall v, signature_checked lib T f digest (fs_db s) v <-> v = true /\ exists k der pub s',
    signing_keys (fs_db s) !! default "" (fil_signature_key f) = Some k /\ sgk_tenant k = T /\
    parseEd25519PublicKeyPEM lib (sgk_public_key k) = inl (der, pub) /\
    b64_decode lib (default "" (fil_signature f)) = Some s' /\ ed25519_verify lib pub digest s' = true) as Hsc.
  { intros v. unfold signature_checked. by rewrite Es. }
  f_step. apply on_db_query_row; [intros ?; f_step; auto|].
  destruct (signing_keys (fs_db s) !! _) as [k|] eqn:Hk; cbn [mbind option_bind]; cbv beta iota.
  2: { f_step. apply Hbad. intros ? v [= <-] (_ & k & ? & ? & ? & ? & _)%Hsc. congruence. }
  destruct (sgk_tenant k =s T) eqn:Ht; cbv beta iota; reflect_bools.
  2: { f_step. apply Hbad. intros ? v [= <-] (_ & k' & ? & ? & ? & ? & ? & _)%Hsc. congruence. }
  destruct (parseEd25519PublicKeyPEM lib (sgk_public_key k)) as [[der pub]|] eqn:Hp.
  2: { f_step. apply Hfail. right. intros ? v [= <-] (_ & k' & ? & ? & ? & ? & ? & ? & _)%Hsc. congruence. }
  destruct (b64_decode lib _) as [sg|] eqn:Hb.
  2: { f_step. apply Hbad. intros ? v [= <-] (_ & k' & ? & ? & ? & ? & ? & ? & ? & _)%Hsc. congruence. }
  destruct (ed25519_verify lib pub digest sg) eqn:Hv; f_step.
  - apply (Hok f); [done|]. apply Hsc. split; [done|]. by exists k, der, pub, sg.
  - apply Hbad. intros ? v [= <-] (_ & k' & ? & ? & ? & ? & ? & ? & ? & ?)%Hsc. congruence.
Qed.
End Verify.

Section Complete.
Context (h : FilesHandler) (ctx : Ctx) (uploadID : string).
Notation T := (ctx_tenant ctx).

Definition without_stage (st : gmap (string * Z) string) : gmap (string * Z) string :=
  filter (fun kv : string * Z * string => kv.1.1 <> uploadID) st.

(** All that an upload must be to be accepted. *)
Definition acceptable (s : FStore) (u : FileUpload) (f : File) (data : string) (v : bool) : Prop :=
  find_upload T uploadID (fs_db s) = Some u /\
  Z.of_nat (length (upl_uploaded_chunks u)) = upl_total_chunks u /\
  find_file T (upl_file u) (fs_db s) = Some f /\
  chunk_data (fs_staged s) uploadID (chunk_indices (Z.to_nat (upl_total_chunks u)) 0) = Some data /\
  sha256_hex_of (fh_lib h) data = fil_sha256 f /\
  signature_checked (fh_lib h) T f (sha256 (fh_lib h) data) (fs_db s) v.

(** The store after an accepted upload. *)
Definition stored (s s' : FStore) (u : FileUpload) (f : File) (data : string) (v : bool) (now : Z) : Prop :=
  files (fs_db s') = <[upl_file u := set_stored (blob_path (fh_base h) (upl_file u)) v f]> (files (fs_db s)) /\
  file_uploads (fs_db s') = <[uploadID := set_completed now u]> (file_uploads (fs_db s)) /\
  signing_keys (fs_db s') = signing_keys (fs_db s) /\
  fs_dirs s' = fs_dirs s ∖ {[uploadID]} /\ fs_staged s' = without_stage (fs_staged s) /\
  fs_blobs s' !! upl_file u = Some data /\
  (forall k, k <> upl_file u -> fs_blobs s' !! k = fs_blobs s !! k).

(** A refused upload: the tables are unchanged, and so is everything but the
    blob of its file. *)
Definition refused (s s' : FStore) : Prop :=
  fs_db s' = fs_db s /\ fs_dirs s' = fs_dirs s /\ fs_staged s' = fs_staged s /\
  forall k, (forall u, find_upload T uploadID (fs_db s) = Some u -> upl_file u <> k) -> fs_blobs s' !! k = fs_blobs s !! k.

Lemma remove_stage_rg E s (Q : Outcome + unit -> FStore -> Prop) :
  (forall s', fs_db s' = fs_db s -> fs_blobs s' = fs_blobs s ->
     (~ may_fault E -> fs_dirs s' = fs_dirs s ∖ {[uploadID]} /\ fs_staged s' = without_stage (fs_staged s)) -> Q (inr tt) s') ->
  rg E (=) anyG (remove_stage uploadID) Q s.
Proof.
  intros H. apply rg_access. intros e He. simpl. destruct (e_fault e) eqn:Ef; apply H; try done.
  intros Hn. exfalso. apply Hn. by exists e.
Qed.

Lemma finish_rg E s u f v (Q : Outcome + unit -> FStore -> Prop) :
  files (fs_db s) !! upl_file u = Some f -> file_uploads (fs_db s) !! uploadID = Some u ->
  (forall s' body now, fs_blobs s' = fs_blobs s ->
     (~ may_fault E ->
        files (fs_db s') = <[upl_file u := set_stored (blob_path (fh_base h) (upl_file u)) v f]> (files (fs_db s)) /\
        file_uploads (fs_db s') = <[uploadID := set_completed now u]> (file_uploads (fs_db s)) /\
        signing_keys (fs_db s') = signing_keys (fs_db s) /\
        fs_dirs s' = fs_dirs s ∖ {[uploadID]} /\ fs_staged s' = without_stage (fs_staged s)) ->
     Q (inl (Answer (JSON 200 body))) s') ->
  rg E (=) anyG (finish_upload h ctx uploadID (upl_file u) v) Q s.
Proof.
  intros Hf Hu H. unfold finish_upload. f_step. f_step. f_step.
  assert (forall s', fs_blobs s' = fs_blobs s ->
    (~ may_fault E -> fs_db s' = sql_complete uploadID t (sql_store_file (upl_file u) (blob_path (fh_base h) (upl_file u)) v (fs_db s)) /\
       fs_dirs s' = fs_dirs s /\ fs_staged s' = fs_staged s) ->
    rg E (=) anyG (_ ← remove_stage uploadID;
      _ ← on_db (LogAction T (ctx_user ctx) ActorTypeUser "file.upload" "file" (upl_file u) []);
      row ← on_db (query_row (fun db => files db !! upl_file u));
      answer (JSON 200 (BFile (upl_file u) (match row with Row f => Some (scan_file (fh_scan_null h) f).1 | _ => None end)))) Q s')
    as Hend.
  { intros s1 Hb Hok. f_step. apply remove_stage_rg. intros s2 Hdb Hb2 Hst. f_step. apply on_db_log. intros l.
    assert (forall body, Q (inl (Answer (JSON 200 body))) (put_db (set_audit_log l (fs_db s2)) s2)) as Hq.
    { intros body. apply (H _ _ t); [simpl; congruence|]. intros Hn. destruct (Hok Hn) as (E1 & E2 & E3), (Hst Hn) as [E4 E5].
      simpl. rewrite Hdb, E1. simpl. rewrite (update_id _ _ _ f), (update_id _ _ _ u) by done. rewrite E4, E5, E2, E3. done. }
    f_step. apply on_db_query_row; [intros ?; f_step; apply Hq|]. case_match; f_step; apply Hq. }
  apply on_db_stmt.
  - intros Hm. f_step. apply on_db_stmt; intros; apply Hend; simpl; done || (intros Hn; by exfalso).
  - f_step. apply on_db_stmt; [intros Hm|]; apply Hend; simpl; done || (intros Hn; by exfalso).
Qed.

(** From the assembly on, given the hash read before. *)
Lemma complete_checked_rg E s u expected (Q : Outcome + unit -> FStore -> Prop) :
  (forall d, sha256_hex_of (fh_lib h) d <> "") ->
  find_upload T uploadID (fs_db s) = Some u -> Z.of_nat (length (upl_uploaded_chunks u)) = upl_total_chunks u ->
  (expected <> "" -> exists f, files (fs_db s) !! upl_file u = Some f /\ fil_sha256 f = expected) ->
  (~ may_fault E -> forall f, files (fs_db s) !! upl_file u = Some f -> fil_sha256 f = expected) ->
  (forall r s', (400 <= resp_status r)%Z -> blob_only (upl_file u) s s' ->
     (~ may_fault E -> forall u f data v, ~ acceptable s u f data v) -> Q (inl (Answer r)) s') ->
  (forall s', may_fault E -> blob_only (upl_file u) s s' -> Q (inl Hang) s') ->
  (forall f data v now body s', acceptable s u f data v ->
     fs_blobs s' !! upl_file u = Some data ->
     (forall k, k <> upl_file u -> fs_blobs s' !! k = fs_blobs s !! k) ->
     (~ may_fault E -> stored s s' u f data v now) -> Q (inl (Answer (JSON 200 body))) s') ->
  rg E (=) anyG
    (data ← assemble (upl_file u) uploadID (upl_total_chunks u);
     let digest := sha256 (fh_lib h) data in
     if negb (hex (fh_lib h) digest =s expected) then
       _ ← delete_blob (upl_file u);
       answer (ErrorWithCode 400 "checksum_mismatch" (Lit "assembled file SHA-256 does not match expected hash"))
     else
       v ← verifyFileSignature (fh_lib h) T (upl_file u) digest;
       match v with
       | SigInvalid msg => _ ← delete_blob (upl_file u); answer (ErrorWithCode 400 "signature_invalid" (Lit msg))
       | SigFailed => _ ← delete_blob (upl_file u); answer (Error 500 "failed to verify file signature")
       | SigChecked verified => finish_upload h ctx uploadID (upl_file u) verified
       end) Q s.
Proof.
  intros Hne Hu Hlen Hexp Hexp' Hno Hhang Hok.
  assert (forall u' f data v, acceptable s u' f data v -> u' = u /\ files (fs_db s) !! upl_file u = Some f /\
    chunk_data (fs_staged s) uploadID (chunk_indices (Z.to_nat (upl_total_chunks u)) 0) = Some data) as Hacc.
  { intros u' f data v (Hu' & _ & Hf & Hd & _). assert (u' = u) as -> by congruence.
    unfold find_file in Hf. destruct (files (fs_db s) !! upl_file u) as [f'|]; [|done]. simpl in Hf.
    by destruct (fil_tenant f' =s T); simplify_eq. }
  f_step. apply assemble_rg.
  { intros o s' Hs' [Hbad Hans]. destruct o as [r|].
    - apply Hno; [by apply Hans|done|]. intros Hn u' f data v Ha%Hacc.
      destruct Hbad as [?|[Hbad _]]; [done|]. destruct Ha as (_ & _ & ?). congruence.
    - apply Hhang; [|done]. by destruct Hbad as [?|[_ ?]]. }
  intros data s1 Hs1 Hdata Hblob. cbv beta iota zeta. fold (sha256_hex_of (fh_lib h) data).
  assert (forall r s', blob_only (upl_file u) s1 s' -> (400 <= resp_status r)%Z ->
    (~ may_fault E -> forall u f data v, ~ acceptable s u f data v) -> Q (inl (Answer r)) s') as Hno1.
  { intros r s' Hs' Hr Hna. apply Hno; [done| |done]. destruct Hs1 as (A1 & A2 & A3 & A4), Hs' as (B1 & B2 & B3 & B4).
    split; [congruence|]. split; [congruence|]. split; [congruence|]. intros k Hk. by rewrite B4, A4. }
  destruct (sha256_hex_of (fh_lib h) data =s expected) eqn:Hsha; cbv beta iota delta [negb]; reflect_bools.
  2: { f_step. apply delete_blob_rg. intros s2 Hs2 _. f_step. apply Hno1; [done|done|].
       intros Hn u' f data' v Ha. destruct (Hacc _ _ _ _ Ha) as (-> & Hf & Hd).
       destruct Ha as (_ & _ & _ & _ & He & _). apply Hsha. rewrite <-(Hexp' Hn f Hf). congruence. }
  destruct Hexp as (f & Hf & Hfe); [rewrite <-Hsha; apply Hne|].
  assert (fs_db s1 = fs_db s) as Hdb by apply Hs1.
  f_step. apply verify_rg; rewrite ?Hdb.
  - intros f' v Hf' Hv.
    assert (f' = f) as ->.
    { unfold find_file in Hf'. rewrite Hf in Hf'. simpl in Hf'. by destruct (fil_tenant f =s T); simplify_eq. }
    assert (acceptable s u f data v) as Ha.
    { split_and!; try done. by rewrite Hsha, Hfe. }
    eapply finish_rg; [by rewrite Hdb| |].
    { rewrite Hdb. unfold find_upload in Hu. destruct (file_uploads (fs_db s) !! uploadID); simpl in Hu; [|done].
      by destruct (_ && _); simplify_eq. }
    intros s2 body now Hb Hst. destruct Hs1 as (A1 & A2 & A3 & A4).
    assert (forall k, k <> upl_file u -> fs_blobs s2 !! k = fs_blobs s !! k) as Hoth.
    { intros k Hk. rewrite Hb. by apply A4. }
    apply (Hok f data v now); [done|by rewrite Hb|done|]. intros Hn. destruct (Hst Hn) as (B1 & B2 & B3 & B4 & B5).
    rewrite A1, A2, A3 in *. unfold stored. split_and!; [done..|by rewrite Hb|done].
  - intros m Hm. f_step. apply delete_blob_rg. intros s2 Hs2 _. f_step. apply Hno1; [done|done|].
    intros _ u' f' data' v Ha. destruct (Hacc _ _ _ _ Ha) as (-> & _ & Hd). assert (data' = data) as -> by congruence.
    destruct Ha as (_ & _ & Hf' & _ & _ & Hs). by eapply Hm.
  - intros Hm. f_step. apply delete_blob_rg. intros s2 Hs2 _. f_step. apply Hno1; [done|done|].
    intros Hn u' f' data' v Ha. destruct (Hacc _ _ _ _ Ha) as (-> & _ & Hd). assert (data' = data) as -> by congruence.
    destruct Ha as (_ & _ & Hf' & _ & _ & Hs). destruct Hm as [?|Hm]; [done|]. by eapply Hm.
Qed.

Lemma complete_rg E s (Q : Outcome + unit -> FStore -> Prop) :
  (forall d, sha256_hex_of (fh_lib h) d <> "") ->
  (forall r s', (400 <= resp_status r)%Z -> refused s s' ->
     (~ may_fault E -> forall u f data v, ~ acceptable s u f data v) -> Q (inl (Answer r)) s') ->
  (forall s', may_fault E -> refused s s' -> Q (inl Hang) s') ->
  (forall u f data v now body s', acceptable s u f data v ->
     fs_blobs s' !! upl_file u = Some data ->
     (forall k, k <> upl_file u -> fs_blobs s' !! k = fs_blobs s !! k) ->
     (~ may_fault E -> stored s s' u f data v now) -> Q (inl (Answer (JSON 200 body))) s') ->
  rg E (=) anyG (CompleteUpload h ctx uploadID) Q s.
Proof.
  intros Hne Hno Hhang Hok. unfold CompleteUpload. f_step. apply on_db_query_row.
  { intros Hm. f_step. apply Hno; [done|done|]. by intros Hn. }
  destruct (find_upload T uploadID (fs_db s)) as [u|] eqn:Hu.
  2: { f_step. apply Hno; [done|done|]. intros _ u f data v [Hu' _]. congruence. }
  cbv beta iota zeta.
  destruct (Z.of_nat (length (upl_uploaded_chunks u)) =? upl_total_chunks u)%Z eqn:Hlen; cbn [negb].
  2: { f_step. apply Hno; [done|done|]. intros _ u' f data v (Hu' & Hl & _).
       apply Z.eqb_neq in Hlen. congruence. }
  apply Z.eqb_eq in Hlen.
  assert (forall s', blob_only (upl_file u) s s' -> refused s s') as Href.
  { intros s' (A1 & A2 & A3 & A4). split; [done|]. split; [done|]. split; [done|]. intros k Hk. apply A4.
    intros ->. by apply (Hk u). }
  assert (forall expected,
    (expected <> "" -> exists f, files (fs_db s) !! upl_file u = Some f /\ fil_sha256 f = expected) ->
    (~ may_fault E -> forall f, files (fs_db s) !! upl_file u = Some f -> fil_sha256 f = expected) -> _)
    as Hrest by (intros expected H1 H2; exact (complete_checked_rg E s u expected Q Hne Hu Hlen H1 H2
      (fun r s' a b c => Hno r s' a (Href s' b) c) (fun s' a b => Hhang s' a (Href s' b)) (Hok u))).
  f_step. apply on_db_query_row.
  - intros Hm. apply Hrest; [done|]. by intros Hn.
  - destruct (files (fs_db s) !! upl_file u) as [f|] eqn:Hf; apply Hrest; [by intros _; exists f|by intros _ ? [= <-]|done..].
Qed.
End Complete.

Lemma may_fault_envs env : may_fault (envs env) <-> exists n, e_fault (env n) = true.
Proof. split; [intros (e & [n <-] & Hf); eauto|intros [n Hn]; exists (env n); split; [by exists n|done]]. Qed.

(** POST /v1/files/uploads/{id}/complete on every branch, whatever fails.  A 200
    is for an upload of the caller's tenant with the right number of chunks whose
    assembled data has the declared hash and, when the file names a signature and
    a key, verifies against that key of the tenant; the data is then the blob of
    the file and, if nothing failed, the file and the upload are recorded as
    stored.  Any other answer is an error and changes no table; without failures
    it is given only to uploads that are not acceptable.  The handler fails to
    answer only if something failed. *)
Theorem complete_spec h ctx uploadID env s :
  (forall d, sha256_hex_of (fh_lib h) d <> "") ->
  let s' := run_store (CompleteUpload h ctx uploadID) env s in
  let faulty := exists n, e_fault (env n) = true in
  match run_result (CompleteUpload h ctx uploadID) env s with
  | inl (Answer r) =>
      (resp_status r = 200%Z /\ exists u f data v, acceptable h ctx uploadID s u f data v /\
         fs_blobs s' !! upl_file u = Some data /\ (~ faulty -> exists now, stored h uploadID s s' u f data v now)) \/
      ((400 <= resp_status r)%Z /\ refused ctx uploadID s s' /\
         (~ faulty -> forall u f data v, ~ acceptable h ctx uploadID s u f data v))
  | inl Hang => faulty /\ refused ctx uploadID s s'
  | inr _ => False
  end.
Proof.
  intros Hne. simpl. by_rg (envs env) anyG; [by intros m; exists m|].
  apply complete_rg; [done|..].
  - intros r s' Hr Href Hna. right. by rewrite may_fault_envs in Hna.
  - intros s' Hm Href. by rewrite may_fault_envs in Hm.
  - intros u f data v now body s' Ha Hb _ Hst. left. split; [done|]. exists u, f, data, v.
    rewrite may_fault_envs in Hst. split_and!; [done..|]. eauto.
Qed.

(** When [Save] cannot create its file, the handler of an upload whose chunks are
    all there never answers: the pipe is no longer read and the first write to it
    blocks. *)
Theorem complete_hangs h ctx uploadID u d env s :
  find_upload (ctx_tenant ctx) uploadID (fs_db s) = Some u ->
  Z.of_nat (length (upl_uploaded_chunks u)) = upl_total_chunks u -> (0 < upl_total_chunks u)%Z ->
  fs_staged s !! (uploadID, 0%Z) = Some d ->
  (forall n, e_fault (env n) = (n =? 2)) ->
  run_result (CompleteUpload h ctx uploadID) env s = inl Hang.
Proof.
  intros Hu Hl Ht Hd Henv. unfold run_result, CompleteUpload, on_db. simpl. rewrite !Henv. simpl. rewrite Hu. simpl.
  rewrite (proj2 (Z.eqb_eq _ _) Hl). simpl.
  destruct (Z.to_nat (upl_total_chunks u)) as [|n] eqn:En; [lia|].
  rewrite !Henv. simpl.
  destruct (files (fs_db s) !! upl_file u); simpl; unfold put_db; simpl; rewrite ?Henv; simpl; rewrite ?Hd; reflexivity.
Qed.

(** What a complete scan took from the row. *)
Lemma scan_file_ok scan_null f f' : scan_file scan_null f = (f', true) ->
  fil_size_bytes f' = fil_size_bytes f /\ fil_sha256 f' = fil_sha256 f /\
  fil_signature f' = (match fil_signature f with Some x => Some x | None => scan_null end) /\
  fil_signature_verified f' = fil_signature_verified f /\
  fil_signature_key f' = (match fil_signature_key f with Some x => Some x | None => scan_null end) /\
  (scan_null = None -> is_Some (fil_signature f) /\ is_Some (fil_signature_key f)).
Proof.
  unfold scan_file. repeat (case_match; try done); intros [= <-]; simpl; split_and!; try done; intros; simplify_eq; eauto.
Qed.

(** A download is answered only for a file of the caller's tenant, with the
    declared hash and size of its row, and never for a file with a signature that
    was not verified.  When the driver refuses NULL in a string, a file without a
    signature or key is not found at all. *)
Theorem download_spec h ctx fileID env s :
  run_store (Download h ctx fileID) env s = s /\
  match run_result (Download h ctx fileID) env s with
  | inl (Answer r) =>
      (resp_status r = 404 \/ resp_status r = 409)%Z \/
      exists f now, find_file (ctx_tenant ctx) fileID (fs_db s) = Some f /\
        (default "" (fil_signature f) <> "" -> fil_signature_verified f = true) /\
        (fh_scan_null h = None -> is_Some (fil_signature f) /\ is_Some (fil_signature_key f)) /\
        r = JSON 200 (BDownload
          {| fd_url := URL fileID; fd_size_bytes := fil_size_bytes f; fd_chunk_size_bytes := defaultChunkSize;
             fd_total_chunks := total_chunks (fil_size_bytes f); fd_sha256 := fil_sha256 f;
             fd_signature := default (default "" (fh_scan_null h)) (fil_signature f);
             fd_signature_key_id := default (default "" (fh_scan_null h)) (fil_signature_key f);
             fd_expires_at := now + 300 * 1000000000 |})
  | _ => False
  end.
Proof.
  by_rg any_env anyG; [done|]. unfold Download, load_file. f_step. f_step.
  apply on_db_query_row; [intros _; f_step; auto|].
  destruct (find_file (ctx_tenant ctx) fileID (fs_db s)) as [f|] eqn:Hf; [|f_step; auto].
  cbv beta iota. pose proof (scan_file_ok (fh_scan_null h) f) as Hscan.
  destruct (scan_file (fh_scan_null h) f) as [f' ok]. destruct ok; [|f_step; auto].
  destruct (Hscan f' eq_refl) as (E1 & E2 & E3 & E4 & E5 & E6). f_step.
  destruct (negb _ && negb _) eqn:Hsig; [f_step; auto|]. f_step. f_step. f_step.
  split; [done|]. right. exists f, t. rewrite E1, E2, E3, E4 in *. split; [done|].
  destruct (fil_signature f) as [sig|], (fil_signature_key f) as [k|], (fh_scan_null h) as [x|];
    (split; [|split; [|by rewrite ?E5]]); simpl in *; try (by eauto); try (by destruct E6);
    try (by intros; exfalso; destruct E6; done).
  all: intros Hs%seqb_neq; rewrite Hs in Hsig; by destruct (fil_signature_verified f).
Qed.
