(* ===== verification/FileHistory.v ===== *)
(** * Histories of file requests

    Requests to [server/api/files.go] that run one after the other, where
    accesses may fail except in completions: stored files are what was declared, uploads account for their
    chunks, and completion is decided by the data.  Chunk counting, which does
    not depend on a history, comes first. *)

From stdpp Require Import relations.
From Stdlib Require Import QArith Qround.
From S2P Require Import Prelude Prog Models JobState Database Scope Quota Enrollment Float64 Paging Tenancy Fleet Files FileSpecs.

Local Close Scope Q_scope.
Local Open Scope nat_scope.

(** ** Counting chunks *)

(** The chunk count is exact for every size up to 2^53 bytes: the floating-point
    division and ceiling give the integer one, so that the chunks cover the file
    and the last one is needed, and the count fits its INT column. *)
Theorem total_chunks_exact size :
  (0 < size <= 2 ^ 53)%Z ->
  total_chunks size = ((size + defaultChunkSize - 1) / defaultChunkSize)%Z /\
  ((total_chunks size - 1) * defaultChunkSize < size <= total_chunks size * defaultChunkSize)%Z /\
  int4_ok (total_chunks size) = true.
Proof.
  intros Hs. assert (total_chunks size = ((size + defaultChunkSize - 1) / defaultChunkSize)%Z) as ->.
  { unfold total_chunks. rewrite fceil_fdiv; unfold defaultChunkSize; lia. }
  split; [done|]. unfold int4_ok. rewrite andb_true_iff, !Z.leb_le. change defaultChunkSize with 5242880%Z.
  change (2 ^ 53)%Z with 9007199254740992%Z in Hs. change (2 ^ 31)%Z with 2147483648%Z.
  pose proof (Z.div_mod (size + 5242880 - 1) 5242880 ltac:(lia)).
  pose proof (Z.mod_pos_bound (size + 5242880 - 1) 5242880 ltac:(lia)). lia.
Qed.

Lemma total_chunks_nonneg size : (0 < size)%Z -> (0 <= total_chunks size)%Z.
Proof.
  intros Hs. unfold total_chunks, fceil, fdiv, float_of_int. apply Qceiling_resp_le with (x := 0%Q).
  assert (forall z, (0 < z)%Z -> (0 <= rnd (inject_Z z))%Q) as Hn.
  { intros z Hz. apply rnd_nonneg. change 0%Q with (inject_Z 0). rewrite <-Zle_Qle. lia. }
  apply rnd_nonneg, Qmult_le_0_compat; [auto|]. apply Qinv_le_0_compat. by apply Hn.
Qed.

(** ** Requests *)

Inductive FileRequest :=
| FInitiate (body : option initiateUploadRequest)
| FChunk (uploadID chunkIndexStr expectedHash : string) (body : option string)
| FStatus (uploadID : string)
| FComplete (uploadID : string)
| FList (limit cursor search : string)
| FGet (fileID : string)
| FDelete (fileID : string)
| FDownload (fileID : string)
| FData (fileID : string).

Definition file_serve (h : FilesHandler) (ctx : Ctx) (q : FileRequest) : FProg unit :=
  match q with
  | FInitiate body => InitiateUpload h ctx body
  | FChunk u i x body => UploadChunk h ctx u i x body
  | FStatus u => UploadStatus ctx u
  | FComplete u => CompleteUpload h ctx u
  | FList l c s => ListFiles h ctx l c s
  | FGet f => GetFile h ctx f
  | FDelete f => DeleteFile h ctx f
  | FDownload f => Download h ctx f
  | FData f => ServeFileData f
  end.

(** The accesses that may fail: all, except in a completion, whose last UPDATEs are
    not checked. *)
Definition may_fail (q : FileRequest) : Env -> Prop := match q with FComplete _ => ok_env | _ => any_env end.

(** One request, served undisturbed. *)
Inductive file_step (h : FilesHandler) : FStore -> FStore -> Prop :=
| file_step_one ctx q env s :
    (forall n, may_fail q (env n)) -> file_step h s (run_store (file_serve h ctx q) env s).

(** ** The invariant *)

Definition pending (u : FileUpload) : Prop := upl_completed_at u = None.

Record files_inv (h : FilesHandler) (s : FStore) : Prop := {
  fi_stored : forall id f, files (fs_db s) !! id = Some f -> fil_storage_path f <> "" ->
    exists d, fs_blobs s !! id = Some d /\ sha256_hex_of (fh_lib h) d = fil_sha256 f;
  fi_upload : forall uid u, file_uploads (fs_db s) !! uid = Some u ->
    exists f, files (fs_db s) !! upl_file u = Some f /\ fil_tenant f = upl_tenant u /\ (pending u -> fil_storage_path f = "");
  fi_unique : forall a b u v, file_uploads (fs_db s) !! a = Some u -> file_uploads (fs_db s) !! b = Some v ->
    upl_file u = upl_file v -> a = b;
  fi_chunks : forall uid u, file_uploads (fs_db s) !! uid = Some u ->
    (0 <= upl_total_chunks u)%Z /\ NoDup (upl_uploaded_chunks u) /\
    forall i, i ∈ upl_uploaded_chunks u -> (0 <= i < upl_total_chunks u)%Z;
  fi_staged : forall uid u, file_uploads (fs_db s) !! uid = Some u -> pending u ->
    forall i, i ∈ upl_uploaded_chunks u -> is_Some (fs_staged s !! (uid, i));
}.

Lemma files_inv_empty h s :
  files (fs_db s) = ∅ -> file_uploads (fs_db s) = ∅ -> files_inv h s.
Proof. intros Hf Hu. split; intros *; rewrite ?Hf, ?Hu, ?lookup_empty; done. Qed.

(** It depends on the two tables, the chunks and the blobs only. *)
Lemma files_inv_same h s s' :
  files (fs_db s') = files (fs_db s) -> file_uploads (fs_db s') = file_uploads (fs_db s) ->
  fs_staged s' = fs_staged s -> fs_blobs s' = fs_blobs s -> files_inv h s -> files_inv h s'.
Proof. intros E1 E2 E3 E4 []. split; rewrite ?E1, ?E2, ?E3, ?E4; done. Qed.

Section Kept.
Context (h : FilesHandler) (s : FStore) (Hinv : files_inv h s).

(** A new file with its upload. *)
Lemma inv_initiate s' fid uid f u :
  files (fs_db s) !! fid = None -> file_uploads (fs_db s) !! uid = None ->
  files (fs_db s') = <[fid := f]> (files (fs_db s)) -> file_uploads (fs_db s') = <[uid := u]> (file_uploads (fs_db s)) ->
  fs_staged s' = fs_staged s -> fs_blobs s' = fs_blobs s ->
  fil_storage_path f = "" -> upl_file u = fid -> upl_tenant u = fil_tenant f -> upl_uploaded_chunks u = [] ->
  (0 <= upl_total_chunks u)%Z -> files_inv h s'.
Proof.
  intros Hf Hu E1 E2 E3 E4 Hp Hfile Ht Hc Htot. destruct Hinv. split; rewrite ?E1, ?E2, ?E3, ?E4.
  - intros id f' [[<- <-]|[_ Hid]]%lookup_insert_Some; [done|eauto].
  - intros uid' u' [[<- <-]|[_ Hid]]%lookup_insert_Some.
    + exists f. by rewrite Hfile, lookup_insert_eq.
    + destruct (fi_upload0 uid' u' Hid) as (f' & Hf' & ?). exists f'. rewrite lookup_insert_ne; [done|]. congruence.
  - assert (forall a v, file_uploads (fs_db s) !! a = Some v -> upl_file v <> fid) as Hnew.
    { intros a v Ha. destruct (fi_upload0 a v Ha) as (f' & Hf' & _). congruence. }
    intros a b x y [[<- <-]|[_ Ha]]%lookup_insert_Some [[<- <-]|[_ Hb]]%lookup_insert_Some Hxy; [done|..].
    + exfalso. eapply Hnew; [exact Hb|]. congruence.
    + exfalso. eapply Hnew; [exact Ha|]. congruence.
    + eauto.
  - intros uid' u' [[<- <-]|[_ Hid]]%lookup_insert_Some; [|eauto]. rewrite Hc. split; [done|]. split; [constructor|]. by intros i ?%elem_of_nil.
  - intros uid' u' [[<- <-]|[_ Hid]]%lookup_insert_Some; [|eauto]. rewrite Hc. by intros _ i ?%elem_of_nil.
Qed.

(** A chunk on disk that the table does not list, or other data in one that it does. *)
Lemma inv_restaged uid i d : files_inv h (put_staged (<[(uid, i) := d]> (fs_staged s)) s).
Proof.
  destruct Hinv. split; try done. intros uid' u' Hu Hp j Hj. simpl.
  destruct (decide ((uid, i) = (uid', j))) as [->|Hn]; [rewrite lookup_insert_eq; eauto|].
  rewrite lookup_insert_ne by done. eauto.
Qed.

(** A chunk. *)
Lemma inv_chunk s' uid u i now d :
  file_uploads (fs_db s) !! uid = Some u -> (0 <= i < upl_total_chunks u)%Z ->
  files (fs_db s') = files (fs_db s) -> file_uploads (fs_db s') = <[uid := add_chunk i now u]> (file_uploads (fs_db s)) ->
  fs_staged s' = <[(uid, i) := d]> (fs_staged s) -> fs_blobs s' = fs_blobs s -> files_inv h s'.
Proof.
  intros Hu Hi E1 E2 E3 E4. destruct Hinv. split; rewrite ?E1, ?E2, ?E3, ?E4.
  - done.
  - intros uid' u' [[<- <-]|[_ Hid]]%lookup_insert_Some; eauto. exact (fi_upload0 uid u Hu).
  - intros a b x y [[<- <-]|[_ Ha]]%lookup_insert_Some [[<- <-]|[_ Hb]]%lookup_insert_Some Hxy; eauto.
  - intros uid' u' [[<- <-]|[_ Hid]]%lookup_insert_Some; [|eauto]. destruct (fi_chunks0 uid u Hu) as (Htot & Hn & Hr). simpl. split; [done|]. split.
    + apply NoDup_app. split_and!; [by apply NoDup_filter| |apply NoDup_singleton].
      intros j [Hj _]%list_elem_of_filter ?%list_elem_of_singleton. done.
    + intros j [[_ Hj]%list_elem_of_filter| ->%list_elem_of_singleton]%elem_of_app; auto.
  - intros uid' u' [[<- <-]|[_ Hid]]%lookup_insert_Some Hp j Hj.
    + destruct (decide (j = i)) as [->|Hn]; [rewrite lookup_insert_eq; eauto|].
      rewrite lookup_insert_ne by congruence. simpl in Hj.
      apply elem_of_app in Hj as [[_ Hj]%list_elem_of_filter|?%list_elem_of_singleton]; [eauto|done].
    + destruct (decide ((uid, i) = (uid', j))) as [->|Hn]; [rewrite lookup_insert_eq; eauto|].
      rewrite lookup_insert_ne by done. eauto.
Qed.

Lemma find_upload_Some T uid u db :
  find_upload T uid db = Some u <-> file_uploads db !! uid = Some u /\ upl_tenant u = T /\ pending u.
Proof.
  unfold find_upload, pending. destruct (file_uploads db !! uid) as [v|]; simpl; [|naive_solver].
  destruct (upl_tenant v =s T) eqn:Ht, (upl_completed_at v) eqn:Hc; reflect_bools; simpl; naive_solver.
Qed.

(** A refused completion. *)
Lemma inv_refused ctx uid s' : refused ctx uid s s' -> files_inv h s'.
Proof.
  intros (E1 & _ & E3 & E4). destruct Hinv. split; rewrite ?E1, ?E3; try done.
  intros id f Hf Hp. rewrite E4; [eauto|]. intros u (Hu & _ & Hpe)%find_upload_Some <-.
  destruct (fi_upload0 uid u Hu) as (f' & Hf' & _ & He). rewrite Hf in Hf'. simplify_eq. auto.
Qed.

(** An accepted one. *)
Lemma inv_stored ctx uid s' u f d v now :
  acceptable h ctx uid s u f d v -> stored h uid s s' u f d v now -> files_inv h s'.
Proof.
  intros (Hu & _ & Hf & _ & Hsha & _) (E1 & E2 & _ & _ & E3 & E4 & E5).
  apply find_upload_Some in Hu as (Hu & HuT & _). destruct Hinv. split; rewrite ?E1, ?E2, ?E3.
  - intros id f' [[<- <-]|[Hne Hid]]%lookup_insert_Some.
    + intros _. exists d. by split.
    + intros Hp. rewrite E5 by done. eauto.
  - assert (forall uid' u', file_uploads (fs_db s) !! uid' = Some u' -> exists f',
      <[upl_file u:=set_stored (blob_path (fh_base h) (upl_file u)) v f]> (files (fs_db s)) !! upl_file u' = Some f' /\
      fil_tenant f' = upl_tenant u' /\ (uid' <> uid -> pending u' -> fil_storage_path f' = "")) as Hall.
    { intros uid' u' Hid. destruct (fi_upload0 uid' u' Hid) as (f' & Hf' & Ht & Hp).
      destruct (decide (upl_file u' = upl_file u)) as [E|Hn].
      - rewrite E, lookup_insert_eq. eexists. split; [done|]. split; [|intros Hx; by specialize (fi_unique0 _ _ _ _ Hid Hu E)].
        unfold find_file in Hf. rewrite <-E, Hf' in Hf. simpl in Hf. by destruct (_ =s _); simplify_eq.
      - rewrite lookup_insert_ne by done. eauto. }
    intros uid' u' [[<- <-]|[Hne Hid]]%lookup_insert_Some.
    + destruct (Hall uid u Hu) as (f' & ? & ? & _). by exists f'.
    + destruct (Hall uid' u' Hid) as (f' & ? & ? & ?). exists f'. auto.
  - intros a b x y [[<- <-]|[_ Ha]]%lookup_insert_Some [[<- <-]|[_ Hb]]%lookup_insert_Some Hxy; eauto.
  - intros uid' u' [[<- <-]|[_ Hid]]%lookup_insert_Some; [|eauto]. exact (fi_chunks0 uid u Hu).
  - intros uid' u' [[<- <-]|[Hne Hid]]%lookup_insert_Some Hp i Hi; [done|].
    destruct (fi_staged0 uid' u' Hid Hp i Hi) as [x Hx]. exists x. apply map_lookup_filter_Some. split; [done|]. simpl. congruence.
Qed.

(** A deletion. *)
Lemma inv_delete T fid db' n s' :
  delete_file_row T fid (fs_db s) = Some (db', n) ->
  files (fs_db s') = files db' -> file_uploads (fs_db s') = file_uploads db' -> fs_staged s' = fs_staged s ->
  (forall k, k <> fid \/ n = 0 -> fs_blobs s' !! k = fs_blobs s !! k) -> files_inv h s'.
Proof.
  unfold delete_file_row. intros Hd E1 E2 E3 E4.
  destruct (count_where (own_row T fid) (files (fs_db s)) =? 0) eqn:Hn; [|destruct (_ || _); [done|]]; simplify_eq.
  { apply (files_inv_same h s); try done. apply map_eq. intros k. apply E4. by right. }
  assert (exists f, files (fs_db s) !! fid = Some f /\ own_row T fid fid f = true) as (f0 & Hf0 & Hown).
  { apply Nat.eqb_neq, map_size_ne_0_lookup in Hn as (k & f & [Hf Ho]%map_lookup_filter_Some).
    simpl in Ho. exists f. by destruct (decide (k = fid)) as [->|Hk]; [|unfold own_row in Ho; reflect_bools]. }
  assert (forall k f, files (fs_db s') !! k = Some f <-> k <> fid /\ files (fs_db s) !! k = Some f) as Hfiles.
  { intros k f. rewrite E1. simpl. rewrite lookup_delete_where. split.
    - intros [Hk Ho]. split; [|done]. intros ->. congruence.
    - intros [Hne Hk]. split; [done|]. unfold own_row. apply seqb_neq in Hne. by rewrite Hne. }
  assert (forall uid u, file_uploads (fs_db s') !! uid = Some u <-> upl_file u <> fid /\ file_uploads (fs_db s) !! uid = Some u) as Hups.
  { intros uid u. rewrite E2. simpl. rewrite lookup_delete_where, seqb_neq. tauto. }
  destruct Hinv. split; rewrite ?E3.
  - intros k f [Hne Hk]%Hfiles Hp. rewrite E4 by auto. eauto.
  - intros uid u [Hne Hu]%Hups. destruct (fi_upload0 uid u Hu) as (f & Hf & ?). exists f. by rewrite Hfiles.
  - intros a b u v [_ Hu]%Hups [_ Hv]%Hups. eauto.
  - intros uid u [_ Hu]%Hups. eauto.
  - intros uid u [_ Hu]%Hups. eauto.
Qed.
End Kept.

(** ** Every request keeps it *)

Section Requests.
Context (h : FilesHandler) (ctx : Ctx) (Hne : forall d, sha256_hex_of (fh_lib h) d <> "").
Notation keeps E p := (forall s, files_inv h s -> rg E (=) anyG p (fun _ s' => files_inv h s') s).

#[local] Instance anyG_refl : Reflexive anyG.
Proof. done. Qed.

Lemma read_keeps {A : Type} (E : Env -> Prop) (p : FProg A) : guar (=) p -> keeps E p.
Proof. intros Hp s Hs. by apply (rg_readonly _ anyG). Qed.

Lemma on_db_read {A : Type} (p : prog DB Outcome A) : guar (=) p -> guar (=) (on_db p).
Proof. intros Hp. apply guar_zoom. eapply guar_weaken; [|exact Hp]. intros a b -> [] <-. done. Qed.

Lemma CompleteUpload_keeps u : keeps ok_env (CompleteUpload h ctx u).
Proof.
  intros s Hs. apply complete_rg; [done|..].
  - intros r s' _ Hr _. by eapply inv_refused.
  - intros s' Hm. by apply ok_env_no_fault in Hm.
  - intros up f d v now body s' Ha _ _ Hst. by eapply inv_stored; [..|apply Hst, ok_env_no_fault].
Qed.

Lemma UploadChunk_keeps u i x body : keeps any_env (UploadChunk h ctx u i x body).
Proof.
  intros s Hs. unfold UploadChunk. destruct (Atoi i) as [idx|]; [|by f_step].
  f_step. apply on_db_query_row; [intros _; by f_step|].
  destruct (find_upload (ctx_tenant ctx) u (fs_db s)) as [up|] eqn:Hu; [|by f_step].
  apply find_upload_Some in Hu as (Hu & _ & _). f_step. f_step.
  destruct (_ <? _)%Z; [by f_step|]. destruct (_ || _) eqn:Hr; [by f_step|]. reflect_bools.
  destruct body as [d|]; [|by f_step]. destruct (_ <? _)%Z; [by f_step|]. destruct (_ && _); [by f_step|].
  f_step. unfold write_chunk. apply rg_access. intros e _. destruct (bool_decide _); cbn [fst snd negb]; [by f_step|].
  destruct (e_fault e); cbn [fst snd negb].
  { f_step. case_match; [done|]. by apply inv_restaged. }
  f_step. f_step. f_step. apply on_db_stmt; [intros _; f_step; by apply inv_restaged|].
  assert (files_inv h (put_db (sql_add_chunk u idx (t0 + uploadExpiry) (fs_db s)) (put_staged (<[(u, idx):=d]> (fs_staged s)) s))) as Hk.
  { apply (inv_chunk h s Hs _ u up idx (t0 + uploadExpiry) d); try done. simpl. by apply (update_id _ _ _ up). }
  f_step. apply on_db_query_row; [intros _; by f_step|]. by case_match; f_step.
Qed.

Lemma DeleteFile_keeps f : keeps any_env (DeleteFile h ctx f).
Proof.
  intros s Hs. unfold DeleteFile. f_step. cbv zeta.
  match goal with |- rg _ _ _ _ ?Q _ => assert (Q (inr (Some 0)) s) as Hgo end.
  2: { apply on_db_query; [intros _; exact Hgo|]. cbn [default]. unfold id. case_match; [by f_step|exact Hgo]. }
  cbv beta iota. change (0 <? default 0 (Some 0)) with false. cbv iota. f_step. apply on_db_query_row; [intros _; by f_step|].
  destruct (fil_storage_path <$> _) as [path|]; [|by f_step].
  f_step. apply on_db_rg, rg_exec. intros ? <-. split; [done|]. split; [intros _; f_step; by destruct s|].
  destruct (delete_file_row _ _ _) as [[db' n]|] eqn:Hd; [split; [done|]|by f_step; destruct s].
  assert (forall s', files (fs_db s') = files db' -> file_uploads (fs_db s') = file_uploads db' -> fs_staged s' = fs_staged s ->
    (forall k, k <> f \/ n = 0 -> fs_blobs s' !! k = fs_blobs s !! k) -> files_inv h s') as Hk.
  { intros s' ????. by eapply inv_delete. }
  destruct n as [|n]; [f_step; by apply Hk|].
  assert (forall s1, blob_only f (put_db db' s) s1 ->
    rg any_env (=) anyG (_ ← on_db (LogAction (ctx_tenant ctx) (ctx_user ctx) ActorTypeUser "file.delete" "file" f []); answer NoContent)
      (fun (_ : Outcome + unit) s' => files_inv h s') s1) as Hend.
  { intros s1 (B1 & B2 & B3 & B4). f_step. apply on_db_log. intros l. f_step. apply Hk; simpl; [by rewrite B1..|done|].
    intros k [Hk'|]; [|done]. by apply B4. }
  f_step. destruct (path =s "").
  - f_step. by apply Hend.
  - apply delete_blob_rg. intros s1 Hs1 _. by apply Hend.
Qed.

Lemma CheckFileSize_read r T n : guar (=) (CheckFileSize r T n : prog DB Outcome _).
Proof. apply (quota_guards (=@{DB})). Qed.

Lemma InitiateUpload_keeps body : keeps any_env (InitiateUpload h ctx body).
Proof.
  intros s Hs. unfold InitiateUpload. destruct body as [req|]; [|by f_step]. destruct (_ || _ || _) eqn:Hreq; [by f_step|]. reflect_bools.
  f_step. apply (rg_readonly _ anyG); [apply on_db_read, CheckFileSize_read|].
  intros [?|qe]; [done|]. destruct qe as [[]|]; try by f_step. cbv zeta.
  f_step. f_step. f_step. f_step. f_step. f_step.
  f_step. apply on_db_query; [intros _; by f_step|].
  f_step. apply on_db_rg, rg_transact. intros ? e _ <-.
  set (f := new_file ctx req t). set (up := new_upload _ _ _ _).
  destruct (tx_run _ _ _ _) as [db2|k] eqn:Htx; (split; [done|]); [|repeat case_match; f_step; by destruct s].
  apply tx_run_inl in Htx. simpl in Htx. apply bind_Some in Htx as (db1 & E1 & E2). rewrite bind_Some in E2. destruct E2 as (db3 & E2 & [= ->]).
  intros ? e0 _ <-. split; [done|]. unfold insert_file in E1. destruct (_ && _); [|done].
  apply bind_Some in E1 as (t1 & [Hn1 ->]%insert_new_Some & [= <-]). unfold insert_upload in E2. destruct (_ && _); [|done].
  apply bind_Some in E2 as (t2 & [Hn2 ->]%insert_new_Some & [= <-]).
  cbn [fst snd rg]. apply (inv_initiate h s Hs _ i i0 f up); try (by case_match); try done. by apply total_chunks_nonneg.
Qed.

Lemma file_serve_keeps q : keeps (may_fail q) (file_serve h ctx q).
Proof.
  destruct q; cbv beta iota delta [file_serve may_fail].
  - apply InitiateUpload_keeps.
  - apply UploadChunk_keeps.
  - apply read_keeps. unfold UploadStatus. guar_step; [apply on_db_read; guar_all|by case_match].
  - apply CompleteUpload_keeps.
  - apply read_keeps. unfold ListFiles. case_match. guar_step; [apply on_db_read; guar_all|]. repeat case_match; done.
  - apply read_keeps. unfold GetFile, load_file. repeat guar_step; try done. apply on_db_read; guar_all.
  - apply DeleteFile_keeps.
  - apply read_keeps. unfold Download, load_file. repeat guar_step; try done. apply on_db_read; guar_all.
  - apply read_keeps. unfold ServeFileData, open_blob. repeat guar_step; try done.
Qed.
End Requests.

Lemma history_inv h s0 s :
  (forall d, sha256_hex_of (fh_lib h) d <> "") -> rtc (file_step h) s0 s -> files_inv h s0 -> files_inv h s.
Proof.
  intros Hne Hs. induction Hs as [s|s s1 s2 Hs _ IH]; [done|]. intros Hinv. apply IH. destruct Hs as [ctx q env s Henv].
  by_rg (may_fail q) anyG; [done|]. by apply file_serve_keeps.
Qed.

(** C11: After any history of file requests of whatever users, served one at a time,
    where any access may fail except those of a completion, the blob of every
    stored file has the hash that was declared for it, every upload belongs to a
    file of its tenant, a file has at most one upload and is not stored while that
    is pending, an upload's chunks are distinct and in range, and each chunk of a
    pending upload is on disk. *)
Theorem files_intact h s0 s :
  (forall d, sha256_hex_of (fh_lib h) d <> "") ->
  files (fs_db s0) = ∅ -> file_uploads (fs_db s0) = ∅ -> rtc (file_step h) s0 s -> files_inv h s.
Proof. intros Hne Hf Hu Hs. eapply history_inv; [done|exact Hs|]. by apply files_inv_empty. Qed.

(** ** Counting is enough *)

Lemma chunk_indices_elem n : forall i j, j ∈ chunk_indices n i <-> (i <= j < i + Z.of_nat n)%Z.
Proof.
  induction n as [|n IH]; intros i j; simpl.
  - split; [by intros ?%elem_of_nil|lia].
  - rewrite elem_of_cons, IH. lia.
Qed.

Lemma chunk_indices_length n : forall i, length (chunk_indices n i) = n.
Proof. induction n; intros i; simpl; auto. Qed.

Lemma chunk_indices_NoDup n : forall i, NoDup (chunk_indices n i).
Proof. induction n; intros i; simpl; constructor; auto. rewrite chunk_indices_elem. lia. Qed.

Lemma count_is_all l total :
  (0 <= total)%Z -> NoDup l -> (forall i, i ∈ l -> (0 <= i < total)%Z) ->
  Z.of_nat (length l) = total <-> forall i, (0 <= i < total)%Z -> i ∈ l.
Proof.
  intros Ht Hn Hr. set (range := chunk_indices (Z.to_nat total) 0).
  assert (forall i, i ∈ range <-> (0 <= i < total)%Z) as He by (intros i; unfold range; rewrite chunk_indices_elem; lia).
  assert (length range = Z.to_nat total) as Hl by apply chunk_indices_length.
  pose proof (chunk_indices_NoDup (Z.to_nat total) 0) as Hnr. split.
  - intros Hlen i Hi.
    assert (l ⊆+ range) as Hs by (apply NoDup_submseteq; [done|]; intros j Hj; apply He; auto).
    apply submseteq_length_Permutation in Hs; [rewrite Hs; by apply He|lia].
  - intros Hall. assert (l ≡ₚ range) as ->; [|lia]. apply NoDup_Permutation; [done..|]. intros i. rewrite He. naive_solver.
Qed.

Lemma chunk_data_staged st uid ixs :
  (forall i, i ∈ ixs -> is_Some (st !! (uid, i))) -> is_Some (chunk_data st uid ixs).
Proof.
  induction ixs as [|i ixs IH]; intros H; simpl; [eauto|]. destruct (H i) as [d ->]; [left|]. simpl.
  destruct IH as [r ->]; [|simpl; eauto]. intros j Hj. apply H. by right.
Qed.

(** C12: In the states of such histories, the completion of a pending upload is
    decided by its data: when every index has been uploaded all of the data is
    there, and the answer is 200 exactly when every index has been uploaded and
    the chunks, in order, have the declared hash and pass the signature check.
    In particular comparing the number of chunks is enough. *)
Theorem complete_decides h ctx uid env s0 s u f :
  (forall d, sha256_hex_of (fh_lib h) d <> "") -> (forall n, ok_env (env n)) ->
  files (fs_db s0) = ∅ -> file_uploads (fs_db s0) = ∅ -> rtc (file_step h) s0 s ->
  find_upload (ctx_tenant ctx) uid (fs_db s) = Some u -> files (fs_db s) !! upl_file u = Some f ->
  let all_there := forall i, (0 <= i < upl_total_chunks u)%Z -> i ∈ upl_uploaded_chunks u in
  let data := chunk_data (fs_staged s) uid (chunk_indices (Z.to_nat (upl_total_chunks u)) 0) in
  (all_there -> is_Some data) /\
  ((exists body, run_result (CompleteUpload h ctx uid) env s = inl (Answer (JSON 200 body))) <->
   all_there /\ exists d v, data = Some d /\ sha256_hex_of (fh_lib h) d = fil_sha256 f /\
     signature_checked (fh_lib h) (ctx_tenant ctx) f (sha256 (fh_lib h) d) (fs_db s) v).
Proof.
  intros Hne Henv Hf0 Hu0 Hs Hu Hf all_there data.
  assert (files_inv h s) as [Hst Hup Huq Hch Hsg] by (eapply history_inv; [done|exact Hs|]; by apply files_inv_empty).
  pose proof Hu as (Hu' & Ht & Hp)%find_upload_Some.
  destruct (Hch uid u Hu') as (Htot & Hn & Hr). destruct (Hup uid u Hu') as (f' & Hf' & Hft & _). simplify_eq.
  assert (find_file (ctx_tenant ctx) (upl_file u) (fs_db s) = Some f) as Hff.
  { unfold find_file. rewrite Hf. simpl. by rewrite Hft, Ht, seqb_refl. }
  split.
  { intros Hall. apply chunk_data_staged. intros i Hi%chunk_indices_elem. apply (Hsg uid u Hu' Hp). apply Hall. lia. }
  assert (forall d v, acceptable h ctx uid s u f d v <-> all_there /\ data = Some d /\
    sha256_hex_of (fh_lib h) d = fil_sha256 f /\ signature_checked (fh_lib h) (ctx_tenant ctx) f (sha256 (fh_lib h) d) (fs_db s) v) as Hacc.
  { intros d v. unfold acceptable. rewrite (count_is_all _ _ Htot Hn Hr). fold all_there. fold data.
    split; [intros (_ & ? & Hx & ? & ? & ?)|intros (? & ? & ? & ?)]; [|by split_and!]. by split_and!. }
  by_rg (ok_env) anyG; [done|]. apply complete_rg; [done|..].
  - intros r s' Hr' _ Hna. split; [intros [body [= ->]]; simpl in Hr'; lia|].
    intros (Hall & d & v & Hd & Hsha & Hsig). exfalso. eapply (Hna ok_env_no_fault u f d v), Hacc. done.
  - intros s' Hm. by apply ok_env_no_fault in Hm.
  - intros u' f' d v now body s' Ha _ _ _. split; [intros _|eauto].
    assert (u' = u) as -> by (destruct Ha as [Ha _]; congruence).
    assert (f' = f) as -> by (destruct Ha as (_ & _ & Ha & _); congruence).
    apply Hacc in Ha as (? & ? & ? & ?). split; [done|]. by exists d, v.
Qed.
