(* ===== verification/TransferSpecs.v ===== *)
(** * File transfers end to end

    The agent's [file_transfer] handler (file [Transfer]) with the answers of the
    server's download handler (file [Files]). *)

From stdpp Require Import relations.
From S2P Require Import Prelude Text Platform Prog Models JobState Database Scope Quota Checkin Inventory Host Update Packages Transfer Paging Tenancy Fleet Files FileSpecs.

(** The download information comes from the server: what [Download] answered to
    the agent's request. *)
Definition served_by (h : FilesHandler) (ctx : Ctx) (lib : JobLib) : Prop :=
  forall id info, jl_info lib id = Some info ->
    exists env s, run_result (Download h ctx id) env s = inl (Answer (JSON 200 (BDownload info))).

(** The URL that the local storage backend hands out. *)
Lemma served_url h ctx lib id info : served_by h ctx lib -> jl_info lib id = Some info -> fd_url info = URL id.
Proof.
  intros Hs Hi. destruct (Hs id info Hi) as (env & s & Hr). destruct (download_spec h ctx id env s) as [_ H]. rewrite Hr in H.
  destruct H as [[H|H]|(f & now & _ & _ & _ & H)]; [done..|]. injection H as ->. done.
Qed.

Lemma URL_unsupported id : supported_url (URL id) = false.
Proof. done. Qed.

(** ** Theorem *)

(** C39: No file transfer completes: the download URL that the server answers has no
    scheme and no host, the agent requests it as it is, and the HTTP client refuses
    it.  Every transfer is reported as failed and puts nothing into the drop
    directory. *)
Theorem transfers_fail h ctx lib dropDir payload env a :
  served_by h ctx lib ->
  exists res, run_result (executeFileTransfer lib dropDir payload) env a = inl res /\ sub_status res = "failed" /\
    (ag_fs (run_store (executeFileTransfer lib dropDir payload) env a) = ag_fs a \/
     exists p, payload = JValid p /\
       Update.kept [temp_path dropDir (ftp_file_id p)] (ag_fs a) (ag_fs (run_store (executeFileTransfer lib dropDir payload) env a))).
Proof.
  intros Hs. pose proof (rg_run any_env _ _ _ env 0 a (fun _ => I) (transfer_rg lib dropDir payload a)) as (res & Hr & Ht).
  exists res. split; [done|]. destruct Ht as [(H1 & _ & _ & H2)|(p & info & c & -> & Hi & Hu & _)]; [done|].
  rewrite (served_url h ctx lib _ _ Hs Hi), URL_unsupported in Hu. done.
Qed.
