(* ===== verification/Schedules.v ===== *)
(** * Scheduled jobs and alert rules

    [server/api/scheduled_jobs.go], [server/api/alert_rules.go] and the parts of
    [server/store/scheduled_jobs.go] and [server/store/alert_rules.go] behind
    them; the queries of the scheduler are in [Scheduler].  The cron library is a
    parameter: a parsed schedule is its [Next], an error its text. *)

From stdpp Require Import relations.
From S2P Require Import Prelude Prog Models JobState Database Scope Quota JobSteps JobsApi AgentJobs Checkin Scheduler Tenancy Fleet.

Definition Cron := string -> (Z -> Z) + string.

(** What the scheduler makes of the same parser. *)
Definition cron_next_of (cron : Cron) (expr : string) (now : Z) : option Z :=
  match cron expr with inl next => Some (next now) | inr _ => None end.

(** The error of an update: [pgx.ErrNoRows], or another. *)
Inductive Affected := Done | NoSuchRow | Failed.

Definition affected {R : Type} (f : DB -> option (DB * nat)) : prog DB R Affected :=
  r ← exec f;
  mret (match r with None => Failed | Some O => NoSuchRow | Some _ => Done end).

(** The end of a handler that changed one row. *)
Definition after_change (noun verb : string) (a : Affected) (k : Handler unit) : Handler unit :=
  match a with
  | NoSuchRow => stop (Error 404 (noun +++ " not found"))
  | Failed => stop (Error 500 ("failed to " +++ verb +++ " " +++ noun))
  | Done => k
  end.

(** ** server/store/scheduled_jobs.go *)

Definition insert_scheduled_job (id : string) (sj : ScheduledJob) (db : DB) : option DB :=
  if fk (tenants db) (sj_tenant sj)
  then t ← insert_new id sj (scheduled_jobs db); Some (set_scheduled_jobs t db)
  else None.

(** A target or policy that does not unmarshal is shown as none. *)
Definition loaded_schedule (sj : ScheduledJob) : ScheduledJob :=
  {| sj_tenant := sj_tenant sj; sj_name := sj_name sj; sj_job_type := sj_job_type sj; sj_payload := sj_payload sj;
     sj_target := JValid <$> load_json (sj_target sj); sj_cron_expr := sj_cron_expr sj;
     sj_retry_policy := JValid <$> load_json (sj_retry_policy sj); sj_enabled := sj_enabled sj;
     sj_last_run_at := sj_last_run_at sj; sj_next_run_at := sj_next_run_at sj |}.

Definition find_schedule (tenantID id : string) (db : DB) : option ScheduledJob :=
  sj ← scheduled_jobs db !! id; if sj_tenant sj =s tenantID then Some (loaded_schedule sj) else None.

Definition GetScheduledJob {R : Type} (tenantID id : string) : prog DB R (option (option ScheduledJob)) :=
  row ← query_row (find_schedule tenantID id);
  mret (match row with Row sj => Some (Some sj) | NoRows => Some None | DbErr => None end).

Definition by_schedule_name (a b : string * ScheduledJob) : Prop := string_leb (sj_name a.2) (sj_name b.2) = true.
#[export] Instance by_schedule_name_dec : RelDecision by_schedule_name.
Proof. intros a b. unfold by_schedule_name. apply _. Defined.

Definition ListScheduledJobs (tenantID : string) (db : DB) : list (string * ScheduledJob) :=
  map (fun kv => (kv.1, loaded_schedule kv.2))
    (merge_sort by_schedule_name (select_where (fun _ sj => sj_tenant sj =s tenantID) (scheduled_jobs db))).

(** The [updates] map: a column that is absent keeps its value. *)
Record ScheduleUpdate := {
  su_name : option string;
  su_job_type : option string;
  su_payload : option string;
  su_target : option JobTarget;
  su_cron : option (string * Z);              (* cron_expr and next_run_at *)
  su_retry_policy : option RetryPolicy;
}.

Definition apply_schedule_update (u : ScheduleUpdate) (sj : ScheduledJob) : ScheduledJob :=
  {| sj_tenant := sj_tenant sj;
     sj_name := default (sj_name sj) (su_name u);
     sj_job_type := default (sj_job_type sj) (su_job_type u);
     sj_payload := default (sj_payload sj) (su_payload u);
     sj_target := match su_target u with Some t => Some (JValid t) | None => sj_target sj end;
     sj_cron_expr := match su_cron u with Some (e, _) => e | None => sj_cron_expr sj end;
     sj_retry_policy := match su_retry_policy u with Some r => Some (JValid r) | None => sj_retry_policy sj end;
     sj_enabled := sj_enabled sj;
     sj_last_run_at := sj_last_run_at sj;
     sj_next_run_at := match su_cron u with Some (_, n) => Some n | None => sj_next_run_at sj end |}.

Definition update_schedules (tenantID id : string) (f : ScheduledJob -> ScheduledJob) (db : DB) : option (DB * nat) :=
  Some (set_scheduled_jobs (update_where (own_row tenantID id) f (scheduled_jobs db)) db,
        count_where (own_row tenantID id) (scheduled_jobs db)).

Definition UpdateScheduledJob {R : Type} (tenantID id : string) (u : ScheduleUpdate) : prog DB R Affected :=
  affected (update_schedules tenantID id (apply_schedule_update u)).

Definition DeleteScheduledJob {R : Type} (tenantID id : string) : prog DB R Affected :=
  affected (fun db => Some (set_scheduled_jobs (delete_where (own_row tenantID id) (scheduled_jobs db)) db,
                            count_where (own_row tenantID id) (scheduled_jobs db))).

Definition set_schedule_enabled (b : bool) (sj : ScheduledJob) : ScheduledJob :=
  {| sj_tenant := sj_tenant sj; sj_name := sj_name sj; sj_job_type := sj_job_type sj; sj_payload := sj_payload sj;
     sj_target := sj_target sj; sj_cron_expr := sj_cron_expr sj; sj_retry_policy := sj_retry_policy sj;
     sj_enabled := b; sj_last_run_at := sj_last_run_at sj; sj_next_run_at := sj_next_run_at sj |}.

Definition SetScheduledJobEnabled {R : Type} (tenantID id : string) (b : bool) : prog DB R Affected :=
  affected (update_schedules tenantID id (set_schedule_enabled b)).

(** ** server/api/scheduled_jobs.go *)

Record createScheduledJobRequest := {
  csj_name : string;
  csj_job_type : string;
  csj_payload : string;                       (* [""]: absent *)
  csj_target : JobTarget;
  csj_cron_expr : string;
  csj_retry_policy : option RetryPolicy;
  csj_enabled : option bool;
}.

Definition new_schedule (ctx : Ctx) (req : createScheduledJobRequest) (nextRun : Z) : ScheduledJob :=
  {| sj_tenant := ctx_tenant ctx; sj_name := csj_name req; sj_job_type := csj_job_type req;
     sj_payload := csj_payload req; sj_target := Some (JValid (csj_target req)); sj_cron_expr := csj_cron_expr req;
     sj_retry_policy := JValid <$> csj_retry_policy req; sj_enabled := default true (csj_enabled req);
     sj_last_run_at := None; sj_next_run_at := Some nextRun |}.

(** The target check of [Create]. *)
Definition outside_scope (ctx : Ctx) (target : JobTarget) : bool :=
  negb (ctx_is_admin ctx) &&
  match ctx_scope ctx with Some sc => negb (TargetOverlapsScope (Some sc) (Some target)) | None => false end.

Definition invalid_cron (msg : string) : Response :=
  ErrorWithCode 400 "invalid_cron" (Lit ("invalid cron expression: " +++ msg)).

Definition CreateSchedule (cron : Cron) (audit : bool) (ctx : Ctx) (body : option createScheduledJobRequest) : Handler unit :=
  match body with
  | None => stop (Error 400 "invalid request body")
  | Some req =>
      if csj_name req =s "" then stop (Error 400 "name is required")
      else match ValidateType (csj_job_type req) with
      | Some e => stop (ErrorWithCode 400 "invalid_job_type" (OfErr e))
      | None =>
          if csj_payload req =s "" then stop (Error 400 "payload is required")
          else if outside_scope ctx (csj_target req)
          then stop (ErrorWithCode 403 "scope_violation" (Lit "scheduled job target is outside this key's scope"))
          else match cron (csj_cron_expr req) with
          | inr msg => stop (invalid_cron msg)
          | inl next =>
              now ← time_now;
              id ← new_id "sjb";
              let sj := new_schedule ctx req (next now) in
              r ← exec (stmt_opt (insert_scheduled_job id sj));
              match r with
              | None => stop (Error 500 "failed to create scheduled job")
              | Some _ =>
                  _ ← audited audit ctx "scheduled_job.create" "scheduled_job" id [];
                  stop (JSON 201 (BScheduledJob (Some (id, sj))))
              end
          end
      end
  end.

Definition ListSchedules (ctx : Ctx) : Handler unit :=
  r ← query (ListScheduledJobs (ctx_tenant ctx));
  match r with
  | None => stop (Error 500 "failed to list scheduled jobs")
  | Some items => stop (JSON 200 (BScheduledJobList items))
  end.

Definition GetSchedule (ctx : Ctx) (id : string) : Handler unit :=
  r ← GetScheduledJob (ctx_tenant ctx) id;
  match r with
  | None => stop (Error 500 "failed to get scheduled job")
  | Some None => stop (Error 404 "scheduled job not found")
  | Some (Some sj) => stop (JSON 200 (BScheduledJob (Some (id, sj))))
  end.

Record updateScheduledJobRequest := {
  usj_name : option string;
  usj_job_type : option string;
  usj_payload : option string;
  usj_target : option JobTarget;
  usj_cron_expr : option string;
  usj_retry_policy : option RetryPolicy;
}.

Definition has_updates (req : updateScheduledJobRequest) : bool :=
  bool_decide (is_Some (usj_name req) \/ is_Some (usj_job_type req) \/ is_Some (usj_payload req) \/
               is_Some (usj_target req) \/ is_Some (usj_cron_expr req) \/ is_Some (usj_retry_policy req)).

Definition schedule_update (req : updateScheduledJobRequest) (cron : option (string * Z)) : ScheduleUpdate :=
  {| su_name := usj_name req; su_job_type := usj_job_type req; su_payload := usj_payload req;
     su_target := usj_target req; su_cron := cron; su_retry_policy := usj_retry_policy req |}.

(** The new expression with its first activation, if there is one. *)
Definition update_cron (cron : Cron) (req : updateScheduledJobRequest) : Handler (option (string * Z)) :=
  match usj_cron_expr req with
  | None => mret None
  | Some e =>
      match cron e with
      | inr msg => stop (invalid_cron msg)
      | inl next => now ← time_now; mret (Some (e, next now))
      end
  end.

(** The target is not compared with the scope of the key. *)
Definition UpdateSchedule (cron : Cron) (audit : bool) (ctx : Ctx) (id : string) (body : option updateScheduledJobRequest)
    : Handler unit :=
  match body with
  | None => stop (Error 400 "invalid request body")
  | Some req =>
      match (t ← usj_job_type req; ValidateType t) with
      | Some e => stop (ErrorWithCode 400 "invalid_job_type" (OfErr e))
      | None =>
          c ← update_cron cron req;
          if negb (has_updates req) then stop (Error 400 "no fields to update")
          else
            a ← UpdateScheduledJob (ctx_tenant ctx) id (schedule_update req c);
            after_change "scheduled job" "update" a (
              _ ← audited audit ctx "scheduled_job.update" "scheduled_job" id [];
              r ← GetScheduledJob (ctx_tenant ctx) id;
              stop (JSON 200 (BScheduledJob (pair id <$> default None r))))
      end
  end.

Definition DeleteSchedule (audit : bool) (ctx : Ctx) (id : string) : Handler unit :=
  a ← DeleteScheduledJob (ctx_tenant ctx) id;
  after_change "scheduled job" "delete" a (
    _ ← audited audit ctx "scheduled_job.delete" "scheduled_job" id [];
    stop NoContent).

Definition EnableSchedule (audit : bool) (ctx : Ctx) (id : string) : Handler unit :=
  a ← SetScheduledJobEnabled (ctx_tenant ctx) id true;
  after_change "scheduled job" "enable" a (
    _ ← audited audit ctx "scheduled_job.enable" "scheduled_job" id [];
    stop NoContent).

Definition DisableSchedule (audit : bool) (ctx : Ctx) (id : string) : Handler unit :=
  a ← SetScheduledJobEnabled (ctx_tenant ctx) id false;
  after_change "scheduled job" "disable" a (
    _ ← audited audit ctx "scheduled_job.disable" "scheduled_job" id [];
    stop NoContent).

(** ** server/store/alert_rules.go *)

Definition insert_alert_rule (id : string) (ar : AlertRule) (db : DB) : option DB :=
  if fk (tenants db) (ar_tenant ar)
  then t ← insert_new id ar (alert_rules db); Some (set_alert_rules t db)
  else None.

(** Channels that do not unmarshal are sent as null: in a body, [JInvalid] stands
    for that. *)
Definition find_rule (tenantID id : string) (db : DB) : option AlertRule :=
  ar ← alert_rules db !! id; if ar_tenant ar =s tenantID then Some ar else None.

Definition GetAlertRule {R : Type} (tenantID id : string) : prog DB R (option (option AlertRule)) :=
  row ← query_row (find_rule tenantID id);
  mret (match row with Row ar => Some (Some ar) | NoRows => Some None | DbErr => None end).

Definition by_rule_name (a b : string * AlertRule) : Prop := string_leb (ar_name a.2) (ar_name b.2) = true.
#[export] Instance by_rule_name_dec : RelDecision by_rule_name.
Proof. intros a b. unfold by_rule_name. apply _. Defined.

Definition ListAlertRules (tenantID : string) (db : DB) : list (string * AlertRule) :=
  merge_sort by_rule_name (select_where (fun _ ar => ar_tenant ar =s tenantID) (alert_rules db)).

Record AlertRuleUpdate := {
  ru_name : option string;
  ru_condition : option (Json AlertCondition);
  ru_channels : option AlertChannels;
}.

Definition apply_rule_update (u : AlertRuleUpdate) (ar : AlertRule) : AlertRule :=
  {| ar_tenant := ar_tenant ar; ar_name := default (ar_name ar) (ru_name u);
     ar_condition := default (ar_condition ar) (ru_condition u);
     ar_channels := match ru_channels u with Some c => JValid c | None => ar_channels ar end;
     ar_enabled := ar_enabled ar |}.

Definition update_rules (tenantID id : string) (f : AlertRule -> AlertRule) (db : DB) : option (DB * nat) :=
  Some (set_alert_rules (update_where (own_row tenantID id) f (alert_rules db)) db,
        count_where (own_row tenantID id) (alert_rules db)).

Definition UpdateAlertRule {R : Type} (tenantID id : string) (u : AlertRuleUpdate) : prog DB R Affected :=
  affected (update_rules tenantID id (apply_rule_update u)).

Definition DeleteAlertRule {R : Type} (tenantID id : string) : prog DB R Affected :=
  affected (fun db => Some (set_alert_rules (delete_where (own_row tenantID id) (alert_rules db)) db,
                            count_where (own_row tenantID id) (alert_rules db))).

Definition set_rule_enabled (b : bool) (ar : AlertRule) : AlertRule :=
  {| ar_tenant := ar_tenant ar; ar_name := ar_name ar; ar_condition := ar_condition ar;
     ar_channels := ar_channels ar; ar_enabled := b |}.

Definition SetAlertRuleEnabled {R : Type} (tenantID id : string) (b : bool) : prog DB R Affected :=
  affected (update_rules tenantID id (set_rule_enabled b)).

(** ** server/api/alert_rules.go *)

Record createAlertRuleRequest := {
  car_name : string;
  car_condition : option (Json AlertCondition);
  car_channels : option AlertChannels;
  car_enabled : option bool;
}.

Definition CreateRule (audit : bool) (ctx : Ctx) (body : option createAlertRuleRequest) : Handler unit :=
  match body with
  | None => stop (Error 400 "invalid request body")
  | Some req =>
      if car_name req =s "" then stop (Error 400 "name is required")
      else match car_condition req with
      | None => stop (Error 400 "condition is required")
      | Some condition =>
          match car_channels req with
          | None => stop (Error 400 "channels is required")
          | Some channels =>
              id ← new_id "alr";
              let ar := {| ar_tenant := ctx_tenant ctx; ar_name := car_name req; ar_condition := condition;
                           ar_channels := JValid channels; ar_enabled := default true (car_enabled req) |} in
              r ← exec (stmt_opt (insert_alert_rule id ar));
              match r with
              | None => stop (Error 500 "failed to create alert rule")
              | Some _ =>
                  _ ← audited audit ctx "alert_rule.create" "alert_rule" id [];
                  stop (JSON 201 (BAlertRule (Some (id, ar))))
              end
          end
      end
  end.

Definition ListRules (ctx : Ctx) : Handler unit :=
  r ← query (ListAlertRules (ctx_tenant ctx));
  match r with
  | None => stop (Error 500 "failed to list alert rules")
  | Some items => stop (JSON 200 (BAlertRuleList items))
  end.

Definition GetRule (ctx : Ctx) (id : string) : Handler unit :=
  r ← GetAlertRule (ctx_tenant ctx) id;
  match r with
  | None => stop (Error 500 "failed to get alert rule")
  | Some None => stop (Error 404 "alert rule not found")
  | Some (Some ar) => stop (JSON 200 (BAlertRule (Some (id, ar))))
  end.

Definition UpdateRule (audit : bool) (ctx : Ctx) (id : string) (body : option AlertRuleUpdate) : Handler unit :=
  match body with
  | None => stop (Error 400 "invalid request body")
  | Some req =>
      if bool_decide (ru_name req = None /\ ru_condition req = None /\ ru_channels req = None)
      then stop (Error 400 "no fields to update")
      else
        a ← UpdateAlertRule (ctx_tenant ctx) id req;
        after_change "alert rule" "update" a (
          _ ← audited audit ctx "alert_rule.update" "alert_rule" id [];
          r ← GetAlertRule (ctx_tenant ctx) id;
          stop (JSON 200 (BAlertRule (pair id <$> default None r))))
  end.

Definition DeleteRule (audit : bool) (ctx : Ctx) (id : string) : Handler unit :=
  a ← DeleteAlertRule (ctx_tenant ctx) id;
  after_change "alert rule" "delete" a (
    _ ← audited audit ctx "alert_rule.delete" "alert_rule" id [];
    stop NoContent).

Definition EnableRule (audit : bool) (ctx : Ctx) (id : string) : Handler unit :=
  a ← SetAlertRuleEnabled (ctx_tenant ctx) id true;
  after_change "alert rule" "enable" a (
    _ ← audited audit ctx "alert_rule.enable" "alert_rule" id [];
    stop NoContent).

Definition DisableRule (audit : bool) (ctx : Ctx) (id : string) : Handler unit :=
  a ← SetAlertRuleEnabled (ctx_tenant ctx) id false;
  after_change "alert rule" "disable" a (
    _ ← audited audit ctx "alert_rule.disable" "alert_rule" id [];
    stop NoContent).

(** ** All requests *)

Inductive ScheduleRequest :=
| SCreate (body : option createScheduledJobRequest)
| SList
| SGet (id : string)
| SUpdate (id : string) (body : option updateScheduledJobRequest)
| SDelete (id : string)
| SEnable (id : string)
| SDisable (id : string)
| RCreate (body : option createAlertRuleRequest)
| RList
| RGet (id : string)
| RUpdate (id : string) (body : option AlertRuleUpdate)
| RDelete (id : string)
| REnable (id : string)
| RDisable (id : string).

Definition schedule_serve (cron : Cron) (audit : bool) (ctx : Ctx) (q : ScheduleRequest) : Handler unit :=
  match q with
  | SCreate b => CreateSchedule cron audit ctx b
  | SList => ListSchedules ctx
  | SGet id => GetSchedule ctx id
  | SUpdate id b => UpdateSchedule cron audit ctx id b
  | SDelete id => DeleteSchedule audit ctx id
  | SEnable id => EnableSchedule audit ctx id
  | SDisable id => DisableSchedule audit ctx id
  | RCreate b => CreateRule audit ctx b
  | RList => ListRules ctx
  | RGet id => GetRule ctx id
  | RUpdate id b => UpdateRule audit ctx id b
  | RDelete id => DeleteRule audit ctx id
  | REnable id => EnableRule audit ctx id
  | RDisable id => DisableRule audit ctx id
  end.
