(* ===== verification/ScheduleSpecs.v ===== *)
(** * Theorems on scheduled jobs and alert rules

    What each request stores, what the scheduler of [Scheduler] then considers
    due, and the scope check that updating a schedule leaves out. *)

From stdpp Require Import relations.
From S2P Require Import Prelude Prog Models JobState Database Scope Quota JobSteps JobsApi AgentJobs Checkin Scheduler Enrollment AgentAuth Tenancy Fleet FleetSpecs Schedules.

Notation G_any := (fun _ _ : DB => True).

(** ** Rules shared by the handlers *)

Lemma own_row_true {V : Type} `{!Owned V} T id k (v : V) : own_row T id k v = true <-> k = id /\ owner v = T.
Proof. unfold own_row. by rewrite andb_true_iff, !seqb_eq. Qed.

(** An [UPDATE] of the caller's row [id]. *)
Lemma update_own {V : Type} `{!Owned V} T id (f : V -> V) (t : gmap string V) v :
  t !! id = Some v -> owner v = T -> update_where (own_row T id) f t = <[id := f v]> t.
Proof.
  intros Hv HT. apply map_eq. intros k. rewrite lookup_update_where.
  destruct (decide (k = id)) as [->|Hk].
  - rewrite Hv, lookup_insert_eq. simpl. by rewrite (proj2 (own_row_true T id id v)).
  - rewrite lookup_insert_ne by done. destruct (t !! k) as [w|]; [|done]. simpl.
    destruct (own_row T id k w) eqn:E; [|done]. by apply own_row_true in E as [? _].
Qed.

Lemma count_own {V : Type} `{!Owned V} T id (t : gmap string V) :
  count_where (own_row T id) t <> 0 <-> exists v, t !! id = Some v /\ owner v = T.
Proof.
  unfold count_where. rewrite map_size_ne_0_lookup. split.
  - intros (k & v & [Hv Ho]%map_lookup_filter_Some). simpl in Ho. apply own_row_true in Ho as [-> ?]. eauto.
  - intros (v & Hv & Ho). exists id, v. apply map_lookup_filter_Some. split; [done|]. by apply own_row_true.
Qed.

(** The one statement of such a handler: done on the caller's row, or an error. *)
Lemma affected_rg {V : Type} `{!Owned V} (E : Env -> Prop) (get : DB -> gmap string V) (change : DB -> DB) T id db
    (Q : Response + Affected -> DB -> Prop) :
  (forall a, a <> Done -> Q (inr a) db) ->
  (forall v, get db !! id = Some v -> owner v = T -> Q (inr Done) (change db)) ->
  (get db !! id = None \/ (exists v, get db !! id = Some v /\ owner v <> T) -> change db = db) ->
  rg E (=) G_any (affected (fun db => Some (change db, count_where (own_row T id) (get db)))) Q db.
Proof.
  intros Herr Hok Hsame. unfold affected. rg_step. apply rg_exec. intros ? <-. split; [done|]. split.
  { intros _. rg_step. by apply Herr. }
  split; [done|]. rg_step. destruct (count_where (own_row T id) (get db)) as [|n] eqn:Hn.
  - rewrite Hsame; [by apply Herr|]. destruct (get db !! id) as [v|] eqn:Hv; [right|by left].
    exists v. split; [done|]. intros Ho. apply (proj2 (count_own T id (get db))) in Hn; [done|]. eauto.
  - assert (count_where (own_row T id) (get db) <> 0) as (v & Hv & Ho)%count_own by lia. by eapply Hok.
Qed.

Lemma update_foreign {V : Type} `{!Owned V} T id (f : V -> V) (t : gmap string V) :
  t !! id = None \/ (exists v, t !! id = Some v /\ owner v <> T) -> update_where (own_row T id) f t = t.
Proof.
  intros H. apply map_eq. intros k. rewrite lookup_update_where. destruct (t !! k) as [v|] eqn:Hk; [|done]. simpl.
  destruct (own_row T id k v) eqn:E; [|done]. apply own_row_true in E as [-> Ho]. destruct H as [?|(w & ? & ?)]; congruence.
Qed.

Lemma set_scheduled_same db : set_scheduled_jobs (scheduled_jobs db) db = db.
Proof. by destruct db. Qed.

Lemma update_schedules_rg (E : Env -> Prop) T id f db (Q : Response + Affected -> DB -> Prop) :
  (forall a, a <> Done -> Q (inr a) db) ->
  (forall sj, scheduled_jobs db !! id = Some sj -> sj_tenant sj = T ->
     Q (inr Done) (set_scheduled_jobs (<[id := f sj]> (scheduled_jobs db)) db)) ->
  rg E (=) G_any (affected (update_schedules T id f)) Q db.
Proof.
  intros Herr Hok. unfold update_schedules.
  apply (affected_rg E scheduled_jobs (fun db => set_scheduled_jobs (update_where (own_row T id) f (scheduled_jobs db)) db)); [done|..].
  - intros sj Hsj HT. rewrite (update_own T id f _ sj) by done. by apply Hok.
  - intros H. by rewrite update_foreign, set_scheduled_same.
Qed.

Lemma after_change_rg (E : Env -> Prop) noun verb a k db (Q : Response + unit -> DB -> Prop) :
  (forall r, (400 <= resp_status r)%Z -> Q (inl r) db) -> (a = Done -> rg E (=) G_any k Q db) ->
  rg E (=) G_any (after_change noun verb a k) Q db.
Proof. intros Herr Hk. destruct a; simpl; [by apply Hk|apply Herr..]; simpl; lia. Qed.

(** ** Creating *)

(** A request that may be stored, with its parsed expression. *)
Definition admissible (cron : Cron) (ctx : Ctx) (req : createScheduledJobRequest) (next : Z -> Z) : Prop :=
  csj_name req <> "" /\ csj_job_type req ∈ allJobTypes /\ csj_payload req <> "" /\
  outside_scope ctx (csj_target req) = false /\ cron (csj_cron_expr req) = inl next.

Lemma CreateSchedule_rg (E : Env -> Prop) cron audit ctx body db (Q : Response + unit -> DB -> Prop) :
  (forall r, (400 <= resp_status r)%Z -> Q (inl r) db) ->
  (forall req id next now l, body = Some req -> admissible cron ctx req next -> scheduled_jobs db !! id = None ->
     Q (inl (JSON 201 (BScheduledJob (Some (id, new_schedule ctx req (next now))))))
       (set_audit_log l (set_scheduled_jobs (<[id := new_schedule ctx req (next now)]> (scheduled_jobs db)) db))) ->
  rg E (=) G_any (CreateSchedule cron audit ctx body) Q db.
Proof.
  intros Herr Hok. unfold CreateSchedule.
  destruct body as [req|]; [|by apply rg_stop, Herr]. destruct (csj_name req =s "") eqn:Hname; [by apply rg_stop, Herr|].
  destruct (ValidateType (csj_job_type req)) eqn:Htype; [by apply rg_stop, Herr|].
  destruct (csj_payload req =s "") eqn:Hpay; [by apply rg_stop, Herr|].
  destruct (outside_scope ctx (csj_target req)) eqn:Hscope; [by apply rg_stop, Herr|].
  destruct (cron (csj_cron_expr req)) as [next|msg] eqn:Hcron; [|by apply rg_stop, Herr].
  rg_step. rg_step. rg_step. rg_step. rg_step. apply rg_exec. intros ? <-. split; [done|].
  split; [intros _; by apply rg_stop, Herr|].
  destruct (stmt_opt (insert_scheduled_job i (new_schedule ctx req (next t))) db) as [[db1 n]|] eqn:Hi;
    [split; [done|]|by apply rg_stop, Herr].
  apply stmt_opt_Some in Hi. unfold insert_scheduled_job in Hi. destruct (fk _ _); [|done].
  apply bind_Some in Hi as (t1 & [Hn ->]%insert_new_Some & [= <-]).
  cbv zeta. apply audited_then. intros l. apply Hok; [done| |done].
  unfold ValidateType in Htype. destruct (str_in _ _) eqn:Hin; [|done]. reflect_bools. split_and!; try done.
  by apply str_in_elem.
Qed.

(** What the scheduler considers due. *)
Lemma due_spec now db id sj : (id, sj) ∈ due_jobs now db <-> scheduled_jobs db !! id = Some sj /\ is_due now sj = true.
Proof. unfold due_jobs. by rewrite merge_sort_Permutation, elem_of_select_where. Qed.

(** POST /v1/scheduled-jobs on every branch, whatever fails: a 201 has a name, a
    known job type, a payload, a target the key's scope admits and an expression
    that parses, and stores exactly that schedule, which the scheduler considers
    due from the expression's next activation on, while enabled; any other answer
    is an error and leaves the schedules as they were. *)
Theorem create_schedule_spec cron audit env ctx body db :
  let r := run_result (CreateSchedule cron audit ctx body) env db in
  let db' := run_store (CreateSchedule cron audit ctx body) env db in
  (exists req id next now, body = Some req /\ admissible cron ctx req next /\
     r = inl (JSON 201 (BScheduledJob (Some (id, new_schedule ctx req (next now))))) /\
     scheduled_jobs db !! id = None /\
     scheduled_jobs db' = <[id := new_schedule ctx req (next now)]> (scheduled_jobs db) /\
     forall later, (exists sj, (id, sj) ∈ due_jobs later db') <->
       default true (csj_enabled req) = true /\ (next now <= later)%Z) \/
  (exists e, r = inl e /\ (400 <= resp_status e)%Z /\ scheduled_jobs db' = scheduled_jobs db).
Proof.
  simpl. by_rg any_env (fun _ _ : DB => True); [done|]. apply CreateSchedule_rg.
  - intros r Hr. right. eauto.
  - intros req id next now l Hb Ha Hn. left. exists req, id, next, now. split_and!; try done. intros later.
    setoid_rewrite due_spec. simpl. rewrite lookup_insert_eq. unfold is_due.
    split; [intros (sj & [= <-] & Hd)|intros [He Hl]; eexists; split; [done|]]; simpl in *.
    + by rewrite andb_true_iff, Z.leb_le in Hd.
    + rewrite He. simpl. lia.
Qed.

(** ** Updating *)

Lemma update_cron_rg (E : Env -> Prop) cron req db (Q : Response + option (string * Z) -> DB -> Prop) :
  (forall r, (400 <= resp_status r)%Z -> Q (inl r) db) ->
  (forall c, match usj_cron_expr req with
     | None => c = None
     | Some e => exists next now, cron e = inl next /\ c = Some (e, next now)
     end -> Q (inr c) db) ->
  rg E (=) G_any (update_cron cron req) Q db.
Proof.
  intros Herr Hok. unfold update_cron. destruct (usj_cron_expr req) as [e|]; [|rg_step; by apply Hok].
  destruct (cron e) as [next|msg] eqn:Hc; [|by apply rg_stop, Herr]. rg_step. rg_step. rg_step. apply Hok. eauto.
Qed.

Lemma UpdateSchedule_rg (E : Env -> Prop) cron audit ctx id body db (Q : Response + unit -> DB -> Prop) :
  (forall r, (400 <= resp_status r)%Z -> Q (inl r) db) ->
  (forall req c sj shown l, body = Some req -> has_updates req = true ->
     (forall t, usj_job_type req = Some t -> t ∈ allJobTypes) ->
     match usj_cron_expr req with
     | None => c = None
     | Some e => exists next now, cron e = inl next /\ c = Some (e, next now)
     end ->
     scheduled_jobs db !! id = Some sj -> sj_tenant sj = ctx_tenant ctx ->
     Q (inl (JSON 200 (BScheduledJob shown)))
       (set_audit_log l (set_scheduled_jobs (<[id := apply_schedule_update (schedule_update req c) sj]> (scheduled_jobs db)) db))) ->
  rg E (=) G_any (UpdateSchedule cron audit ctx id body) Q db.
Proof.
  intros Herr Hok. unfold UpdateSchedule. destruct body as [req|]; [|by apply rg_stop, Herr].
  destruct (t ← usj_job_type req; ValidateType t) eqn:Ht; [by apply rg_stop, Herr|].
  rg_step. apply update_cron_rg; [done|]. intros c Hc.
  destruct (has_updates req) eqn:Hu; cbv beta iota delta [negb]; [|by apply rg_stop, Herr].
  rg_step. unfold UpdateScheduledJob. apply update_schedules_rg.
  { intros a Ha. apply after_change_rg; [done|]. by intros ->. }
  intros sj Hsj HT. cbv beta iota delta [after_change].
  rg_step. apply audited_rg. intros l. rg_step. unfold GetScheduledJob. rg_step.
  assert (forall shown, Q (inl (JSON 200 (BScheduledJob shown)))
    (set_audit_log l (set_scheduled_jobs (<[id := apply_schedule_update (schedule_update req c) sj]> (scheduled_jobs db)) db))) as Hq.
  { intros shown. apply (Hok req c sj); try done. intros t Hx. rewrite Hx in Ht. simpl in Ht. unfold ValidateType in Ht.
    destruct (str_in _ _) eqn:Hin; [|done]. by apply str_in_elem. }
  apply rg_query_row. intros ? <-. split; [done|]. split; [intros _; rg_step; rg_step; apply Hq|].
  destruct (find_schedule _ _ _); rg_step; rg_step; apply Hq.
Qed.

(** PATCH /v1/scheduled-jobs/{id} on every branch, whatever fails: a 200 changes
    exactly the given columns of one schedule of the caller's tenant, the next
    activation with the expression; whether it is enabled and when it last ran
    stay.  Any other answer is an error and leaves the schedules as they were. *)
Theorem update_schedule_spec cron audit env ctx id body db :
  let r := run_result (UpdateSchedule cron audit ctx id body) env db in
  let db' := run_store (UpdateSchedule cron audit ctx id body) env db in
  (exists req c sj sj' shown, body = Some req /\ has_updates req = true /\
     scheduled_jobs db !! id = Some sj /\ sj_tenant sj = ctx_tenant ctx /\
     (forall t, usj_job_type req = Some t -> t ∈ allJobTypes) /\
     match usj_cron_expr req with
     | None => c = None
     | Some e => exists next now, cron e = inl next /\ c = Some (e, next now)
     end /\
     sj' = apply_schedule_update (schedule_update req c) sj /\
     sj_enabled sj' = sj_enabled sj /\ sj_last_run_at sj' = sj_last_run_at sj /\ sj_tenant sj' = sj_tenant sj /\
     r = inl (JSON 200 (BScheduledJob shown)) /\
     scheduled_jobs db' = <[id := sj']> (scheduled_jobs db)) \/
  (exists e, r = inl e /\ (400 <= resp_status e)%Z /\ scheduled_jobs db' = scheduled_jobs db).
Proof.
  simpl. by_rg any_env (fun _ _ : DB => True); [done|]. apply UpdateSchedule_rg.
  - intros r Hr. right. eauto.
  - intros req c sj shown l Hb Hu Ht Hc Hsj HT. left.
    exists req, c, sj, (apply_schedule_update (schedule_update req c) sj), shown. split_and!; done.
Qed.

(** ** Enabling and disabling *)

Lemma toggle_rg (E : Env -> Prop) b verb audit ctx action id db (Q : Response + unit -> DB -> Prop) :
  (forall r, (400 <= resp_status r)%Z -> Q (inl r) db) ->
  (forall sj l, scheduled_jobs db !! id = Some sj -> sj_tenant sj = ctx_tenant ctx ->
     Q (inl NoContent) (set_audit_log l (set_scheduled_jobs (<[id := set_schedule_enabled b sj]> (scheduled_jobs db)) db))) ->
  rg E (=) G_any
    (a ← SetScheduledJobEnabled (ctx_tenant ctx) id b;
     after_change "scheduled job" verb a (_ ← audited audit ctx action "scheduled_job" id []; stop NoContent)) Q db.
Proof.
  intros Herr Hok. rg_step. apply update_schedules_rg.
  - intros a Ha. apply after_change_rg; [done|]. by intros ->.
  - intros sj Hsj HT. cbv beta iota delta [after_change]. apply audited_then. intros l. by apply Hok.
Qed.

(** A disabled schedule is never due, an enabled one from its next activation
    on: after a 204 the scheduler's query says so for every time, and the other
    schedules are as they were. *)
Theorem toggle_schedule_spec (b : bool) audit env ctx id db :
  let h := if b then EnableSchedule audit ctx id else DisableSchedule audit ctx id in
  let db' := run_store h env db in
  (run_result h env db = inl NoContent /\
   exists sj, scheduled_jobs db !! id = Some sj /\ sj_tenant sj = ctx_tenant ctx /\
     (forall now, (exists sj', (id, sj') ∈ due_jobs now db') <->
        b = true /\ exists t, sj_next_run_at sj = Some t /\ (t <= now)%Z) /\
     (forall k, k <> id -> scheduled_jobs db' !! k = scheduled_jobs db !! k)) \/
  (exists e, run_result h env db = inl e /\ (400 <= resp_status e)%Z /\ scheduled_jobs db' = scheduled_jobs db).
Proof.
  cbv zeta. by_rg any_env (fun _ _ : DB => True); [done|].
  assert (forall verb action, rg any_env (=) G_any
    (a ← SetScheduledJobEnabled (ctx_tenant ctx) id b;
     after_change "scheduled job" verb a (_ ← audited audit ctx action "scheduled_job" id []; stop NoContent))
    (fun r db' => (r = inl NoContent /\
       exists sj, scheduled_jobs db !! id = Some sj /\ sj_tenant sj = ctx_tenant ctx /\
         (forall now, (exists sj', (id, sj') ∈ due_jobs now db') <->
            b = true /\ exists t, sj_next_run_at sj = Some t /\ (t <= now)%Z) /\
         (forall k, k <> id -> scheduled_jobs db' !! k = scheduled_jobs db !! k)) \/
       (exists e, r = inl e /\ (400 <= resp_status e)%Z /\ scheduled_jobs db' = scheduled_jobs db)) db) as H.
  { intros verb action. apply toggle_rg; [intros r Hr; right; eauto|]. intros sj l Hsj HT. left. split; [done|].
    exists sj. split_and!; try done.
    - intros now. setoid_rewrite due_spec. simpl. rewrite lookup_insert_eq. unfold is_due.
      split; [intros (sj' & [= <-] & Hd)|intros [-> (t & Ht & Hle)]; eexists; split; [done|]]; simpl in *.
      + apply andb_true_iff in Hd as [? Hd]. split; [done|]. destruct (sj_next_run_at sj) as [t|]; [|done]. exists t. split; [done|lia].
      + rewrite Ht. simpl. lia.
    - intros k Hk. simpl. by rewrite lookup_insert_ne. }
  destruct b; apply H.
Qed.

(** ** The scope of a key *)

(** Creating a schedule whose target is outside the scope of the key is refused,
    but the same key may give a schedule of its tenant that target: only
    [Create] compares them. *)
Theorem schedule_scope_gap cron audit env ctx req ureq id sj db :
  (forall n, ok_env (env n)) ->
  csj_name req <> "" -> csj_job_type req ∈ allJobTypes -> csj_payload req <> "" ->
  outside_scope ctx (csj_target req) = true ->
  ureq = {| usj_name := None; usj_job_type := None; usj_payload := None; usj_target := Some (csj_target req);
            usj_cron_expr := None; usj_retry_policy := None |} ->
  scheduled_jobs db !! id = Some sj -> sj_tenant sj = ctx_tenant ctx ->
  run_result (CreateSchedule cron audit ctx (Some req)) env db =
    inl (ErrorWithCode 403 "scope_violation" (Lit "scheduled job target is outside this key's scope")) /\
  (exists shown, run_result (UpdateSchedule cron audit ctx id (Some ureq)) env db = inl (JSON 200 (BScheduledJob shown))) /\
  exists sj', scheduled_jobs (run_store (UpdateSchedule cron audit ctx id (Some ureq)) env db) !! id = Some sj' /\
    sj_target sj' = Some (JValid (csj_target req)).
Proof.
  intros Henv Hn Ht Hp Ho -> Hsj HT. apply seqb_neq in Hn, Hp. apply str_in_elem in Ht.
  split.
  { unfold run_result, CreateSchedule, ValidateType. by rewrite Hn, Ht, Hp, Ho. }
  by_rg ok_env (fun _ _ : DB => True); [done|]. unfold UpdateSchedule, update_cron. cbn [mbind option_bind usj_job_type usj_cron_expr].
  rg_step. rg_step. cbv beta iota delta [negb has_updates].
  rewrite bool_decide_true by (simpl; eauto 10).
  rg_step. unfold UpdateScheduledJob, affected, update_schedules. rg_step. apply rg_exec. intros ? <-. split; [done|].
  split; [by intros ?%ok_env_no_fault|]. split; [done|]. rg_step.
  assert (count_where (own_row (ctx_tenant ctx) id) (scheduled_jobs db) <> 0) as Hc by (apply count_own; eauto).
  destruct (count_where _ _); [done|]. cbv beta iota delta [after_change].
  rg_step. apply audited_rg. intros l. rg_step. unfold GetScheduledJob. rg_step.
  rewrite (update_own _ _ _ _ sj) by done.
  apply rg_query_row. intros ? <-. split; [done|]. split; [by intros ?%ok_env_no_fault|].
  destruct (find_schedule _ _ _); rg_step; rg_step; (split; [eauto|]); simpl; rewrite lookup_insert_eq; eauto.
Qed.
