(* ===== verification/Versions.v ===== *)
(** * Agent versions, update policies and rollouts

    [server/api/agent_versions.go], [update_policies.go] and [rollouts.go] with
    their stores.  The version registry is shared by all tenants; policies and
    rollouts belong to one.  [scan_null] is what the driver makes of a NULL read
    into a Go string, as in [JobsApi] and [Files]. *)

From stdpp Require Import relations.
From S2P Require Import Prelude Prog Models JobState Database Scope Quota JobSteps JobsApi Paging Tenancy Fleet.

(** ** server/store/agent_versions.go *)

Definition version_taken (version : string) (db : DB) : bool :=
  nonempty (select_where (fun _ v => av_version v =s version) (agent_versions db)).

(** [version] is unique. *)
Definition insert_version (id : string) (v : AgentVersion) (db : DB) : option DB :=
  if version_taken (av_version v) db then None
  else t ← insert_new id v (agent_versions db); Some (set_agent_versions t db).

(** Foreign keys to the version, the file and the key; one binary per platform. *)
Definition insert_binary (id : string) (b : AgentVersionBinary) (db : DB) : option DB :=
  if fk (agent_versions db) (avb_version b) && fk (files db) (avb_file b) && fk (signing_keys db) (avb_signature_key b)
     && negb (nonempty (select_where (fun _ c => (avb_version c =s avb_version b) && (avb_os c =s avb_os b) && (avb_arch c =s avb_arch b))
                          (agent_version_binaries db)))
  then t ← insert_new id b (agent_version_binaries db); Some (set_agent_version_binaries t db)
  else None.

Definition version_statements (id : string) (v : AgentVersion) (bs : list (string * AgentVersionBinary)) : list (DB -> option DB) :=
  insert_version id v :: map (fun ib => insert_binary ib.1 ib.2) bs.

(** [false] is an error. *)
Definition CreateAgentVersion {R : Type} (id : string) (v : AgentVersion) (bs : list (string * AgentVersionBinary)) : prog DB R bool :=
  begin ← query (fun _ => tt);
  match begin with
  | None => mret false
  | Some _ => r ← transact (version_statements id v bs); mret (match r with None => true | Some _ => false end)
  end.

(** [Scan] of a version: the nullable columns are the changelog and the reason. *)
Definition scan_version (scan_null : option string) (v : AgentVersion) : option AgentVersion :=
  changelog ← scan_string scan_null (av_changelog v);
  reason ← scan_string scan_null (av_yank_reason v);
  Some {| av_version := av_version v; av_channel := av_channel v; av_changelog := Some changelog;
          av_yanked := av_yanked v; av_yank_reason := Some reason; av_created_at := av_created_at v |}.

Definition VersionView : Type := string * AgentVersion * list (string * AgentVersionBinary).

Definition binaries_of (versionID : string) (db : DB) : list (string * AgentVersionBinary) :=
  select_where (fun _ b => avb_version b =s versionID) (agent_version_binaries db).

Section Reading.
Context (scan_null : option string) {R : Type}.

(** A row with its binaries: [None] is an error, [Some None] a nil pointer. *)
Definition load_version (find : DB -> option (string * AgentVersion)) : prog DB R (option (option VersionView)) :=
  row ← query_row find;
  match row with
  | NoRows => mret (Some None)
  | DbErr => mret None
  | Row (id, v) =>
      match scan_version scan_null v with
      | None => mret None
      | Some v' =>
          bs ← query (binaries_of id);
          mret (match bs with None => None | Some bs => Some (Some (id, v', bs)) end)
      end
  end.

Definition find_version (version : string) (db : DB) : option (string * AgentVersion) :=
  head (select_where (fun _ v => av_version v =s version) (agent_versions db)).

Definition GetAgentVersion (version : string) : prog DB R (option (option VersionView)) := load_version (find_version version).

Definition GetAgentVersionByID (id : string) : prog DB R (option (option VersionView)) :=
  load_version (fun db => pair id <$> agent_versions db !! id).

Definition newest_version (a b : string * AgentVersion) : Prop := (av_created_at b.2 <= av_created_at a.2)%Z.
#[local] Instance newest_version_dec : RelDecision newest_version.
Proof. intros a b. unfold newest_version. apply _. Defined.

Definition latest_version (channel : string) (db : DB) : option (string * AgentVersion) :=
  head (merge_sort newest_version
          (select_where (fun _ v => (av_channel v =s channel) && negb (av_yanked v)) (agent_versions db))).

Definition GetLatestAgentVersion (channel : string) : prog DB R (option (option VersionView)) := load_version (latest_version channel).

(** A page of versions; the caller asks for one row more than it shows. *)
Definition version_rows (channel cursor : string) (limit : nat) (db : DB) : list (string * AgentVersion) :=
  take limit (merge_sort newest_version
    (select_where (fun id v => clause channel (av_channel v =s channel) && clause cursor (string_ltb id cursor))
       (agent_versions db))).

Fixpoint scan_versions (rows : list (string * AgentVersion)) : option (list (string * AgentVersion)) :=
  match rows with
  | [] => Some []
  | (id, v) :: rows' => v' ← scan_version scan_null v; rest ← scan_versions rows'; Some ((id, v') :: rest)
  end.

Definition ListAgentVersions (channel cursor : string) (limit : nat) : prog DB R (option (list VersionView)) :=
  call (
    r ← query (version_rows channel cursor limit);
    match r ≫= scan_versions with
    | None => stop None
    | Some vs =>
        out ← for_each vs [] (fun acc iv =>
          bs ← query (binaries_of iv.1);
          match bs with None => stop None | Some bs => mret (acc ++ [(iv.1, iv.2, bs)]) end);
        mret (Some out)
    end).
End Reading.

Definition set_yanked (reason : string) (v : AgentVersion) : AgentVersion :=
  {| av_version := av_version v; av_channel := av_channel v; av_changelog := av_changelog v; av_yanked := true;
     av_yank_reason := Some reason; av_created_at := av_created_at v |}.

Definition YankAgentVersion {R : Type} (version reason : string) : prog DB R bool :=
  affected_rows (fun db =>
    Some (set_agent_versions (update_where (fun _ v => av_version v =s version) (set_yanked reason) (agent_versions db)) db,
          count_where (fun _ v => av_version v =s version) (agent_versions db))).

(** ** server/api/agent_versions.go *)

Record publishVersionBinaryIn := {
  pb_os : string;
  pb_arch : string;
  pb_file_id : string;
  pb_sha256 : string;
  pb_signature : string;
  pb_signature_key_id : string;
}.

Record publishVersionRequest := {
  pv_version : string;
  pv_channel : string;
  pv_changelog : string;
  pv_binaries : list publishVersionBinaryIn;
}.

Definition known_channel (c : string) : bool := (c =s ChannelStable) || (c =s ChannelBeta) || (c =s ChannelCanary).

Definition incomplete_binary (b : publishVersionBinaryIn) : bool :=
  (pb_os b =s "") || (pb_arch b =s "") || (pb_file_id b =s "") || (pb_sha256 b =s "")
  || (pb_signature b =s "") || (pb_signature_key_id b =s "").

Definition new_binary (versionID : string) (b : publishVersionBinaryIn) : AgentVersionBinary :=
  {| avb_version := versionID; avb_os := pb_os b; avb_arch := pb_arch b; avb_file := pb_file_id b;
     avb_sha256 := pb_sha256 b; avb_signature := pb_signature b; avb_signature_key := pb_signature_key_id b |}.

Definition new_version (req : publishVersionRequest) (now : Z) : AgentVersion :=
  {| av_version := pv_version req; av_channel := pv_channel req; av_changelog := Some (pv_changelog req);
     av_yanked := false; av_yank_reason := None; av_created_at := now |}.

Definition number_binaries (versionID : string) (bs : list publishVersionBinaryIn) : Handler (list (string * AgentVersionBinary)) :=
  for_each bs [] (fun acc b => id ← new_id "avb"; mret (acc ++ [(id, new_binary versionID b)])).

Definition PublishVersion (scan_null : option string) (ctx : Ctx) (body : option publishVersionRequest) : Handler unit :=
  match body with
  | None => stop (Error 400 "invalid request body")
  | Some req =>
      if pv_version req =s "" then stop (Error 400 "version is required")
      else if pv_channel req =s "" then stop (Error 400 "channel is required")
      else if negb (known_channel (pv_channel req)) then stop (Error 400 "channel must be stable, beta, or canary")
      else if negb (nonempty (pv_binaries req)) then stop (Error 400 "at least one binary is required")
      else if existsb incomplete_binary (pv_binaries req)
      then stop (Error 400 "each binary requires os, arch, file_id, sha256, signature, and signature_key_id")
      else
        existing ← GetAgentVersion scan_null (pv_version req);
        match existing with
        | None => stop (Error 500 "failed to check version")
        | Some (Some _) => stop (ErrorWithCode 409 "version_exists" (Lit "version already exists"))
        | Some None =>
            now ← time_now;
            id ← new_id "avg";
            bs ← number_binaries id (pv_binaries req);
            ok ← CreateAgentVersion id (new_version req now) bs;
            if negb ok then stop (Error 500 "failed to publish version")
            else
              _ ← LogAction (ctx_tenant ctx) (ctx_user ctx) ActorTypeUser "agent_version.publish" "agent_version" id
                    [("version", pv_version req); ("channel", pv_channel req)];
              stop (JSON 201 (BVersion id (new_version req now) bs))
        end
  end.

Definition ListVersions (scan_null : option string) (limit_param cursor channel : string) : Handler unit :=
  let '(limit, cursor) := ParsePagination limit_param cursor in
  r ← ListAgentVersions scan_null channel cursor (S (Z.to_nat limit));
  match r with
  | None => stop (Error 500 "failed to list versions")
  | Some rows =>
      let hasMore := (limit <? Z.of_nat (length rows))%Z in
      let shown := if hasMore then take (Z.to_nat limit) rows else rows in
      stop (JSON 200 (BVersionList shown
        {| pg_next_cursor := if hasMore then match last shown with Some x => x.1.1 | None => "" end else "";
           pg_has_more := hasMore; pg_limit := limit |}))
  end.

Definition GetVersion (scan_null : option string) (version : string) : Handler unit :=
  r ← GetAgentVersion scan_null version;
  match r with
  | None => stop (Error 500 "failed to get version")
  | Some None => stop (Error 404 "version not found")
  | Some (Some (id, v, bs)) => stop (JSON 200 (BVersion id v bs))
  end.

Definition YankVersion (ctx : Ctx) (version : string) (body : option string) : Handler unit :=
  match body with
  | None => stop (Error 400 "invalid request body")
  | Some reason =>
      ok ← YankAgentVersion version reason;
      if negb ok then stop (Error 404 "version not found")
      else
        _ ← LogAction (ctx_tenant ctx) (ctx_user ctx) ActorTypeUser "agent_version.yank" "agent_version" version [("reason", reason)];
        stop NoContent
  end.

(** ** server/store/update_policies.go *)

Definition nilIfEmpty (s : string) : option string := if s =s "" then None else Some s.

(** The columns that [DO UPDATE] overwrites. *)
Definition overwrite_policy (p old : AgentUpdatePolicy) : AgentUpdatePolicy :=
  {| aup_tenant := aup_tenant old; aup_group := aup_group old; aup_enabled := aup_enabled p; aup_channel := aup_channel p;
     aup_schedule := aup_schedule p; aup_rollout_strategy := aup_rollout_strategy p;
     aup_rollout_batch_percent := aup_rollout_batch_percent p;
     aup_rollout_batch_interval_minutes := aup_rollout_batch_interval_minutes p |}.

(** The unique index on tenant and group: a NULL group conflicts with nothing. *)
Definition same_policy_slot (p : AgentUpdatePolicy) (_ : string) (q : AgentUpdatePolicy) : bool :=
  (aup_tenant q =s aup_tenant p) &&
  match aup_group p, aup_group q with Some g, Some h => g =s h | _, _ => false end.

Definition upsert_policy (id : string) (p : AgentUpdatePolicy) (db : DB) : option DB :=
  if fk (tenants db) (aup_tenant p) && fk_opt (groups db) (aup_group p)
     && int4_ok (aup_rollout_batch_percent p) && int4_ok (aup_rollout_batch_interval_minutes p)
  then
    if nonempty (select_where (same_policy_slot p) (agent_update_policies db))
    then Some (set_agent_update_policies
                 (update_where (same_policy_slot p) (overwrite_policy p) (agent_update_policies db)) db)
    else t ← insert_new id p (agent_update_policies db); Some (set_agent_update_policies t db)
  else None.

Definition find_policy (tenantID groupID : string) (db : DB) : option (string * AgentUpdatePolicy) :=
  head (select_where (fun _ p => (aup_tenant p =s tenantID) && bool_decide (aup_group p = nilIfEmpty groupID))
          (agent_update_policies db)).

Definition GetUpdatePolicy {R : Type} (tenantID groupID : string) : prog DB R (option (option (string * AgentUpdatePolicy))) :=
  row ← query_row (find_policy tenantID groupID);
  mret (match row with Row p => Some (Some p) | NoRows => Some None | DbErr => None end).

(** The group policies in the order given, then the default. *)
Definition GetEffectiveUpdatePolicy {R : Type} (tenantID : string) (groupIDs : list string)
    : prog DB R (option (option (string * AgentUpdatePolicy))) :=
  call (
    _ ← for_each groupIDs tt (fun _ gid =>
          p ← GetUpdatePolicy tenantID gid;
          match p with
          | None => stop None
          | Some (Some p) => stop (Some (Some p))
          | Some None => mret tt
          end);
    GetUpdatePolicy tenantID "").

(** [ORDER BY group_id NULLS FIRST]. *)
Definition by_group (a b : string * AgentUpdatePolicy) : Prop :=
  match aup_group a.2, aup_group b.2 with
  | None, _ => True
  | Some _, None => False
  | Some g, Some h => string_leb g h = true
  end.
#[export] Instance by_group_dec : RelDecision by_group.
Proof. intros a b. unfold by_group. repeat case_match; apply _. Defined.

Definition ListUpdatePolicies (tenantID : string) (db : DB) : list (string * AgentUpdatePolicy) :=
  merge_sort by_group (select_where (fun _ p => aup_tenant p =s tenantID) (agent_update_policies db)).

Definition DeleteUpdatePolicy {R : Type} (tenantID policyID : string) : prog DB R bool :=
  affected_rows (fun db =>
    Some (set_agent_update_policies (delete_where (own_row tenantID policyID) (agent_update_policies db)) db,
          count_where (own_row tenantID policyID) (agent_update_policies db))).

(** ** server/api/update_policies.go *)

Record upsertPolicyRequest := {
  up_group_id : string;
  up_enabled : option bool;
  up_channel : string;
  up_schedule : string;
  up_rollout_strategy : string;
  up_rollout_batch_percent : option Z;
  up_rollout_batch_interval_minutes : option Z;
}.

Definition or_else (s d : string) : string := if s =s "" then d else s.

Definition requested_policy (ctx : Ctx) (req : upsertPolicyRequest) : AgentUpdatePolicy :=
  {| aup_tenant := ctx_tenant ctx; aup_group := nilIfEmpty (up_group_id req); aup_enabled := default true (up_enabled req);
     aup_channel := or_else (up_channel req) ChannelStable; aup_schedule := nilIfEmpty (up_schedule req);
     aup_rollout_strategy := or_else (up_rollout_strategy req) "gradual";
     aup_rollout_batch_percent := default 10%Z (up_rollout_batch_percent req);
     aup_rollout_batch_interval_minutes := default 60%Z (up_rollout_batch_interval_minutes req) |}.

Definition UpsertPolicy (ctx : Ctx) (body : option upsertPolicyRequest) : Handler unit :=
  match body with
  | None => stop (Error 400 "invalid request body")
  | Some req =>
      let p := requested_policy ctx req in
      if negb (known_channel (aup_channel p)) then stop (Error 400 "channel must be stable, beta, or canary")
      else if negb ((aup_rollout_strategy p =s "immediate") || (aup_rollout_strategy p =s "gradual"))
      then stop (Error 400 "rollout_strategy must be immediate or gradual")
      else
        id ← new_id "aup";
        r ← exec (stmt_opt (upsert_policy id p));
        match r with
        | None => stop (Error 500 "failed to save policy")
        | Some _ =>
            _ ← LogAction (ctx_tenant ctx) (ctx_user ctx) ActorTypeUser "update_policy.upsert" "update_policy" id
                  [("group_id", up_group_id req); ("channel", aup_channel p)];
            stop (JSON 200 (BPolicy id p))
        end
  end.

Definition ListPolicies (ctx : Ctx) : Handler unit :=
  r ← query (ListUpdatePolicies (ctx_tenant ctx));
  match r with
  | None => stop (Error 500 "failed to list policies")
  | Some ps => stop (JSON 200 (BPolicyList ps))
  end.

Definition DeletePolicy (ctx : Ctx) (policyID : string) : Handler unit :=
  ok ← DeleteUpdatePolicy (ctx_tenant ctx) policyID;
  if negb ok then stop (Error 404 "policy not found")
  else
    _ ← LogAction (ctx_tenant ctx) (ctx_user ctx) ActorTypeUser "update_policy.delete" "update_policy" policyID [];
    stop NoContent.

(** ** server/store/rollouts.go *)

(** One rollout of a version per tenant. *)
Definition insert_rollout (id : string) (r : Rollout) (db : DB) : option DB :=
  if fk (agent_versions db) (ro_version r) && fk (tenants db) (ro_tenant r)
     && negb (nonempty (select_where (fun _ q => (ro_version q =s ro_version r) && (ro_tenant q =s ro_tenant r)) (agent_rollouts db)))
     && int4_ok (ro_batch_percent r) && int4_ok (ro_batch_interval_minutes r) && int4_ok (ro_total_devices r)
  then t ← insert_new id r (agent_rollouts db); Some (set_agent_rollouts t db)
  else None.

(** The columns [CreateRollout] does not name take their defaults. *)
Definition CreateRollout {R : Type} (id : string) (r : Rollout) : prog DB R bool :=
  x ← exec (stmt_opt (insert_rollout id
        {| ro_version := ro_version r; ro_tenant := ro_tenant r; ro_status := ro_status r; ro_strategy := ro_strategy r;
           ro_batch_percent := ro_batch_percent r; ro_batch_interval_minutes := ro_batch_interval_minutes r;
           ro_current_batch := 0; ro_total_devices := ro_total_devices r; ro_updated_devices := 0;
           ro_rolled_back_devices := 0; ro_seed := ro_seed r; ro_last_batch_at := None; ro_created_at := ro_created_at r |}));
  mret (match x with None => false | Some _ => true end).

Definition find_rollout (versionID tenantID : string) (db : DB) : option (string * Rollout) :=
  head (select_where (fun _ r => (ro_version r =s versionID) && (ro_tenant r =s tenantID)) (agent_rollouts db)).

Definition GetRollout {R : Type} (versionID tenantID : string) : prog DB R (option (option (string * Rollout))) :=
  row ← query_row (find_rollout versionID tenantID);
  mret (match row with Row r => Some (Some r) | NoRows => Some None | DbErr => None end).

Definition GetRolloutByID {R : Type} (id : string) : prog DB R (option (option (string * Rollout))) :=
  row ← query_row (fun db => pair id <$> agent_rollouts db !! id);
  mret (match row with Row r => Some (Some r) | NoRows => Some None | DbErr => None end).

Definition set_rollout_status (status : string) (r : Rollout) : Rollout :=
  {| ro_version := ro_version r; ro_tenant := ro_tenant r; ro_status := status; ro_strategy := ro_strategy r;
     ro_batch_percent := ro_batch_percent r; ro_batch_interval_minutes := ro_batch_interval_minutes r;
     ro_current_batch := ro_current_batch r; ro_total_devices := ro_total_devices r;
     ro_updated_devices := ro_updated_devices r; ro_rolled_back_devices := ro_rolled_back_devices r; ro_seed := ro_seed r;
     ro_last_batch_at := ro_last_batch_at r; ro_created_at := ro_created_at r |}.

Definition UpdateRolloutStatus {R : Type} (id status : string) : prog DB R bool :=
  affected_rows (fun db =>
    Some (set_agent_rollouts (update_where (fun k _ => k =s id) (set_rollout_status status) (agent_rollouts db)) db,
          count_where (fun k _ => k =s id) (agent_rollouts db))).

Definition set_batch (batch updated : Z) (at_ : option Z) (r : Rollout) : Rollout :=
  {| ro_version := ro_version r; ro_tenant := ro_tenant r; ro_status := ro_status r; ro_strategy := ro_strategy r;
     ro_batch_percent := ro_batch_percent r; ro_batch_interval_minutes := ro_batch_interval_minutes r;
     ro_current_batch := batch; ro_total_devices := ro_total_devices r; ro_updated_devices := updated;
     ro_rolled_back_devices := ro_rolled_back_devices r; ro_seed := ro_seed r;
     ro_last_batch_at := at_; ro_created_at := ro_created_at r |}.

Definition UpdateRolloutBatch {R : Type} (id : string) (batch updated : Z) (at_ : option Z) : prog DB R bool :=
  r ← exec (fun db =>
    if int4_ok batch && int4_ok updated
    then Some (set_agent_rollouts (update_where (fun k _ => k =s id) (set_batch batch updated at_) (agent_rollouts db)) db, tt)
    else None);
  mret (match r with None => false | Some _ => true end).

Definition bump_rolled_back (r : Rollout) : Rollout :=
  {| ro_version := ro_version r; ro_tenant := ro_tenant r; ro_status := ro_status r; ro_strategy := ro_strategy r;
     ro_batch_percent := ro_batch_percent r; ro_batch_interval_minutes := ro_batch_interval_minutes r;
     ro_current_batch := ro_current_batch r; ro_total_devices := ro_total_devices r;
     ro_updated_devices := ro_updated_devices r; ro_rolled_back_devices := ro_rolled_back_devices r + 1; ro_seed := ro_seed r;
     ro_last_batch_at := ro_last_batch_at r; ro_created_at := ro_created_at r |}.

Definition IncrementRollbackCount {R : Type} (id : string) : prog DB R bool :=
  r ← exec (fun db =>
    if match agent_rollouts db !! id with Some r => int4_ok (ro_rolled_back_devices r + 1) | None => true end
    then Some (set_agent_rollouts (update_where (fun k _ => k =s id) bump_rolled_back (agent_rollouts db)) db, tt)
    else None);
  mret (match r with None => false | Some _ => true end).

Definition ListActiveRollouts (db : DB) : list (string * Rollout) :=
  select_where (fun _ r => ro_status r =s RolloutStatusInProgress) (agent_rollouts db).

(** ** server/api/rollouts.go *)

(** The version and the caller's rollout of it. *)
Definition with_rollout (scan_null : option string) (ctx : Ctx) (version : string) (k : string -> Rollout -> Handler unit) : Handler unit :=
  v ← GetAgentVersion scan_null version;
  match v with
  | None => stop (Error 500 "failed to look up version")
  | Some None => stop (Error 404 "version not found")
  | Some (Some (versionID, _, _)) =>
      r ← GetRollout versionID (ctx_tenant ctx);
      match r with
      | None => stop (Error 500 "failed to get rollout")
      | Some None => stop (Error 404 "no rollout found for this version")
      | Some (Some (id, ro)) => k id ro
      end
  end.

Definition GetStatus (scan_null : option string) (ctx : Ctx) (version : string) : Handler unit :=
  with_rollout scan_null ctx version (fun id ro => stop (JSON 200 (BRollout id ro))).

(** The [switch] on the new status: [Some] is the refusal. *)
Definition refuses (status newStatus : string) : option string :=
  if newStatus =s RolloutStatusPaused then
    if negb (status =s RolloutStatusInProgress) then Some "can only pause an in-progress rollout" else None
  else if newStatus =s RolloutStatusInProgress then
    if negb (status =s RolloutStatusPaused) then Some "can only resume a paused rollout" else None
  else if newStatus =s RolloutStatusAborted then
    if negb (status =s RolloutStatusInProgress) && negb (status =s RolloutStatusPaused)
    then Some "can only abort an active or paused rollout" else None
  else None.

Definition updateRolloutStatus (scan_null : option string) (ctx : Ctx) (version newStatus action : string) : Handler unit :=
  with_rollout scan_null ctx version (fun id ro =>
    match refuses (ro_status ro) newStatus with
    | Some msg => stop (ErrorWithCode 409 "invalid_state" (Lit msg))
    | None =>
        ok ← UpdateRolloutStatus id newStatus;
        if negb ok then stop (Error 500 "failed to update rollout")
        else
          _ ← LogAction (ctx_tenant ctx) (ctx_user ctx) ActorTypeUser action "rollout" id
                [("version", version); ("new_status", newStatus)];
          stop NoContent
    end).

Definition Pause (scan_null : option string) (ctx : Ctx) (version : string) : Handler unit :=
  updateRolloutStatus scan_null ctx version RolloutStatusPaused "rollout.pause".
Definition Resume (scan_null : option string) (ctx : Ctx) (version : string) : Handler unit :=
  updateRolloutStatus scan_null ctx version RolloutStatusInProgress "rollout.resume".
Definition Abort (scan_null : option string) (ctx : Ctx) (version : string) : Handler unit :=
  updateRolloutStatus scan_null ctx version RolloutStatusAborted "rollout.abort".

(** ** All requests *)

Inductive VersionRequest :=
| VPublish (body : option publishVersionRequest)
| VList (limit cursor channel : string)
| VGet (version : string)
| VYank (version : string) (body : option string)
| PUpsert (body : option upsertPolicyRequest)
| PList
| PDelete (policyID : string)
| OStatus (version : string)
| OPause (version : string)
| OResume (version : string)
| OAbort (version : string).

Definition version_serve (scan_null : option string) (ctx : Ctx) (q : VersionRequest) : Handler unit :=
  match q with
  | VPublish b => PublishVersion scan_null ctx b
  | VList l c ch => ListVersions scan_null l c ch
  | VGet v => GetVersion scan_null v
  | VYank v b => YankVersion ctx v b
  | PUpsert b => UpsertPolicy ctx b
  | PList => ListPolicies ctx
  | PDelete p => DeletePolicy ctx p
  | OStatus v => GetStatus scan_null ctx v
  | OPause v => Pause scan_null ctx v
  | OResume v => Resume scan_null ctx v
  | OAbort v => Abort scan_null ctx v
  end.
