(* ===== verification/VersionSpecs.v ===== *)
(** * Theorems on agent versions, update policies and rollouts

    Publication is atomic, rollouts follow their state machine while requests run
    one at a time and can leave it when they interleave, a group policy is what
    was last stored for the group, and where NULL columns get in the way. *)

From stdpp Require Import relations.
From S2P Require Import Prelude Prog Models JobState Database Scope Quota JobSteps JobsApi AgentJobs Checkin Scheduler Enrollment AgentAuth Paging Tenancy Fleet FleetSpecs Schedules ScheduleSpecs Versions.

(** ** Rollouts *)

(** The state machine behind the three operations. *)
Inductive rollout_next : string -> string -> Prop :=
| rn_pause : rollout_next RolloutStatusInProgress RolloutStatusPaused
| rn_resume : rollout_next RolloutStatusPaused RolloutStatusInProgress
| rn_abort s : s = RolloutStatusInProgress \/ s = RolloutStatusPaused -> rollout_next s RolloutStatusAborted.

Lemma refuses_next s new :
  new ∈ [RolloutStatusPaused; RolloutStatusInProgress; RolloutStatusAborted] -> refuses s new = None -> rollout_next s new.
Proof.
  unfold refuses. rewrite !elem_of_cons, elem_of_nil. intros [->|[->|[->|[]]]]; simpl.
  - destruct (s =s RolloutStatusInProgress) eqn:E; [|done]. reflect_bools. subst. constructor.
  - destruct (s =s RolloutStatusPaused) eqn:E; [|done]. reflect_bools. subst. constructor.
  - destruct (s =s RolloutStatusInProgress) eqn:E1; reflect_bools; [intros _; constructor; by left|].
    destruct (s =s RolloutStatusPaused) eqn:E2; reflect_bools; [intros _; constructor; by right|done].
Qed.

(** What one request of the tenant may do to the rollouts. *)
Definition rollouts_moved (T : string) (a b : DB) : Prop :=
  forall id, agent_rollouts b !! id = agent_rollouts a !! id \/
    exists r new, agent_rollouts a !! id = Some r /\ ro_tenant r = T /\ rollout_next (ro_status r) new /\
      agent_rollouts b !! id = Some (set_rollout_status new r).

Lemma rollouts_same T a b : agent_rollouts b = agent_rollouts a -> rollouts_moved T a b.
Proof. intros E id. left. by rewrite E. Qed.

Section Alone.
Context (E : Env -> Prop) (scan_null : option string) (ctx : Ctx).
Notation T := (ctx_tenant ctx).

Lemma load_version_rg find db (Q : Response + option (option VersionView) -> DB -> Prop) :
  (forall r, (forall v, r = Some (Some v) -> exists av, find db = Some (v.1.1, av) /\ scan_version scan_null av = Some v.1.2) ->
     Q (inr r) db) ->
  rg E (=) (fun _ _ => True) (load_version scan_null find) Q db.
Proof.
  intros HQ. unfold load_version. rg_step. apply rg_query_row. intros ? <-. split; [done|].
  split; [intros _; rg_step; by apply HQ|].
  destruct (find db) as [[id v]|] eqn:Hf; [|rg_step; by apply HQ].
  destruct (scan_version scan_null v) as [v'|] eqn:Hs; [|rg_step; by apply HQ].
  rg_step. apply rg_query. intros ? <-. split; [done|]. split; [intros _; rg_step; by apply HQ|].
  rg_step. apply HQ. intros w [= <-]. simpl. eauto.
Qed.

Lemma find_rollout_Some v db id r :
  find_rollout v T db = Some (id, r) -> agent_rollouts db !! id = Some r /\ ro_tenant r = T /\ ro_version r = v.
Proof.
  unfold find_rollout. intros Hh. apply head_Some_elem_of, elem_of_select_where in Hh as [Hr Hp]. by reflect_bools.
Qed.

Lemma with_rollout_rg version k db (Q : Response + unit -> DB -> Prop) :
  (forall r, (400 <= resp_status r)%Z -> Q (inl r) db) ->
  (forall id r, agent_rollouts db !! id = Some r -> ro_tenant r = T -> rg E (=) (fun _ _ => True) (k id r) Q db) ->
  rg E (=) (fun _ _ => True) (with_rollout scan_null ctx version k) Q db.
Proof.
  intros Herr Hk. unfold with_rollout. rg_step. apply load_version_rg. intros r _.
  destruct r as [[[[vid v] bs]|]|]; try (by apply rg_stop, Herr).
  rg_step. unfold GetRollout. rg_step. apply rg_query_row. intros ? <-. split; [done|].
  split; [intros _; rg_step; by apply rg_stop, Herr|].
  destruct (find_rollout vid T db) as [[id r]|] eqn:Hf; rg_step; [|by apply rg_stop, Herr].
  apply find_rollout_Some in Hf as (? & ? & _). by apply Hk.
Qed.

Lemma update_status_rg version new action db (Q : Response + unit -> DB -> Prop) :
  new ∈ [RolloutStatusPaused; RolloutStatusInProgress; RolloutStatusAborted] ->
  (forall r, (400 <= resp_status r)%Z -> Q (inl r) db) ->
  (forall id r l, agent_rollouts db !! id = Some r -> ro_tenant r = T -> rollout_next (ro_status r) new ->
     Q (inl NoContent) (set_audit_log l (set_agent_rollouts (<[id := set_rollout_status new r]> (agent_rollouts db)) db))) ->
  rg E (=) (fun _ _ => True) (updateRolloutStatus scan_null ctx version new action) Q db.
Proof.
  intros Hnew Herr Hok. unfold updateRolloutStatus. apply with_rollout_rg; [done|]. intros id r Hr HT.
  destruct (refuses (ro_status r) new) as [msg|] eqn:Href; [by apply rg_stop, Herr|].
  apply refuses_next in Href; [|done]. rg_step. unfold UpdateRolloutStatus, affected_rows. rg_step.
  apply rg_exec. intros ? <-. split; [done|]. split; [intros _; rg_step; by apply rg_stop, Herr|]. split; [done|]. rg_step.
  assert (count_where (fun k _ => k =s id) (agent_rollouts db) <> 0) as Hc.
  { unfold count_where. apply map_size_ne_0_lookup. exists id, r. apply map_lookup_filter_Some. split; [done|]. apply seqb_refl. }
  destruct (count_where _ _) as [|n]; [done|]. cbv beta iota delta [negb].
  rg_step. apply LogAction_any_rg; [done|done|]. intros l. rg_step.
  rewrite (update_id _ _ _ r) by done. by apply Hok.
Qed.
End Alone.

(** *** One request *)

Definition same_rollouts (a b : DB) : Prop := agent_rollouts b = agent_rollouts a.

#[export] Instance same_rollouts_preorder : PreOrder same_rollouts.
Proof. split; unfold same_rollouts; [done|]. intros ? ? ? -> ->. done. Qed.

Section Same.
Context {R : Type}.

Lemma log_same_rollouts T u at' ac rt ri m : guar same_rollouts (LogAction T u at' ac rt ri m : prog DB R unit).
Proof. unfold LogAction, Log. guar_all. intros Hx%stmt_opt_Some. by apply insert_audit_Some in Hx as ->. Qed.

Lemma load_same_rollouts (G : relation DB) `{!Reflexive G} scan_null find : guar G (load_version scan_null find : prog DB R _).
Proof. unfold load_version. guar_all. Qed.

Lemma list_same_rollouts (G : relation DB) `{!Reflexive G} scan_null c cu l : guar G (ListAgentVersions scan_null c cu l : prog DB R _).
Proof. unfold ListAgentVersions. guar_all. Qed.

Lemma insert_binary_Some id b db db' : insert_binary id b db = Some db' ->
  agent_version_binaries db !! id = None /\
  db' = set_agent_version_binaries (<[id := b]> (agent_version_binaries db)) db /\
  is_Some (agent_versions db !! avb_version b) /\ is_Some (files db !! avb_file b) /\ is_Some (signing_keys db !! avb_signature_key b).
Proof.
  unfold insert_binary, fk. destruct (_ && _) eqn:Hf; [|done]. intros (t & [Hn ->]%insert_new_Some & [= <-])%bind_Some.
  reflect_bools. done.
Qed.

Lemma insert_version_Some id v db db' : insert_version id v db = Some db' ->
  agent_versions db !! id = None /\ version_taken (av_version v) db = false /\
  db' = set_agent_versions (<[id := v]> (agent_versions db)) db.
Proof.
  unfold insert_version. destruct (version_taken _ _); [done|]. by intros (t & [Hn ->]%insert_new_Some & [= <-])%bind_Some.
Qed.

Lemma version_statements_same id v bs :
  Forall (fun f : DB -> option DB => forall a b, f a = Some b -> same_rollouts a b) (version_statements id v bs).
Proof.
  constructor.
  - by intros a b (_ & _ & ->)%insert_version_Some.
  - apply Forall_map, Forall_true. by intros ib a b (_ & -> & _)%insert_binary_Some.
Qed.

Lemma CreateAgentVersion_same id v bs : guar same_rollouts (CreateAgentVersion id v bs : prog DB R bool).
Proof.
  unfold CreateAgentVersion. guar_all. apply guar_transact; [apply _|].
  intros fault s s' Hs. eapply tx_run_preserves; [apply _|apply version_statements_same|exact Hs].
Qed.
End Same.

#[local] Hint Resolve log_same_rollouts load_same_rollouts list_same_rollouts CreateAgentVersion_same : moebius.

Lemma version_request_moves E scan_null ctx q db :
  rg E (=) (fun _ _ => True) (version_serve scan_null ctx q) (fun _ db' => rollouts_moved (ctx_tenant ctx) db db') db.
Proof.
  assert (forall p : Handler unit, guar same_rollouts p -> rg E (=) (fun _ _ => True) p (fun _ db' => rollouts_moved (ctx_tenant ctx) db db') db) as Hsame.
  { intros p Hp. apply (rg_weaken_G E (=) same_rollouts); [done|].
    eapply rg_mono; [|apply (guar_rg_stable E (=) same_rollouts (same_rollouts db)); [by intros ? ? ->| |exact Hp|reflexivity]].
    - intros r s'. apply rollouts_same.
    - intros a b Hab Hdb. by etrans. }
  assert (forall version new action, new ∈ [RolloutStatusPaused; RolloutStatusInProgress; RolloutStatusAborted] ->
    rg E (=) (fun _ _ => True) (updateRolloutStatus scan_null ctx version new action)
      (fun _ db' => rollouts_moved (ctx_tenant ctx) db db') db) as Hmove.
  { intros version new action Hnew. apply update_status_rg; [done|by intros; apply rollouts_same|].
    intros id r l Hr HT Hn k. simpl. destruct (decide (k = id)) as [->|Hk].
    - right. exists r, new. by rewrite lookup_insert_eq.
    - left. by rewrite lookup_insert_ne. }
  destruct q; unfold version_serve, Pause, Resume, Abort; try (apply Hmove; set_solver); apply Hsame;
    unfold PublishVersion, ListVersions, GetVersion, YankVersion, UpsertPolicy, ListPolicies, DeletePolicy,
      GetStatus, with_rollout, GetRollout, GetAgentVersion, YankAgentVersion, DeleteUpdatePolicy, affected_rows, number_binaries;
    guar_all; try (by intros [= <- <-]).
  intros Hx%stmt_opt_Some. unfold upsert_policy in Hx. destruct (_ && _); [|done]. destruct (nonempty _); [by simplify_eq|].
  by apply bind_Some in Hx as (t & _ & [= <-]).
Qed.

(** *** Histories *)

(** One request, run alone in any environment. *)
Inductive version_step (scan_null : option string) : DB -> DB -> Prop :=
| version_step_one ctx q env db : version_step scan_null db (run_store (version_serve scan_null ctx q) env db).

Lemma version_step_moved scan_null a b : version_step scan_null a b -> exists T, rollouts_moved T a b.
Proof. destruct 1 as [ctx q env db]. exists (ctx_tenant ctx). by_rg any_env (fun _ _ : DB => True); [done|]. apply version_request_moves. Qed.

(** Requests on versions, policies and rollouts that run one at a time, whatever
    fails, move the status of every rollout along the state machine and change
    nothing else of it; a completed or aborted rollout stays as it is. *)
Theorem rollout_lifecycle scan_null db db' id r :
  rtc (version_step scan_null) db db' -> agent_rollouts db !! id = Some r ->
  exists new, rtc rollout_next (ro_status r) new /\ agent_rollouts db' !! id = Some (set_rollout_status new r) /\
    (ro_status r = RolloutStatusCompleted \/ ro_status r = RolloutStatusAborted -> new = ro_status r).
Proof.
  intros Hs Hr.
  assert (exists new, rtc rollout_next (ro_status r) new /\ agent_rollouts db' !! id = Some (set_rollout_status new r)) as (new & Hn & Hr').
  { clear -Hs Hr. revert r Hr. induction Hs as [db|a b c Hab _ IH]; intros r Hr.
    - exists (ro_status r). split; [done|]. rewrite Hr. by destruct r.
    - apply version_step_moved in Hab as [T Hm]. destruct (Hm id) as [E|(r0 & new & Hr0 & _ & Hn & Hb)].
      + apply IH. by rewrite E.
      + assert (r0 = r) as -> by congruence. destruct (IH _ Hb) as (new' & Hn' & Hc). exists new'. split; [|by destruct r].
        eapply rtc_l; [exact Hn|done]. }
  exists new. split_and!; [done..|]. intros Hfin. destruct Hn as [|x y z Hxy _]; [done|].
  destruct Hxy as [| |s [->| ->]]; by destruct Hfin.
Qed.

(** *** Interleaving *)

Definition calm (n : nat) : Env := {| e_fault := false; e_faults := fun _ => false; e_now := 0; e_id := "" |}.

(** The statement of a status change and what follows it, without failures. *)
Definition status_tail (ctx : Ctx) (version id new action : string) : Handler unit :=
  ok ← UpdateRolloutStatus id new;
  if negb ok then stop (Error 500 "failed to update rollout")
  else
    _ ← LogAction (ctx_tenant ctx) (ctx_user ctx) ActorTypeUser action "rollout" id [("version", version); ("new_status", new)];
    stop NoContent.

Lemma status_tail_calm ctx version id new action n db r :
  agent_rollouts db !! id = Some r ->
  (run (status_tail ctx version id new action) calm n db).2 = inl NoContent /\
  agent_rollouts (run (status_tail ctx version id new action) calm n db).1.1 = <[id := set_rollout_status new r]> (agent_rollouts db) /\
  agent_versions (run (status_tail ctx version id new action) calm n db).1.1 = agent_versions db.
Proof.
  intros Hr. pattern (run (status_tail ctx version id new action) calm n db).2, (run (status_tail ctx version id new action) calm n db).1.1.
  match goal with |- ?Q _ _ => refine (rg_run ok_env (fun _ _ => True) _ Q calm n db _ _) end; [done|].
  unfold status_tail, UpdateRolloutStatus, affected_rows. rg_step. rg_step.
  apply rg_exec. intros ? <-. split; [done|]. split; [by intros ?%ok_env_no_fault|]. split; [done|]. rg_step.
  assert (count_where (fun k _ => k =s id) (agent_rollouts db) <> 0) as Hc.
  { unfold count_where. apply map_size_ne_0_lookup. exists id, r. apply map_lookup_filter_Some. split; [done|]. apply seqb_refl. }
  destruct (count_where _ _) as [|c]; [done|]. cbv beta iota delta [negb].
  rg_step. apply LogAction_any_rg; [done|done|]. intros l. rg_step. split_and!; [done| |done]. simpl. by apply update_id.
Qed.

Ltac reduce_tail := cbn -[find_version find_rollout scan_version refuses status_tail UpdateRolloutStatus LogAction].

(** The accesses before the statement. *)
Lemma status_head_calm ctx version new action db vid v id r :
  find_version version db = Some (vid, v) -> is_Some (scan_version (Some "") v) ->
  find_rollout vid (ctx_tenant ctx) db = Some (id, r) -> refuses (ro_status r) new = None ->
  run_some 3 (updateRolloutStatus (Some "") ctx version new action) calm 0 db = (db, status_tail ctx version id new action).
Proof.
  intros Hv [v' Hs] Hr Href. unfold updateRolloutStatus, with_rollout, GetAgentVersion, load_version, GetRollout.
  reduce_tail. rewrite !Hv. reduce_tail. rewrite !Hs. reduce_tail. rewrite !Hr. reduce_tail. by rewrite Href.
Qed.

(** The check and the statement are two accesses, and the statement does not look
    at the status: an abort and a resume of a paused rollout that overlap are both
    answered with success and may leave the rollout in progress. *)
Theorem rollout_race ctx version db id r vid v :
  find_version version db = Some (vid, v) -> is_Some (scan_version (Some "") v) ->
  find_rollout vid (ctx_tenant ctx) db = Some (id, r) -> ro_status r = RolloutStatusPaused ->
  exists db' pool, rtc pstep (db, [Abort (Some "") ctx version; Resume (Some "") ctx version]) (db', pool) /\
    pool = [PStop NoContent; PStop NoContent] /\
    agent_rollouts db' !! id = Some (set_rollout_status RolloutStatusInProgress r).
Proof.
  intros Hv Hs Hr Hst. pose proof (find_rollout_Some ctx _ _ _ _ Hr) as (Hro & _ & _).
  pose proof (status_head_calm ctx version RolloutStatusInProgress "rollout.resume" db vid v id r Hv Hs Hr ltac:(by rewrite Hst)) as H1.
  pose proof (status_head_calm ctx version RolloutStatusAborted "rollout.abort" db vid v id r Hv Hs Hr ltac:(by rewrite Hst)) as H2.
  set (p1 := status_tail ctx version id RolloutStatusInProgress "rollout.resume").
  set (p2 := status_tail ctx version id RolloutStatusAborted "rollout.abort").
  destruct (status_tail_calm ctx version id RolloutStatusAborted "rollout.abort" 3 db r Hro) as (A1 & A2 & _).
  set (db1 := (run p2 calm 3 db).1.1).
  assert (agent_rollouts db1 !! id = Some (set_rollout_status RolloutStatusAborted r)) as Hro1.
  { unfold db1, p2. rewrite A2. apply lookup_insert_eq. }
  destruct (status_tail_calm ctx version id RolloutStatusInProgress "rollout.resume" 3 db1 _ Hro1) as (B1 & B2 & _).
  exists (run p1 calm 3 db1).1.1, [PStop NoContent; PStop NoContent]. split_and!; [|done|].
  - etrans; [apply (pool_run_some 3 (Resume (Some "") ctx version) calm 0 db _ 1); done|]. unfold Resume. rewrite H1. simpl.
    etrans; [apply (pool_run_some 3 (Abort (Some "") ctx version) calm 0 db _ 0); done|]. unfold Abort. rewrite H2. simpl.
    etrans; [apply (pool_run p2 calm 3 db _ 0); done|]. fold db1. unfold p2. rewrite A1. simpl.
    etrans; [apply (pool_run p1 calm 3 db1 _ 1); done|]. unfold p1. rewrite B1. reflexivity.
  - unfold p1. rewrite B2, lookup_insert_eq. by destruct r.
Qed.

(** ** Publication *)

Definition platform (b : AgentVersionBinary) : string * string * string := (avb_version b, avb_os b, avb_arch b).

Lemma insert_binary_platform id b db db' k c :
  insert_binary id b db = Some db' -> agent_version_binaries db !! k = Some c -> platform c <> platform b.
Proof.
  unfold insert_binary. destruct (_ && negb _) eqn:Hf; [|done]. intros _ Hc Hp. reflect_bools.
  assert ((k, c) ∈ select_where (fun _ c => (avb_version c =s avb_version b) && (avb_os c =s avb_os b) && (avb_arch c =s avb_arch b))
    (agent_version_binaries db)) as Hin.
  { apply elem_of_select_where. split; [done|]. unfold platform in Hp. injection Hp as -> -> ->. by rewrite !seqb_refl. }
  destruct (select_where _ _); [by apply elem_of_nil in Hin|done].
Qed.

(** The inserted binaries of a committed transaction. *)
Record binaries_added (bs : list (string * AgentVersionBinary)) (db db' : DB) : Prop := {
  ba_rest : db' = set_agent_version_binaries (agent_version_binaries db') db;
  ba_old : forall k b, agent_version_binaries db !! k = Some b -> agent_version_binaries db' !! k = Some b;
  ba_new : forall k b, (k, b) ∈ bs -> agent_version_binaries db' !! k = Some b /\
     is_Some (files db !! avb_file b) /\ is_Some (signing_keys db !! avb_signature_key b);
  ba_only : forall k b, agent_version_binaries db' !! k = Some b -> agent_version_binaries db !! k = Some b \/ (k, b) ∈ bs;
  ba_platforms : NoDup (map (fun ib => platform ib.2) bs);
  ba_fresh : forall k b j c, (k, b) ∈ bs -> agent_version_binaries db !! j = Some c -> platform c <> platform b;
}.

Lemma binaries_tx fault bs : forall i db db',
  tx_run fault i (map (fun ib => insert_binary ib.1 ib.2) bs) db = inl db' -> binaries_added bs db db'.
Proof.
  induction bs as [|[id b] bs IH]; intros i db db'; simpl.
  { destruct (fault i); [done|]. intros [= <-].
    split; [by destruct db|done|by intros k b ?%elem_of_nil|by left|constructor|by intros k b j c ?%elem_of_nil]. }
  destruct (fault i); [done|]. destruct (insert_binary id b db) as [db1|] eqn:H1; [|done]. intros H2.
  pose proof (fun k c => insert_binary_platform _ _ _ _ k c H1) as Hpl.
  apply insert_binary_Some in H1 as (Hn & -> & _ & Hf & Hk).
  destruct (IH _ _ _ H2) as [H3 Hold Hnew Honly Hplat Hfresh]. simpl in *. split.
  - rewrite H3. done.
  - intros k c Hc. apply Hold. rewrite lookup_insert_ne; [done|]. congruence.
  - intros k c [[= -> ->]|Hin]%elem_of_cons; [|by apply Hnew]. split; [|done]. apply Hold. apply lookup_insert_eq.
  - intros k c [Hc|Hin]%Honly; [|right; by right].
    apply lookup_insert_Some in Hc as [[<- <-]|[_ Hc]]; [right; left|by left].
  - constructor; [|done]. intros ([k c] & Hp & Hin)%list_elem_of_fmap. simpl in Hp.
    by eapply (Hfresh k c id b); [|apply lookup_insert_eq|].
  - intros k c j e [[= -> ->]|Hin]%elem_of_cons Hj; [by apply (Hpl j)|].
    apply (Hfresh k c j e Hin). rewrite lookup_insert_ne; [done|]. congruence.
Qed.

Lemma number_binaries_rg E vid bs db (Q : Response + list (string * AgentVersionBinary) -> DB -> Prop) :
  (forall out, out.*2 = map (new_binary vid) bs -> Q (inr out) db) ->
  rg E (=) (fun _ _ => True) (number_binaries vid bs) Q db.
Proof.
  intros HQ. unfold number_binaries.
  apply (rg_for_each E (=) (fun _ _ => True) _ Q
    (fun done_ (acc : list (string * AgentVersionBinary)) s => s = db /\ acc.*2 = map (new_binary vid) done_) bs [] [] db).
  - done.
  - intros ys x zs acc s _ [-> Hacc]. rg_step. rg_step. rg_step. split; [done|].
    by rewrite fmap_app, Hacc, map_app.
  - intros out s [-> Hout]. by apply HQ.
Qed.

(** A request that may be published. *)
Definition publishable (req : publishVersionRequest) : Prop :=
  pv_version req <> "" /\ known_channel (pv_channel req) = true /\ pv_binaries req <> [] /\
  existsb incomplete_binary (pv_binaries req) = false.

Lemma PublishVersion_rg E scan_null ctx body db (Q : Response + unit -> DB -> Prop) :
  (forall r, (400 <= resp_status r)%Z -> Q (inl r) db) ->
  (forall req id now bs db2 l, body = Some req -> publishable req -> version_taken (pv_version req) db = false ->
     bs.*2 = map (new_binary id) (pv_binaries req) -> agent_versions db !! id = None ->
     binaries_added bs (set_agent_versions (<[id := new_version req now]> (agent_versions db)) db) db2 ->
     Q (inl (JSON 201 (BVersion id (new_version req now) bs))) (set_audit_log l db2)) ->
  rg E (=) (fun _ _ => True) (PublishVersion scan_null ctx body) Q db.
Proof.
  intros Herr Hok. unfold PublishVersion.
  destruct body as [req|]; [|by apply rg_stop, Herr].
  destruct (pv_version req =s "") eqn:Hnm; [by apply rg_stop, Herr|]. destruct (pv_channel req =s ""); [by apply rg_stop, Herr|].
  destruct (known_channel (pv_channel req)) eqn:Hch; cbv beta iota delta [negb]; [|by apply rg_stop, Herr].
  destruct (nonempty (pv_binaries req)) eqn:Hne; [|by apply rg_stop, Herr].
  destruct (existsb incomplete_binary (pv_binaries req)) eqn:Hinc; [by apply rg_stop, Herr|].
  rg_step. apply load_version_rg. intros r _. destruct r as [[v|]|]; [by apply rg_stop, Herr| |by apply rg_stop, Herr].
  rg_step. rg_step. rg_step. rg_step. rg_step. apply number_binaries_rg. intros bs Hbs.
  unfold CreateAgentVersion. rg_step. rg_step. apply rg_query. intros ? <-. split; [done|].
  assert (rg E (=) (fun _ _ => True) (mret false) (fun (r : Response + bool) s' => match r with
    | inl x => Q (inl x) s'
    | inr ok => rg E (=) (fun _ _ => True)
        (if negb ok then stop (Error 500 "failed to publish version")
         else _ ← LogAction (ctx_tenant ctx) (ctx_user ctx) ActorTypeUser "agent_version.publish" "agent_version" i
                [("version", pv_version req); ("channel", pv_channel req)];
              stop (JSON 201 (BVersion i (new_version req t) bs))) Q s'
    end) db) as Hfail by (by apply rg_mret, rg_stop, Herr).
  split; [by intros _|].
  rg_step. apply rg_transact. intros ? e _ <-. unfold version_statements. cbn [tx_run].
  destruct (e_faults e 0); [split; [done|exact Hfail]|].
  destruct (insert_version i (new_version req t) db) as [db1|] eqn:Hv; [|split; [done|exact Hfail]].
  destruct (tx_run (e_faults e) 1 _ db1) as [db2|n] eqn:Htx; (split; [done|]); [|exact Hfail].
  rg_step. cbv beta iota delta [negb]. rg_step. apply LogAction_any_rg; [done|done|]. intros l. rg_step.
  apply insert_version_Some in Hv as (Hn & Ht & ->). apply binaries_tx in Htx. reflect_bools.
  apply Hok; try done. split_and!; try done. intros E'. by rewrite E' in Hne.
Qed.

(** POST /v1/agent-versions on every branch, whatever fails.  A 201 is for a new
    version on a known channel with complete binaries of distinct platforms whose
    files and keys exist, and adds exactly the version and its binaries in one
    step; any other answer is an error and leaves versions and binaries as they
    were. *)
Theorem publish_spec scan_null env ctx body db :
  let r := run_result (PublishVersion scan_null ctx body) env db in
  let db' := run_store (PublishVersion scan_null ctx body) env db in
  (exists req id now bs db2, body = Some req /\ r = inl (JSON 201 (BVersion id (new_version req now) bs)) /\
     publishable req /\ version_taken (pv_version req) db = false /\
     bs.*2 = map (new_binary id) (pv_binaries req) /\ agent_versions db !! id = None /\
     binaries_added bs (set_agent_versions (<[id := new_version req now]> (agent_versions db)) db) db2 /\
     agent_versions db' = agent_versions db2 /\ agent_version_binaries db' = agent_version_binaries db2) \/
  (exists e, r = inl e /\ (400 <= resp_status e)%Z /\ agent_versions db' = agent_versions db /\
     agent_version_binaries db' = agent_version_binaries db).
Proof.
  cbv zeta. by_rg any_env (fun _ _ : DB => True); [done|]. apply PublishVersion_rg.
  - intros e He. right. eauto.
  - intros req id now bs db2 l ??????. left. exists req, id, now, bs, db2. done.
Qed.

(** The published version is the one a lookup finds. *)
Lemma published_found req id now bs db db2 l :
  version_taken (pv_version req) db = false ->
  binaries_added bs (set_agent_versions (<[id := new_version req now]> (agent_versions db)) db) db2 ->
  find_version (pv_version req) (set_audit_log l db2) = Some (id, new_version req now).
Proof.
  intros Ht Hb. unfold find_version, version_taken in *. rewrite (ba_rest _ _ _ Hb). simpl.
  set (f := fun _ (v : AgentVersion) => av_version v =s pv_version req) in *.
  assert (forall k v, (k, v) ∈ select_where f (<[id := new_version req now]> (agent_versions db)) ->
    (k, v) = (id, new_version req now)) as Hone.
  { intros k v [[[<- <-]|[_ Hv]]%lookup_insert_Some Hf]%elem_of_select_where; [done|].
    assert ((k, v) ∈ select_where f (agent_versions db)) as Hin by (by apply elem_of_select_where).
    destruct (select_where f (agent_versions db)); [by apply elem_of_nil in Hin|done]. }
  destruct (select_where f (<[id := _]> _)) as [|[k v] rows] eqn:E; [|simpl; f_equal; apply Hone; left].
  assert ((id, new_version req now) ∈ select_where f (<[id := new_version req now]> (agent_versions db))) as Hin.
  { apply elem_of_select_where. rewrite lookup_insert_eq. split; [done|]. apply seqb_refl. }
  rewrite E in Hin. by apply elem_of_nil in Hin.
Qed.

(** A version that was never yanked has no yank reason.  When the driver refuses
    NULL in a string, a version published with 201 cannot be read afterwards:
    looking it up, its rollout operations and publishing it again all answer 500
    and change nothing, whatever the environment. *)
Theorem published_unreadable env env' ctx ctx' req db id v bs op :
  let db' := run_store (PublishVersion None ctx (Some req)) env db in
  run_result (PublishVersion None ctx (Some req)) env db = inl (JSON 201 (BVersion id v bs)) ->
  op ∈ [GetVersion None (pv_version req); GetStatus None ctx' (pv_version req); Pause None ctx' (pv_version req);
        Resume None ctx' (pv_version req); Abort None ctx' (pv_version req); PublishVersion None ctx' (Some req)] ->
  exists msg, run_result op env' db' = inl (Error 500 msg) /\ run_store op env' db' = db'.
Proof.
  cbv zeta. intros Hres.
  assert (publishable req /\ exists now, find_version (pv_version req) (run_store (PublishVersion None ctx (Some req)) env db) = Some (id, new_version req now))
    as ((Hnm & Hch & Hbin & Hinc) & now & Hfind).
  { revert Hres. by_rg any_env (fun _ _ : DB => True); [done|]. apply PublishVersion_rg; [by intros r Hr [= ->]|].
    intros req' id' now bs' db2 l [= <-] Hp Ht _ _ Hb [= <- <- <-]. split; [done|]. exists now. by eapply published_found. }
  set (db' := run_store _ env db) in *. clearbody db'. clear Hres.
  assert (forall find : DB -> option (string * AgentVersion), find = find_version (pv_version req) ->
    forall (Q : Response + option (option VersionView) -> DB -> Prop), Q (inr None) db' ->
    rg any_env (=) (fun _ _ => True) (load_version None find) Q db') as Hload.
  { intros find -> Q HQ. unfold load_version. rg_step. apply rg_query_row. intros ? <-. split; [done|].
    split; [intros _; by rg_step|]. rewrite Hfind. cbv beta iota. change (scan_version None (new_version req now)) with (@None AgentVersion).
    cbv beta iota. by rg_step. }
  assert (forall k, rg any_env (=) (fun _ _ => True) (with_rollout None ctx' (pv_version req) k)
    (fun r s => exists msg, r = inl (Error 500 msg) /\ s = db') db') as Hro.
  { intros k. unfold with_rollout. rg_step. apply Hload; [done|]. rg_step. eauto. }
  rewrite !elem_of_cons, elem_of_nil. intros [->|[->|[->|[->|[->|[->|[]]]]]]];
    by_rg any_env (fun _ _ : DB => True); try done; try apply Hro.
  - unfold GetVersion. rg_step. apply Hload; [done|]. rg_step. eauto.
  - unfold PublishVersion. apply seqb_neq in Hnm. rewrite Hnm, Hch, Hinc.
    assert ((pv_channel req =s "") = false) as -> by (apply seqb_neq; intros E; by rewrite E in Hch).
    assert (nonempty (pv_binaries req) = true) as -> by (by destruct (pv_binaries req)). cbv beta iota delta [negb]. rg_step. apply Hload; [done|]. rg_step. eauto.
Qed.

(** ** Update policies *)

(** At most one policy per tenant and group. *)
Definition slots_unique (db : DB) : Prop :=
  forall a b p q, agent_update_policies db !! a = Some p -> agent_update_policies db !! b = Some q ->
    same_policy_slot p b q = true -> a = b.

Lemma same_slot p i q : same_policy_slot p i q = true <-> aup_tenant q = aup_tenant p /\ is_Some (aup_group p) /\ aup_group q = aup_group p.
Proof.
  unfold same_policy_slot. destruct (aup_group p) as [g|], (aup_group q) as [h|]; rewrite andb_true_iff, ?seqb_eq.
  - split; [intros [-> ->]; eauto|intros (-> & _ & [= ->]); done].
  - split; [by intros [_ ?]|by intros (_ & _ & ?)].
  - split; [by intros [_ ?]|by intros (_ & [? ?] & _)].
  - split; [by intros [_ ?]|by intros (_ & [? ?] & _)].
Qed.

Lemma upsert_spec id p db db' : upsert_policy id p db = Some db' -> slots_unique db ->
  slots_unique db' /\
  (is_Some (aup_group p) -> exists id', agent_update_policies db' !! id' = Some p) /\
  (aup_group p = None -> agent_update_policies db !! id = None /\ agent_update_policies db' = <[id := p]> (agent_update_policies db)).
Proof.
  unfold upsert_policy. destruct (_ && _); [|done]. intros H Hu.
  destruct (select_where (same_policy_slot p) (agent_update_policies db)) as [|[k q] rows] eqn:Hsel; simpl in H.
  - apply bind_Some in H as (t & [Hn ->]%insert_new_Some & [= <-]). simpl.
    assert (forall k q, agent_update_policies db !! k = Some q -> same_policy_slot p k q = false) as Hnone.
    { intros k q Hk. destruct (same_policy_slot p k q) eqn:E; [|done].
      assert ((k, q) ∈ select_where (same_policy_slot p) (agent_update_policies db)) as Hin by (by apply elem_of_select_where).
      rewrite Hsel in Hin. by apply elem_of_nil in Hin. }
    split_and!; [|intros _; exists id; apply lookup_insert_eq|done].
    intros a b x y. simpl. intros [[<- <-]|[_ Ha]]%lookup_insert_Some [[<- <-]|[_ Hb]]%lookup_insert_Some Hs; [done|..].
    + by rewrite (Hnone b y Hb) in Hs.
    + assert (same_policy_slot p a x = true) as Hs' by (rewrite same_slot in *; destruct Hs as (-> & [? Hg] & E); rewrite E; eauto).
      by rewrite (Hnone a x Ha) in Hs'.
    + by apply (Hu a b x y).
  - simplify_eq/=. assert ((k, q) ∈ select_where (same_policy_slot p) (agent_update_policies db)) as [Hk Hq]%elem_of_select_where
      by (rewrite Hsel; left).
    assert (forall j x, agent_update_policies db !! j = Some x -> same_policy_slot p j x = true -> j = k) as Hone.
    { intros j x Hj Hx. symmetry. eapply (Hu k j q x); [done..|]. apply same_slot in Hq as (Q1 & Q2 & Q3), Hx as (X1 & X2 & X3).
      apply same_slot. rewrite Q1, Q3. done. }
    split_and!.
    + intros a b x y. simpl. rewrite !lookup_update_where. intros Ha Hb Hs.
      destruct (agent_update_policies db !! a) as [x0|] eqn:Ea; [|done]. destruct (agent_update_policies db !! b) as [y0|] eqn:Eb; [|done].
      simpl in *. eapply (Hu a b x0 y0); [done..|]. rewrite same_slot in *.
      destruct (same_policy_slot p a x0), (same_policy_slot p b y0); simplify_eq/=; done.
    + intros _. exists k. simpl. rewrite lookup_update_where, Hk. simpl. rewrite Hq. f_equal.
      apply same_slot in Hq as (H1 & _ & H2). destruct p; unfold overwrite_policy; simpl in *; congruence.
    + intros Hp. apply same_slot in Hq as (_ & [? ?] & _). congruence.
Qed.

(** What a lookup by tenant and group gives. *)
Lemma find_policy_unique T g db id p :
  slots_unique db -> g <> "" -> agent_update_policies db !! id = Some p -> aup_tenant p = T -> aup_group p = Some g ->
  find_policy T g db = Some (id, p).
Proof.
  intros Hu Hg Hp HT Hgp. unfold find_policy, nilIfEmpty. apply seqb_neq in Hg. rewrite Hg.
  set (f := fun _ (q : AgentUpdatePolicy) => _).
  assert ((id, p) ∈ select_where f (agent_update_policies db)) as Hin.
  { apply elem_of_select_where. split; [done|]. unfold f. rewrite HT, seqb_refl. simpl. by apply bool_decide_eq_true. }
  destruct (select_where f (agent_update_policies db)) as [|[k q] rows] eqn:Hsel; [by apply elem_of_nil in Hin|]. simpl.
  assert ((k, q) ∈ select_where f (agent_update_policies db)) as [Hk Hq]%elem_of_select_where by (rewrite Hsel; left).
  unfold f in Hq. reflect_bools.
  assert (k = id) as -> by (apply (Hu k id q p); [done..|]; rewrite same_slot; split_and!; [congruence|eauto|congruence]). congruence.
Qed.

(** POST /v1/update-policies followed by the lookup of the update check: a policy
    for a group replaces the one the group had and is what a lookup then finds,
    in all its columns.  A policy without a group is always added: the tenant may
    end up with several defaults. *)
Theorem policy_roundtrip env ctx req db id p :
  let db' := run_store (UpsertPolicy ctx (Some req)) env db in
  slots_unique db -> run_result (UpsertPolicy ctx (Some req)) env db = inl (JSON 200 (BPolicy id p)) ->
  p = requested_policy ctx req /\ slots_unique db' /\
  (up_group_id req <> "" -> exists id', find_policy (ctx_tenant ctx) (up_group_id req) db' = Some (id', p)) /\
  (up_group_id req = "" -> agent_update_policies db !! id = None /\ agent_update_policies db' = <[id := p]> (agent_update_policies db)).
Proof.
  cbv zeta. intros Hu. by_rg any_env (fun _ _ : DB => True); [done|]. unfold UpsertPolicy. cbv zeta.
  destruct (negb (known_channel _)); [by rg_step|]. destruct (negb (_ || _)); [by rg_step|].
  rg_step. rg_step. rg_step. apply rg_exec. intros ? <-. split; [done|]. split; [intros _; by rg_step|].
  destruct (stmt_opt _ db) as [[db1 n]|] eqn:Hx; [split; [done|]|by rg_step].
  apply stmt_opt_Some in Hx. destruct (upsert_spec _ _ _ _ Hx Hu) as (Hu' & Hg & Hd).
  rg_step. apply LogAction_any_rg; [done|done|]. intros l. rg_step. intros [= <- <-].
  split_and!; [done|done| |].
  - intros Hne. pose proof Hne as Hne'. apply seqb_neq in Hne'. destruct Hg as [id' Hid'].
    { simpl. unfold nilIfEmpty. rewrite Hne'. eauto. }
    exists id'. apply (find_policy_unique _ _ _ id'); [done..|]. simpl. unfold nilIfEmpty. by rewrite Hne'.
  - intros He. apply Hd. simpl. by rewrite He.
Qed.

(** The policy of a device as a function of the table. *)
Fixpoint effective_policy (T : string) (groupIDs : list string) (db : DB) : option (string * AgentUpdatePolicy) :=
  match groupIDs with
  | [] => find_policy T "" db
  | g :: gs => match find_policy T g db with Some p => Some p | None => effective_policy T gs db end
  end.

(** The effective policy of a device, without failures, is that of the first of
    its groups that has one, and the tenant's default when none has. *)
Theorem effective_policy_spec env T groupIDs db :
  (forall n, ok_env (env n)) ->
  run_result (GetEffectiveUpdatePolicy T groupIDs : prog DB Response _) env db = inr (Some (effective_policy T groupIDs db)) /\
  run_store (GetEffectiveUpdatePolicy T groupIDs : prog DB Response _) env db = db.
Proof.
  intros Henv. by_rg ok_env (fun _ _ : DB => True); [done|]. unfold GetEffectiveUpdatePolicy. rg_step.
  rg_step. induction groupIDs as [|g gs IH]; simpl effective_policy.
  - match goal with |- rg _ _ _ (for_each [] _ _) ?Q ?s => change (Q (inr tt) s) end. cbv beta iota.
    unfold GetUpdatePolicy. rg_step. apply rg_query_row. intros ? <-. split; [done|].
    split; [by intros ?%ok_env_no_fault|]. destruct (find_policy T "" db); by rg_step.
  - apply rg_for_each_cons. unfold GetUpdatePolicy at 1. rg_step. rg_step. apply rg_query_row. intros ? <-. split; [done|].
    split; [by intros ?%ok_env_no_fault|]. destruct (find_policy T g db); rg_step; [by rg_step|]. rg_step. exact IH.
Qed.
