(* ===== verification/Installers.v ===== *)
(** * Installers

    [server/api/installers.go] and [server/api/install_script.go]: the registry of
    installers, their download with an enrollment token, the install script and
    the install command.  The text of the generated scripts is represented by the
    values that are filled in; file [Scripts] has the text. *)

From stdpp Require Import relations.
From S2P Require Import Prelude Text Prog Models JobState Database Scope Quota Enrollment Identity Float64 Paging Tenancy Fleet Files.

(** ** Names *)

Definition isValidOS (os : string) : bool := (os =s "linux") || (os =s "windows").

Definition isValidArch (os arch : string) : bool :=
  if os =s "linux" then (arch =s "amd64") || (arch =s "arm64")
  else if os =s "windows" then arch =s "amd64"
  else false.

Definition installerFilename (os arch version : string) : string :=
  if os =s "windows" then "agent-windows-" +++ arch +++ "-" +++ version +++ ".msi"
  else "agent-" +++ os +++ "-" +++ arch +++ "-" +++ version +++ ".tar.gz".

Definition scriptExt (os : string) : string := if os =s "windows" then "ps1" else "sh".

(** What [serverBaseURL] reads of a request; an absent header is empty. *)
Record HttpInfo := { hi_tls : bool; hi_host : string; hi_forwarded_proto : string; hi_forwarded_host : string }.

(** [strings.TrimRight(s, "/")]. *)
Fixpoint trim_slashes (s : string) : string :=
  match s with
  | EmptyString => EmptyString
  | String c s' =>
      let t := trim_slashes s' in
      if Ascii.eqb c (Ascii.ascii_of_nat 47) && (t =s "") then "" else String c t
  end.

Definition serverBaseURL (r : HttpInfo) : string :=
  let scheme := if hi_tls r then "https" else if hi_forwarded_proto r =s "" then "http" else hi_forwarded_proto r in
  let host := if hi_forwarded_host r =s "" then hi_host r else hi_forwarded_host r in
  trim_slashes (scheme +++ "://" +++ host).

(** ** The registry *)

Definition newest_installer (a b : string * Installer) : Prop := (ins_released_at b.2 <= ins_released_at a.2)%Z.
#[export] Instance newest_installer_dec : RelDecision newest_installer.
Proof. intros a b. unfold newest_installer. apply _. Defined.

Definition list_installers (db : DB) : list (string * Installer) :=
  take 100 (merge_sort newest_installer (select_where (fun _ i => negb (ins_yanked i)) (installers db))).

Definition ListInstallers : Handler unit :=
  r ← query list_installers;
  match r with
  | None => stop (Error 500 "failed to list installers")
  | Some items => stop (JSON 200 (BInstallerList items))
  end.

Record createInstallerRequest := {
  ci_version : string;
  ci_channel : string;
  ci_os : string;
  ci_arch : string;
  ci_file_id : string;
  ci_sha256 : string;
  ci_signature : string;
  ci_signature_key_id : string;
}.

Definition new_installer (req : createInstallerRequest) (now : Z) : Installer :=
  {| ins_version := ci_version req; ins_channel := ci_channel req; ins_os := ci_os req; ins_arch := ci_arch req;
     ins_file := ci_file_id req; ins_sha256 := ci_sha256 req; ins_signature := ci_signature req;
     ins_signature_key := ci_signature_key_id req; ins_released_at := now; ins_yanked := false; ins_yank_reason := None |}.

(** The violated constraint decides between 409 and 500. *)
Inductive InsertInstaller := Inserted (db : DB) | Duplicate | Violation.

Definition same_platform (version os arch : string) (_ : string) (i : Installer) : bool :=
  (ins_version i =s version) && (ins_os i =s os) && (ins_arch i =s arch).

Definition insert_installer (id : string) (i : Installer) (db : DB) : InsertInstaller :=
  if nonempty (select_where (same_platform (ins_version i) (ins_os i) (ins_arch i)) (installers db)) then Duplicate
  else match insert_new id i (installers db) with
       | None => Duplicate
       | Some t =>
           if fk (files db) (ins_file i) && fk (signing_keys db) (ins_signature_key i)
           then Inserted (set_installers t db) else Violation
       end.

(** [Some true]: inserted; [Some false]: a duplicate key. *)
Definition exec_installer {R : Type} (id : string) (i : Installer) : prog DB R (option bool) :=
  exec (fun db => match insert_installer id i db with
                  | Inserted db' => Some (db', true)
                  | Duplicate => Some (db, false)
                  | Violation => None
                  end).

Definition file_exists (tenantID fileID : string) (db : DB) : bool := bool_decide (is_Some (find_file tenantID fileID db)).
Definition key_exists (tenantID keyID : string) (db : DB) : bool :=
  match signing_keys db !! keyID with Some k => sgk_tenant k =s tenantID | None => false end.

Definition CreateInstaller (audit : bool) (ctx : Ctx) (body : option createInstallerRequest) : Handler unit :=
  match body with
  | None => stop (Error 400 "invalid request body")
  | Some req =>
      if (ci_version req =s "") || (ci_channel req =s "") || (ci_os req =s "") || (ci_arch req =s "")
      then stop (Error 400 "version, channel, os, and arch are required")
      else if (ci_file_id req =s "") || (ci_sha256 req =s "") || (ci_signature req =s "") || (ci_signature_key_id req =s "")
      then stop (Error 400 "file_id, sha256, signature, and signature_key_id are required")
      else if negb (isValidOS (ci_os req)) then stop (Error 400 "invalid os: must be linux or windows")
      else if negb (isValidArch (ci_os req) (ci_arch req)) then stop (Error 400 "invalid arch for os")
      else
        f ← query (file_exists (ctx_tenant ctx) (ci_file_id req));
        match f with
        | Some true =>
            k ← query (key_exists (ctx_tenant ctx) (ci_signature_key_id req));
            match k with
            | Some true =>
                id ← new_id "ins";
                now ← time_now;
                r ← exec_installer id (new_installer req now);
                match r with
                | Some false => stop (Error 409 "installer already exists for this version/os/arch")
                | None => stop (Error 500 "failed to create installer")
                | Some true =>
                    _ ← audited audit ctx "installer.create" "installer" id
                          [("version", ci_version req); ("os", ci_os req); ("arch", ci_arch req)];
                    stop (JSON 201 (BInstaller id (new_installer req now)))
                end
            | _ => stop (Error 400 "signature_key_id does not reference an existing signing key")
            end
        | _ => stop (Error 400 "file_id does not reference an existing file")
        end
  end.

(** ** Downloads *)

(** The credential of a request: [TrimPrefix] leaves a value without the prefix. *)
Definition bearer_value (authorization : string) : string := default authorization (cut_prefix "Bearer " authorization).

(** The key lookup names a column, revoked_at, that [api_keys] does not have:
    PostgreSQL refuses the statement. *)
Definition installer_key_valid {R : Type} (token : string) : prog DB R (option bool) := exec (fun _ => None).

Definition checkInstallerAuth (x : X509) (authorization : string) : FProg unit :=
  if authorization =s "" then answer (Error 401 "authentication required: provide an API key or enrollment token")
  else
    let token := bearer_value authorization in
    key ← (match cut_prefix "sk_" token with
           | Some _ => on_db (installer_key_valid token)
           | None => mret None
           end);
    match key with
    | Some true => mret tt
    | _ =>
        t ← on_db (Peek x token);
        match t with
        | Some _ => mret tt
        | None => answer (Error 401 "invalid API key or enrollment token")
        end
    end.

Definition find_installer (os arch version : string) (db : DB) : option Installer :=
  snd <$> head (select_where (fun k i => same_platform version os arch k i && negb (ins_yanked i)) (installers db)).

Definition lookupInstaller (os arch version : string) : FProg Installer :=
  row ← on_db (query_row (find_installer os arch version));
  match row with
  | Row i => mret i
  | NoRows => answer (Error 404 "installer not found")
  | DbErr => answer (Error 500 "failed to look up installer")
  end.

Definition serveFile (fileID filename : string) : FProg unit :=
  data ← open_blob fileID;
  match data with
  | None => answer (Error 500 "failed to retrieve installer file")
  | Some d => answer (JSON 200 (BBytes filename d))
  end.

Definition DownloadInstaller (x : X509) (authorization os arch version : string) : FProg unit :=
  _ ← checkInstallerAuth x authorization;
  i ← lookupInstaller os arch version;
  serveFile (ins_file i) (installerFilename os arch (ins_version i)).

Definition latest_stable (os arch : string) (db : DB) : option Installer :=
  snd <$> head (merge_sort newest_installer
    (select_where (fun _ i => (ins_os i =s os) && (ins_arch i =s arch) && (ins_channel i =s "stable") && negb (ins_yanked i))
       (installers db))).

Definition DownloadLatest (x : X509) (authorization os arch : string) : FProg unit :=
  _ ← checkInstallerAuth x authorization;
  row ← on_db (query_row (latest_stable os arch));
  match row with
  | NoRows => answer (Error 404 "no stable installer available for this platform")
  | DbErr => answer (Error 500 "failed to look up installer")
  | Row i => serveFile (ins_file i) (installerFilename os arch (ins_version i))
  end.

Definition Checksum (x : X509) (authorization os arch version : string) : FProg unit :=
  _ ← checkInstallerAuth x authorization;
  i ← lookupInstaller os arch version;
  answer (JSON 200 (BText (ins_sha256 i +++ "  " +++ installerFilename os arch (ins_version i) +++ String (Ascii.ascii_of_nat 10) ""))).

Definition InstallerSignature (x : X509) (authorization os arch version : string) : FProg unit :=
  _ ← checkInstallerAuth x authorization;
  i ← lookupInstaller os arch version;
  answer (JSON 200 (BSignature (ins_signature_key i) (ins_signature i))).

(** ** server/api/install_script.go *)

Definition ServeInstallScript (x : X509) (r : HttpInfo) (os arch rawToken : string) : FProg unit :=
  if negb (isValidOS os) then answer (Error 400 "invalid os: must be linux or windows")
  else if negb (isValidArch os arch) then answer (Error 400 "invalid arch for os")
  else if rawToken =s "" then answer (Error 401 "enrollment token required: ?token=<token>")
  else
    t ← on_db (Peek x rawToken);
    match t with
    | None => answer (Error 401 "enrollment token invalid, already used, or expired")
    | Some _ =>
        row ← on_db (query_row (latest_stable os arch));
        match row with
        | Row i => answer (JSON 200 (BScript os (serverBaseURL r) rawToken (ins_version i) (ins_sha256 i) (ins_arch i)))
        | _ => answer (Error 404 "no installer available for this platform")
        end
    end.

Definition quote : string := String (Ascii.ascii_of_nat 34) "".

Definition install_command (base os arch : string) : string :=
  if os =s "linux"
  then "curl -fsSL '" +++ base +++ "/v1/install/linux/" +++ arch +++ "?token=<ENROLLMENT_TOKEN>' | sudo bash"
  else if os =s "windows"
  then "powershell -NoProfile -ExecutionPolicy Bypass -Command " +++ quote +++ "& { iwr -UseBasicParsing '" +++ base
       +++ "/v1/install/windows/" +++ arch +++ "?token=<ENROLLMENT_TOKEN>' | iex }" +++ quote
  else "".

(** [WHERE id = $1 AND tenant_id = $2 AND used_at IS NULL]: expired tokens too. *)
Definition unused_token (tenantID tokenID : string) (db : DB) : option Z :=
  t ← enrollment_tokens db !! tokenID;
  if (tok_tenant t =s tenantID) && match tok_used_at t with None => true | Some _ => false end
  then Some (tok_expires_at t) else None.

Definition GenerateInstallCommand (r : HttpInfo) (ctx : Ctx) (tokenID : string) (body : option (string * string)) : Handler unit :=
  match body with
  | None => stop (Error 400 "invalid request body")
  | Some (os, arch) =>
      if negb (isValidOS os) then stop (Error 400 "invalid os: must be linux or windows")
      else if negb (isValidArch os arch) then stop (Error 400 "invalid arch for os")
      else
        row ← query_row (unused_token (ctx_tenant ctx) tokenID);
        match row with
        | NoRows => stop (Error 404 "enrollment token not found, already used, or expired")
        | DbErr => stop (Error 500 "failed to look up enrollment token")
        | Row expiresAt => stop (JSON 200 (BCommand (install_command (serverBaseURL r) os arch) expiresAt tokenID))
        end
  end.
