(* ===== verification/InstallerSpecs.v ===== *)
(** * Theorems on installers

    What is registered is what is found, only an unused and unexpired enrollment
    token opens the downloads, and the installer an install script names is the one
    its token downloads. *)

From stdpp Require Import relations.
From S2P Require Import Prelude Text Prog Models JobState Database Scope Quota Enrollment Identity Float64 Paging Tenancy Fleet FleetSpecs Files FileSpecs Installers.

(** UNIQUE (version, os, arch). *)
Definition installers_unique (db : DB) : Prop :=
  forall k1 k2 i1 i2, installers db !! k1 = Some i1 -> installers db !! k2 = Some i2 ->
    same_platform (ins_version i1) (ins_os i1) (ins_arch i1) k2 i2 = true -> k1 = k2.

Lemma same_platform_iff v os arch k i :
  same_platform v os arch k i = true <-> ins_version i = v /\ ins_os i = os /\ ins_arch i = arch.
Proof. unfold same_platform. rewrite !andb_true_iff, !seqb_eq. tauto. Qed.

Lemma find_installer_Some os arch v db i : find_installer os arch v db = Some i ->
  exists k, installers db !! k = Some i /\ ins_version i = v /\ ins_os i = os /\ ins_arch i = arch /\ ins_yanked i = false.
Proof.
  unfold find_installer. intros ([k i'] & Hh & ->)%fmap_Some. exists k.
  apply head_Some_elem_of, elem_of_select_where in Hh as [Hi Hp]. apply andb_true_iff in Hp as [Hp Hy%negb_true_iff].
  apply same_platform_iff in Hp as (? & ? & ?). done.
Qed.

(** With the constraint, the row a lookup finds is the only one. *)
Lemma find_installer_unique db k i : installers_unique db ->
  installers db !! k = Some i -> ins_yanked i = false -> find_installer (ins_os i) (ins_arch i) (ins_version i) db = Some i.
Proof.
  intros Hu Hk Hy. unfold find_installer.
  destruct (head (select_where _ _)) as [[k' i']|] eqn:Hh.
  - apply head_Some_elem_of, elem_of_select_where in Hh as [Hi [Hp _]%andb_true_iff].
    assert (k = k') as <- by (by apply (Hu k k' i i')). by assert (i = i') as -> by congruence.
  - exfalso. assert ((k, i) ∈ select_where (fun k0 i0 => same_platform (ins_version i) (ins_os i) (ins_arch i) k0 i0 && negb (ins_yanked i0)) (installers db)) as Hin.
    { apply elem_of_select_where. split; [done|]. apply andb_true_iff. rewrite same_platform_iff, Hy. done. }
    destruct (select_where _ _); [by apply elem_of_nil in Hin|done].
Qed.

(** ** Registration *)

Lemma insert_installer_Inserted id i db db' : insert_installer id i db = Inserted db' ->
  installers db !! id = None /\ db' = set_installers (<[id := i]> (installers db)) db /\
  is_Some (files db !! ins_file i) /\ is_Some (signing_keys db !! ins_signature_key i) /\
  forall k j, installers db !! k = Some j -> same_platform (ins_version i) (ins_os i) (ins_arch i) k j = false.
Proof.
  unfold insert_installer. destruct (nonempty _) eqn:Hn; [done|].
  destruct (insert_new id i (installers db)) as [t|] eqn:Hi; [|done]. apply insert_new_Some in Hi as [Hnone ->].
  destruct (fk _ _ && fk _ _) eqn:Hf; [|done]. intros [= <-]. apply andb_true_iff in Hf as [H1 H2].
  unfold fk in *. reflect_bools. split_and!; try done.
  intros k j Hj. destruct (same_platform _ _ _ k j) eqn:Hs; [|done].
  assert ((k, j) ∈ select_where (same_platform (ins_version i) (ins_os i) (ins_arch i)) (installers db)) as Hin
    by (by apply elem_of_select_where).
  destruct (select_where _ _); [by apply elem_of_nil in Hin|done].
Qed.

Lemma inserted_unique id i db : installers_unique db ->
  (forall k j, installers db !! k = Some j -> same_platform (ins_version i) (ins_os i) (ins_arch i) k j = false) ->
  forall l, installers_unique (set_audit_log l (set_installers (<[id := i]> (installers db)) db)).
Proof.
  intros Hu Hnew l k1 k2 i1 i2. simpl. rewrite !lookup_insert_Some, same_platform_iff.
  intros [[<- <-]|[_ H1]] [[<- <-]|[_ H2]] (? & ? & ?); [done|..].
  - exfalso. pose proof (Hnew _ _ H2) as Hf. assert (same_platform (ins_version i) (ins_os i) (ins_arch i) k2 i2 = true) by (by apply same_platform_iff). congruence.
  - exfalso. pose proof (Hnew _ _ H1) as Hf. assert (same_platform (ins_version i) (ins_os i) (ins_arch i) k1 i1 = true) by (by apply same_platform_iff). congruence.
  - apply (Hu k1 k2 i1 i2 H1 H2). by apply same_platform_iff.
Qed.

(** The registry after a request is unchanged, or one acceptable row larger. *)
Definition registered (ctx : Ctx) (db db' : DB) (r : Response) : Prop :=
  exists id i, r = JSON 201 (BInstaller id i) /\ installers db !! id = None /\
    installers db' = <[id := i]> (installers db) /\
    isValidOS (ins_os i) = true /\ isValidArch (ins_os i) (ins_arch i) = true /\ ins_yanked i = false /\
    (exists f, files db !! ins_file i = Some f /\ fil_tenant f = ctx_tenant ctx) /\
    (exists k, signing_keys db !! ins_signature_key i = Some k /\ sgk_tenant k = ctx_tenant ctx) /\
    find_installer (ins_os i) (ins_arch i) (ins_version i) db' = Some i.

(** POST /v1/installers, alone, whatever fails: the request is refused and the
    registry stays as it is, or it is answered with 201, there is one new row, for
    a valid platform, with a file and a signing key of the caller's tenant, and a
    lookup of its version finds it; the uniqueness of versions is kept. *)
Theorem create_installer_spec audit ctx body env db :
  installers_unique db ->
  exists r, run_result (CreateInstaller audit ctx body) env db = inl r /\
    let db' := run_store (CreateInstaller audit ctx body) env db in
    installers_unique db' /\
    ((400 <= resp_status r)%Z /\ db' = db \/ registered ctx db db' r).
Proof.
  intros Hu. by_rg any_env (fun _ _ : DB => True); [done|].
  assert (forall r, (400 <= resp_status r)%Z -> exists r0, inl r = inl r0 :> Response + unit /\
    let db' := db in installers_unique db' /\ ((400 <= resp_status r0)%Z /\ db' = db \/ registered ctx db db' r0)) as Herr by eauto 8.
  unfold CreateInstaller. destruct body as [req|]; [|by apply rg_stop, Herr].
  do 2 (case_match; [by apply rg_stop, Herr|]).
  destruct (isValidOS (ci_os req)) eqn:Hos; cbv beta iota delta [negb]; [|by apply rg_stop, Herr].
  destruct (isValidArch (ci_os req) (ci_arch req)) eqn:Harch; cbv beta iota; [|by apply rg_stop, Herr].
  do 2 rg_step; [intros _; by apply rg_stop, Herr|].
  destruct (file_exists (ctx_tenant ctx) (ci_file_id req) db) eqn:Hf; [|by apply rg_stop, Herr].
  do 2 rg_step; [intros _; by apply rg_stop, Herr|].
  destruct (key_exists (ctx_tenant ctx) (ci_signature_key_id req) db) eqn:Hk; [|by apply rg_stop, Herr].
  do 4 rg_step. unfold exec_installer. rg_step. apply rg_exec. intros ? <-. split; [done|].
  split; [intros _; by apply rg_stop, Herr|].
  destruct (insert_installer _ _ db) as [db'| |] eqn:Hi; [|split; [done|]; by apply rg_stop, Herr|by apply rg_stop, Herr].
  apply insert_installer_Inserted in Hi as (Hnone & -> & Hfile & Hkey & Hnew). split; [done|].
  apply audited_then. intros l. eexists. split; [done|]. cbv zeta.
  pose proof (inserted_unique i (new_installer req t) db Hu Hnew l) as Hu'. split; [done|]. right.
  exists i, (new_installer req t). split_and!; try done.
  - apply bool_decide_eq_true in Hf as [f Hf]. unfold find_file in Hf. apply bind_Some in Hf as (f' & Hf' & Ht).
    destruct (fil_tenant f' =s ctx_tenant ctx) eqn:E; [|done]. reflect_bools. by exists f'.
  - unfold key_exists in Hk. destruct (signing_keys db !! _) as [k|] eqn:E; [|done]. reflect_bools. by exists k.
  - apply (find_installer_unique _ i); [done| |done]. simpl. apply lookup_insert_eq.
Qed.

(** ** Downloads *)

Inductive InstallerRequest :=
| GetBinary (os arch version : string)
| GetLatest (os arch : string)
| GetChecksum (os arch version : string)
| GetSignature (os arch version : string).

Definition installer_serve (x : X509) (authorization : string) (q : InstallerRequest) : FProg unit :=
  match q with
  | GetBinary os arch v => DownloadInstaller x authorization os arch v
  | GetLatest os arch => DownloadLatest x authorization os arch
  | GetChecksum os arch v => Checksum x authorization os arch v
  | GetSignature os arch v => InstallerSignature x authorization os arch v
  end.

(** The row a request is answered from, and the answer. *)
Definition chosen (q : InstallerRequest) (db : DB) : option Installer :=
  match q with
  | GetBinary os arch v | GetChecksum os arch v | GetSignature os arch v => find_installer os arch v db
  | GetLatest os arch => latest_stable os arch db
  end.

Definition reply (q : InstallerRequest) (i : Installer) (s : FStore) : option Response :=
  match q with
  | GetBinary os arch _ | GetLatest os arch =>
      (fun d => JSON 200 (BBytes (installerFilename os arch (ins_version i)) d)) <$> fs_blobs s !! ins_file i
  | GetChecksum os arch _ =>
      Some (JSON 200 (BText (ins_sha256 i +++ "  " +++ installerFilename os arch (ins_version i) +++ String (Ascii.ascii_of_nat 10) "")))
  | GetSignature _ _ _ => Some (JSON 200 (BSignature (ins_signature_key i) (ins_signature i)))
  end.

(** [Peek], as a function of the clock and the tables. *)
Definition peeked (x : X509) (token : string) (now : Z) (db : DB) : option Token :=
  row ← head (select_where (fun _ t => token_valid (hashToken x token) now t) (enrollment_tokens db)); load_token row.

Lemma peeked_valid x token now db t : peeked x token now db = Some t ->
  exists row, enrollment_tokens db !! tk_id t = Some row /\ tok_hash row = hashToken x token /\
    tok_used_at row = None /\ (now < tok_expires_at row)%Z.
Proof.
  unfold peeked. intros ([k row] & Hh & Hl)%bind_Some.
  apply head_Some_elem_of, elem_of_select_where in Hh as [Hk Hv]. unfold token_valid in Hv.
  apply andb_true_iff in Hv as [[Hh Hused]%andb_true_iff Hexp]. reflect_bools.
  assert (tk_id t = k) as ->.
  { unfold load_token in Hl. simpl in Hl. destruct (tok_scope row); [destruct (unmarshal _)|]; by simplify_eq/=. }
  exists row. by destruct (tok_used_at row).
Qed.

Section Serve.
Context (E : Env -> Prop) (x : X509).

Lemma Peek_rg token s (Q : Outcome + option Token -> FStore -> Prop) :
  (may_fault E -> Q (inr None) s) ->
  (forall e, E e -> Q (inr (peeked x token (e_now e) (fs_db s))) s) ->
  rg E (=) anyG (on_db (Peek x token)) Q s.
Proof.
  intros Hf Hq. apply on_db_rg. unfold Peek. rg_step. intros ? e He <-. split; [done|]. cbv beta iota. cbn [fst snd].
  rg_step. apply rg_query_row. intros ? <-. split; [done|].
  specialize (Hq e He). unfold peeked in Hq. destruct s as [db b d st].
  split; [intros Hm; rg_step; apply (Hf Hm)|]. cbn [fs_db] in *.
  destruct (head _) as [row|]; rg_step; apply Hq.
Qed.

Lemma auth_rg authorization s (Q : Outcome + unit -> FStore -> Prop) :
  (may_fault E \/ authorization = "" \/ (exists e, E e /\ peeked x (bearer_value authorization) (e_now e) (fs_db s) = None) ->
     forall m, Q (inl (Answer (Error 401 m))) s) ->
  (forall e t, E e -> peeked x (bearer_value authorization) (e_now e) (fs_db s) = Some t -> Q (inr tt) s) ->
  rg E (=) anyG (checkInstallerAuth x authorization) Q s.
Proof.
  intros Hno Hok. unfold checkInstallerAuth. destruct (authorization =s "") eqn:Ha; reflect_bools.
  { f_step. apply Hno. auto. }
  assert (rg E (=) anyG (t ← on_db (Peek x (bearer_value authorization));
    match t with Some _ => mret tt | None => answer (Error 401 "invalid API key or enrollment token") end) Q s) as Htok.
  { f_step. apply Peek_rg; [intros ?; f_step; auto|]. intros e He.
    destruct (peeked _ _ _ _) as [t|] eqn:Hp; f_step; [by eapply Hok|]. apply Hno. eauto 8. }
  cbv zeta. f_step. destruct (cut_prefix "sk_" _); [|by f_step].
  apply on_db_rg. unfold installer_key_valid. apply rg_exec. intros ? <-. by destruct s.
Qed.

Lemma lookup_rg os arch v s (Q : Outcome + Installer -> FStore -> Prop) :
  (forall st m, (400 <= st)%Z -> Q (inl (Answer (Error st m))) s) ->
  (forall i, find_installer os arch v (fs_db s) = Some i -> Q (inr i) s) ->
  rg E (=) anyG (lookupInstaller os arch v) Q s.
Proof.
  intros Herr Hok. unfold lookupInstaller. f_step. apply on_db_query_row; [intros _; f_step; by apply Herr|].
  destruct (find_installer _ _ _ _); f_step; [by apply Hok|by apply Herr].
Qed.

Lemma serveFile_rg fileID name s (Q : Outcome + unit -> FStore -> Prop) :
  (forall st m, (400 <= st)%Z -> Q (inl (Answer (Error st m))) s) ->
  (forall d, fs_blobs s !! fileID = Some d -> Q (inl (Answer (JSON 200 (BBytes name d)))) s) ->
  rg E (=) anyG (serveFile fileID name) Q s.
Proof.
  intros Herr Hok. unfold serveFile. f_step. apply rg_access. intros e He. cbn [fst snd].
  destruct (e_fault e); [f_step; by apply Herr|]. destruct (fs_blobs s !! fileID); f_step; [by apply Hok|by apply Herr].
Qed.
End Serve.

(** [r] is a reply to [q] from a registered installer that is not yanked, and the
    token of the request exists, is unused and has not expired at a time of the
    run. *)
Definition rightful (x : X509) (authorization : string) (q : InstallerRequest) (env : nat -> Env) (s : FStore) (r : Response) : Prop :=
  (exists i, chosen q (fs_db s) = Some i /\ ins_yanked i = false /\ reply q i s = Some r) /\
  exists n k row, enrollment_tokens (fs_db s) !! k = Some row /\ tok_hash row = hashToken x (bearer_value authorization) /\
    tok_used_at row = None /\ (e_now (env n) < tok_expires_at row)%Z.

Lemma chosen_offered q db i : chosen q db = Some i -> ins_yanked i = false.
Proof.
  destruct q; simpl; intros Hc; try (by apply find_installer_Some in Hc as (? & ? & ? & ? & ? & ?)).
  unfold latest_stable in Hc. apply fmap_Some in Hc as ([k j] & Hh & ->). apply head_Some_elem_of in Hh.
  rewrite merge_sort_Permutation in Hh. apply elem_of_select_where in Hh as [_ Hp]. by reflect_bools.
Qed.

Lemma installer_serve_rg x authorization q env s (Q : Outcome + unit -> FStore -> Prop) :
  (forall st m, (400 <= st)%Z -> Q (inl (Answer (Error st m))) s) ->
  (forall r, rightful x authorization q env s r -> Q (inl (Answer r)) s) ->
  rg (envs env) (=) anyG (installer_serve x authorization q) Q s.
Proof.
  intros Herr Hok.
  assert (forall e t i r, envs env e -> peeked x (bearer_value authorization) (e_now e) (fs_db s) = Some t ->
    chosen q (fs_db s) = Some i -> reply q i s = Some r -> Q (inl (Answer r)) s) as Hgo.
  { intros e t i r [n <-] (row & Hr)%peeked_valid Hc Hrep. apply Hok. split; [|by eexists n, _, _].
    exists i. split_and!; [done|by eapply chosen_offered|done]. }
  destruct q as [os arch v|os arch|os arch v|os arch v]; unfold installer_serve;
    unfold DownloadInstaller, DownloadLatest, Checksum, InstallerSignature;
    f_step; (apply auth_rg; [intros _ m; by apply Herr|]); intros e t He Ht; f_step.
  - apply lookup_rg; [done|]. intros i Hi. apply serveFile_rg; [done|]. intros d Hd. eapply Hgo; [done..|]. simpl. by rewrite Hd.
  - apply on_db_query_row; [intros _; f_step; by apply Herr|].
    destruct (latest_stable os arch (fs_db s)) as [i|] eqn:Hi; [|f_step; by apply Herr].
    apply serveFile_rg; [done|]. intros d Hd. eapply Hgo; [done..|]. simpl. by rewrite Hd.
  - apply lookup_rg; [done|]. intros i Hi. f_step. by eapply Hgo.
  - apply lookup_rg; [done|]. intros i Hi. f_step. by eapply Hgo.
Qed.

(** Installer downloads, checksums and signatures, whatever fails: nothing is
    changed, and what is not an error is served from a registered installer of the
    platform that is not yanked, to a request with an enrollment token that exists,
    is unused and has not expired at a time of the request; no API key is
    accepted. *)
Theorem installer_download_spec x authorization q env s :
  exists r, run_result (installer_serve x authorization q) env s = inl (Answer r) /\
    run_store (installer_serve x authorization q) env s = s /\
    ((400 <= resp_status r)%Z \/ rightful x authorization q env s r).
Proof. by_rg (envs env) anyG; [by eexists|]. apply installer_serve_rg; eauto 6. Qed.

(** ** The install script *)

Lemma latest_stable_Some os arch db i : latest_stable os arch db = Some i ->
  exists k, installers db !! k = Some i /\ ins_os i = os /\ ins_arch i = arch /\ ins_yanked i = false.
Proof.
  unfold latest_stable. intros ([k j] & Hh & ->)%fmap_Some. apply head_Some_elem_of in Hh.
  rewrite merge_sort_Permutation in Hh. apply elem_of_select_where in Hh as [Hk Hp]. exists k. by reflect_bools.
Qed.

Lemma script_rg E x r os arch token s (Q : Outcome + unit -> FStore -> Prop) :
  (forall st m, (400 <= st)%Z -> Q (inl (Answer (Error st m))) s) ->
  (forall i, latest_stable os arch (fs_db s) = Some i ->
     Q (inl (Answer (JSON 200 (BScript os (serverBaseURL r) token (ins_version i) (ins_sha256 i) (ins_arch i))))) s) ->
  rg E (=) anyG (ServeInstallScript x r os arch token) Q s.
Proof.
  intros Herr Hok. unfold ServeInstallScript. do 3 (case_match; [f_step; by apply Herr|]).
  f_step. apply Peek_rg; [intros _; f_step; by apply Herr|]. intros e He.
  destruct (peeked _ _ _ _); [|f_step; by apply Herr].
  f_step. apply on_db_query_row; [intros _; f_step; by apply Herr|].
  destruct (latest_stable _ _ _); f_step; [by apply Hok|by apply Herr].
Qed.

(** A request with a valid token, when no access fails, is answered from the
    installer it names. *)
Lemma token_opens x token q env s i r :
  (forall n, ok_env (env n)) -> (forall n, is_Some (peeked x token (e_now (env n)) (fs_db s))) ->
  chosen q (fs_db s) = Some i -> reply q i s = Some r ->
  run_result (installer_serve x ("Bearer " +++ token) q) env s = inl (Answer r).
Proof.
  intros Hok Hp Hi Hr.
  assert (bearer_value ("Bearer " +++ token) = token) as Hb by (unfold bearer_value; by rewrite string_prefix_cut).
  assert (~ may_fault (envs env)) as Hnf by (by apply envs_no_fault).
  by_rg (envs env) anyG; [by eexists|].
  assert (forall (Q : Outcome + unit -> FStore -> Prop), Q (inr tt) s -> rg (envs env) (=) anyG (checkInstallerAuth x ("Bearer " +++ token)) Q s) as Hauth.
  { intros Q HQ. apply auth_rg; [|done]. rewrite Hb. intros [?|[?|(e & [n <-] & Hn)]] m; [done|done|].
    destruct (Hp n) as [t Ht]. congruence. }
  assert (forall fileID name d, fs_blobs s !! fileID = Some d -> r = JSON 200 (BBytes name d) ->
    rg (envs env) (=) anyG (serveFile fileID name) (fun y _ => y = inl (Answer r)) s) as Hserve.
  { intros fileID name d Hd ->. unfold serveFile. f_step. apply rg_access. intros e [n <-]. cbn [fst snd].
    destruct (Hok n) as [-> _]. rewrite Hd. by f_step. }
  assert (forall os arch v (Q : Outcome + Installer -> FStore -> Prop), find_installer os arch v (fs_db s) = Some i ->
    Q (inr i) s -> rg (envs env) (=) anyG (lookupInstaller os arch v) Q s) as Hlook.
  { intros os arch v Q Hf HQ. unfold lookupInstaller. f_step. apply on_db_query_row; [done|]. rewrite Hf. by f_step. }
  destruct q as [os arch v|os arch|os arch v|os arch v]; cbn [chosen reply] in Hi, Hr; unfold installer_serve;
    unfold DownloadInstaller, DownloadLatest, Checksum, InstallerSignature; f_step; apply Hauth; f_step.
  - apply Hlook; [done|]. apply fmap_Some in Hr as (d & Hd & ->). by eapply Hserve.
  - apply on_db_query_row; [done|]. rewrite Hi. apply fmap_Some in Hr as (d & Hd & ->). by eapply Hserve.
  - apply Hlook; [done|]. f_step. congruence.
  - apply Hlook; [done|]. f_step. congruence.
Qed.

(** The installer named by an install script is the one that its token downloads:
    when the script was served with a version and a checksum, then as long as the
    token is valid and the registry is as it was, the checksum request answers
    with that checksum, and the download with the bytes of the same installer. *)
Theorem script_agrees x r os arch token base v sha arch' env env' s :
  installers_unique (fs_db s) ->
  run_result (ServeInstallScript x r os arch token) env s = inl (Answer (JSON 200 (BScript os base token v sha arch'))) ->
  (forall n, ok_env (env' n)) -> (forall n, is_Some (peeked x token (e_now (env' n)) (fs_db s))) ->
  exists k i, installers (fs_db s) !! k = Some i /\ ins_os i = os /\ ins_arch i = arch /\ ins_version i = v /\ ins_sha256 i = sha /\
    run_result (Checksum x ("Bearer " +++ token) os arch v) env' s =
      inl (Answer (JSON 200 (BText (sha +++ "  " +++ installerFilename os arch v +++ String (Ascii.ascii_of_nat 10) "")))) /\
    forall d, fs_blobs s !! ins_file i = Some d ->
      run_result (DownloadInstaller x ("Bearer " +++ token) os arch v) env' s =
        inl (Answer (JSON 200 (BBytes (installerFilename os arch v) d))).
Proof.
  intros Hu Hrun Hok Hp.
  assert (exists i, latest_stable os arch (fs_db s) = Some i /\ ins_version i = v /\ ins_sha256 i = sha) as (i & Hi & Hv & Hsha).
  { revert Hrun. by_rg any_env anyG; [done|]. apply script_rg; [by intros st m Hst [= -> ?]|].
    intros i Hi [= ? ? ? ?]. eauto. }
  apply latest_stable_Some in Hi as (k & Hk & Hos & Harch & Hy). exists k, i. split_and!; try done.
  all: pose proof (find_installer_unique _ _ _ Hu Hk Hy) as Hfind; rewrite Hos, Harch, Hv in Hfind.
  - apply (token_opens x token (GetChecksum os arch v) env' s i); [done..|]. simpl. by rewrite Hsha, Hv.
  - intros d Hd. apply (token_opens x token (GetBinary os arch v) env' s i); [done..|]. simpl. by rewrite Hd, Hv.
Qed.
