(* ===== verification/Scripts.v ===== *)
(** * Install scripts

    [generateLinuxScript] and [generateWindowsScript] of
    [server/api/install_script.go], as text, and what a shell reads of the values
    that were put into them. *)

From S2P Require Import Prelude Text Models Install Fleet Installers.


(** A tilde stands for a double quote in the literals below. *)
Definition tilde : Ascii.ascii := Ascii.ascii_of_nat 126.
Definition dquote : Ascii.ascii := Ascii.ascii_of_nat 34.
Fixpoint q (s : string) : string :=
  match s with
  | EmptyString => EmptyString
  | String c s' => String (if Ascii.eqb c tilde then dquote else c) (q s')
  end.

(** ** server/api/install_script.go *)

Definition linux_lines (baseURL token version sha256 arch : string) : list string :=
  [q "#!/usr/bin/env bash";
   q "# Moebius Agent — Generated Install Script";
   q "# Platform: linux/" +++ arch +++ q "  Version: " +++ version;
   q "# This script was generated by the Moebius management server.";
   q "# The enrollment token is embedded below and will be consumed on first check-in.";
   q "";
   q "set -euo pipefail";
   q "";
   q "RED='\033[0;31m'; GREEN='\033[0;32m'; NC='\033[0m'";
   q "info()  { echo -e ~${GREEN}[INFO]${NC}  $*~; }";
   q "error() { echo -e ~${RED}[ERROR]${NC} $*~ >&2; }";
   q "fatal() { error ~$@~; exit 1; }";
   q "";
   q "# Must be root.";
   q "if [[ $EUID -ne 0 ]]; then";
   q "    fatal ~This script must be run as root (use sudo)~";
   q "fi";
   q "";
   q "WORK_DIR=$(mktemp -d)";
   q "trap 'rm -rf ~$WORK_DIR~' EXIT";
   q "cd ~$WORK_DIR~";
   q "";
   q "SERVER=~" +++ baseURL +++ q "~";
   q "VERSION=~" +++ version +++ q "~";
   q "EXPECTED_SHA256=~" +++ sha256 +++ q "~";
   q "ENROLLMENT_TOKEN=~" +++ token +++ q "~";
   q "";
   q "info ~Downloading installer (linux/" +++ arch +++ q " v${VERSION})...~";
   q "curl -fsSL -o installer.tar.gz \";
   q "    ~${SERVER}/v1/installers/linux/" +++ arch +++ q "/${VERSION}~ \";
   q "    -H ~Authorization: Bearer ${ENROLLMENT_TOKEN}~";
   q "";
   q "info ~Downloading checksum...~";
   q "curl -fsSL -o installer.tar.gz.sha256 \";
   q "    ~${SERVER}/v1/installers/linux/" +++ arch +++ q "/${VERSION}/checksum~ \";
   q "    -H ~Authorization: Bearer ${ENROLLMENT_TOKEN}~";
   q "";
   q "info ~Downloading signature...~";
   q "curl -fsSL -o installer.tar.gz.sig \";
   q "    ~${SERVER}/v1/installers/linux/" +++ arch +++ q "/${VERSION}/signature~ \";
   q "    -H ~Authorization: Bearer ${ENROLLMENT_TOKEN}~";
   q "";
   q "# Verify SHA-256 checksum.";
   q "info ~Verifying checksum...~";
   q "ACTUAL_SHA256=$(sha256sum installer.tar.gz | awk '{print $1}')";
   q "if [[ ~$ACTUAL_SHA256~ != ~$EXPECTED_SHA256~ ]]; then";
   q "    fatal ~Checksum mismatch! Expected: ${EXPECTED_SHA256}  Got: ${ACTUAL_SHA256}~";
   q "fi";
   q "info ~Checksum verified.~";
   q "";
   q "# Extract tarball.";
   q "info ~Extracting installer...~";
   q "tar xzf installer.tar.gz";
   q "";
   q "# Make binary executable.";
   q "chmod +x moebius-agent";
   q "";
   q "# Run the agent install subcommand with the embedded enrollment token.";
   q "info ~Running installer...~";
   q "./moebius-agent install \";
   q "    --enrollment-token ~$ENROLLMENT_TOKEN~ \";
   q "    --server-url ~$SERVER~";
   q "";
   q "info ~Done.~"].

Definition generateLinuxScript (baseURL token version sha256 arch : string) : string :=
  text (linux_lines baseURL token version sha256 arch).

Definition generateWindowsScript (baseURL token version sha256 arch : string) : string := text
  [q "# Moebius Agent — Generated Install Script";
   q "# Platform: windows/" +++ arch +++ q "  Version: " +++ version;
   q "# This script was generated by the Moebius management server.";
   q "# The enrollment token is embedded below and will be consumed on first check-in.";
   q "# Run as Administrator: powershell -NoProfile -ExecutionPolicy Bypass -File install.ps1";
   q "";
   q "$ErrorActionPreference = 'Stop'";
   q "";
   q "$Server       = '" +++ baseURL +++ q "'";
   q "$Version      = '" +++ version +++ q "'";
   q "$ExpectedHash = '" +++ sha256 +++ q "'";
   q "$Token        = '" +++ token +++ q "'";
   q "";
   q "function Write-Status($msg) { Write-Host ~[INFO]  $msg~ -ForegroundColor Green }";
   q "function Write-Err($msg)    { Write-Host ~[ERROR] $msg~ -ForegroundColor Red }";
   q "";
   q "# Must be Administrator.";
   q "$identity = [Security.Principal.WindowsIdentity]::GetCurrent()";
   q "$principal = New-Object Security.Principal.WindowsPrincipal($identity)";
   q "if (-not $principal.IsInRole([Security.Principal.WindowsBuiltInRole]::Administrator)) {";
   q "    Write-Err 'This script must be run as Administrator'";
   q "    exit 1";
   q "}";
   q "";
   q "$WorkDir = Join-Path $env:TEMP ('moebius-install-' + (Get-Random))";
   q "New-Item -ItemType Directory -Path $WorkDir -Force | Out-Null";
   q "";
   q "try {";
   q "    $headers = @{ 'Authorization' = ~Bearer $Token~ }";
   q "";
   q "    Write-Status 'Downloading installer (windows/" +++ arch +++ q " v" +++ version +++ q ")...'";
   q "    $msiPath = Join-Path $WorkDir 'agent-windows-" +++ arch +++ q "-" +++ version +++ q ".msi'";
   q "    Invoke-WebRequest -UseBasicParsing -Uri ~$Server/v1/installers/windows/" +++ arch +++ q "/$Version~ -Headers $headers -OutFile $msiPath";
   q "";
   q "    Write-Status 'Downloading checksum...'";
   q "    $checksumPath = Join-Path $WorkDir 'checksum.sha256'";
   q "    Invoke-WebRequest -UseBasicParsing -Uri ~$Server/v1/installers/windows/" +++ arch +++ q "/$Version/checksum~ -Headers $headers -OutFile $checksumPath";
   q "";
   q "    Write-Status 'Downloading signature...'";
   q "    $sigPath = Join-Path $WorkDir 'installer.msi.sig'";
   q "    Invoke-WebRequest -UseBasicParsing -Uri ~$Server/v1/installers/windows/" +++ arch +++ q "/$Version/signature~ -Headers $headers -OutFile $sigPath";
   q "";
   q "    # Verify SHA-256 checksum.";
   q "    Write-Status 'Verifying checksum...'";
   q "    $actualHash = (Get-FileHash $msiPath -Algorithm SHA256).Hash.ToLower()";
   q "    if ($actualHash -ne $ExpectedHash) {";
   q "        Write-Err ~Checksum mismatch! Expected: $ExpectedHash  Got: $actualHash~";
   q "        exit 1";
   q "    }";
   q "    Write-Status 'Checksum verified.'";
   q "";
   q "    # Run MSI installer silently with enrollment token and server URL.";
   q "    Write-Status 'Running MSI installer...'";
   q "    $msiArgs = ~/i `~$msiPath`~ /quiet ENROLLMENT_TOKEN=$Token SERVER_URL=$Server~";
   q "    $proc = Start-Process msiexec.exe -ArgumentList $msiArgs -Wait -PassThru";
   q "    if ($proc.ExitCode -ne 0) {";
   q "        Write-Err ~MSI installer failed with exit code $($proc.ExitCode)~";
   q "        exit $proc.ExitCode";
   q "    }";
   q "";
   q "    Write-Status 'Installation complete.'";
   q "";
   q "    # Wait for service to start.";
   q "    Write-Status 'Waiting for agent service to start (up to 30s)...'";
   q "    for ($i = 0; $i -lt 30; $i++) {";
   q "        $svc = Get-Service -Name MoebiusAgent -ErrorAction SilentlyContinue";
   q "        if ($svc -and $svc.Status -eq 'Running') {";
   q "            Write-Status 'Agent service is running.'";
   q "            break";
   q "        }";
   q "        Start-Sleep -Seconds 1";
   q "    }";
   q "";
   q "    Write-Status 'Done.'";
   q "}";
   q "finally {";
   q "    Remove-Item -Recurse -Force $WorkDir -ErrorAction SilentlyContinue";
   q "}"].

(** The body of an answered script: the place of [BScript] in file [Models]. *)
Definition script_text (os baseURL token version sha256 arch : string) : string :=
  if os =s "linux" then generateLinuxScript baseURL token version sha256 arch
  else if os =s "windows" then generateWindowsScript baseURL token version sha256 arch
  else "".

(** ** What a shell reads *)

Definition equals_sign : Ascii.ascii := Ascii.ascii_of_nat 61.

Definition name_char (c : Ascii.ascii) : bool :=
  let n := Ascii.nat_of_ascii c in
  ((65 <=? n) && (n <=? 90) || (97 <=? n) && (n <=? 122) || (48 <=? n) && (n <=? 57) || (n =? 95))%nat.

(** Between double quotes a shell keeps every character but these, and a newline
    would end the line. *)
Definition literal (s : string) : bool :=
  negb (ContainsAny s [dquote; Ascii.ascii_of_nat 36; Ascii.ascii_of_nat 96; Ascii.ascii_of_nat 92; newline]).

(** The variable that a line sets to a literal text: NAME, an equals sign and the
    text in double quotes. *)
Definition sh_assignment (line : string) : option (string * string) :=
  match cut_at equals_sign line with
  | Some (name, String c rest) =>
      if string_forall name_char name && Ascii.eqb c dquote then
        match cut_at dquote rest with
        | Some (v, EmptyString) => if literal v then Some (name, v) else None
        | _ => None
        end
      else None
  | _ => None
  end.

Definition sh_assignments (script : string) : list (string * string) := omap sh_assignment (split_on newline script).

Lemma char_append c s : char c +++ s = String c s.
Proof. done. Qed.

Lemma split_on_line sep a b : without sep a = true -> split_on sep (a +++ String sep b) = a :: split_on sep b.
Proof.
  induction a as [|c a IH]; simpl; intros H.
  - by rewrite Ascii.eqb_refl.
  - apply andb_prop in H as [Hc Ha]. apply negb_true_iff in Hc. by rewrite Hc, IH.
Qed.

Lemma split_text ls : Forall (fun l => without newline l = true) ls -> split_on newline (text ls) = ls ++ [""].
Proof.
  induction 1 as [|l ls Hl _ IH]; [done|]. unfold text in *. cbn [map].
  assert (forall a m, String.concat "" (a :: m) = a +++ String.concat "" m) as Hc.
  { intros a [|? ?]; [by rewrite append_empty|done]. }
  rewrite Hc, append_assoc, char_append, split_on_line by done. by rewrite IH.
Qed.

(** A line that starts with something no name has sets nothing. *)
Lemma other_line p rest : without equals_sign p = true -> string_forall name_char p = false ->
  sh_assignment (p +++ rest) = None.
Proof.
  intros Hw Hn. unfold sh_assignment.
  assert (forall name r, cut_at equals_sign (p +++ rest) = Some (name, r) -> string_forall name_char name = false) as H.
  { revert Hw Hn. clear. induction p as [|c p IH]; [done|]. simpl. intros [Hc Hw]%andb_prop Hn name r.
    apply negb_true_iff in Hc. rewrite Hc. destruct (cut_at equals_sign (p +++ rest)) as [[n r']|] eqn:E; [|done].
    intros [= <- <-]. simpl. destruct (name_char c); [|done]. simpl in *. by eapply IH. }
  destruct (cut_at _ _) as [[name [|c r]]|] eqn:E; [done| |done]. by rewrite (H _ _ eq_refl).
Qed.

Lemma literal_no_quote v : literal v = true -> without dquote v = true /\ without newline v = true.
Proof.
  unfold literal, ContainsAny, without. rewrite negb_involutive. induction v as [|c v IH]; [done|].
  simpl. intros [Hc Hv]%andb_prop. destruct (IH Hv) as [-> ->]. rewrite !andb_true_r.
  apply negb_true_iff in Hc. repeat apply orb_false_iff in Hc as [? Hc]. split; by apply negb_true_iff.
Qed.

Lemma assignment_line name v : without equals_sign name = true -> string_forall name_char name = true -> literal v = true ->
  sh_assignment (name +++ String equals_sign (String dquote (v +++ char dquote))) = Some (name, v).
Proof.
  intros Hw Hn Hv. unfold sh_assignment. rewrite cut_at_append by done. rewrite Hn, Ascii.eqb_refl. cbn [andb].
  unfold char. rewrite cut_at_append by (by apply literal_no_quote). by rewrite Hv.
Qed.

Lemma without_append sep a b : without sep (a +++ b) = without sep a && without sep b.
Proof. apply string_forall_append. Qed.

Lemma line_skipped l ls : sh_assignment l = None -> omap sh_assignment (l :: ls) = omap sh_assignment ls.
Proof. intros H. simpl. by rewrite H. Qed.

Lemma line_sets name v ls : without equals_sign name = true -> string_forall name_char name = true -> literal v = true ->
  omap sh_assignment ((name +++ String equals_sign (String dquote (v +++ char dquote))) :: ls) = (name, v) :: omap sh_assignment ls.
Proof. intros Hw Hn Hv. cbn [omap list_omap]. by rewrite assignment_line. Qed.

Ltac line_sets_nothing :=
  rewrite line_skipped; [|first [vm_compute; reflexivity | apply other_line; reflexivity]].

(** The values reach the shell: in the script for Linux the four variables are set
    to the URL, the version, the checksum and the token, and nothing else is set to
    a literal text, as long as none of the values has a character that is special
    between double quotes. *)
Theorem script_sets_variables baseURL token version sha256 arch :
  Forall (fun v => literal v = true) [baseURL; token; version; sha256; arch] ->
  sh_assignments (script_text "linux" baseURL token version sha256 arch)
  = [("SERVER", baseURL); ("VERSION", version); ("EXPECTED_SHA256", sha256); ("ENROLLMENT_TOKEN", token)].
Proof.
  intros H. apply Forall_cons in H as [Hb H]. apply Forall_cons in H as [Ht H]. apply Forall_cons in H as [Hv H].
  apply Forall_cons in H as [Hs H]. apply Forall_cons in H as [Ha _].
  unfold sh_assignments, script_text. change ("linux" =s "linux") with true. cbv iota. unfold generateLinuxScript.
  rewrite split_text.
  2:{ unfold linux_lines. repeat (apply Forall_cons; split; [rewrite ?without_append;
        repeat match goal with |- context [without newline ?x] => is_var x; rewrite (proj2 (literal_no_quote x ltac:(done))) end;
        vm_compute; reflexivity|]). constructor. }
  unfold linux_lines. cbn [app]. repeat line_sets_nothing. rewrite (line_sets "SERVER" baseURL) by done. rewrite (line_sets "VERSION" version) by done.
  rewrite (line_sets "EXPECTED_SHA256" sha256) by done. rewrite (line_sets "ENROLLMENT_TOKEN" token) by done.
  repeat line_sets_nothing. done.
Qed.
