(* ===== verification/RateLimit.v ===== *)
(** * Rate limiting

    [server/ratelimit]: token buckets per key in float64 arithmetic, their lazy
    eviction, and the middleware that rejects with Retry-After.  Times and
    durations are nanoseconds; [Allow] holds the mutex for all but the reading of
    the clock, so the order of the calls is the order of the list and the clock
    values are part of it. *)

From Stdlib Require Import QArith Qround Lqa.
From S2P Require Import Prelude Float64.

Local Close Scope Q_scope.
Local Open Scope nat_scope.

(** ** server/ratelimit/limiter.go *)

Record BucketConfig := { Rate : Q; Burst : Z }.

Record bucket := { tokens : Q; lastTime : Z }.

Record KeyedLimiter := {
  buckets : gmap string bucket;
  rate : Q;
  burst : Q;
  ttl : Z;
  calls : Z;
}.

Definition NewKeyedLimiter (cfg : BucketConfig) (cleanupTTL : Z) : KeyedLimiter :=
  {| buckets := ∅; rate := Rate cfg; burst := float_of_int (Burst cfg); ttl := cleanupTTL; calls := 0 |}.

Definition put_buckets (m : gmap string bucket) (n : Z) (kl : KeyedLimiter) : KeyedLimiter :=
  {| buckets := m; rate := rate kl; burst := burst kl; ttl := ttl kl; calls := n |}.

Definition Second : Z := 1000000000.

(** [Duration.Seconds]. *)
Definition Seconds (d : Z) : Q :=
  fadd (float_of_int (Z.quot d Second)) (fdiv (float_of_int (Z.rem d Second)) (float_of_int Second)).

Definition maybeCleanup (now : Z) (kl : KeyedLimiter) : KeyedLimiter :=
  let n := wrap64 (calls kl + 1) in
  if (n <? 1024)%Z then put_buckets (buckets kl) n kl
  else
    let cutoff := (now - ttl kl)%Z in
    put_buckets (filter (fun kb : string * bucket => ~ (lastTime kb.2 < cutoff)%Z) (buckets kl)) 0 kl.

Definition refill (kl : KeyedLimiter) (b : bucket) (now : Z) : Q :=
  let elapsed := Seconds (now - lastTime b) in
  fmin (burst kl) (fadd (tokens b) (fmul elapsed (rate kl))).

(** The answer, and the time to wait when it is no. *)
Definition Allow (kl : KeyedLimiter) (key : string) (now : Z) : KeyedLimiter * bool * Z :=
  let b := default {| tokens := burst kl; lastTime := now |} (buckets kl !! key) in
  let t := refill kl b now in
  let put t' := put_buckets (<[key := {| tokens := t'; lastTime := now |}]> (buckets kl)) (calls kl) kl in
  if Qle_bool 1 t then (maybeCleanup now (put (fsub t 1)), true, 0%Z)
  else
    let wait := ftrunc (fmul (fdiv (fsub 1 t) (rate kl)) (float_of_int Second)) in
    (maybeCleanup now (put t), false, wait).

Definition Len (kl : KeyedLimiter) : nat := size (buckets kl).

(** ** server/ratelimit/middleware.go *)

(** Position of a byte in a string, from either end. *)
Fixpoint index_byte (c : Ascii.ascii) (s : string) : option nat :=
  match s with
  | EmptyString => None
  | String d s' => if Ascii.eqb c d then Some 0 else S <$> index_byte c s'
  end.

Fixpoint last_byte (c : Ascii.ascii) (s : string) : option nat :=
  match s with
  | EmptyString => None
  | String d s' => match last_byte c s' with Some i => Some (S i) | None => if Ascii.eqb c d then Some 0 else None end
  end.

Definition colon : Ascii.ascii := Ascii.ascii_of_nat 58.
Definition lbracket : Ascii.ascii := Ascii.ascii_of_nat 91.
Definition rbracket : Ascii.ascii := Ascii.ascii_of_nat 93.
Definition from (i : nat) (s : string) : string := String.substring i (String.length s - i) s.
Definition has_byte (c : Ascii.ascii) (s : string) : bool := bool_decide (is_Some (index_byte c s)).

(** The host of [net.SplitHostPort]; [None] is an error. *)
Definition SplitHost (hostport : string) : option string :=
  match last_byte colon hostport with
  | None => None
  | Some i =>
      let check (host : string) (j k : nat) :=
        if has_byte lbracket (from j hostport) || has_byte rbracket (from k hostport) then None else Some host in
      match hostport with
      | String c _ =>
          if Ascii.eqb c lbracket then
            match index_byte rbracket hostport with
            | None => None
            | Some e => if (e + 1 =? i)%nat then check (String.substring 1 (e - 1) hostport) 1 (e + 1) else None
            end
          else
            let host := String.substring 0 i hostport in
            if has_byte colon host then None else check host 0 0
      | EmptyString => None
      end
  end.

Definition clientIP (remoteAddr : string) : string := default remoteAddr (SplitHost remoteAddr).

(** The Retry-After of a rejection. *)
Definition retry_secs (retryAfter : Z) : Z :=
  let secs := fceil (Seconds retryAfter) in if (secs <? 1)%Z then 1%Z else secs.

(** What a middleware does with a request: pass it on, or answer 429. *)
Inductive Verdict := Pass | Reject429 (retry_after : Z).

Definition limit_by (kl : KeyedLimiter) (key : string) (now : Z) : KeyedLimiter * Verdict :=
  let '(kl', allowed, retryAfter) := Allow kl key now in
  if allowed then (kl', Pass) else (kl', Reject429 (retry_secs retryAfter)).

Definition PerIPMiddleware (kl : KeyedLimiter) (remoteAddr : string) (now : Z) : KeyedLimiter * Verdict :=
  limit_by kl (clientIP remoteAddr) now.

Definition PerTenantMiddleware (kl : KeyedLimiter) (tenantID : string) (now : Z) : KeyedLimiter * Verdict :=
  if tenantID =s "" then (kl, Pass) else limit_by kl tenantID now.

Definition PerAgentMiddleware (kl : KeyedLimiter) (agentID : string) (now : Z) : KeyedLimiter * Verdict :=
  if agentID =s "" then (kl, Pass) else limit_by kl agentID now.

(** ** Sequences of calls *)

Definition Call : Type := string * Z.

Fixpoint serve_calls (kl : KeyedLimiter) (cs : list Call) : KeyedLimiter * list bool :=
  match cs with
  | [] => (kl, [])
  | c :: cs' =>
      let '(kl1, ok, _) := Allow kl c.1 c.2 in
      let '(kl2, oks) := serve_calls kl1 cs' in (kl2, ok :: oks)
  end.

(** How many calls of a key were let through. *)
Fixpoint passed (key : string) (cs : list Call) (oks : list bool) : Z :=
  match cs, oks with
  | c :: cs', ok :: oks' => ((if (c.1 =s key) && ok then 1 else 0) + passed key cs' oks')%Z
  | _, _ => 0%Z
  end.

Definition calls_of (key : string) (cs : list Call) : Z := Z.of_nat (length (filter (fun c : Call => c.1 = key) cs)).

(** Clock values that never go back. *)
Fixpoint clock_from (t : Z) (cs : list Call) : Prop :=
  match cs with [] => True | c :: cs' => (t <= c.2)%Z /\ clock_from c.2 cs' end.

Definition end_of (t : Z) (cs : list Call) : Z := match last cs with Some c => c.2 | None => t end.
