(* ===== verification/RateSpecs.v ===== *)
(** * Theorems on rate limiting

    Bounds of the buckets, the exact burst of one instant, and the rate: over any
    time the calls let through for a key exceed the burst and the refill by no
    more than the rounding of float64 can account for, evictions included. *)

From Stdlib Require Import QArith Qround Lqa.
From S2P Require Import Prelude Float64 RateLimit.

Local Close Scope Q_scope.
Local Open Scope nat_scope.

(** ** Rounding of the refill *)

Definition one_up : Q := (1 + ulp53)%Q.

Lemma one_up_ge : (1 <= one_up)%Q.
Proof. unfold Qle. by vm_compute. Qed.

Lemma float_of_int_up z : (0 <= z)%Z -> (0 <= float_of_int z <= inject_Z z * one_up)%Q.
Proof.
  intros Hz. assert (0 <= inject_Z z)%Q as Hq by (unfold Qle; simpl; lia).
  split; [by apply rnd_nonneg|by apply rnd_err].
Qed.

Lemma rnd_up x y : (0 <= x)%Q -> (x <= y)%Q -> (0 <= rnd x <= y * one_up)%Q.
Proof.
  intros Hx Hy. split; [by apply rnd_nonneg|]. eapply Qle_trans; [by apply rnd_err|].
  apply Qmult_le_compat_r; [done|]. pose proof one_up_ge. unfold one_up in *. lra.
Qed.

Lemma float_second : (float_of_int Second == inject_Z Second)%Q.
Proof. vm_compute. reflexivity. Qed.

(** The refill of a duration: at most three roundings up of its length in seconds. *)
Lemma Seconds_up d : (0 <= d)%Z -> (0 <= Seconds d <= (d # 1000000000) * (one_up * one_up * one_up))%Q.
Proof.
  intros Hd. unfold Seconds.
  assert (0 < Second)%Z as HS by done.
  pose proof (Z.quot_rem' d Second) as Hqr. pose proof (Z.rem_bound_pos d Second Hd HS) as Hrem.
  pose proof (Z.quot_pos d Second Hd HS) as Hq0.
  set (q := Z.quot d Second) in *. set (r := Z.rem d Second) in *.
  destruct (float_of_int_up q Hq0) as [Q1 Q2]. destruct (float_of_int_up r) as [R1 R2]; [lia|].
  assert (0 <= fdiv (float_of_int r) (float_of_int Second) <= (r # 1000000000) * (one_up * one_up))%Q as [D1 D2].
  { unfold fdiv. assert (float_of_int r / float_of_int Second == float_of_int r * (1 # 1000000000))%Q as E.
    { rewrite float_second. reflexivity. }
    assert (0 <= float_of_int r / float_of_int Second)%Q as E0 by (rewrite E; lra).
    assert ((r # 1000000000) == inject_Z r * (1 # 1000000000))%Q as Er by (unfold Qeq; simpl; lia).
    destruct (rnd_up _ (inject_Z r * one_up * (1 # 1000000000)) E0) as [? ?]; [rewrite E; lra|]. split; [done|].
    rewrite Er. lra. }
  assert ((d # 1000000000) == inject_Z q + (r # 1000000000))%Q as Ed.
  { unfold Qeq, Second in *; simpl. lia. }
  assert (0 <= inject_Z q)%Q as Hqq by (unfold Qle; simpl; lia).
  pose proof one_up_ge as Hu.
  unfold fadd. destruct (rnd_up (float_of_int q + fdiv (float_of_int r) (float_of_int Second))
    ((inject_Z q + (r # 1000000000)) * (one_up * one_up))) as [? ?]; [lra| |].
  - assert (inject_Z q * one_up <= inject_Z q * (one_up * one_up))%Q; [|lra].
    rewrite Qmult_assoc. rewrite <-(Qmult_1_r (inject_Z q * one_up)) at 1.
    rewrite !(Qmult_comm (inject_Z q * one_up)). apply Qmult_le_compat_r; [done|].
    apply Qmult_le_0_compat; lra.
  - split; [done|]. rewrite Ed. lra.
Qed.

(** ** One call *)

(** The burst is a whole number, every bucket holds between zero and [burst]
    tokens, and none was used after [t]. *)
Definition limiter_ok (kl : KeyedLimiter) (t : Z) : Prop :=
  (0 <= rate kl)%Q /\ (exists B, (0 <= B <= 2 ^ 53)%Z /\ burst kl == inject_Z B)%Q /\ (0 <= ttl kl)%Z /\
  forall k b, buckets kl !! k = Some b -> (0 <= tokens b <= burst kl)%Q /\ (lastTime b <= t)%Z.

(** What a key may gain in a duration, rounding included. *)
Definition gain (kl : KeyedLimiter) (d : Z) : Q := ((d # 1000000000) * (one_up * one_up * one_up) * rate kl * one_up)%Q.

(** Rounding of one call: two roundings of at most [burst] tokens. *)
Definition slack (kl : KeyedLimiter) : Q := (burst kl * ulp53 + burst kl * ulp53)%Q.

Lemma gain_add kl a b : (gain kl (a + b) == gain kl a + gain kl b)%Q.
Proof.
  unfold gain. assert ((a + b # 1000000000) == (a # 1000000000) + (b # 1000000000))%Q as -> by (unfold Qeq; simpl; lia).
  ring.
Qed.

Lemma gain_nonneg kl d : (0 <= rate kl)%Q -> (0 <= d)%Z -> (0 <= gain kl d)%Q.
Proof.
  intros Hr Hd. unfold gain. assert (0 <= (d # 1000000000))%Q by (unfold Qle; simpl; lia). pose proof one_up_ge.
  repeat apply Qmult_le_0_compat; lra.
Qed.

Lemma fmin_le x y : (fmin x y <= x)%Q /\ (fmin x y <= y)%Q /\ forall z, (z <= x)%Q -> (z <= y)%Q -> (z <= fmin x y)%Q.
Proof.
  unfold fmin. destruct (Qle_bool x y) eqn:E.
  - apply Qle_bool_iff in E. split_and!; [apply Qle_refl|done|done].
  - assert (y < x)%Q. { apply Qnot_le_lt. intros H%Qle_bool_iff. congruence. } split_and!; [lra|apply Qle_refl|done].
Qed.

Lemma refill_bounds kl b now :
  (0 <= rate kl)%Q -> (0 <= tokens b <= burst kl)%Q -> (lastTime b <= now)%Z ->
  (0 <= refill kl b now <= burst kl)%Q /\
  (refill kl b now <= tokens b + gain kl (now - lastTime b) + burst kl * ulp53)%Q.
Proof.
  intros Hr [H0 H1] Hle. unfold refill. set (d := (now - lastTime b)%Z).
  destruct (Seconds_up d) as [S0 S1]; [lia|].
  assert (0 <= Seconds d * rate kl)%Q as M0 by (by apply Qmult_le_0_compat).
  destruct (rnd_up (Seconds d * rate kl) ((d # 1000000000) * (one_up * one_up * one_up) * rate kl) M0) as [I0 I1].
  { by apply Qmult_le_compat_r. }
  fold (gain kl d) in I1. fold (fmul (Seconds d) (rate kl)) in I0, I1. set (inc := fmul _ _) in *.
  destruct (fmin_le (burst kl) (fadd (tokens b) inc)) as (F1 & F2 & F3).
  assert (0 <= fadd (tokens b) inc)%Q by (apply rnd_nonneg; lra).
  split; [split; [apply F3; lra|done]|].
  assert (0 <= ulp53)%Q as Hu by (unfold Qle; by vm_compute).
  assert (0 <= burst kl * ulp53)%Q by (apply Qmult_le_0_compat; lra).
  destruct (Qlt_le_dec (burst kl) (tokens b + inc)) as [Hlt|Hge]; [lra|].
  assert (fadd (tokens b) inc <= (tokens b + inc) * (1 + ulp53))%Q as Hadd by (apply rnd_err; lra).
  assert ((tokens b + inc) * ulp53 <= burst kl * ulp53)%Q by (apply Qmult_le_compat_r; lra). lra.
Qed.

Lemma limiter_burst kl t : limiter_ok kl t -> (0 <= burst kl)%Q.
Proof. intros (_ & (B & HB & ->) & _). change 0%Q with (inject_Z 0). rewrite <-Zle_Qle. lia. Qed.

Lemma take_bounds kl t now : limiter_ok kl now -> (1 <= t <= burst kl)%Q ->
  (0 <= fsub t 1 <= burst kl)%Q /\ (fsub t 1 + 1 <= t + burst kl * ulp53)%Q.
Proof.
  intros Hok [H1 H2]. pose proof (limiter_burst kl now Hok) as Hb. assert (0 <= ulp53)%Q as Hu by (unfold Qle; by vm_compute).
  assert (0 <= t - 1)%Q as H0 by lra. pose proof (rnd_err (t - 1) H0) as He. pose proof (rnd_nonneg (t - 1) H0) as Hn.
  fold (fsub t 1) in He, Hn.
  assert ((t - 1) * ulp53 <= burst kl * ulp53)%Q by (apply Qmult_le_compat_r; lra).
  split; [|lra]. split; [done|].
  destruct Hok as (_ & (B & HB & EB) & _). rewrite EB in *. apply rnd_le; [done|lra|lra].
Qed.

(** The bucket a call leaves for its key. *)
Lemma call_bucket kl key now : limiter_ok kl now ->
  let b := default {| tokens := burst kl; lastTime := now |} (buckets kl !! key) in
  (0 <= tokens b <= burst kl)%Q /\ (lastTime b <= now)%Z.
Proof.
  intros Hok b. pose proof (limiter_burst kl now Hok). destruct Hok as (_ & _ & _ & Hb). subst b.
  destruct (buckets kl !! key) as [b|] eqn:E; simpl; [by apply Hb in E|]. split; [lra|lia].
Qed.

Definition left_over (kl : KeyedLimiter) (key : string) (now : Z) : Q :=
  let t := refill kl (default {| tokens := burst kl; lastTime := now |} (buckets kl !! key)) now in
  if Qle_bool 1 t then fsub t 1 else t.

Definition allowed (kl : KeyedLimiter) (key : string) (now : Z) : bool := (Allow kl key now).1.2.
Definition after (kl : KeyedLimiter) (key : string) (now : Z) : KeyedLimiter := (Allow kl key now).1.1.

Lemma after_eq kl key now :
  after kl key now = maybeCleanup now (put_buckets (<[key := {| tokens := left_over kl key now; lastTime := now |}]> (buckets kl)) (calls kl) kl).
Proof. unfold after, left_over, Allow. by destruct (Qle_bool 1 _). Qed.

(** What a cleanup does: nothing, or it drops what has been idle for [ttl]. *)
Lemma cleanup_lookup now kl k :
  buckets (maybeCleanup now kl) !! k = buckets kl !! k \/
  buckets (maybeCleanup now kl) !! k = None /\ exists b, buckets kl !! k = Some b /\ (lastTime b < now - ttl kl)%Z.
Proof.
  unfold maybeCleanup. destruct (_ <? _)%Z; [by left|]. simpl. rewrite map_lookup_filter.
  destruct (buckets kl !! k) as [b|] eqn:E; [|by left]. simpl.
  case_guard; simpl; [by left|]. right. split; [done|]. exists b. split; [done|]. simpl in *. lia.
Qed.

Lemma cleanup_fields now kl :
  rate (maybeCleanup now kl) = rate kl /\ burst (maybeCleanup now kl) = burst kl /\ ttl (maybeCleanup now kl) = ttl kl.
Proof. unfold maybeCleanup. by destruct (_ <? _)%Z. Qed.

Lemma after_fields kl key now :
  rate (after kl key now) = rate kl /\ burst (after kl key now) = burst kl /\ ttl (after kl key now) = ttl kl.
Proof. rewrite after_eq. by destruct (cleanup_fields now (put_buckets (<[key := {| tokens := left_over kl key now; lastTime := now |}]> (buckets kl)) (calls kl) kl)) as (-> & -> & ->). Qed.

(** The bucket of the key itself survives, and the others stay or are dropped. *)
Lemma after_lookup kl key now k : (0 <= ttl kl)%Z ->
  (k = key /\ buckets (after kl key now) !! k = Some {| tokens := left_over kl key now; lastTime := now |}) \/
  k <> key /\ (buckets (after kl key now) !! k = buckets kl !! k \/
    buckets (after kl key now) !! k = None /\ exists b, buckets kl !! k = Some b /\ (lastTime b < now - ttl kl)%Z).
Proof.
  intros Httl. rewrite after_eq. destruct (decide (k = key)) as [->|Hne]; [left|right]; (split; [done|]).
  - destruct (cleanup_lookup now (put_buckets (<[key := {| tokens := left_over kl key now; lastTime := now |}]> (buckets kl)) (calls kl) kl) key)
      as [->|(_ & b & Hb & Hlt)]; simpl in *; [apply lookup_insert_eq|].
    rewrite lookup_insert_eq in Hb. simplify_eq/=. lia.
  - destruct (cleanup_lookup now (put_buckets (<[key := {| tokens := left_over kl key now; lastTime := now |}]> (buckets kl)) (calls kl) kl) k)
      as [->|(Hn & b & Hb & Hlt)]; simpl in *; [left; by rewrite lookup_insert_ne|].
    rewrite lookup_insert_ne in Hb by done. eauto.
Qed.

Lemma left_over_bounds kl key now : limiter_ok kl now -> (0 <= left_over kl key now <= burst kl)%Q.
Proof.
  intros Hok. unfold left_over. destruct (call_bucket kl key now Hok) as [H1 H2].
  destruct (refill_bounds kl _ now ltac:(apply Hok) H1 H2) as [H3 _]. cbv zeta.
  destruct (Qle_bool 1 _) eqn:E; [|done]. apply Qle_bool_iff in E.
  by destruct (take_bounds kl _ now Hok (conj E (proj2 H3))).
Qed.

Lemma after_ok kl key now : limiter_ok kl now -> limiter_ok (after kl key now) now.
Proof.
  intros Hok. pose proof (left_over_bounds kl key now Hok) as Hl. destruct (after_fields kl key now) as (E1 & E2 & E3).
  pose proof Hok as (Hr & HB & Ht & Hb). unfold limiter_ok. rewrite E1, E2, E3. split_and!; try done.
  intros k b Hk. destruct (after_lookup kl key now k Ht) as [[-> E]|[_ [E|[E _]]]]; rewrite E in Hk; simplify_eq/=.
  - split; [done|lia].
  - by apply Hb in Hk.
Qed.

Lemma limiter_ok_later kl t t' : (t <= t')%Z -> limiter_ok kl t -> limiter_ok kl t'.
Proof. intros Hle (H1 & H2 & H3 & H4). split_and!; try done. intros k b Hk. apply H4 in Hk as [? ?]. split; [done|lia]. Qed.

(** ** The rate *)

(** What a key can spend at time [t]: its bucket with the refill, at most the
    burst; the burst when there is no bucket. *)
Definition credit (kl : KeyedLimiter) (key : string) (t : Z) : Q :=
  match buckets kl !! key with
  | Some b => fmin (burst kl) (tokens b + gain kl (t - lastTime b))
  | None => burst kl
  end.

Lemma credit_le kl key t : (credit kl key t <= burst kl)%Q.
Proof. unfold credit. destruct (buckets kl !! key); [apply fmin_le|apply Qle_refl]. Qed.

Lemma credit_nonneg kl key t : limiter_ok kl t -> (0 <= credit kl key t)%Q.
Proof.
  intros Hok. pose proof (limiter_burst kl t Hok). destruct Hok as (Hr & _ & _ & Hb). unfold credit.
  destruct (buckets kl !! key) as [b|] eqn:E; [|done]. apply Hb in E as [[? ?] ?].
  apply fmin_le; [done|]. pose proof (gain_nonneg kl (t - lastTime b) Hr ltac:(lia)). lra.
Qed.

Lemma credit_later kl key t t' : (0 <= rate kl)%Q -> (t <= t')%Z -> (credit kl key t' <= credit kl key t + gain kl (t' - t))%Q.
Proof.
  intros Hr Hle. pose proof (gain_nonneg kl (t' - t) Hr ltac:(lia)). unfold credit. destruct (buckets kl !! key) as [b|]; [|lra].
  assert (gain kl (t' - lastTime b) == gain kl (t - lastTime b) + gain kl (t' - t))%Q as E.
  { rewrite <-gain_add. by replace (t' - lastTime b)%Z with (t - lastTime b + (t' - t))%Z by lia. }
  destruct (fmin_le (burst kl) (tokens b + gain kl (t' - lastTime b))) as (F1 & F2 & _).
  destruct (fmin_le (burst kl) (tokens b + gain kl (t - lastTime b))) as (_ & _ & G3).
  set (m := fmin _ (_ + gain kl (t' - _))) in *.
  specialize (G3 (m - gain kl (t' - t))%Q). lra.
Qed.

(** A call spends what it lets through, up to the rounding. *)
Lemma call_spends kl key now : limiter_ok kl now ->
  (credit (after kl key now) key now + (if allowed kl key now then 1 else 0) <= credit kl key now + slack kl)%Q.
Proof.
  intros Hok. pose proof Hok as (Hr & _ & Ht & _). pose proof (limiter_burst kl now Hok) as Hb0.
  assert (0 <= burst kl * ulp53)%Q by (apply Qmult_le_0_compat; [done|unfold Qle; by vm_compute]).
  destruct (call_bucket kl key now Hok) as [H1 H2]. destruct (refill_bounds kl _ now Hr H1 H2) as [H3 H4].
  assert (refill kl (default {| tokens := burst kl; lastTime := now |} (buckets kl !! key)) now <= credit kl key now + burst kl * ulp53)%Q as Hspend.
  { unfold credit. destruct (buckets kl !! key) as [b|]; simpl in *; [|lra].
    destruct (fmin_le (burst kl) (tokens b + gain kl (now - lastTime b))) as (_ & _ & G3).
    specialize (G3 (refill kl b now - burst kl * ulp53)%Q). lra. }
  assert (credit (after kl key now) key now <= left_over kl key now)%Q as Hc.
  { unfold credit. destruct (after_lookup kl key now key Ht) as [[_ ->]|[? _]]; [|done]. simpl.
    destruct (fmin_le (burst (after kl key now)) (left_over kl key now + gain (after kl key now) (now - now))) as (_ & F2 & _).
    rewrite Z.sub_diag in *. assert (gain (after kl key now) 0 == 0)%Q by (unfold gain; lra). lra. }
  unfold slack, left_over, allowed, Allow in *. cbv zeta in *.
  set (t := refill kl _ now) in *. destruct (Qle_bool 1 t) eqn:E; cbn [fst snd].
  - apply Qle_bool_iff in E. destruct (take_bounds kl t now Hok (conj E (proj2 H3))) as [_ ?]. lra.
  - lra.
Qed.

(** A call of another key costs nothing; an eviction gives nothing, since the
    bucket had time to fill up. *)
Lemma call_other kl key k now : limiter_ok kl now -> (burst kl <= gain kl (ttl kl))%Q -> k <> key ->
  (credit (after kl key now) k now <= credit kl k now)%Q.
Proof.
  intros Hok Hfill Hne. pose proof Hok as (Hr & _ & Ht & Hb). destruct (after_fields kl key now) as (E1 & E2 & E3). unfold credit, gain.
  rewrite E1, E2. destruct (after_lookup kl key now k Ht) as [[? _]|[_ [->|(-> & b & E & Hlt)]]]; [done|apply Qle_refl|].
  rewrite E. apply Hb in E as [[? ?] ?]. apply (fmin_le (burst kl)); [apply Qle_refl|].
  pose proof (gain_nonneg kl (now - lastTime b - ttl kl) Hr ltac:(lia)) as Hg.
  assert (gain kl (now - lastTime b) == gain kl (ttl kl) + gain kl (now - lastTime b - ttl kl))%Q as Eg.
  { rewrite <-gain_add. by replace (ttl kl + (now - lastTime b - ttl kl))%Z with (now - lastTime b)%Z by lia. }
  unfold gain in *. lra.
Qed.

Lemma end_of_cons t c cs : end_of t (c :: cs) = end_of c.2 cs.
Proof. unfold end_of. rewrite last_cons. by destruct (last cs). Qed.

Lemma serve_cons kl c cs :
  serve_calls kl (c :: cs) =
    ((serve_calls (after kl c.1 c.2) cs).1, allowed kl c.1 c.2 :: (serve_calls (after kl c.1 c.2) cs).2).
Proof. unfold after, allowed. simpl. destruct (Allow kl c.1 c.2) as [[kl1 ok] w]. simpl. by destruct (serve_calls kl1 cs). Qed.

Lemma serve_rate key cs : forall kl t, limiter_ok kl t -> (burst kl <= gain kl (ttl kl))%Q -> clock_from t cs ->
  let kl' := (serve_calls kl cs).1 in
  limiter_ok kl' (end_of t cs) /\ (t <= end_of t cs)%Z /\
  (credit kl' key (end_of t cs) + inject_Z (passed key cs (serve_calls kl cs).2)
     <= credit kl key t + gain kl (end_of t cs - t) + inject_Z (Z.of_nat (length cs)) * slack kl)%Q.
Proof.
  induction cs as [|c cs IH]; intros kl t Hok Hfill Hclock kl'.
  { unfold kl', end_of. simpl. split_and!; [done|lia|]. rewrite Z.sub_diag. change (inject_Z (Z.of_nat 0)) with 0%Q. change (inject_Z 0) with 0%Q. unfold gain. lra. }
  destruct Hclock as [Hle Hclock]. pose proof (limiter_ok_later _ _ _ Hle Hok) as Hok1.
  pose proof (after_ok kl c.1 c.2 Hok1) as Hok2. destruct (after_fields kl c.1 c.2) as (E1 & E2 & E3).
  assert (forall d, gain (after kl c.1 c.2) d = gain kl d) as Eg by (intros d; unfold gain; by rewrite E1).
  assert (slack (after kl c.1 c.2) = slack kl) as Es by (unfold slack; by rewrite E2).
  destruct (IH (after kl c.1 c.2) c.2) as (I1 & I2 & I3); [done|by rewrite E2, E3, Eg|done|].
  unfold kl'. rewrite serve_cons, end_of_cons. cbn [fst snd]. split_and!; [done|lia|].
  rewrite Eg, Es in I3. pose proof (credit_later kl key t c.2 ltac:(apply Hok) Hle) as Hc.
  assert (gain kl (end_of c.2 cs - t) == gain kl (end_of c.2 cs - c.2) + gain kl (c.2 - t))%Q as Et.
  { rewrite <-gain_add. by replace (end_of c.2 cs - c.2 + (c.2 - t))%Z with (end_of c.2 cs - t)%Z by lia. }
  assert (credit (after kl c.1 c.2) key c.2 + inject_Z (if (c.1 =s key) && allowed kl c.1 c.2 then 1 else 0)
    <= credit kl key c.2 + slack kl)%Q as Hstep.
  { destruct (c.1 =s key) eqn:Ek; reflect_bools.
    - subst key. pose proof (call_spends kl c.1 c.2 Hok1). simpl. by destruct (allowed kl c.1 c.2).
    - pose proof (call_other kl c.1 key c.2 Hok1 Hfill ltac:(congruence)). simpl.
      assert (0 <= slack kl)%Q; [|change (inject_Z 0) with 0%Q; lra]. unfold slack. pose proof (limiter_burst kl t Hok).
      assert (0 <= burst kl * ulp53)%Q by (apply Qmult_le_0_compat; [done|unfold Qle; by vm_compute]). lra. }
  cbn [passed length]. rewrite Nat2Z.inj_succ, inject_Z_plus. unfold Z.succ. rewrite inject_Z_plus. change (inject_Z 1) with 1%Q.
  set (n := inject_Z (Z.of_nat (length cs))) in *. rewrite Et. lra.
Qed.

(** C15: The rate limit: of the calls that a limiter serves in a sequence with a clock
    that does not go back, those let through for a key are at most the burst, plus
    the refill of the elapsed time at the configured rate (up to four roundings),
    plus two roundings of the burst for every call.  Evictions of idle buckets are
    included, for limiters whose burst is at most the refill of the time to live,
    so that an idle bucket is full before it is evicted. *)
Theorem rate_limited kl t cs key :
  limiter_ok kl t -> (burst kl <= gain kl (ttl kl))%Q -> clock_from t cs ->
  (inject_Z (passed key cs (serve_calls kl cs).2)
     <= burst kl + gain kl (end_of t cs - t) + inject_Z (Z.of_nat (length cs)) * slack kl)%Q.
Proof.
  intros Hok Hfill Hclock. destruct (serve_rate key cs kl t Hok Hfill Hclock) as (H1 & _ & H3).
  pose proof (credit_nonneg _ key _ H1). pose proof (credit_le kl key t). lra.
Qed.

(** ** The burst *)

(** At the instant of its last call a bucket of [n] tokens is refilled to [n]. *)
Lemma refill_same kl B n b :
  (0 <= n <= B)%Z -> (B <= 2 ^ 53)%Z -> (burst kl == inject_Z B)%Q -> (tokens b == inject_Z n)%Q ->
  (refill kl b (lastTime b) == inject_Z n)%Q.
Proof.
  intros Hn HB EB Et. unfold refill. rewrite Z.sub_diag.
  assert (Seconds 0 == 0)%Q as Es by (vm_compute; reflexivity).
  assert (fmul (Seconds 0) (rate kl) == 0)%Q as Em.
  { unfold fmul. apply (rnd_int 0); [lia|]. rewrite Es. change (inject_Z 0) with 0%Q. ring. }
  assert (fadd (tokens b) (fmul (Seconds 0) (rate kl)) == inject_Z n)%Q as Ea.
  { apply rnd_int; [lia|]. rewrite Em, Et. ring. }
  destruct (fmin_le (burst kl) (fadd (tokens b) (fmul (Seconds 0) (rate kl)))) as (F1 & F2 & F3).
  apply Qle_antisym; [by rewrite <-Ea|]. apply F3; [|rewrite Ea; apply Qle_refl]. rewrite EB, <-Zle_Qle. lia.
Qed.

(** The state of a key after [j] calls at the instant [t]. *)
Definition spent (kl : KeyedLimiter) (key : string) (t B j : Z) : Prop :=
  (burst kl == inject_Z B)%Q /\ (0 <= ttl kl)%Z /\
  match buckets kl !! key with
  | None => j = 0%Z
  | Some b => lastTime b = t /\ (tokens b == inject_Z (Z.max 0 (B - j)))%Q
  end.

Lemma spent_call kl key t B j : (0 <= B <= 2 ^ 53)%Z -> (0 <= j)%Z -> spent kl key t B j ->
  allowed kl key t = (j <? B)%Z /\ spent (after kl key t) key t B (j + 1).
Proof.
  intros HB Hj (EB & Ht & Hb).
  assert (refill kl (default {| tokens := burst kl; lastTime := t |} (buckets kl !! key)) t == inject_Z (Z.max 0 (B - j)))%Q as Er.
  { destruct (buckets kl !! key) as [b|] eqn:E; simpl.
    - destruct Hb as [<- Hb]. apply (refill_same kl B); [lia|lia|done|done].
    - subst j. apply (refill_same kl B (Z.max 0 (B - 0)) {| tokens := burst kl; lastTime := t |}); [lia|lia|done|]. simpl.
      rewrite EB. by replace (Z.max 0 (B - 0)) with B by lia. }
  assert (Qle_bool 1 (refill kl (default {| tokens := burst kl; lastTime := t |} (buckets kl !! key)) t) = (j <? B)%Z) as Eq.
  { apply eq_true_iff_eq. rewrite Qle_bool_iff, Er, Z.ltb_lt. change 1%Q with (inject_Z 1). rewrite <-Zle_Qle. lia. }
  assert (allowed kl key t = (j <? B)%Z) as Ha.
  { unfold allowed, Allow. cbv zeta. rewrite Eq. by destruct (j <? B)%Z. }
  split; [done|]. destruct (after_fields kl key t) as (_ & E2 & E3). unfold spent. rewrite E2, E3. split_and!; [done..|].
  destruct (after_lookup kl key t key Ht) as [[_ ->]|[? _]]; [|done]. simpl. split; [done|]. unfold left_over. cbv zeta. rewrite Eq.
  destruct (Z.ltb_spec j B) as [Hlt|Hge].
  - apply rnd_int; [lia|]. rewrite Er. change 1%Q with (inject_Z 1). unfold Qminus. rewrite <-inject_Z_opp, <-inject_Z_plus.
    replace (Z.max 0 (B - j) + - (1))%Z with (Z.max 0 (B - (j + 1))) by lia. reflexivity.
  - rewrite Er. by replace (Z.max 0 (B - (j + 1))) with (Z.max 0 (B - j)) by lia.
Qed.

Lemma spent_other kl key k t B j : k <> key -> spent kl k t B j -> spent (after kl key t) k t B j.
Proof.
  intros Hne (EB & Ht & Hb). destruct (after_fields kl key t) as (_ & E2 & E3). unfold spent. rewrite E2, E3. split_and!; [done..|].
  destruct (after_lookup kl key t k Ht) as [[? _]|[_ [->|(_ & b & E & Hlt)]]]; [done..|].
  rewrite E in Hb. lia.
Qed.

Lemma spent_run key t B cs : (0 <= B <= 2 ^ 53)%Z -> Forall (fun c : Call => c.2 = t) cs -> forall kl j, (0 <= j)%Z ->
  spent kl key t B j ->
  passed key cs (serve_calls kl cs).2 = (Z.min B (j + calls_of key cs) - Z.min B j)%Z.
Proof.
  intros HB. induction 1 as [|c cs Hc _ IH]; intros kl j Hj Hs; [unfold calls_of; simpl; lia|].
  rewrite serve_cons. cbn [fst snd passed]. unfold calls_of. rewrite filter_cons. rewrite Hc in *.
  destruct (c.1 =s key) eqn:Ek; reflect_bools.
  - rewrite decide_True by done. subst key. destruct (spent_call kl c.1 t B j HB Hj Hs) as [-> Hs'].
    rewrite (IH _ (j + 1)%Z) by (done || lia). unfold calls_of. cbn [andb length]. destruct (Z.ltb_spec j B); lia.
  - rewrite decide_False by done. rewrite (IH _ j); [done|lia|]. by apply spent_other.
Qed.

(** The burst is exact: at one instant a new limiter lets through, for every key,
    as many calls as the burst allows and no more, whatever other keys do. *)
Theorem burst_exact cfg ttl0 t cs key :
  (0 <= Burst cfg <= 2 ^ 53)%Z -> (0 <= ttl0)%Z -> Forall (fun c : Call => c.2 = t) cs ->
  passed key cs (serve_calls (NewKeyedLimiter cfg ttl0) cs).2 = Z.min (Burst cfg) (calls_of key cs).
Proof.
  intros HB Httl Hcs. rewrite (spent_run key t (Burst cfg) cs HB Hcs _ 0%Z); [unfold calls_of; lia|lia|].
  split_and!; [|done|done]. apply rnd_int; [lia|reflexivity].
Qed.

(** ** Bounds of the buckets *)

Lemma serve_ok cs : forall kl t, limiter_ok kl t -> clock_from t cs -> limiter_ok (serve_calls kl cs).1 (end_of t cs).
Proof.
  induction cs as [|c cs IH]; intros kl t Hok Hclock; [done|]. destruct Hclock as [Hle Hclock].
  rewrite serve_cons, end_of_cons. apply IH; [|done]. eapply after_ok, limiter_ok_later; done.
Qed.

Lemma serve_burst cs : forall kl, burst (serve_calls kl cs).1 = burst kl.
Proof.
  induction cs as [|c cs IH]; intros kl; [done|]. rewrite serve_cons. cbn [fst]. rewrite IH. apply after_fields.
Qed.

(** While the clock does not go back, every bucket of a limiter holds between zero
    and [Burst] tokens, in spite of the rounding of every operation. *)
Theorem bucket_bounds cfg ttl0 t cs k b :
  (0 <= Rate cfg)%Q -> (0 <= Burst cfg <= 2 ^ 53)%Z -> (0 <= ttl0)%Z -> clock_from t cs ->
  buckets (serve_calls (NewKeyedLimiter cfg ttl0) cs).1 !! k = Some b ->
  (0 <= tokens b <= inject_Z (Burst cfg))%Q.
Proof.
  intros Hr HB Httl Hclock Hk.
  assert (float_of_int (Burst cfg) == inject_Z (Burst cfg))%Q as EB by (apply rnd_int; [lia|reflexivity]).
  destruct (serve_ok cs (NewKeyedLimiter cfg ttl0) t) as (_ & _ & _ & Hb); [|done|].
  - split_and!; simpl; [done|by exists (Burst cfg)|done|by intros ? ? []%lookup_empty_Some].
  - apply Hb in Hk as [Hk _]. rewrite serve_burst in Hk. simpl in Hk. by rewrite EB in Hk.
Qed.
