(* ===== verification/Config.v ===== *)
(** * Configuration and the wiring of the server

    [server/config/config.go], [agent/config/config.go], the construction of the
    services in [runServer] ([server/cmd/api/main.go]) and of the scheduler
    ([scheduler.New], [server/cmd/scheduler/main.go]).

    The environment is a function from variable names to values, empty when
    unset; decoding TOML is a parameter. *)

From Stdlib Require Import QArith Lqa.
From S2P Require Import Prelude Text Float64 Models Quota RateLimit RateSpecs.

Local Close Scope Q_scope.
Local Open Scope nat_scope.

(** ** server/config/config.go *)

Record ServerConfig := {
  DatabaseURL : string;
  LogLevel : string;
  LogFormat : string;
  TenantMode : string;
  HTTPPort : Z;
  TLSMode : string;
  TLSCertPath : string;
  TLSKeyPath : string;
  SrvCACertPath : string;
  SrvCAKeyPath : string;
  TrustedProxyCIDRs : string;
  StorageBackend : string;
  StoragePath : string;
  S3Endpoint : string;
  S3Bucket : string;
  S3Region : string;
  S3AccessKeyID : string;
  S3SecretAccessKey : string;
  OIDCIssuerURL : string;
  OIDCClientID : string;
  OIDCClientSecret : string;
  RateLimitEnabled : bool;
  RateLimitPerIPRPM : Z;
  RateLimitPerIPBurst : Z;
  RateLimitPerTenantRPM : Z;
  RateLimitPerTenantBurst : Z;
  RateLimitAgentCheckinRPM : Z;
  RateLimitAgentCheckinBurst : Z;
  QuotaMaxDevices : Z;
  QuotaMaxQueuedJobs : Z;
  QuotaMaxAPIKeys : Z;
  QuotaMaxFileSizeBytes : Z;
  SchedulerTickSeconds : Z;
  ReaperDispatchedTimeoutSec : Z;
  ReaperInflightTimeoutSec : Z;
  SMTPHost : string;
  SMTPPort : Z;
  SMTPUsername : string;
  SMTPPassword : string;
  SMTPFrom : string;
}.

Inductive Process := ProcessAPI | ProcessScheduler.

#[export] Instance process_eq_dec : EqDecision Process.
Proof. solve_decision. Defined.

Section Load.
Context (getenv : string -> string).

Definition envOrDefault (key fallback : string) : string :=
  if getenv key =s "" then fallback else getenv key.

(** Also [envInt64OrDefault]: an int has 64 bits. *)
Definition envIntOrDefault (key : string) (fallback : Z) : Z :=
  if getenv key =s "" then fallback else default fallback (Atoi (getenv key)).

(** The literal of [Load]. *)
Definition read_config : ServerConfig := {|
  DatabaseURL := getenv "DATABASE_URL";
  LogLevel := envOrDefault "LOG_LEVEL" "info";
  LogFormat := envOrDefault "LOG_FORMAT" "json";
  TenantMode := envOrDefault "TENANT_MODE" "multi";
  HTTPPort := envIntOrDefault "HTTP_PORT" 8080;
  TLSMode := envOrDefault "TLS_MODE" "passthrough";
  TLSCertPath := getenv "TLS_CERT_PATH";
  TLSKeyPath := getenv "TLS_KEY_PATH";
  SrvCACertPath := getenv "CA_CERT_PATH";
  SrvCAKeyPath := getenv "CA_KEY_PATH";
  TrustedProxyCIDRs := envOrDefault "TRUSTED_PROXY_CIDRS"
    "127.0.0.0/8,10.0.0.0/8,172.16.0.0/12,192.168.0.0/16,::1/128,fd00::/8";
  StorageBackend := envOrDefault "STORAGE_BACKEND" "local";
  StoragePath := envOrDefault "STORAGE_PATH" "/tmp/moebius-storage";
  S3Endpoint := getenv "S3_ENDPOINT";
  S3Bucket := getenv "S3_BUCKET";
  S3Region := getenv "S3_REGION";
  S3AccessKeyID := getenv "S3_ACCESS_KEY_ID";
  S3SecretAccessKey := getenv "S3_SECRET_ACCESS_KEY";
  OIDCIssuerURL := getenv "OIDC_ISSUER_URL";
  OIDCClientID := getenv "OIDC_CLIENT_ID";
  OIDCClientSecret := getenv "OIDC_CLIENT_SECRET";
  RateLimitEnabled := envOrDefault "RATE_LIMIT_ENABLED" "true" =s "true";
  RateLimitPerIPRPM := envIntOrDefault "RATE_LIMIT_PER_IP_RPM" 60;
  RateLimitPerIPBurst := envIntOrDefault "RATE_LIMIT_PER_IP_BURST" 10;
  RateLimitPerTenantRPM := envIntOrDefault "RATE_LIMIT_PER_TENANT_RPM" 600;
  RateLimitPerTenantBurst := envIntOrDefault "RATE_LIMIT_PER_TENANT_BURST" 50;
  RateLimitAgentCheckinRPM := envIntOrDefault "RATE_LIMIT_AGENT_CHECKIN_RPM" 6;
  RateLimitAgentCheckinBurst := envIntOrDefault "RATE_LIMIT_AGENT_CHECKIN_BURST" 3;
  QuotaMaxDevices := envIntOrDefault "QUOTA_MAX_DEVICES_PER_TENANT" 10000;
  QuotaMaxQueuedJobs := envIntOrDefault "QUOTA_MAX_QUEUED_JOBS_PER_TENANT" 10000;
  QuotaMaxAPIKeys := envIntOrDefault "QUOTA_MAX_API_KEYS_PER_TENANT" 100;
  QuotaMaxFileSizeBytes := envIntOrDefault "QUOTA_MAX_FILE_SIZE_BYTES" (1024 * 1024 * 1024);
  SchedulerTickSeconds := envIntOrDefault "SCHEDULER_TICK_SECONDS" 30;
  ReaperDispatchedTimeoutSec := envIntOrDefault "REAPER_DISPATCHED_TIMEOUT_SECONDS" 300;
  ReaperInflightTimeoutSec := envIntOrDefault "REAPER_INFLIGHT_TIMEOUT_SECONDS" 3600;
  SMTPHost := getenv "SMTP_HOST";
  SMTPPort := envIntOrDefault "SMTP_PORT" 587;
  SMTPUsername := getenv "SMTP_USERNAME";
  SMTPPassword := getenv "SMTP_PASSWORD";
  SMTPFrom := envOrDefault "SMTP_FROM" "moebius@localhost" |}.
End Load.

Inductive ConfigError :=
| InvalidValue (variable value : string)
| MissingVariables (variables : list string).

(** [if value == "" { missing = append(missing, name) }]. *)
Definition need (value name : string) (missing : list string) : list string :=
  if value =s "" then missing ++ [name] else missing.

(** A [switch] over the values allowed; the first error ends [validate]. *)
Definition one_of (variable value : string) (allowed : list string) : unit + ConfigError :=
  if bool_decide (value ∈ allowed) then inl tt else inr (InvalidValue variable value).

Definition and_then {A : Type} (m : unit + ConfigError) (k : A + ConfigError) : A + ConfigError :=
  match m with inl _ => k | inr e => inr e end.

(** The API-specific part. *)
Definition validate_api (c : ServerConfig) (missing : list string) : list string + ConfigError :=
  let missing := need (SrvCAKeyPath c) "CA_KEY_PATH" (need (SrvCACertPath c) "CA_CERT_PATH" missing) in
  and_then (one_of "TLS_MODE" (TLSMode c) ["passthrough"; "direct"])
    (let missing := if TLSMode c =s "direct"
                    then need (TLSKeyPath c) "TLS_KEY_PATH" (need (TLSCertPath c) "TLS_CERT_PATH" missing)
                    else missing in
     if StorageBackend c =s "local" then inl (need (StoragePath c) "STORAGE_PATH" missing)
     else if StorageBackend c =s "s3" then
       inl (need (S3SecretAccessKey c) "S3_SECRET_ACCESS_KEY" (need (S3AccessKeyID c) "S3_ACCESS_KEY_ID"
              (need (S3Region c) "S3_REGION" (need (S3Bucket c) "S3_BUCKET" (need (S3Endpoint c) "S3_ENDPOINT" missing)))))
     else inr (InvalidValue "STORAGE_BACKEND" (StorageBackend c))).

(** [None] is a nil error. *)
Definition validate (proc : Process) (c : ServerConfig) : option ConfigError :=
  let missing := need (DatabaseURL c) "DATABASE_URL" [] in
  let r :=
    and_then (one_of "LOG_LEVEL" (LogLevel c) ["debug"; "info"; "warn"; "error"])
    (and_then (one_of "LOG_FORMAT" (LogFormat c) ["json"; "text"])
    (and_then (one_of "TENANT_MODE" (TenantMode c) ["single"; "multi"])
    (if bool_decide (proc = ProcessAPI) then validate_api c missing else inl missing))) in
  match r with
  | inr e => Some e
  | inl [] => None
  | inl missing => Some (MissingVariables missing)
  end.

Definition Load (getenv : string -> string) (proc : Process) : ServerConfig + ConfigError :=
  let c := read_config getenv in
  match validate proc c with Some e => inr e | None => inl c end.

(** ** The services of the API server: [runServer] *)

Definition Minute : Z := 60 * 1000000000.

(** [float64(rpm) / 60.0]. *)
Definition per_minute (rpm : Z) : Q := fdiv (float_of_int rpm) (float_of_int 60).

Record Limiters := { perIPLimiter : KeyedLimiter; perTenantLimiter : KeyedLimiter; perAgentCheckinLimiter : KeyedLimiter }.

(** [None]: rate limiting is off. *)
Definition limiters (c : ServerConfig) : option Limiters :=
  if RateLimitEnabled c then Some {|
    perIPLimiter := NewKeyedLimiter {| Rate := per_minute (RateLimitPerIPRPM c); Burst := RateLimitPerIPBurst c |} (10 * Minute);
    perTenantLimiter := NewKeyedLimiter {| Rate := per_minute (RateLimitPerTenantRPM c); Burst := RateLimitPerTenantBurst c |} (60 * Minute);
    perAgentCheckinLimiter :=
      NewKeyedLimiter {| Rate := per_minute (RateLimitAgentCheckinRPM c); Burst := RateLimitAgentCheckinBurst c |} (30 * Minute) |}
  else None.

Definition quotaResolver (c : ServerConfig) : Resolver :=
  Some {| q_max_devices := QuotaMaxDevices c; q_max_queued_jobs := QuotaMaxQueuedJobs c; q_max_api_keys := QuotaMaxAPIKeys c;
          q_max_file_size_bytes := QuotaMaxFileSizeBytes c |}.

(** Where uploaded files go. *)
Inductive Backend := LocalBackend (path : string).
Definition fileStorage (c : ServerConfig) : Backend := LocalBackend (StoragePath c).

(** ** The scheduler: [scheduler.New] *)

Record SchedulerTimes := { sch_tick : Z; sch_dispatchedTimeout : Z; sch_inflightTimeout : Z }.

(** Seconds as a duration; zero and less stand for the default. *)
Definition or_seconds (n fallback : Z) : Z := wrap64 ((if (n <=? 0)%Z then fallback else n) * 1000000000).

Definition NewScheduler (c : ServerConfig) : SchedulerTimes :=
  {| sch_tick := or_seconds (SchedulerTickSeconds c) 30;
     sch_dispatchedTimeout := or_seconds (ReaperDispatchedTimeoutSec c) 300;
     sch_inflightTimeout := or_seconds (ReaperInflightTimeoutSec c) 3600 |}.

(** ** agent/config/config.go *)

Record AgentConfig := {
  ac_server_url : string;
  ac_poll_interval : Z;
  ac_drop_directory : string;
  ac_space_check_enabled : bool;
  ac_space_check_threshold : Q;
  ac_ui_enabled : bool;
  ac_ui_port : Z;
  ac_log_level : string;
  ac_log_file : string;
  ac_cdm_enabled : bool;
}.

Definition AgentDefaults : AgentConfig :=
  {| ac_server_url := ""; ac_poll_interval := 30; ac_drop_directory := ""; ac_space_check_enabled := true;
     ac_space_check_threshold := 1 # 2; ac_ui_enabled := true; ac_ui_port := 57000; ac_log_level := "info"; ac_log_file := "";
     ac_cdm_enabled := false |}.

(** [true] is a nil error. *)
Definition agent_validate (c : AgentConfig) : bool := negb (ac_server_url c =s "") && negb (ac_poll_interval c <? 5)%Z.

(** [toml.Unmarshal] overwrites the fields the file sets; [None] is an error. *)
Definition AgentLoad (unmarshal_toml : string -> AgentConfig -> option AgentConfig) (file : option string) : option AgentConfig :=
  data ← file;
  cfg ← unmarshal_toml data AgentDefaults;
  if agent_validate cfg then Some cfg else None.

(** ** Lemmas *)

(** What a process requires, as a table: the settings with a fixed set of values,
    then the variables that must be set. *)
Definition choices (proc : Process) (c : ServerConfig) : list (string * string * list string) :=
  [("LOG_LEVEL", LogLevel c, ["debug"; "info"; "warn"; "error"]); ("LOG_FORMAT", LogFormat c, ["json"; "text"]);
   ("TENANT_MODE", TenantMode c, ["single"; "multi"])] ++
  match proc with
  | ProcessAPI => [("TLS_MODE", TLSMode c, ["passthrough"; "direct"]); ("STORAGE_BACKEND", StorageBackend c, ["local"; "s3"])]
  | ProcessScheduler => []
  end.

Definition required (proc : Process) (c : ServerConfig) : list (string * string) :=
  [("DATABASE_URL", DatabaseURL c)] ++
  match proc with
  | ProcessAPI =>
      [("CA_CERT_PATH", SrvCACertPath c); ("CA_KEY_PATH", SrvCAKeyPath c)] ++
      (if TLSMode c =s "direct" then [("TLS_CERT_PATH", TLSCertPath c); ("TLS_KEY_PATH", TLSKeyPath c)] else []) ++
      (if StorageBackend c =s "local" then [("STORAGE_PATH", StoragePath c)]
       else [("S3_ENDPOINT", S3Endpoint c); ("S3_BUCKET", S3Bucket c); ("S3_REGION", S3Region c);
             ("S3_ACCESS_KEY_ID", S3AccessKeyID c); ("S3_SECRET_ACCESS_KEY", S3SecretAccessKey c)])
  | ProcessScheduler => []
  end.

Definition bad_choice (x : string * string * list string) : bool := bool_decide (x.1.2 ∉ x.2).
Definition unset (l : list (string * string)) : list string := (filter (fun x : string * string => x.2 = "") l).*1.

Definition verdict (proc : Process) (c : ServerConfig) : option ConfigError :=
  match find bad_choice (choices proc c) with
  | Some (variable, value, _) => Some (InvalidValue variable value)
  | None => match unset (required proc c) with [] => None | l => Some (MissingVariables l) end
  end.

Lemma need_unset v n m : need v n m = m ++ unset [(n, v)].
Proof.
  unfold need, unset. rewrite filter_cons. destruct (v =s "") eqn:E; reflect_bools.
  - by rewrite decide_True.
  - rewrite decide_False by done. by rewrite app_nil_r.
Qed.

Lemma unset_app a b : unset (a ++ b) = unset a ++ unset b.
Proof. unfold unset. by rewrite filter_app, fmap_app. Qed.

Lemma unset_cons n v l : unset ((n, v) :: l) = unset [(n, v)] ++ unset l.
Proof. apply (unset_app [(n, v)] l). Qed.

Lemma one_of_spec variable value allowed :
  one_of variable value allowed = if bad_choice (variable, value, allowed) then inr (InvalidValue variable value) else inl tt.
Proof. unfold one_of, bad_choice. simpl. repeat case_bool_decide; done. Qed.

Lemma storage_choice v :
  bad_choice ("STORAGE_BACKEND", v, ["local"; "s3"]) = negb (v =s "local") && negb (v =s "s3").
Proof.
  unfold bad_choice. simpl. destruct (v =s "local") eqn:E1, (v =s "s3") eqn:E2; reflect_bools; subst; try (by vm_compute).
  apply bool_decide_eq_true. set_solver.
Qed.

Lemma validate_verdict proc c : validate proc c = verdict proc c.
Proof.
  unfold validate, verdict, choices, validate_api. rewrite !one_of_spec, !need_unset. cbn [app find].
  destruct (bad_choice ("LOG_LEVEL", _, _)); [done|]. destruct (bad_choice ("LOG_FORMAT", _, _)); [done|].
  destruct (bad_choice ("TENANT_MODE", _, _)); [done|]. cbn [and_then].
  destruct proc; cbn [find app]; [|rewrite bool_decide_false by done; unfold required; cbn [app]; by destruct (unset _)].
  rewrite bool_decide_true by done. destruct (bad_choice ("TLS_MODE", _, _)); [done|]. cbn [and_then].
  rewrite storage_choice. unfold required. 
  destruct (StorageBackend c =s "local") eqn:E1; cbn [negb andb]; [|destruct (StorageBackend c =s "s3") eqn:E2; cbn [negb andb]; [|done]];
    destruct (TLSMode c =s "direct"); cbn [app]; rewrite ?need_unset;
    do 10 (try rewrite (unset_cons _ _ (_ :: _))); rewrite <-?app_assoc; by destruct (_ ++ _).
Qed.

(** A limiter that starts empty with the defaults of the three limiters. *)
Definition full_after (kl : KeyedLimiter) (k : Z) : Prop := (1 <= inject_Z k * rate kl)%Q.

Lemma Seconds_ge k d : (0 <= k <= 2 ^ 53)%Z -> (k * Second <= d)%Z -> (inject_Z k <= Seconds d)%Q.
Proof.
  intros Hk Hd. unfold Seconds, fadd. apply rnd_ge; [done|].
  assert (0 <= d)%Z as Hd0 by (unfold Second in *; lia).
  assert (inject_Z k <= float_of_int (Z.quot d Second))%Q as H1.
  { apply rnd_ge; [done|]. rewrite <-Zle_Qle. apply Z.quot_le_lower_bound; [done|]. unfold Second in *; lia. }
  assert (0 <= fdiv (float_of_int (Z.rem d Second)) (float_of_int Second))%Q as H2.
  { apply rnd_nonneg. apply Qle_shift_div_l; [by rewrite float_second|]. rewrite Qmult_0_l. apply rnd_nonneg.
    change 0%Q with (inject_Z 0). rewrite <-Zle_Qle. apply Z.rem_bound_pos; done. }
  lra.
Qed.

(** A key that stayed away for [k] seconds has a token again. *)
Lemma rested_allowed kl key now k :
  limiter_ok kl now -> (1 <= burst kl)%Q -> (0 <= k <= 2 ^ 53)%Z -> full_after kl k ->
  (forall b, buckets kl !! key = Some b -> (lastTime b + k * Second <= now)%Z) ->
  allowed kl key now = true.
Proof.
  intros Hok Hb Hk Hf Hrest. unfold allowed, Allow. cbv zeta.
  assert (1 <= refill kl (default {| tokens := burst kl; lastTime := now |} (buckets kl !! key)) now)%Q as H.
  { unfold refill. apply fmin_le; [done|]. unfold fadd. change 1%Q with (inject_Z 1). apply rnd_ge; [lia|].
    destruct (call_bucket kl key now Hok) as [Ht _]. cbv zeta in Ht.
    assert (0 <= rate kl)%Q as Hr by apply Hok.
    destruct (buckets kl !! key) as [b|] eqn:E; simpl in *.
    - assert (1 <= fmul (Seconds (now - lastTime b)) (rate kl))%Q; [|change (inject_Z 1) with 1%Q; lra].
      unfold fmul. change 1%Q with (inject_Z 1). apply rnd_ge; [lia|]. change (inject_Z 1) with 1%Q.
      eapply Qle_trans; [exact Hf|]. apply Qmult_le_compat_r; [|done]. apply Seconds_ge; [done|]. specialize (Hrest b eq_refl). lia.
    - assert (0 <= fmul (Seconds (now - now)) (rate kl))%Q; [|change (inject_Z 1) with 1%Q; lra].
      apply rnd_nonneg, Qmult_le_0_compat; [|done]. apply (Seconds_ge 0); lia. }
  apply Qle_bool_iff in H. by rewrite H.
Qed.

(** The calls of [key] come at least [k] seconds apart, the first of them at least
    that long after [t]; other keys call as they like. *)
Fixpoint paced (key : string) (k : Z) (t : option Z) (cs : list Call) : Prop :=
  match cs with
  | [] => True
  | c :: cs' => if c.1 =s key then match t with Some t => (t + k * Second <= c.2)%Z | None => True end /\ paced key k (Some c.2) cs'
                else paced key k t cs'
  end.

(** No call of [key] was turned away. *)
Fixpoint all_served (key : string) (cs : list Call) (oks : list bool) : Prop :=
  match cs, oks with
  | c :: cs', ok :: oks' => (c.1 = key -> ok = true) /\ all_served key cs' oks'
  | _, _ => True
  end.

Lemma paced_served key k : forall cs kl t0 t,
  limiter_ok kl t0 -> (1 <= burst kl)%Q -> (0 <= k <= 2 ^ 53)%Z -> full_after kl k -> clock_from t0 cs ->
  (forall b, buckets kl !! key = Some b -> exists t', t = Some t' /\ lastTime b = t') ->
  paced key k t cs -> all_served key cs (serve_calls kl cs).2.
Proof.
  induction cs as [|c cs IH]; intros kl t0 t Hok Hb Hk Hf Hclock Hlast Hp; [done|]. destruct Hclock as [Ht Hclock].
  rewrite serve_cons. cbn [snd all_served paced] in *.
  pose proof (limiter_ok_later _ _ _ Ht Hok) as Hok1. destruct (after_fields kl c.1 c.2) as (E1 & E2 & E3).
  assert (0 <= ttl kl)%Z as Httl by apply Hok.
  destruct (c.1 =s key) eqn:Ek; reflect_bools.
  - destruct Hp as [Hgap Hp]. rewrite Ek in *. split.
    + intros _. eapply (rested_allowed kl key c.2 k); try done. intros b E. destruct (Hlast b E) as (t' & -> & ->). done.
    + eapply (IH _ c.2 (Some c.2)); [by apply after_ok|by rewrite E2|done|unfold full_after; by rewrite E1|done| |done].
      intros b. destruct (after_lookup kl key c.2 key Httl) as [[_ ->]|[? _]]; [|done]. intros [= <-]. by eexists.
  - split; [done|]. eapply (IH _ c.2 t); [by apply after_ok|by rewrite E2|done|unfold full_after; by rewrite E1|done| |done].
    intros b. destruct (after_lookup kl c.1 c.2 key Httl) as [[? _]|[_ [->|[-> _]]]]; [congruence|apply Hlast|done].
Qed.

(** ** Properties *)

(** The validator is the table: [Load] reads every setting from its variable or
    its default and accepts the result exactly when every choice is among the
    allowed values and every variable the process requires is set; otherwise it
    reports the first bad choice, or else all the missing variables in order. *)
Theorem load_spec getenv proc :
  Load getenv proc = match verdict proc (read_config getenv) with Some e => inr e | None => inl (read_config getenv) end.
Proof.
  unfold Load. by rewrite validate_verdict.
Qed.

(** The variables of the rate limits are not set. *)
Definition default_rates (getenv : string -> string) : Prop :=
  Forall (fun v => getenv v = "")
    ["RATE_LIMIT_ENABLED"; "RATE_LIMIT_PER_IP_RPM"; "RATE_LIMIT_PER_IP_BURST"; "RATE_LIMIT_PER_TENANT_RPM"; "RATE_LIMIT_PER_TENANT_BURST";
     "RATE_LIMIT_AGENT_CHECKIN_RPM"; "RATE_LIMIT_AGENT_CHECKIN_BURST"].

Definition default_limiters : Limiters :=
  {| perIPLimiter := NewKeyedLimiter {| Rate := per_minute 60; Burst := 10 |} (10 * Minute);
     perTenantLimiter := NewKeyedLimiter {| Rate := per_minute 600; Burst := 50 |} (60 * Minute);
     perAgentCheckinLimiter := NewKeyedLimiter {| Rate := per_minute 6; Burst := 3 |} (30 * Minute) |}.

Lemma default_limiters_eq getenv : default_rates getenv -> limiters (read_config getenv) = Some default_limiters.
Proof.
  unfold default_rates. rewrite !Forall_cons. intros (H1 & H2 & H3 & H4 & H5 & H6 & H7 & _).
  unfold limiters, read_config, envOrDefault, envIntOrDefault. cbn. by rewrite H1, H2, H3, H4, H5, H6, H7.
Qed.

Lemma new_limiter_ok cfg ttl t :
  (0 <= Rate cfg)%Q -> (0 <= Burst cfg <= 2 ^ 53)%Z -> (0 <= ttl)%Z -> limiter_ok (NewKeyedLimiter cfg ttl) t.
Proof.
  intros Hr Hb Ht. split_and!; [done| |done|done]. exists (Burst cfg). split; [done|]. by apply rnd_int.
Qed.

(** The server with its default rates: whatever sequence of calls a limiter
    serves, a caller gets at most the burst and the refill of the elapsed time. *)
Theorem default_rates_hold getenv ls kl t cs key :
  default_rates getenv -> limiters (read_config getenv) = Some ls ->
  kl ∈ [perIPLimiter ls; perTenantLimiter ls; perAgentCheckinLimiter ls] -> clock_from t cs ->
  (inject_Z (passed key cs (serve_calls kl cs).2)
     <= burst kl + gain kl (end_of t cs - t) + inject_Z (Z.of_nat (length cs)) * slack kl)%Q.
Proof.
  intros Hd Hl Hkl Hclock. rewrite default_limiters_eq in Hl by done. injection Hl as <-.
  assert (limiter_ok kl t /\ (burst kl <= gain kl (ttl kl))%Q) as [Hok Hfill].
  { rewrite !elem_of_cons, elem_of_nil in Hkl. destruct Hkl as [->|[->|[->|[]]]];
      (split; [apply new_limiter_ok; [by apply Qle_bool_iff; vm_compute|cbn; lia|done]|by apply Qle_bool_iff; vm_compute]). }
  destruct (serve_rate key cs kl t Hok Hfill Hclock) as (H1 & _ & H3).
  pose proof (credit_nonneg _ key _ H1). pose proof (credit_le kl key t). lra.
Qed.

(** An agent that checks in at most every ten seconds is never turned away by the
    default check-in limit, whatever the other agents do and whenever idle buckets
    are evicted. *)
Theorem paced_agent_served getenv ls t cs agent :
  default_rates getenv -> limiters (read_config getenv) = Some ls -> clock_from t cs -> paced agent 10 None cs ->
  all_served agent cs (serve_calls (perAgentCheckinLimiter ls) cs).2.
Proof.
  intros Hd Hl Hclock Hp. rewrite default_limiters_eq in Hl by done. injection Hl as <-.
  eapply (paced_served agent 10 cs _ t None); [|by apply Qle_bool_iff; vm_compute|lia|by apply Qle_bool_iff; vm_compute|done|done|done].
  apply new_limiter_ok; [by apply Qle_bool_iff; vm_compute|cbn; lia|done].
Qed.

(** The configuration of an agent allows a shorter interval than that: an agent
    that polls every five seconds loses check-ins to the default limit. *)
Theorem fast_agent_limited getenv ls :
  default_rates getenv -> limiters (read_config getenv) = Some ls ->
  agent_validate {| ac_server_url := "https://moebius"; ac_poll_interval := 5; ac_drop_directory := ""; ac_space_check_enabled := true;
    ac_space_check_threshold := 1 # 2; ac_ui_enabled := true; ac_ui_port := 57000; ac_log_level := "info"; ac_log_file := "";
    ac_cdm_enabled := false |} = true /\
  false ∈ (serve_calls (perAgentCheckinLimiter ls) (map (fun i => ("dev_1", 5 * Z.of_nat i * Second)%Z) (seq 0 12))).2.
Proof.
  intros Hd Hl. rewrite default_limiters_eq in Hl by done. injection Hl as <-. split; [done|].
  apply (bool_decide_unpack _). vm_compute. exact I.
Qed.

(** A burst above what the time to live refills is given out anew after an
    eviction: with RATE_LIMIT_PER_IP_RPM=1 and RATE_LIMIT_PER_IP_BURST=100 an
    address gets 200 requests through in eleven minutes, once others have brought
    the cleanup about. *)
Example evicted_burst_again :
  let kl := NewKeyedLimiter {| Rate := per_minute 1; Burst := 100 |} (10 * Minute) in
  let others := map (fun i => ("10.0.0.2", (11 * Minute)%Z)) (seq 0 924) in
  let mine t := map (fun i => ("10.0.0.1", t)) (seq 0 100) in
  let cs := mine 0%Z ++ others ++ mine (11 * Minute)%Z in
  passed "10.0.0.1" cs (serve_calls kl cs).2 = 200%Z.
Proof. vm_compute. reflexivity. Qed.
