(* ===== verification/Leader.v ===== *)
(** * The scheduler's leader election

    [Run] of [server/scheduler/scheduler.go]: any number of scheduler processes, each
    with a database session of its own on which it tries to take one advisory
    lock; the holder runs the ticks, over other connections of its pool.  A step
    is one statement of a process, or the end of a session, which PostgreSQL
    answers by releasing the session's lock. *)

From stdpp Require Import relations.
From S2P Require Import Prelude.

Inductive Phase := Electing | Leading | Stopped.

#[export] Instance phase_eq_dec : EqDecision Phase.
Proof. solve_decision. Defined.

Record Instance_ := { in_phase : Phase; in_session : bool (* the session of conn is alive *) }.

Record Cluster := {
  cl_instances : list Instance_;
  cl_owner : option nat;          (* which session holds the advisory lock *)
  cl_ticks : list nat;            (* who ran the ticks so far *)
}.

Definition put_instance (i : nat) (x : Instance_) (c : Cluster) : Cluster :=
  {| cl_instances := <[i := x]> (cl_instances c); cl_owner := cl_owner c; cl_ticks := cl_ticks c |}.
Definition put_owner (o : option nat) (c : Cluster) : Cluster :=
  {| cl_instances := cl_instances c; cl_owner := o; cl_ticks := cl_ticks c |}.

Definition in_phase_ (p : Phase) (x : Instance_) : Instance_ := {| in_phase := p; in_session := in_session x |}.

(** What may happen to instance [i]. *)
Inductive Event :=
| Try (i : nat)          (* one round of the election loop *)
| Tick (i : nat)         (* the ticker fires: runTick *)
| Cancel (i : nat)       (* ctx is cancelled *)
| Lose (i : nat).        (* the session of conn ends *)

(** [pg_try_advisory_lock]: an error on a dead session ends [Run]. *)
Definition try_lock (i : nat) (x : Instance_) (c : Cluster) : Cluster :=
  if negb (in_session x) then put_instance i (in_phase_ Stopped x) c
  else match cl_owner c with
  | None => put_owner (Some i) (put_instance i (in_phase_ Leading x) c)
  | Some j => if (j =? i)%nat then put_instance i (in_phase_ Leading x) c else c
  end.

(** The deferred [pg_advisory_unlock]; on a dead session it does nothing. *)
Definition unlock (i : nat) (x : Instance_) (c : Cluster) : Cluster :=
  if in_session x && bool_decide (cl_owner c = Some i) then put_owner None c else c.

Definition cluster_step (ev : Event) (c : Cluster) : Cluster :=
  let at_ i (k : Instance_ -> Cluster) := match cl_instances c !! i with Some x => k x | None => c end in
  match ev with
  | Try i => at_ i (fun x => if bool_decide (in_phase x = Electing) then try_lock i x c else c)
  | Tick i => at_ i (fun x => if bool_decide (in_phase x = Leading)
                             then {| cl_instances := cl_instances c; cl_owner := cl_owner c; cl_ticks := cl_ticks c ++ [i] |} else c)
  | Cancel i => at_ i (fun x => match in_phase x with
                               | Electing => put_instance i (in_phase_ Stopped x) c
                               | Leading => unlock i x (put_instance i (in_phase_ Stopped x) c)
                               | Stopped => c
                               end)
  | Lose i => at_ i (fun x =>
                let c' := put_instance i {| in_phase := in_phase x; in_session := false |} c in
                if bool_decide (cl_owner c = Some i) then put_owner None c' else c')
  end.

Definition cluster_run (evs : list Event) (c : Cluster) : Cluster := foldl (fun c ev => cluster_step ev c) c evs.

Definition start_cluster (n : nat) : Cluster :=
  {| cl_instances := replicate n {| in_phase := Electing; in_session := true |}; cl_owner := None; cl_ticks := [] |}.

(** ** Lemmas *)

(** A leader whose session is alive holds the lock. *)
Definition holds_lock (c : Cluster) : Prop := forall i x,
  cl_instances c !! i = Some x -> in_phase x = Leading -> in_session x = true -> cl_owner c = Some i.

Lemma put_instance_holds i y c :
  (in_phase y = Leading -> in_session y = true -> cl_owner c = Some i) -> holds_lock c -> holds_lock (put_instance i y c).
Proof.
  intros Hy Hc j x Hj Hl Hs. simpl in *. apply list_lookup_insert_Some in Hj as [(-> & <- & _)|[_ Hj]]; [by apply Hy|by eapply Hc].
Qed.

Lemma step_holds ev c : holds_lock c -> holds_lock (cluster_step ev c).
Proof.
  intros Hc. destruct ev as [i|i|i|i]; simpl; destruct (cl_instances c !! i) as [x|] eqn:Ei; try done.
  - case_bool_decide; [|done]. unfold try_lock. destruct (in_session x) eqn:Es; cbn [negb]; [|by apply put_instance_holds].
    destruct (cl_owner c) as [j|] eqn:Eo.
    + destruct (Nat.eqb_spec j i) as [->|]; [|done]. by apply put_instance_holds.
    + intros j y Hj Hl Hs. simpl in *. apply list_lookup_insert_Some in Hj as [(-> & _)|[_ Hj]]; [done|].
      specialize (Hc j y Hj Hl Hs). congruence.
  - by case_bool_decide.
  - destruct (in_phase x) eqn:Ep; [by apply put_instance_holds| |done]. unfold unlock. simpl.
    destruct (in_session x) eqn:Es; simpl; [|by apply put_instance_holds]. case_bool_decide; [|by apply put_instance_holds].
    intros j y Hj Hl Hs. simpl in *. apply list_lookup_insert_Some in Hj as [(_ & <- & _)|[Hne Hj]]; [done|].
    specialize (Hc j y Hj Hl Hs). congruence.
  - set (y := {| in_phase := in_phase x; in_session := false |}).
    assert (holds_lock (put_instance i y c)) as Hput by (by apply put_instance_holds).
    case_bool_decide; [|done]. intros j z Hj Hl Hs. simpl in *.
    apply list_lookup_insert_Some in Hj as [(_ & <- & _)|[Hne Hj]]; [done|]. specialize (Hc j z Hj Hl Hs). congruence.
Qed.

Lemma run_holds evs : forall c, holds_lock c -> holds_lock (cluster_run evs c).
Proof. induction evs as [|ev evs IH]; intros c Hc; [done|]. by apply IH, step_holds. Qed.

Lemma start_holds n : holds_lock (start_cluster n).
Proof. intros i x Hi Hl. simpl in Hi. apply lookup_replicate in Hi as [-> _]. done. Qed.

(** ** Properties *)

(** At most one scheduler leads: however the processes interleave, two leaders
    whose sessions are alive are the same process. *)
Theorem one_leader n evs i j x y :
  let c := cluster_run evs (start_cluster n) in
  cl_instances c !! i = Some x -> cl_instances c !! j = Some y ->
  in_phase x = Leading -> in_phase y = Leading -> in_session x = true -> in_session y = true -> i = j.
Proof.
  intros c Hi Hj Hx Hy Hsx Hsy. pose proof (run_holds evs _ (start_holds n)) as Hh. fold c in Hh.
  pose proof (Hh i x Hi Hx Hsx). pose proof (Hh j y Hj Hy Hsy). congruence.
Qed.

(** A leader whose session ended does not notice: it goes on with its ticks while
    another process has become the leader. *)
Theorem lost_session_two_leaders :
  let c := cluster_run [Try 0; Try 1; Tick 0; Lose 0; Try 1; Tick 0; Tick 1] (start_cluster 2) in
  cl_ticks c = [0; 0; 1] /\ map in_phase (cl_instances c) = [Leading; Leading].
Proof. done. Qed.
