(* ===== verification/Notify.v ===== *)
(** * Alert notifications

    [server/notify/notify.go] and the SMTP settings of
    [server/cmd/scheduler/main.go].  Deliveries are the values of the model; whether
    one arrives is up to the network, the code only logs it. *)

From S2P Require Import Prelude Text Models Config.

Record SMTPConfig := {
  smtp_host : string;
  smtp_port : Z;
  smtp_username : string;
  smtp_password : string;
  smtp_from : string;
}.

(** In [run]; [None] is nil. *)
Definition smtpCfg (c : ServerConfig) : option SMTPConfig :=
  if negb (SMTPHost c =s "") then
    Some {| smtp_host := SMTPHost c; smtp_port := SMTPPort c; smtp_username := SMTPUsername c; smtp_password := SMTPPassword c;
            smtp_from := SMTPFrom c |}
  else None.

Record AlertPayload := {
  ap_rule_id : string;
  ap_rule_name : string;
  ap_tenant : string;
  ap_condition : string;
  ap_message : string;
  ap_fired_at : string;
}.

(** A message handed to an HTTP client, or to an SMTP server. *)
Inductive Delivery :=
| Webhook (url : string) (payload : AlertPayload)
| Mail (addr : string) (auth : option (string * string)) (from to msg : string).

Definition CRLF : string := String carriage_return (char newline).

Definition mail_body (p : AlertPayload) : string :=
  String.concat "" ["Alert: "; ap_rule_name p; char newline; "Condition: "; ap_condition p; char newline; "Message: "; ap_message p;
                    char newline; "Fired at: "; ap_fired_at p; char newline; "Tenant: "; ap_tenant p].

(** The header lines, an empty line and the body, joined by CRLF. *)
Definition mail_headers (from to : string) (p : AlertPayload) : list string :=
  [String.append "From: " from; String.append "To: " to; String.append "Subject: " (String.append "Moebius Alert: " (ap_rule_name p));
   "MIME-Version: 1.0"; "Content-Type: text/plain; charset=utf-8"].

Definition mail_message (from to : string) (p : AlertPayload) : string :=
  String.concat CRLF (mail_headers from to p ++ [""; mail_body p]).

(** [http.NewRequestWithContext] fails on a URL that does not parse. *)
Definition sendWebhook (parse_url : string -> bool) (url : string) (p : AlertPayload) : list Delivery :=
  if parse_url url then [Webhook url p] else [].

Definition sendEmail (smtp : option SMTPConfig) (to : string) (p : AlertPayload) : list Delivery :=
  match smtp with
  | None => []
  | Some c =>
      if smtp_host c =s "" then []
      else [Mail (String.append (smtp_host c) (String.append ":" (pretty (smtp_port c))))
              (if smtp_username c =s "" then None else Some (smtp_username c, smtp_password c))
              (smtp_from c) to (mail_message (smtp_from c) to p)]
  end.

(** [rule.Channels] is nil for a column that does not decode. *)
Definition Send (parse_url : string -> bool) (format_time : Z -> string) (smtp : option SMTPConfig) (ruleID : string) (rule : AlertRule)
    (condType message : string) (now : Z) : list Delivery :=
  match unmarshal (ar_channels rule) with
  | None => []
  | Some ch =>
      let payload := {| ap_rule_id := ruleID; ap_rule_name := ar_name rule; ap_tenant := ar_tenant rule; ap_condition := condType;
                        ap_message := message; ap_fired_at := format_time now |} in
      concat (map (fun url => sendWebhook parse_url url payload) (ach_webhooks ch))
      ++ concat (map (fun addr => sendEmail smtp addr payload) (ach_emails ch))
  end.

(** ** How a receiver reads a message: header lines up to an empty one *)

Fixpoint read_headers (cur : string) (s : string) : list string * string :=
  match s with
  | EmptyString => ([cur], EmptyString)
  | String c s' =>
      if Ascii.eqb c carriage_return then
        match s' with
        | String d s'' =>
            if Ascii.eqb d newline then
              if cur =s "" then ([], s'') else let r := read_headers "" s'' in (cur :: r.1, r.2)
            else read_headers (String.append cur (char c)) s'
        | EmptyString => ([String.append cur (char c)], EmptyString)
        end
      else read_headers (String.append cur (char c)) s'
  end.

(** ** Lemmas *)

Lemma append_char c s : String.append (char c) s = String c s.
Proof. unfold char. by rewrite append_cons, append_nil. Qed.

Lemma CRLF_append s : String.append CRLF s = String carriage_return (String newline s).
Proof. unfold CRLF. by rewrite append_cons, append_char. Qed.

Lemma read_headers_line line : forall cur rest,
  without carriage_return line = true -> String.append cur line <> "" ->
  read_headers cur (String.append line (String.append CRLF rest)) =
    (String.append cur line :: (read_headers "" rest).1, (read_headers "" rest).2).
Proof.
  induction line as [|c line IH]; intros cur rest Hw Hne.
  - rewrite append_empty in *. rewrite append_nil, CRLF_append. apply seqb_neq in Hne. cbn [read_headers]. rewrite !Ascii.eqb_refl. by rewrite Hne.
  - unfold without in Hw. cbn [string_forall] in Hw. apply andb_true_iff in Hw as [Hc Hw]. apply negb_true_iff in Hc.
    rewrite append_cons. cbn [read_headers]. rewrite Hc.
    assert (String.append (String.append cur (char c)) line = String.append cur (String c line)) as E by (by rewrite append_assoc, append_char).
    rewrite IH; [by rewrite E|done|by rewrite E].
Qed.

(** A line that can stand in a header. *)
Definition header_line (l : string) : bool := negb (l =s "") && without carriage_return l.

Lemma concat_cons sep x y l : String.concat sep (x :: y :: l) = String.append x (String.append sep (String.concat sep (y :: l))).
Proof. done. Qed.

Lemma read_headers_message hs body :
  forallb header_line hs = true -> read_headers "" (String.concat CRLF (hs ++ [""; body])) = (hs, body).
Proof.
  induction hs as [|h hs IH]; intros Hall.
  - cbn [app]. rewrite concat_cons, append_nil, CRLF_append. done.
  - cbn [forallb] in Hall. apply andb_true_iff in Hall as [Hh Hall]. unfold header_line in Hh. reflect_bools.
    specialize (IH Hall). destruct (hs ++ [""; body]) as [|y l] eqn:El; [by destruct hs|].
    cbn [app]. rewrite El, concat_cons, read_headers_line by (rewrite ?append_nil; done). by rewrite IH, append_nil.
Qed.

Lemma header_line_append a b : header_line a = true -> without carriage_return b = true -> header_line (String.append a b) = true.
Proof.
  unfold header_line. intros [Ha Hw]%andb_true_iff Hb. apply andb_true_iff. split.
  - destruct a as [|c a]; [done|]. by rewrite append_cons.
  - unfold without in *. by rewrite string_forall_append, Hw, Hb.
Qed.

(** ** Properties *)

(** A notification reaches every channel in order, and a mail has the headers it is
    meant to have: for a rule name and addresses without line breaks, a receiver
    reads exactly the five header lines and the body. *)
Theorem mail_readable from to p :
  Forall (fun s => without carriage_return s = true) [from; to; ap_rule_name p] ->
  read_headers "" (mail_message from to p) = (mail_headers from to p, mail_body p).
Proof.
  rewrite !Forall_cons. intros (Hf & Ht & Hn & _). apply read_headers_message. unfold mail_headers. cbn [forallb].
  rewrite !header_line_append; [done|done| |done|done|done|done].
  unfold without in *. by rewrite string_forall_append, Hn.
Qed.

(** The name of a rule is not checked for line breaks: one with a CRLF in it adds
    header lines of its author's choice to the mail. *)
Theorem rule_name_adds_headers from to p name extra :
  Forall (fun s => without carriage_return s = true) [from; to; name] -> header_line extra = true ->
  ap_rule_name p = String.append name (String.append CRLF extra) ->
  (read_headers "" (mail_message from to p)).1 =
    [String.append "From: " from; String.append "To: " to; String.append "Subject: " (String.append "Moebius Alert: " name); extra;
     "MIME-Version: 1.0"; "Content-Type: text/plain; charset=utf-8"].
Proof.
  rewrite !Forall_cons. intros (Hf & Ht & Hn & _) He Hp.
  assert (mail_message from to p = String.concat CRLF
    ([String.append "From: " from; String.append "To: " to; String.append "Subject: " (String.append "Moebius Alert: " name); extra;
      "MIME-Version: 1.0"; "Content-Type: text/plain; charset=utf-8"] ++ [""; mail_body p])) as ->.
  { unfold mail_message, mail_headers. cbn [app]. rewrite !concat_cons, Hp, !append_assoc. done. }
  rewrite read_headers_message; [done|]. cbn [forallb]. rewrite !header_line_append, He; [done|done| |done|done|done|done].
  unfold without in *. by rewrite string_forall_append, Hn.
Qed.

(** Who is told: every webhook URL that parses, then, when a mail server is
    configured, every address, each once and in the order of the rule. *)
Theorem send_spec parse_url format_time c ruleID rule condType message now ch :
  unmarshal (ar_channels rule) = Some ch ->
  map (fun d => match d with Webhook url _ => url | Mail _ _ _ to _ => to end)
    (Send parse_url format_time (smtpCfg c) ruleID rule condType message now) =
  filter parse_url (ach_webhooks ch) ++ (if SMTPHost c =s "" then [] else ach_emails ch).
Proof.
  intros Hch. unfold Send. rewrite Hch, map_app. f_equal.
  - induction (ach_webhooks ch) as [|u us IH]; [done|]. simpl. rewrite map_app, IH, filter_cons. unfold sendWebhook.
    destruct (parse_url u); [by rewrite decide_True|]. by rewrite decide_False by (intros []).
  - unfold smtpCfg. destruct (SMTPHost c =s "") eqn:E; cbn [negb]; induction (ach_emails ch) as [|a l IH]; try done.
    cbn [map List.concat]. rewrite map_app, IH. unfold sendEmail. cbn [smtp_host]. by rewrite E.
Qed.
