(* ===== verification/Migrate.v ===== *)
(** * Schema migrations

    [server/migrate/migrate.go]: every pending migration in the order of the file
    names, each in a transaction with the row that records it.  Several processes
    may run it at once; whether the SQL of a file goes through on a schema is a
    parameter. *)

From stdpp Require Import sorting relations.
From S2P Require Import Prelude Text Prog.

(** The table [schema_migrations], in the order of the commits, each row with the
    file it stands for. *)
Record Schema := { sm_table : bool; sm_applied : list (Z * string) }.

(** ** Parsing a file name *)

Definition underscore : Ascii.ascii := Ascii.ascii_of_nat 95.

Definition is_digit (c : Ascii.ascii) : bool := let n := Ascii.nat_of_ascii c in (48 <=? n)%nat && (n <=? 57)%nat.

Fixpoint digits (s : string) : string :=
  match s with
  | String c s' => if is_digit c then String c (digits s') else EmptyString
  | EmptyString => EmptyString
  end.

(** [fmt.Sscanf] with the verb d: white space, a sign, digits; the rest is left. *)
Definition Sscanf_d (s : string) : option Z :=
  let s := trim_left s in
  let number neg ds := if ds =s "" then None else Atoi (if (neg : bool) then String.append "-" ds else ds) in
  match s with
  | String c s' =>
      if Ascii.eqb c (Ascii.ascii_of_nat 45) then number true (digits s')
      else if Ascii.eqb c (Ascii.ascii_of_nat 43) then number false (digits s')
      else number false (digits s)
  | EmptyString => None
  end.

(** [None] is an error. *)
Definition parseVersion (name : string) : option Z :=
  match cut_at underscore name with
  | None => None
  | Some (number, _) => Sscanf_d number
  end.

Definition HasSuffix (s suffix : string) : bool :=
  (String.length suffix <=? String.length s)%nat
  && (String.substring (String.length s - String.length suffix) (String.length suffix) s =s suffix).

Definition name_le (a b : string) : Prop := string_leb a b = true.
#[export] Instance name_le_dec : RelDecision name_le.
Proof. intros a b. unfold name_le. apply _. Defined.

(** The files of the directory [sql], as [fs.ReadDir] lists them. *)
Definition sql_entries : list string :=
  ["001_initial_schema.up.sql"; "002_device_logs.up.sql"; "003_rollouts.up.sql"; "004_audit_log_immutable.up.sql";
   "005_users_sso_subject_unique.up.sql"].

Definition ups (entries : list string) : list string := merge_sort name_le (filter (fun n => HasSuffix n ".up.sql") entries).

(** ** Run *)

Section Run.
Context (entries : list string) (script_ok : string -> list (Z * string) -> bool).

(** [SELECT COALESCE(MAX(version), 0)]. *)
Definition current_version (s : Schema) : Z := foldr (fun r m => Z.max r.1 m) 0%Z (sm_applied s).

Definition create_table (s : Schema) : option (Schema * unit) := Some ({| sm_table := true; sm_applied := sm_applied s |}, tt).

(** The transaction of one migration: its SQL, then the row, whose version is the
    primary key; [None] is an error, and nothing is kept. *)
Definition apply_one (name : string) (ver : Z) (s : Schema) : option (Schema * unit) :=
  if script_ok name (sm_applied s) && negb (bool_decide (ver ∈ (sm_applied s).*1))
  then Some ({| sm_table := sm_table s; sm_applied := sm_applied s ++ [(ver, name)] |}, tt)
  else None.

(** An early return is the error; a normal end gives the number applied. *)
Definition migrate_one (current applied : Z) (name : string) : prog Schema string Z :=
  match parseVersion name with
  | None => stop (String.append "parse migration filename " name)
  | Some ver =>
      if (ver <=? current)%Z then mret applied
      else
        r ← exec (apply_one name ver);
        match r with
        | None => stop (String.append "execute " name)
        | Some _ => mret (applied + 1)%Z
        end
  end.

Definition Run : prog Schema string Z :=
  r ← exec create_table;
  match r with
  | None => stop "create schema_migrations"
  | Some _ =>
      current ← query current_version;
      match current with
      | None => stop "query current version"
      | Some current => for_each (ups entries) 0%Z (migrate_one current)
      end
  end.
End Run.

(** ** Lemmas *)

(** The migrations in the order of their names, with their versions. *)
Definition plan (entries : list string) : list (Z * string) := omap (fun n => v ← parseVersion n; Some (v, n)) (ups entries).

(** File names whose order is the order of their positive versions. *)
Definition well_numbered (entries : list string) : Prop :=
  Forall (fun n => is_Some (parseVersion n)) (ups entries) /\ StronglySorted Z.lt (0%Z :: (plan entries).*1).

Lemma sql_well_numbered : well_numbered sql_entries.
Proof.
  split; [apply Forall_forall; intros n Hn; apply (bool_decide_unpack _); revert n Hn; apply Forall_forall;
          apply (bool_decide_unpack _); vm_compute; exact I|].
  vm_compute. repeat constructor.
Qed.

(** A prefix of the plan has been applied, in order. *)
Definition in_order (entries : list string) (s : Schema) : Prop := sm_applied s `prefix_of` plan entries.

(** The steps of the migrators: an applied prefix grows along the plan. *)
Definition advances (entries : list string) : relation Schema := fun a b =>
  in_order entries a -> in_order entries b /\ sm_applied a `prefix_of` sm_applied b.

#[export] Instance advances_preorder entries : PreOrder (advances entries).
Proof.
  split.
  - intros a Ha. by split.
  - intros a b c Hab Hbc Ha. destruct (Hab Ha) as [Hb H1]. destruct (Hbc Hb) as [Hc H2]. split; [done|by etrans].
Qed.

(** Programs that are correct while the others change the store by [G], and that
    change it by [G] themselves, do so when they run together. *)
Section Together.
Context {S R A : Type} (G : relation S) `{!PreOrder G}.

Lemma rg_later (p : prog S R A) s s' :
  G s s' -> rg any_env G G p (fun _ _ => True) s -> rg any_env G G p (fun _ _ => True) s'.
Proof. intros Hs. destruct p as [a|r|X f k]; simpl; [done..|]. intros Hp s1 e He Hs1. apply Hp; [done|]. by etrans. Qed.

Lemma pool_together (c c' : S * list (prog S R A)) :
  rtc pstep c c' -> Forall (fun p => rg any_env G G p (fun _ _ => True) c.1) c.2 -> G c.1 c'.1.
Proof.
  induction 1 as [c|c1 c2 c3 Hstep _ IH]; [done|]. destruct Hstep as [s e i X f k pool Hi]. cbn [fst snd] in *.
  intros Hall. pose proof (proj1 (Forall_lookup _ _) Hall i _ Hi) as Hp. simpl in Hp.
  destruct (Hp s e I ltac:(reflexivity)) as [HG Hk]. etrans; [exact HG|]. apply IH.
  apply Forall_insert; [|done]. eapply Forall_impl; [exact Hall|]. intros p. by apply rg_later.
Qed.
End Together.

Lemma fst_in {A B : Type} (r : A * B) l : r ∈ l -> r.1 ∈ l.*1.
Proof. intros H. apply list_elem_of_fmap. eauto. Qed.

Section Correct.
Context (entries : list string) (script_ok : string -> list (Z * string) -> bool).
Context (Hnum : well_numbered entries).
Notation plan_of l := (omap (fun n => v ← parseVersion n; Some (v, n)) l).

Lemma plan_nodup : NoDup (plan entries).*1.
Proof.
  destruct Hnum as [_ Hs]. apply StronglySorted_inv in Hs as [Hs _].
  induction Hs as [|v l Hs IH Hall]; constructor; [|done]. intros Hin. rewrite Forall_forall in Hall. specialize (Hall v Hin). lia.
Qed.

Lemma plan_split l1 n v l2 :
  ups entries = l1 ++ n :: l2 -> parseVersion n = Some v -> plan entries = plan_of l1 ++ (v, n) :: plan_of l2.
Proof. intros Hu Hv. unfold plan. rewrite Hu, omap_app. simpl. by rewrite Hv. Qed.

(** The next migration of the plan is in the table, or the table ends before it. *)
Lemma next_applied P x Q (applied : list (Z * string)) :
  NoDup (P ++ x :: Q).*1 -> P `prefix_of` applied -> applied `prefix_of` P ++ x :: Q ->
  (x.1 ∈ applied.*1 /\ P ++ [x] `prefix_of` applied) \/ applied = P.
Proof.
  intros Hnd [more ->] [rest Hrest]. rewrite <-app_assoc in Hrest. apply app_inv_head in Hrest.
  destruct more as [|y more]; [right; by rewrite app_nil_r|]. injection Hrest as <- ->. left. split.
  - rewrite fmap_app. set_solver.
  - exists more. by rewrite <-app_assoc.
Qed.

(** What a migrator at position [l1] that read [current] knows. *)
Definition reached (l1 : list string) (current : Z) (s : Schema) : Prop :=
  in_order entries s /\ plan_of l1 `prefix_of` sm_applied s /\
  forall r, r ∈ plan entries -> (r.1 <= current)%Z -> r.1 ∈ (sm_applied s).*1.

Lemma reached_later l1 c s s' : advances entries s s' -> reached l1 c s -> reached l1 c s'.
Proof.
  intros Ha (Ho & Hp & Hc). destruct (Ha Ho) as [Ho' Hpre]. split_and!; [done|by etrans|].
  intros r Hr Hle. specialize (Hc r Hr Hle). destruct Hpre as [more ->]. rewrite fmap_app. set_solver.
Qed.

(** One more migration: it was there, or it comes next. *)
Lemma reached_next l1 n l2 v c s :
  ups entries = l1 ++ n :: l2 -> parseVersion n = Some v -> reached l1 c s -> v ∈ (sm_applied s).*1 -> reached (l1 ++ [n]) c s.
Proof.
  intros Hu Hv (Ho & Hp & Hc) Hin. split_and!; [done| |done]. rewrite omap_app. simpl. rewrite Hv. simpl.
  pose proof plan_nodup as Hnd. unfold in_order in Ho. rewrite (plan_split _ _ _ _ Hu Hv) in Ho, Hnd.
  destruct (next_applied _ _ _ _ Hnd Hp Ho) as [[_ H]|Heq]; [done|].
  exfalso. rewrite Heq in Hin. rewrite fmap_app, fmap_cons in Hnd. apply NoDup_app in Hnd as (_ & Hnd & _).
  apply (Hnd v Hin). set_solver.
Qed.

Lemma apply_one_step l1 n l2 v c s s' :
  ups entries = l1 ++ n :: l2 -> parseVersion n = Some v -> reached l1 c s ->
  apply_one script_ok n v s = Some (s', tt) ->
  sm_applied s' = sm_applied s ++ [(v, n)] /\ in_order entries s' /\ sm_applied s = plan_of l1.
Proof.
  intros Hu Hv (Ho & Hp & _) Happ. unfold apply_one in Happ. destruct (_ && _) eqn:E; [|done]. injection Happ as <-.
  apply andb_true_iff in E as [_ Hnew]. apply negb_true_iff, bool_decide_eq_false in Hnew.
  pose proof plan_nodup as Hnd. unfold in_order in *. rewrite (plan_split _ _ _ _ Hu Hv) in *.
  destruct (next_applied _ _ _ _ Hnd Hp Ho) as [[Hin _]|Heq]; [done|]. simpl. rewrite Heq. split_and!; [done| |done].
  exists (plan_of l2). by rewrite <-app_assoc.
Qed.

Lemma after_apply l1 n l2 v c s s' :
  ups entries = l1 ++ n :: l2 -> parseVersion n = Some v -> reached l1 c s ->
  apply_one script_ok n v s = Some (s', tt) -> advances entries s s' /\ reached (l1 ++ [n]) c s'.
Proof.
  intros Hu Hv Hr Happ. destruct (apply_one_step _ _ _ _ _ _ _ Hu Hv Hr Happ) as (E & Ho & _).
  assert (advances entries s s') as Ha by (intros _; split; [done|]; rewrite E; by exists [(v, n)]). split; [done|].
  eapply reached_next; [done|done|by eapply reached_later|]. rewrite E, fmap_app. set_solver.
Qed.

Lemma current_bound s r : r ∈ sm_applied s -> (r.1 <= current_version s)%Z.
Proof.
  unfold current_version. induction (sm_applied s) as [|x l IH]; [by intros ?%elem_of_nil|].
  intros [->|Hin]%elem_of_cons; simpl; [lia|]. specialize (IH Hin). lia.
Qed.

(** The greatest version of an applied prefix covers what comes before it. *)
Lemma current_covers s r : in_order entries s -> r ∈ plan entries -> (r.1 <= current_version s)%Z -> r.1 ∈ (sm_applied s).*1.
Proof.
  intros [rest Hrest] Hr Hle. rewrite Hrest in Hr. apply elem_of_app in Hr as [Hr|Hr]; [by apply fst_in|].
  destruct Hnum as [_ Hs]. rewrite Hrest, fmap_app in Hs. exfalso.
  assert (current_version s < r.1)%Z; [|lia]. apply StronglySorted_inv in Hs as [Hs Hpos].
  rewrite Forall_app in Hpos. destruct Hpos as [_ Hpos]. rewrite Forall_forall in Hpos.
  specialize (Hpos r.1 (fst_in _ _ Hr)). clear Hrest Hle. unfold current_version. revert Hs.
  induction (sm_applied s) as [|x l IH]; simpl; intros Hs; [lia|].
  apply StronglySorted_inv in Hs as [Hs Hall]. rewrite Forall_app in Hall. destruct Hall as [_ Hall]. rewrite Forall_forall in Hall.
  specialize (Hall r.1 (fst_in _ _ Hr)). specialize (IH Hs). lia.
Qed.

(** One migrator among others. *)
Lemma loop_together current l2 : forall l1 acc s,
  ups entries = l1 ++ l2 -> reached l1 current s ->
  rg any_env (advances entries) (advances entries) (for_each l2 acc (migrate_one script_ok current)) (fun _ _ => True) s.
Proof.
  induction l2 as [|n l2 IH]; intros l1 acc s Hu Hr; [done|]. cbn [for_each]. apply rg_bind. unfold migrate_one.
  destruct (parseVersion n) as [v|] eqn:Hv; [|done].
  assert (ups entries = (l1 ++ [n]) ++ l2) as Hu' by (by rewrite <-app_assoc).
  destruct (Z.leb_spec v current).
  - apply rg_mret. apply (IH (l1 ++ [n])); [done|]. eapply reached_next; [done|done|done|]. apply (proj2 (proj2 Hr) (v, n)); [|done].
    rewrite (plan_split _ _ _ _ Hu Hv). set_solver.
  - apply rg_bind, rg_exec. intros s1 Hs1. pose proof (reached_later _ _ _ _ Hs1 Hr) as Hr1. split; [reflexivity|]. split; [done|].
    destruct (apply_one script_ok n v s1) as [[s' []]|] eqn:Happ; [|done].
    destruct (after_apply _ _ _ _ _ _ _ Hu Hv Hr1 Happ) as [Ha Hr']. split; [done|]. by apply (IH (l1 ++ [n])).
Qed.

Lemma Run_together s :
  in_order entries s -> rg any_env (advances entries) (advances entries) (Run entries script_ok) (fun _ _ => True) s.
Proof.
  intros Ho. unfold Run. apply rg_bind, rg_exec. intros s1 Hs1. destruct (Hs1 Ho) as [Ho1 _]. split; [reflexivity|]. split; [done|].
  unfold create_table. cbv beta iota. split; [intros ?; by split|]. apply rg_bind, rg_query. intros s2 Hs2. destruct (Hs2 Ho1) as [Ho2 _]. split; [reflexivity|]. split; [done|].
  apply (loop_together _ (ups entries) []); [done|]. split_and!; [done|apply prefix_nil|]. intros r Hr Hle. by apply current_covers.
Qed.

(** A migrator alone, when nothing fails. *)
Lemma loop_alone current l2 : forall l1 acc s,
  (forall n applied, script_ok n applied = true) -> ups entries = l1 ++ l2 -> reached l1 current s ->
  (forall r, r ∈ sm_applied s -> r ∈ plan_of l1 \/ (r.1 <= current)%Z) ->
  rg ok_env (=) (fun _ _ => True) (for_each l2 acc (migrate_one script_ok current))
    (fun r s' => r = inr (acc + Z.of_nat (length (plan entries)) - Z.of_nat (length (sm_applied s)))%Z /\
                 sm_applied s' = plan entries) s.
Proof.
  induction l2 as [|n l2 IH]; intros l1 acc s Hok Hu Hr Hnew.
  - cbn [for_each rg]. destruct Hr as (Ho & Hp & _). unfold in_order, plan in *. rewrite app_nil_r in Hu. rewrite <-Hu in Hp.
    assert (sm_applied s = plan_of (ups entries)) as E; [|rewrite E; split; [f_equal; lia|done]].
    destruct Ho as [x Hx], Hp as [y Hy]. rewrite Hy, <-app_assoc in Hx. destruct y; [by rewrite Hy, app_nil_r|].
    exfalso. apply (f_equal length) in Hx. rewrite !length_app in Hx. simpl in Hx. lia.
  - cbn [for_each]. apply rg_bind. unfold migrate_one. destruct Hnum as [Hparse _]. rewrite Forall_forall in Hparse.
    destruct (Hparse n) as [v Hv]; [rewrite Hu; set_solver|]. rewrite Hv. clear Hparse.
    assert (ups entries = (l1 ++ [n]) ++ l2) as Hu' by (by rewrite <-app_assoc).
    assert (plan_of (l1 ++ [n]) = plan_of l1 ++ [(v, n)]) as Hplan by (rewrite omap_app; simpl; by rewrite Hv).
    destruct (Z.leb_spec v current) as [Hle|Hgt].
    + apply rg_mret. apply (IH (l1 ++ [n])); [done|done| |].
      * eapply reached_next; [done|done|done|]. apply (proj2 (proj2 Hr) (v, n)); [|done]. rewrite (plan_split _ _ _ _ Hu Hv). set_solver.
      * intros r Hin. rewrite Hplan. destruct (Hnew r Hin); set_solver.
    + apply rg_bind, rg_exec. intros s1 <-. split; [done|]. split; [by intros ?%ok_env_no_fault|].
      assert (exists s', apply_one script_ok n v s = Some (s', tt)) as [s' Happ].
      { unfold apply_one. rewrite Hok, bool_decide_false; [by eexists|]. intros ([v' n'] & -> & Hin)%list_elem_of_fmap. simpl in *.
        destruct (Hnew _ Hin) as [Hin'|]; [|simpl in *; lia]. pose proof plan_nodup as Hnd. rewrite (plan_split _ _ _ _ Hu Hv), fmap_app in Hnd.
        apply NoDup_app in Hnd as (_ & Hnd & _). apply (Hnd v'); [by apply (fst_in (v', n'))|set_solver]. }
      rewrite Happ. split; [done|]. destruct (apply_one_step _ _ _ _ _ _ _ Hu Hv Hr Happ) as (E & _ & _).
      destruct (after_apply _ _ _ _ _ _ _ Hu Hv Hr Happ) as [_ Hr'].
      apply rg_mret. eapply rg_mono; [|apply (IH (l1 ++ [n])); [done|done|exact Hr'|]].
      * intros r s2 [-> Hend]. split; [|done]. rewrite E, length_app. simpl. f_equal. lia.
      * intros r. rewrite E, Hplan. intros [Hin|Hin]%elem_of_app; [destruct (Hnew r Hin)|]; set_solver.
Qed.
End Correct.

(** ** Properties *)

(** C21: However many migrators run at the same time, whichever of their accesses fail
    and whichever scripts are refused: what has been applied is a prefix of the
    plan, every migration of it once and in the order of the versions. *)
Theorem migrations_in_order entries pool s s' pool' :
  well_numbered entries -> in_order entries s ->
  Forall (fun p => exists script_ok, p = Run entries script_ok) pool -> rtc pstep (s, pool) (s', pool') ->
  in_order entries s' /\ sm_applied s `prefix_of` sm_applied s' /\ NoDup (sm_applied s').*1.
Proof.
  intros Hnum Ho Hpool Hs. destruct (pool_together (advances entries) _ _ Hs) as [Ho' Hpre]; [|done|].
  - eapply Forall_impl; [exact Hpool|]. intros p [ok ->]. by apply Run_together.
  - split_and!; [done|done|]. pose proof (plan_nodup _ Hnum) as Hnd. destruct Ho' as [rest E]. cbn [fst] in E.
    rewrite E, fmap_app in Hnd. by apply NoDup_app in Hnd as [? _].
Qed.

(** A migrator that runs alone, with scripts that go through and no failing
    access, ends with the whole plan applied and reports how many were missing;
    run again it applies nothing. *)
Theorem migrate_completes entries script_ok env s :
  well_numbered entries -> in_order entries s -> (forall n applied, script_ok n applied = true) -> (forall n, ok_env (env n)) ->
  let s' := run_store (Run entries script_ok) env s in
  run_result (Run entries script_ok) env s = inr (Z.of_nat (length (plan entries)) - Z.of_nat (length (sm_applied s)))%Z /\
  sm_applied s' = plan entries /\ run_result (Run entries script_ok) env s' = inr 0%Z.
Proof.
  intros Hnum Ho Hscript Henv.
  assert (forall s0, in_order entries s0 ->
    run_result (Run entries script_ok) env s0 = inr (Z.of_nat (length (plan entries)) - Z.of_nat (length (sm_applied s0)))%Z /\
    sm_applied (run_store (Run entries script_ok) env s0) = plan entries) as Halone.
  { intros s0 Ho0. by_rg ok_env (fun _ _ : Schema => True); [apply Henv|]. unfold Run.
    rg_step. apply rg_exec. intros s1 <-. split; [done|]. split; [by intros ?%ok_env_no_fault|]. split; [done|].
    rg_step. apply rg_query. intros s2 <-. split; [done|]. split; [by intros ?%ok_env_no_fault|].
    apply (loop_alone entries script_ok Hnum _ (ups entries) [] 0%Z {| sm_table := true; sm_applied := sm_applied s0 |}); [done|done| |].
    - split_and!; [exact Ho0|apply prefix_nil|]. intros r Hr Hle. by apply (current_covers entries Hnum s0).
    - intros r Hin. right. by apply (current_bound s0). }
  destruct (Halone s Ho) as [H1 H2]. split_and!; [done|done|].
  assert (in_order entries (run_store (Run entries script_ok) env s)) as Ho' by (unfold in_order; by rewrite H2).
  destruct (Halone _ Ho') as [H3 _]. rewrite H3, H2. f_equal. lia.
Qed.
