(* ===== verification/Bootstrap.v ===== *)
(** * The first administrator

    [doCreateAdmin] of [server/cmd/api/main.go]: the default tenant, the Super Admin
    role, the user admin@localhost and an admin API key, in statements of their
    own. *)

From stdpp Require Import relations.
From S2P Require Import Prelude Prog Models JobState Database Scope Quota JobSteps JobsApi Enrollment Identity.

(** [INSERT INTO tenants ... ON CONFLICT (slug) DO UPDATE SET name]. *)
Definition upsert_tenant (id name : string) (now : Z) (db : DB) : option DB :=
  if nonempty (select_where (fun _ t => tn_slug t =s "default") (tenants db))
  then Some (set_tenants (update_where (fun _ t => tn_slug t =s "default")
         (fun t => {| tn_name := name; tn_slug := tn_slug t; tn_config := tn_config t; tn_created_at := tn_created_at t |})
         (tenants db)) db)
  else t ← insert_new id {| tn_name := name; tn_slug := "default"; tn_config := None; tn_created_at := now |} (tenants db);
       Some (set_tenants t db).

(** [INSERT ... ON CONFLICT DO NOTHING]; the primary key is the only constraint that
    two rows of the table can violate. *)
Definition unless_conflict {V : Type} (table : DB -> gmap string V) (id : string) (insert : DB -> option DB) (db : DB) : option DB :=
  match table db !! id with Some _ => Some db | None => insert db end.

Definition super_admin : Role :=
  {| role_tenant := None; role_name := "Super Admin"; role_permissions := SuperAdminPermissions; role_is_custom := false |}.

Definition is_super_admin (r : Role) : bool := (role_name r =s "Super Admin") && negb (role_is_custom r).

Definition is_admin_user (tenantID : string) (u : User) : bool := (usr_tenant u =s tenantID) && (usr_email u =s "admin@localhost").

(** [SELECT id FROM ...]: one row of those that match. *)
Definition some_id {V : Type} (p : V -> bool) (t : gmap string V) : option string :=
  fst <$> head (select_where (fun _ v => p v) t).

(** What is printed. *)
Record Admin := { ad_tenant : string; ad_user : string; ad_key : string }.

Definition bootstrap_key (x : X509) (tenantID userID roleID raw : string) (now : Z) : APIKey :=
  {| key_tenant := tenantID; key_user := userID; key_name := "bootstrap-admin"; key_hash := sha256_hex x raw;
     key_role := roleID; key_scope := None; key_is_admin := true; key_last_used_at := None; key_expires_at := None;
     key_created_at := now |}.

(** A step whose failure ends the command. *)
Definition must {A : Type} (msg : string) (p : prog DB string (option A)) : prog DB string A :=
  r ← p;
  match r with Some a => mret a | None => stop msg end.

Definition must_row {A : Type} (msg : string) (p : prog DB string (qres A)) : prog DB string A :=
  r ← p;
  match r with Row a => mret a | _ => stop msg end.

Definition doCreateAdmin (x : X509) (tenantName : string) : prog DB string Admin :=
  now ← time_now;
  newTenant ← new_id "ten";
  _ ← must "create tenant" (exec (stmt_opt (upsert_tenant newTenant tenantName now)));
  tenantID ← must_row "get tenant id" (query_row (fun db => some_id (fun t => tn_slug t =s "default") (tenants db)));
  newRole ← new_id "rol";
  _ ← must "create admin role" (exec (stmt_opt (unless_conflict roles newRole (insert_role newRole super_admin))));
  roleID ← must_row "get admin role id" (query_row (fun db => some_id is_super_admin (roles db)));
  newUser ← new_id "usr";
  _ ← must "create admin user" (exec (stmt_opt (unless_conflict users newUser
         (insert_user newUser {| usr_tenant := tenantID; usr_email := "admin@localhost"; usr_role := Some roleID;
                                 usr_sso_subject := None; usr_created_at := now |}))));
  userID ← must_row "get admin user id" (query_row (fun db => some_id (is_admin_user tenantID) (users db)));
  random ← must "generate key" random_hex;
  let rawKey := String.append "sk_" random in
  keyID ← new_id "key";
  _ ← must "create API key" (exec (stmt_opt (insert_key keyID (bootstrap_key x tenantID userID roleID rawKey now))));
  mret {| ad_tenant := tenantID; ad_user := userID; ad_key := rawKey |}.

(** ** Lemmas *)

Lemma some_id_Some {V : Type} (p : V -> bool) t id : some_id p t = Some id -> exists v, t !! id = Some v /\ p v = true.
Proof.
  unfold some_id. destruct (head _) as [[k v]|] eqn:E; [|done]. intros [= <-]. apply head_select_where in E as [? ?]. eauto.
Qed.

Lemma unless_conflict_Some {V : Type} (table : DB -> gmap string V) id insert db db' :
  unless_conflict table id insert db = Some db' -> (is_Some (table db !! id) /\ db' = db) \/ (table db !! id = None /\ insert db = Some db').
Proof. unfold unless_conflict. destruct (table db !! id) eqn:E; [intros [= <-]; left; eauto|right; auto]. Qed.

(** A row was added under a fresh identifier; under a taken one nothing happened. *)
Definition added {V : Type} (id : string) (v : V) (t t' : gmap string V) : Prop :=
  (is_Some (t !! id) /\ t' = t) \/ (t !! id = None /\ t' = <[id := v]> t).

Section Rules.
Context (E : Env -> Prop).
Notation anyDB := (fun _ _ : DB => True).

Lemma must_exec_rg msg (f : DB -> option DB) (Q : string + unit -> DB -> Prop) db :
  (forall msg', Q (inl msg') db) -> (forall db', f db = Some db' -> Q (inr tt) db') ->
  rg E (=) anyDB (must msg (exec (stmt_opt f))) Q db.
Proof.
  intros Hno Hyes. unfold must. rg_step. apply rg_exec. intros ? <-. split; [done|]. split; [by intros _; rg_step|].
  destruct (stmt_opt f db) as [[db' []]|] eqn:Ef; [|by rg_step]. apply stmt_opt_Some in Ef. split; [done|]. rg_step. by apply Hyes.
Qed.

Lemma must_row_rg {A : Type} msg (f : DB -> option A) (Q : string + A -> DB -> Prop) db :
  (forall msg', Q (inl msg') db) -> (forall a, f db = Some a -> Q (inr a) db) ->
  rg E (=) anyDB (must_row msg (query_row f)) Q db.
Proof.
  intros Hno Hyes. unfold must_row. rg_step. apply rg_query_row. intros ? <-. split; [done|]. split; [by intros _; rg_step|].
  destruct (f db) as [a|] eqn:Ef; rg_step; auto.
Qed.

(** What a run that printed something did. *)
Lemma create_admin_rg x name db (Q : string + Admin -> DB -> Prop) :
  (forall msg s, Q (inl msg) s) ->
  (forall tid rid uid kid raw now newRole newUser s role,
     roles s !! rid = Some role -> is_super_admin role = true -> added newRole super_admin (roles db) (roles s) ->
     added newUser {| usr_tenant := tid; usr_email := "admin@localhost"; usr_role := Some rid; usr_sso_subject := None; usr_created_at := now |}
       (users db) (users s) ->
     api_keys s = <[kid := bootstrap_key x tid uid rid (String.append "sk_" raw) now]> (api_keys db) ->
     Q (inr {| ad_tenant := tid; ad_user := uid; ad_key := String.append "sk_" raw |}) s) ->
  rg E (=) anyDB (doCreateAdmin x name) Q db.
Proof.
  intros Hno Hyes. unfold doCreateAdmin. do 5 rg_step. apply must_exec_rg; [done|]. intros db1 H1.
  rg_step. apply must_row_rg; [done|]. intros tid _. do 3 rg_step. apply must_exec_rg; [done|]. intros db2 H2.
  rg_step. apply must_row_rg; [done|]. intros rid (role & Hrole & Hsup)%some_id_Some. do 3 rg_step. apply must_exec_rg; [done|]. intros db3 H3.
  rg_step. apply must_row_rg; [done|]. intros uid _. rg_step. unfold must at 1. rg_step. apply rg_random_hex; [done|].
  intros [raw|]; [|by rg_step]. rg_step. cbv zeta. do 3 rg_step. apply must_exec_rg; [done|]. intros db4 [_ H4]%insert_key_Some. rg_step.
  assert (roles db1 = roles db /\ users db1 = users db /\ api_keys db1 = api_keys db) as (Er & Eu & Ek).
  { unfold upsert_tenant in H1. case_match; [by injection H1 as <-|]. by apply bind_Some in H1 as (t' & _ & [= <-]). }
  assert (added i0 super_admin (roles db) (roles db2) /\ users db2 = users db /\ api_keys db2 = api_keys db) as (Hr2 & Eu2 & Ek2).
  { unfold added. rewrite <-Er, <-Eu, <-Ek. destruct (unless_conflict_Some _ _ _ _ _ H2) as [[? ->]|[? [_ ->]%insert_role_Some]]; auto. }
  subst db4. eapply (Hyes tid rid uid i2 raw t i0 i1 _ role).
  - destruct (unless_conflict_Some _ _ _ _ _ H3) as [[_ ->]|[_ [_ ->]%insert_user_Some]]; exact Hrole.
  - done.
  - destruct (unless_conflict_Some _ _ _ _ _ H3) as [[_ ->]|[_ [_ ->]%insert_user_Some]]; exact Hr2.
  - rewrite <-Eu2. unfold added. destruct (unless_conflict_Some _ _ _ _ _ H3) as [[? ->]|[? [_ ->]%insert_user_Some]]; auto.
  - rewrite <-Ek2. destruct (unless_conflict_Some _ _ _ _ _ H3) as [[_ ->]|[_ [_ ->]%insert_user_Some]]; done.
Qed.
End Rules.

(** ** Properties *)

(** The printed key works: on a server whose database has no Super Admin role yet, a
    run of create-admin that prints a key leaves one that authenticates (no other
    stored key having its hash) as an administrator of the printed tenant and user
    with every permission. *)
Theorem create_admin_works x name env db adm :
  run_result (doCreateAdmin x name) env db = inr adm ->
  (forall i r, roles db !! i = Some r -> is_super_admin r = false) ->
  (forall i k, api_keys db !! i = Some k -> key_hash k <> sha256_hex x (ad_key adm)) ->
  forall (next : Ctx -> Handler unit) env' ctx, ctx_tenant ctx = "" -> e_fault (env' 0%nat) = false ->
  let db' := run_store (doCreateAdmin x name) env db in
  exists id db1, maybe_recorded id db' db1 /\
  run (APIKeyAuth x (String.append "Bearer " (ad_key adm)) next ctx) env' 0 db'
  = run (next {| ctx_tenant := ad_tenant adm; ctx_agent := ctx_agent ctx; ctx_user := ad_user adm; ctx_is_admin := true;
                 ctx_scope := None; ctx_permissions := SuperAdminPermissions |}) env' 3 db1.
Proof.
  intros Hres Hnone Hfresh next env' ctx Hct Hok. cbv zeta. revert Hres.
  by_rg any_env (fun _ _ : DB => True); [done|]. apply create_admin_rg; [done|].
  intros tid rid uid kid raw now newRole newUser s role Hrole Hsup Hadd _ Hkeys [= <-]. cbn [ad_key ad_tenant ad_user] in *.
  assert (role_permissions role = SuperAdminPermissions) as Hperms.
  { destruct Hadd as [[_ E]|[_ E]]; rewrite E in Hrole; [by rewrite (Hnone _ _ Hrole) in Hsup|].
    apply lookup_insert_Some in Hrole as [[_ <-]|[_ Hrole]]; [done|]. by rewrite (Hnone _ _ Hrole) in Hsup. }
  set (raw' := String.append "sk_" raw) in *.
  assert ((raw' =s "") = false) as Hne by reflexivity.
  destruct (find_key_unique (hashAPIKey x raw') s kid (bootstrap_key x tid uid rid raw' now)) as [i Hi]; [by rewrite Hkeys, lookup_insert_eq|done| |].
  - intros j k' Hj Hh. rewrite Hkeys in Hj. apply lookup_insert_Some in Hj as [[_ <-]|[_ Hj]]; [done|]. by destruct (Hfresh j k' Hj).
  - rewrite (APIKeyAuth_found _ _ next env' ctx _ _ _ _ Hct Hne Hok Hi). cbn [key_expires_at bootstrap_key].
    match goal with |- context [_ = run ?p env' 3 _] => destruct (record_use_run i p env' 1 s) as (db1 & Hm & Hr) end.
    exists i, db1. split; [done|]. rewrite <-Hr. simpl key_role. rewrite Hrole, Hperms. reflexivity.
Qed.

(** Every further run adds another Super Admin role and another user
    admin@localhost beside the ones it found: nothing but the random identifier
    could conflict. *)
Theorem create_admin_again x name env db adm :
  run_result (doCreateAdmin x name) env db = inr adm ->
  let db' := run_store (doCreateAdmin x name) env db in
  exists newRole newUser u, added newRole super_admin (roles db) (roles db') /\ added newUser u (users db) (users db') /\
    is_admin_user (ad_tenant adm) u = true.
Proof.
  intros Hres. cbv zeta. revert Hres. by_rg any_env (fun _ _ : DB => True); [done|]. apply create_admin_rg; [done|].
  intros tid rid uid kid raw now newRole newUser s role _ _ Hr Hu _ [= <-]. eexists newRole, newUser, _. split_and!; [done|done|].
  unfold is_admin_user. simpl. by rewrite !seqb_refl.
Qed.
