(* ===== verification/Gateway.v ===== *)
(** * The gate of the user API

    [server/auth/oidc.go], and the wiring of [server/api/router.go]: the routes under
    /v1 with the permission each requires, and the chain of middleware a request
    passes before its handler: OIDC, API key, tenant, rate limit, permission. *)

From stdpp Require Import relations.
From S2P Require Import Prelude Text Prog Models JobState Database Scope Quota Enrollment Identity Float64 RateLimit.

Local Open Scope nat_scope.

(** ** server/auth/oidc.go *)

(** The token verifier of the OIDC library: the subject of a token.  [None] is a
    token it refuses, [Some None] one whose claims do not decode. *)
Definition Verifier : Type := string -> option (option string).

(** [users u LEFT JOIN roles r WHERE u.sso_subject = $1]; the role id is scanned
    into a string, which fails on NULL. *)
Definition find_sso (subject : string) (db : DB) : option (string * User) :=
  head (select_where (fun _ u => bool_decide (usr_sso_subject u = Some subject)) (users db)).

Definition as_user (id : string) (u : User) (perms : list string) (ctx : Ctx) : Ctx :=
  {| ctx_tenant := usr_tenant u; ctx_agent := ctx_agent ctx; ctx_user := id; ctx_is_admin := ctx_is_admin ctx;
     ctx_scope := ctx_scope ctx; ctx_permissions := perms |}.

Definition role_perms (role : string) (db : DB) : list string :=
  match roles db !! role with Some r => role_permissions r | None => [] end.

Definition OIDCAuth {A : Type} (verify : Verifier) (authorization : string) (next : Ctx -> Handler A) (ctx : Ctx) : Handler A :=
  let token := extractBearerToken authorization in
  if (token =s "") || bool_decide (is_Some (cut_prefix "sk_" token)) then next ctx
  else
    match verify token with
    | None => stop (ErrorWithCode 401 "invalid_token" (Lit "The provided OIDC token is not valid"))
    | Some None => stop (ErrorWithCode 500 "internal_error" (Lit "Failed to process token claims"))
    | Some (Some subject) =>
        row ← query_row (fun db => (fun iu => (iu, role_perms (default "" (usr_role iu.2)) db)) <$> find_sso subject db);
        match row with
        | NoRows => stop (ErrorWithCode 401 "unknown_sso_user" (Lit "No user mapped to this SSO identity"))
        | DbErr => stop (ErrorWithCode 500 "internal_error" (Lit "Internal server error"))
        | Row ((id, u), perms) =>
            match usr_role u with
            | None => stop (ErrorWithCode 500 "internal_error" (Lit "Internal server error"))
            | Some _ => next (as_user id u perms ctx)
            end
        end
    end.

(** ** The chain of /v1 *)

(** The database and the limiter of the tenants, when there is one. *)
Record GStore := { g_db : DB; g_limiter : option KeyedLimiter }.
Definition put_gdb (db : DB) (s : GStore) : GStore := {| g_db := db; g_limiter := g_limiter s |}.

Notation GProg := (prog GStore Response).
Definition in_db {A : Type} (p : Handler A) : GProg A := zoom g_db put_gdb p.

Record RouterConfig := { rc_x509 : X509; rc_oidc : option Verifier }.

(** A request comes with an empty context. *)
Definition no_ctx : Ctx :=
  {| ctx_tenant := ""; ctx_agent := ""; ctx_user := ""; ctx_is_admin := false; ctx_scope := None; ctx_permissions := [] |}.

Definition authenticate (cfg : RouterConfig) (authorization : string) : Handler Ctx :=
  let key := APIKeyAuth (rc_x509 cfg) authorization (RequireTenant mret) in
  match rc_oidc cfg with
  | Some verify => OIDCAuth verify authorization key no_ctx
  | None => key no_ctx
  end.

Definition rejectRateLimited (secs : Z) : Response :=
  ErrorWithCode 429 "rate_limited" (Lit (String.append "Too many requests. Try again in " (String.append (pretty secs) " seconds."))).

Definition tenant_limit (tenantID : string) : GProg unit :=
  verdict ← PStep (fun e s =>
    match g_limiter s with
    | None => (s, Pass)
    | Some kl =>
        let '(kl', v) := PerTenantMiddleware kl tenantID (e_now e) in
        ({| g_db := g_db s; g_limiter := Some kl' |}, v)
    end) PRet;
  match verdict with
  | Pass => mret tt
  | Reject429 secs => stop (rejectRateLimited secs)
  end.

Definition v1_chain (cfg : RouterConfig) (authorization permission : string) (handler : Ctx -> Handler unit) : GProg unit :=
  ctx ← in_db (authenticate cfg authorization);
  _ ← tenant_limit (ctx_tenant ctx);
  in_db (Require_ permission handler ctx).

(** ** The routes *)

Record Route := { rt_method : string; rt_pattern : string; rt_permission : string; rt_handler : string }.

Definition R_ (method pattern permission handler : string) : Route :=
  {| rt_method := method; rt_pattern := pattern; rt_permission := permission; rt_handler := handler |}.

Definition v1_routes : list Route :=
  [
   R_ "GET" "/v1/roles" PermRolesRead "roles.List";
   R_ "POST" "/v1/roles" PermRolesWrite "roles.Create";
   R_ "GET" "/v1/roles/{role_id}" PermRolesRead "roles.Get";
   R_ "PATCH" "/v1/roles/{role_id}" PermRolesWrite "roles.Update";
   R_ "DELETE" "/v1/roles/{role_id}" PermRolesWrite "roles.Delete";
   R_ "GET" "/v1/users" PermUsersRead "users.List";
   R_ "GET" "/v1/users/{user_id}" PermUsersRead "users.Get";
   R_ "POST" "/v1/users/invite" PermUsersWrite "users.Invite";
   R_ "PATCH" "/v1/users/{user_id}" PermUsersWrite "users.Update";
   R_ "POST" "/v1/users/{user_id}/deactivate" PermUsersWrite "users.Deactivate";
   R_ "PUT" "/v1/users/{user_id}/sso-subject" PermUsersWrite "users.SetSSOSubject";
   R_ "GET" "/v1/api-keys" PermAPIKeysRead "apiKeys.List";
   R_ "POST" "/v1/api-keys" PermAPIKeysWrite "apiKeys.Create";
   R_ "DELETE" "/v1/api-keys/{key_id}" PermAPIKeysWrite "apiKeys.Delete";
   R_ "GET" "/v1/tenant" PermTenantRead "tenant.Get";
   R_ "PATCH" "/v1/tenant" PermTenantWrite "tenant.Update";
   R_ "GET" "/v1/jobs" PermJobsRead "jobsH.List";
   R_ "POST" "/v1/jobs" PermJobsCreate "jobsH.Create";
   R_ "GET" "/v1/jobs/{job_id}" PermJobsRead "jobsH.Get";
   R_ "POST" "/v1/jobs/{job_id}/cancel" PermJobsCreate "jobsH.Cancel";
   R_ "POST" "/v1/jobs/{job_id}/retry" PermJobsRetry "jobsH.Retry";
   R_ "GET" "/v1/devices" PermDevicesRead "devices.List";
   R_ "GET" "/v1/devices/{device_id}" PermDevicesRead "devices.Get";
   R_ "PATCH" "/v1/devices/{device_id}" PermDevicesWrite "devices.Update";
   R_ "POST" "/v1/devices/{device_id}/revoke" PermDevicesRevoke "devices.Revoke";
   R_ "GET" "/v1/devices/{device_id}/inventory" PermInventoryRead "inv.GetDeviceInventory";
   R_ "GET" "/v1/tags" PermTagsRead "tags.List";
   R_ "POST" "/v1/tags" PermTagsWrite "tags.Create";
   R_ "DELETE" "/v1/tags/{tag_id}" PermTagsWrite "tags.Delete";
   R_ "POST" "/v1/devices/{device_id}/tags" PermTagsWrite "tags.AddToDevice";
   R_ "DELETE" "/v1/devices/{device_id}/tags/{tag_id}" PermTagsWrite "tags.RemoveFromDevice";
   R_ "GET" "/v1/groups" PermGroupsRead "groups.List";
   R_ "POST" "/v1/groups" PermGroupsWrite "groups.Create";
   R_ "GET" "/v1/groups/{group_id}" PermGroupsRead "groups.Get";
   R_ "PATCH" "/v1/groups/{group_id}" PermGroupsWrite "groups.Update";
   R_ "DELETE" "/v1/groups/{group_id}" PermGroupsWrite "groups.Delete";
   R_ "GET" "/v1/groups/{group_id}/devices" PermGroupsRead "groups.ListDevices";
   R_ "POST" "/v1/groups/{group_id}/devices" PermGroupsWrite "groups.AddDevices";
   R_ "DELETE" "/v1/groups/{group_id}/devices/{device_id}" PermGroupsWrite "groups.RemoveDevice";
   R_ "GET" "/v1/sites" PermSitesRead "sites.List";
   R_ "POST" "/v1/sites" PermSitesWrite "sites.Create";
   R_ "GET" "/v1/sites/{site_id}" PermSitesRead "sites.Get";
   R_ "PATCH" "/v1/sites/{site_id}" PermSitesWrite "sites.Update";
   R_ "DELETE" "/v1/sites/{site_id}" PermSitesWrite "sites.Delete";
   R_ "GET" "/v1/sites/{site_id}/devices" PermSitesRead "sites.ListDevices";
   R_ "POST" "/v1/sites/{site_id}/devices" PermSitesWrite "sites.AddDevices";
   R_ "DELETE" "/v1/sites/{site_id}/devices/{device_id}" PermSitesWrite "sites.RemoveDevice";
   R_ "GET" "/v1/signing-keys" PermSigningKeysRead "sigKeys.List";
   R_ "POST" "/v1/signing-keys" PermSigningKeysWrite "sigKeys.Create";
   R_ "DELETE" "/v1/signing-keys/{key_id}" PermSigningKeysWrite "sigKeys.Delete";
   R_ "GET" "/v1/files" PermFilesRead "filesAPI.ListFiles";
   R_ "POST" "/v1/files" PermFilesWrite "filesAPI.InitiateUpload";
   R_ "GET" "/v1/files/{file_id}" PermFilesRead "filesAPI.GetFile";
   R_ "DELETE" "/v1/files/{file_id}" PermFilesWrite "filesAPI.DeleteFile";
   R_ "PUT" "/v1/files/uploads/{upload_id}/chunks/{chunk_index}" PermFilesWrite "filesAPI.UploadChunk";
   R_ "GET" "/v1/files/uploads/{upload_id}" PermFilesRead "filesAPI.UploadStatus";
   R_ "POST" "/v1/files/uploads/{upload_id}/complete" PermFilesWrite "filesAPI.CompleteUpload";
   R_ "GET" "/v1/agent-versions" PermAgentVersionsRead "agentVer.List";
   R_ "POST" "/v1/agent-versions" PermAgentVersionsWrite "agentVer.Create";
   R_ "GET" "/v1/agent-versions/{version}" PermAgentVersionsRead "agentVer.Get";
   R_ "POST" "/v1/agent-versions/{version}/yank" PermAgentVersionsWrite "agentVer.Yank";
   R_ "GET" "/v1/agent-versions/{version}/rollout" PermAgentVersionsRead "rollouts.GetStatus";
   R_ "POST" "/v1/agent-versions/{version}/rollout/pause" PermAgentVersionsWrite "rollouts.Pause";
   R_ "POST" "/v1/agent-versions/{version}/rollout/resume" PermAgentVersionsWrite "rollouts.Resume";
   R_ "POST" "/v1/agent-versions/{version}/rollout/abort" PermAgentVersionsWrite "rollouts.Abort";
   R_ "GET" "/v1/update-policies" PermUpdatePoliciesRead "upPolicies.List";
   R_ "POST" "/v1/update-policies" PermUpdatePoliciesWrite "upPolicies.Upsert";
   R_ "DELETE" "/v1/update-policies/{policy_id}" PermUpdatePoliciesWrite "upPolicies.Delete";
   R_ "POST" "/v1/devices/{device_id}/rollback" PermDevicesWrite "devRollback.Rollback";
   R_ "GET" "/v1/scheduled-jobs" PermScheduledJobsRead "schedJobs.List";
   R_ "POST" "/v1/scheduled-jobs" PermScheduledJobsWrite "schedJobs.Create";
   R_ "GET" "/v1/scheduled-jobs/{scheduled_job_id}" PermScheduledJobsRead "schedJobs.Get";
   R_ "PATCH" "/v1/scheduled-jobs/{scheduled_job_id}" PermScheduledJobsWrite "schedJobs.Update";
   R_ "DELETE" "/v1/scheduled-jobs/{scheduled_job_id}" PermScheduledJobsWrite "schedJobs.Delete";
   R_ "POST" "/v1/scheduled-jobs/{scheduled_job_id}/enable" PermScheduledJobsWrite "schedJobs.Enable";
   R_ "POST" "/v1/scheduled-jobs/{scheduled_job_id}/disable" PermScheduledJobsWrite "schedJobs.Disable";
   R_ "GET" "/v1/alert-rules" PermAlertsRead "alertRules.List";
   R_ "POST" "/v1/alert-rules" PermAlertsWrite "alertRules.Create";
   R_ "GET" "/v1/alert-rules/{rule_id}" PermAlertsRead "alertRules.Get";
   R_ "PATCH" "/v1/alert-rules/{rule_id}" PermAlertsWrite "alertRules.Update";
   R_ "DELETE" "/v1/alert-rules/{rule_id}" PermAlertsWrite "alertRules.Delete";
   R_ "POST" "/v1/alert-rules/{rule_id}/enable" PermAlertsWrite "alertRules.Enable";
   R_ "POST" "/v1/alert-rules/{rule_id}/disable" PermAlertsWrite "alertRules.Disable";
   R_ "GET" "/v1/audit-log" PermAuditLogRead "auditLogH.List";
   R_ "GET" "/v1/enrollment-tokens" PermEnrollmentTokenWrite "enrollTokens.List";
   R_ "POST" "/v1/enrollment-tokens" PermEnrollmentTokenWrite "enrollTokens.Create";
   R_ "DELETE" "/v1/enrollment-tokens/{token_id}" PermEnrollmentTokenWrite "enrollTokens.Delete";
   R_ "POST" "/v1/enrollment-tokens/{token_id}/install-command" PermEnrollmentTokenWrite "installCmd.GenerateInstallCommand";
   R_ "GET" "/v1/installers" PermInstallersRead "installersAPI.List";
   R_ "POST" "/v1/installers" PermInstallersWrite "installersAPI.Create"
  ].

(** ** Body limits *)

Definition MB : Z := 1024 * 1024.
Definition MaxBodyBytesGlobal : Z := 8 * MB.
Definition MaxBodyBytesJSON : Z := 1 * MB.
Definition MaxBodyBytesAgentInventory : Z := 4 * MB.
Definition MaxBodyBytesAgentLogs : Z := 4 * MB.
Definition MaxBodyBytesFileChunk : Z := 6 * MB.

(** [http.MaxBytesReader] around a body of [n] bytes: what a reader of the whole
    body gets, [None] an error. *)
Definition MaxBytes (limit : Z) (n : option Z) : option Z :=
  match n with Some b => if (b <=? limit)%Z then Some b else None | None => None end.

(** The limits of a route, the root's first. *)
Definition body_limits (pattern : string) : list Z :=
  if pattern =s "/v1/agents/renew" then [MaxBodyBytesGlobal; MaxBodyBytesJSON]
  else if pattern =s "/v1/agents/checkin" then [MaxBodyBytesGlobal; MaxBodyBytesAgentInventory]
  else if pattern =s "/v1/agents/jobs/{job_id}/acknowledge" then [MaxBodyBytesGlobal; MaxBodyBytesJSON]
  else if pattern =s "/v1/agents/jobs/{job_id}/result" then [MaxBodyBytesGlobal; MaxBodyBytesAgentInventory]
  else if pattern =s "/v1/agents/logs" then [MaxBodyBytesGlobal; MaxBodyBytesAgentLogs]
  else if pattern =s "/v1/files/uploads/{upload_id}/chunks/{chunk_index}" then [MaxBodyBytesGlobal; MaxBodyBytesFileChunk]
  else [MaxBodyBytesGlobal].

Definition read_body (pattern : string) (n : Z) : option Z := foldl (fun b l => MaxBytes l b) (Some n) (body_limits pattern).
