(* ===== verification/Server.v ===== *)
(** * The server's processes

    [runServer] and [doMigrate] ([server/cmd/api/main.go]), [run]
    ([server/cmd/scheduler/main.go]), [NewOIDCMiddleware] ([server/auth/oidc.go]),
    [NewAgentTLSConfig] ([server/auth/mtls.go]), [store.New] and the health probes
    ([server/health/health.go]): from the environment to the parts that the other
    files model.

    The database, the OIDC issuer and the storage directory are what the calls to
    them answer. *)

From stdpp Require Import relations.
From S2P Require Import Prelude Text Platform Float64 Prog Models JobState Database Scope Quota JobSteps JobsApi Enrollment AgentAuth Update Credentials Pki RateLimit RateSpecs Config Notify Gateway.

(** What the world answers while a process starts. *)
Record World_ := {
  wo_parse_url : string -> bool;                    (* pgxpool.ParseConfig *)
  wo_database : string -> bool;                     (* NewWithConfig and Ping *)
  wo_storage : string -> bool;                      (* NewLocalBackend *)
  wo_discover : string -> string -> option Verifier; (* oidc.NewProvider and Verifier: issuer, client *)
  wo_signer : CA -> X509;                           (* the signing functions with a CA's certificate and key *)
}.

Inductive StartError :=
| BadConfig (e : ConfigError) | DatabaseURLInvalid | DatabaseDown | CANotLoaded | StorageFailed | OIDCFailed.

(** [store.New]; [None] is a nil error. *)
Definition store_New (w : World_) (url : string) : option StartError :=
  if negb (wo_parse_url w url) then Some DatabaseURLInvalid
  else if negb (wo_database w url) then Some DatabaseDown else None.

(** [inl None]: single sign-on is off. *)
Definition NewOIDCMiddleware (w : World_) (c : ServerConfig) : option Verifier + StartError :=
  if (OIDCIssuerURL c =s "") || (OIDCClientID c =s "") then inl None
  else match wo_discover w (OIDCIssuerURL c) (OIDCClientID c) with
       | Some v => inl (Some v)
       | None => inr OIDCFailed
       end.

(** [NewAgentTLSConfig]: client certificates under the CA, asked for and checked
    when one is given. *)
Record AgentTLS := { tls_client_ca : ParsedCert; tls_required : bool }.
Definition NewAgentTLSConfig (ca : CA) : AgentTLS := {| tls_client_ca := ca_cert ca; tls_required := false |}.

(** A server that listens. *)
Record ApiServer := {
  as_router : RouterConfig;
  as_limiters : option Limiters;
  as_quota : Resolver;
  as_storage : Backend;
  as_proxies : string;
  as_tls : option AgentTLS;
  as_port : Z;
}.

Section Processes.
Context {R : Type} (ll : CertLib) (w : World_) (getenv : string -> string).

Definition runServer : prog FS R (ApiServer + StartError) :=
  match Load getenv ProcessAPI with
  | inr e => mret (inr (BadConfig e))
  | inl cfg =>
      match store_New w (DatabaseURL cfg) with
      | Some e => mret (inr e)
      | None =>
          ca ← LoadCA ll (SrvCACertPath cfg) (SrvCAKeyPath cfg);
          match ca with
          | None => mret (inr CANotLoaded)
          | Some ca =>
              if negb (wo_storage w (StoragePath cfg)) then mret (inr StorageFailed)
              else
                match NewOIDCMiddleware w cfg with
                | inr e => mret (inr e)
                | inl oidc => mret (inl {|
                    as_router := {| rc_x509 := wo_signer w ca; rc_oidc := oidc |};
                    as_limiters := limiters cfg;
                    as_quota := quotaResolver cfg;
                    as_storage := fileStorage cfg;
                    as_proxies := TrustedProxyCIDRs cfg;
                    as_tls := if TLSMode cfg =s "direct" then Some (NewAgentTLSConfig ca) else None;
                    as_port := HTTPPort cfg |})
                end
          end
      end
  end.

(** The scheduler's process, up to its election (file [Leader]). *)
Definition run_scheduler : (SchedulerTimes * option SMTPConfig) + StartError :=
  match Load getenv ProcessScheduler with
  | inr e => inr (BadConfig e)
  | inl cfg =>
      match store_New w (DatabaseURL cfg) with
      | Some e => inr e
      | None => inl (NewScheduler cfg, smtpCfg cfg)
      end
  end.
End Processes.

(** [doMigrate]: [migrate.Run] (file [Migrate]) on the database of the
    configuration. *)
Definition doMigrate {S R A : Type} (w : World_) (getenv : string -> string) (migrate : prog S R A) : prog S R (A + StartError) :=
  match Load getenv ProcessAPI with
  | inr e => mret (inr (BadConfig e))
  | inl cfg =>
      if negb (wo_parse_url w (DatabaseURL cfg)) then mret (inr DatabaseURLInvalid)
      else a ← migrate; mret (inl a)
  end.

(** ** server/health/health.go *)

Definition Liveness : Z * list (string * string) := (200%Z, [("status", "ok")]).

(** [checks] is in the order of the slice, each with what its Ping returns: [None]
    is a nil error. *)
Definition Readiness (checks : list (string * option string)) : Z * list (string * string) :=
  let result := (fun c : string * option string => (c.1, default "ok" c.2)) <$> checks in
  let allOK := forallb (fun c : string * option string => bool_decide (c.2 = None)) checks in
  (if allOK then 200%Z else 503%Z, result).

(** ** Lemmas *)

(** The settings that a deployment leaves alone. *)
Definition untouched_settings (getenv : string -> string) : Prop :=
  Forall (fun v => getenv v = "") ["LOG_LEVEL"; "LOG_FORMAT"; "TENANT_MODE"; "TLS_MODE"; "STORAGE_BACKEND"; "STORAGE_PATH";
                                   "OIDC_ISSUER_URL"; "OIDC_CLIENT_ID"; "HTTP_PORT"].

(** A minimal environment is enough. *)
Lemma minimal_config getenv :
  untouched_settings getenv -> getenv "DATABASE_URL" <> "" -> getenv "CA_CERT_PATH" <> "" -> getenv "CA_KEY_PATH" <> "" ->
  Load getenv ProcessAPI = inl (read_config getenv).
Proof.
  unfold untouched_settings. rewrite !Forall_cons. intros (H1 & H2 & H3 & H4 & H5 & H6 & _) Hdb Hcert Hkey.
  assert (verdict ProcessAPI (read_config getenv) = None) as Hv.
  { unfold verdict, choices, required, read_config, unset, bad_choice, envOrDefault.
    cbn [LogLevel LogFormat TenantMode TLSMode StorageBackend StoragePath DatabaseURL SrvCACertPath SrvCAKeyPath].
    rewrite H1, H2, H3, H4, H5, H6, !seqb_refl. cbn. by rewrite !decide_False. }
  unfold Load. by rewrite validate_verdict, Hv.
Qed.

Lemma Readiness_spec checks : (Readiness checks).1 = 200%Z <-> Forall (fun c => c.2 = None) checks.
Proof.
  unfold Readiness. cbn [fst]. split.
  - case_match eqn:E; [|done]. intros _. apply Forall_forall. intros c Hc. rewrite forallb_forall in E.
    specialize (E c (proj1 (list_elem_of_In _ _) Hc)). by apply bool_decide_eq_true in E.
  - intros H. rewrite (proj2 (forallb_forall _ _)); [done|]. intros c Hc%list_elem_of_In. rewrite Forall_forall in H.
    apply bool_decide_eq_true. by apply H.
Qed.

Lemma Clean_nonempty s : Clean s <> "".
Proof. unfold Clean. cbv zeta. destruct (is_rooted s); [done|]. case_match eqn:E; [done|]. by apply seqb_neq in E. Qed.

Lemma Join_nonempty dir name : name <> "" -> Join [dir; name] <> "".
Proof.
  intros Hn. unfold Join. rewrite !filter_cons, filter_nil, (decide_True (P := name <> "")) by done. case_decide; apply Clean_nonempty.
Qed.

(** ** Theorem *)

(** C34: A first deployment comes up: after [generate-ca], an environment that names the
    database and the two intermediate files, with every other choice left to its
    default, starts the API server, without single sign-on and without TLS of its
    own, on port 8080.  It signs with the intermediate CA that generate-ca made,
    the certificate and key in the two intermediate files, whose certificate the
    root in the two root files signed. *)
Theorem fresh_server_starts {R : Type} ll `{!CertLaws ll} w getenv outDir order fs env env' :
  (forall n, ok_env (env n)) -> (forall n, ok_env (env' n)) -> (forall files, order files ≡ₚ files) ->
  NoDup (ca_files outDir ("", "") ("", "")).*1 -> untouched_settings getenv -> getenv "DATABASE_URL" <> "" ->
  getenv "CA_CERT_PATH" = Join [outDir; "intermediate-ca.crt"] -> getenv "CA_KEY_PATH" = Join [outDir; "intermediate-ca.key"] ->
  store_New w (getenv "DATABASE_URL") = None -> wo_storage w "/tmp/moebius-storage" = true ->
  let fs' := run_store (runGenerateCA (R := R) ll outDir order) env fs in
  exists rp root ip ca srv,
    generated ll (envs env) "Moebius Root CA" true None rp root /\
    generated ll (envs env) "Moebius Intermediate CA" false (Some root) ip ca /\
    fs_files fs' !! Join [outDir; "root-ca.crt"] = Some rp.1 /\ fs_files fs' !! Join [outDir; "root-ca.key"] = Some rp.2 /\
    fs_files fs' !! Join [outDir; "intermediate-ca.crt"] = Some ip.1 /\ fs_files fs' !! Join [outDir; "intermediate-ca.key"] = Some ip.2 /\
    run_result (runServer (R := R) ll w getenv) env' fs' = inr (inl srv) /\
    as_router srv = {| rc_x509 := wo_signer w ca; rc_oidc := None |} /\
    as_storage srv = LocalBackend "/tmp/moebius-storage" /\ as_tls srv = None /\ as_port srv = 8080%Z.
Proof.
  intros Henv Henv' Hord Hnd Hset Hdb Hcert Hkey Hstore Hst. cbv zeta.
  destruct (generate_ca_result (R := R) ll outDir order fs env Henv Hord Hnd) as (_ & rp & root & ip & ca & Hroot & Hca & Hw).
  pose proof Hca as (Hp & _).
  assert (run_result (LoadCA (R := R) ll (getenv "CA_CERT_PATH") (getenv "CA_KEY_PATH")) env'
    (run_store (runGenerateCA (R := R) ll outDir order) env fs) = inr (Some ca)) as Hload.
  { rewrite Hcert, Hkey. apply (LoadCA_result ll _ _ ip.1 ip.2); [done|apply Hw; unfold ca_files; set_solver..|done]. }
  pose proof Hset as Hset'. unfold untouched_settings in Hset'. rewrite !Forall_cons in Hset'. destruct Hset' as (_ & _ & _ & H4 & _ & H6 & H7 & H8 & H9 & _).
  assert (StoragePath (read_config getenv) = "/tmp/moebius-storage") as Hpath by (simpl; unfold envOrDefault; by rewrite H6, seqb_refl).
  assert (NewOIDCMiddleware w (read_config getenv) = inl None) as Hoidc by (unfold NewOIDCMiddleware; simpl; by rewrite H7, seqb_refl).
  unfold run_result, runServer in *. rewrite minimal_config by (done || (rewrite ?Hcert, ?Hkey; by apply Join_nonempty)).
  change (DatabaseURL (read_config getenv)) with (getenv "DATABASE_URL"). rewrite Hstore, run_bind.
  change (SrvCACertPath (read_config getenv)) with (getenv "CA_CERT_PATH"). change (SrvCAKeyPath (read_config getenv)) with (getenv "CA_KEY_PATH").
  destruct (run (LoadCA ll _ _) env' 0 _) as [[fs2 n2] r2]. simpl in Hload. subst r2. rewrite Hpath, Hst, Hoidc. cbn [negb].
  exists rp, root, ip, ca. eexists. split; [done|]. split; [done|].
  do 4 (split; [apply Hw; unfold ca_files; set_solver|]).
  split; [reflexivity|]. cbn [as_router as_storage as_tls as_port]. split; [done|].
  split; [unfold fileStorage; by rewrite Hpath|]. simpl. unfold envOrDefault, envIntOrDefault. by rewrite H4, H9, seqb_refl.
Qed.
