(* ===== verification/Router.v ===== *)
(** * The front of the server

    [NewRouter] of [server/api/router.go]: the middleware every request passes, the
    routes that need no credentials, the routes of agents behind the
    client-certificate middleware, and the routes under /v1 behind the chain of
    file [Gateway].  Matching a path to its route is the router library's, so a
    request comes with its endpoint. *)

From S2P Require Import Prelude Text Prog Models JobState Database Scope Quota Enrollment AgentAuth Identity Float64 RateLimit Gateway.

Local Open Scope nat_scope.

(** ** State and configuration *)

(** The database and the limiters; a nil limiter is [None]. *)
Record Front := {
  fr_db : DB;
  fr_ip : option KeyedLimiter;
  fr_tenant : option KeyedLimiter;
  fr_agent : option KeyedLimiter;
}.
Definition put_front_db (db : DB) (s : Front) : Front :=
  {| fr_db := db; fr_ip := fr_ip s; fr_tenant := fr_tenant s; fr_agent := fr_agent s |}.
Definition gate_of (s : Front) : GStore := {| g_db := fr_db s; g_limiter := fr_tenant s |}.
Definition put_gate (g : GStore) (s : Front) : Front :=
  {| fr_db := g_db g; fr_ip := fr_ip s; fr_tenant := g_limiter g; fr_agent := fr_agent s |}.
Definition put_ip (l : option KeyedLimiter) (s : Front) : Front :=
  {| fr_db := fr_db s; fr_ip := l; fr_tenant := fr_tenant s; fr_agent := fr_agent s |}.
Definition put_agent (l : option KeyedLimiter) (s : Front) : Front :=
  {| fr_db := fr_db s; fr_ip := fr_ip s; fr_tenant := fr_tenant s; fr_agent := l |}.

Notation FrontProg := (prog Front Response).
Definition front_db {A : Type} (p : Handler A) : FrontProg A := zoom fr_db put_front_db p.
Definition front_gate {A : Type} (p : GProg A) : FrontProg A := zoom gate_of put_gate p.

Record FrontConfig := {
  fc_router : RouterConfig;
  fc_net : NetLib;
  fc_headers : HeaderLib;
  fc_ca : bool;                       (* cfg.CA != nil: the pool of the middleware *)
  TrustedProxyCIDRs : string;
}.

(** What the middleware reads of a request. *)
Record HttpRequest := {
  hr_remote : string;                 (* RemoteAddr *)
  hr_agent : AgentRequest;            (* the certificates of the connection and X-Client-Cert *)
  hr_authorization : string;
}.

(** ** Middleware *)

(** A limiter in front of [next], when there is one. *)
Definition limited (get : Front -> option KeyedLimiter) (put : option KeyedLimiter -> Front -> Front)
    (middleware : KeyedLimiter -> Z -> KeyedLimiter * Verdict) : FrontProg unit :=
  verdict ← PStep (fun e s =>
    match get s with
    | None => (s, Pass)
    | Some kl => let '(kl', v) := middleware kl (e_now e) in (put (Some kl') s, v)
    end) PRet;
  match verdict with
  | Pass => mret tt
  | Reject429 secs => stop (rejectRateLimited secs)
  end.

(** The sanitizer that is registered: none for an empty or an unreadable list. *)
Definition sanitizer (cfg : FrontConfig) : option (list (Network (fc_net cfg))) :=
  if TrustedProxyCIDRs cfg =s "" then None else NewProxyCertSanitizer (fc_net cfg) (TrustedProxyCIDRs cfg).

Definition sanitized (cfg : FrontConfig) (r : HttpRequest) : AgentRequest :=
  match sanitizer cfg with
  | None => hr_agent r
  | Some trusted => Sanitize (fc_net cfg) trusted (hr_remote r) (hr_agent r)
  end.

(** ** Routes *)

(** An endpoint, with its handler; [checkin]: the route of the check-in, which has
    a limiter of its own. *)
Inductive Endpoint :=
| Public (handler : Handler unit)
| AgentRoute (checkin : bool) (handler : Ctx -> Handler unit)
| UserRoute (permission : string) (handler : Ctx -> Handler unit).

Definition agent_chain (cfg : FrontConfig) (r : AgentRequest) (checkin : bool) (handler : Ctx -> Handler unit) : FrontProg unit :=
  ctx ← front_db (MTLS (fc_headers cfg) (fc_ca cfg) mret no_ctx r);
  _ ← front_gate (tenant_limit (ctx_tenant ctx));
  _ ← (if checkin then limited fr_agent put_agent (fun kl => PerAgentMiddleware kl (ctx_agent ctx)) else mret tt);
  front_db (handler ctx).

Definition NewRouter (cfg : FrontConfig) (ep : Endpoint) (r : HttpRequest) : FrontProg unit :=
  _ ← limited fr_ip put_ip (fun kl => PerIPMiddleware kl (hr_remote r));
  match ep with
  | Public handler => front_db handler
  | AgentRoute checkin handler => agent_chain cfg (sanitized cfg r) checkin handler
  | UserRoute permission handler => front_gate (v1_chain (fc_router cfg) (hr_authorization r) permission handler)
  end.

(** Method, pattern and handler of the routes outside the group of users. *)
Definition public_routes : list (string * string * string) :=
  [("GET", "/health", "Health.Liveness");
   ("GET", "/health/ready", "Health.Readiness");
   ("*", "/metrics", "promhttp.Handler");
   ("POST", "/v1/agents/enroll", "enrollHandler.ServeHTTP");
   ("GET", "/v1/install/{os}/{arch}", "installScript.ServeInstallScript");
   ("GET", "/v1/installers/{os}/{arch}/latest", "installersDownload.DownloadLatest");
   ("GET", "/v1/installers/{os}/{arch}/{version}", "installersDownload.Download");
   ("GET", "/v1/installers/{os}/{arch}/{version}/checksum", "installersDownload.Checksum");
   ("GET", "/v1/installers/{os}/{arch}/{version}/signature", "installersDownload.Signature");
   ("GET", "/v1/files/data/{file_id}", "localFilesH.ServeFileData")].

Definition agent_routes : list (string * string * string) :=
  [("POST", "/v1/agents/renew", "renewHandler.ServeHTTP");
   ("POST", "/v1/agents/checkin", "checkinHandler.ServeHTTP");
   ("POST", "/v1/agents/jobs/{job_id}/acknowledge", "agentJobs.Acknowledge");
   ("POST", "/v1/agents/jobs/{job_id}/result", "agentJobs.SubmitResult");
   ("POST", "/v1/agents/logs", "logsHandler.Ingest");
   ("GET", "/v1/agents/files/{file_id}/download", "filesH.Download");
   ("GET", "/v1/agents/signing-keys/{key_id}", "agentSigKeys.Get")].

(** ** Lemmas *)

Lemma front_db_run {A : Type} (p : Handler A) env n s :
  run (front_db p) env n s
  = (put_front_db (run p env n (fr_db s)).1.1 s, (run p env n (fr_db s)).1.2, (run p env n (fr_db s)).2).
Proof. apply run_zoom; [by intros []|done|done]. Qed.

Lemma front_gate_run {A : Type} (p : GProg A) env n s :
  run (front_gate p) env n s
  = (put_gate (run p env n (gate_of s)).1.1 s, (run p env n (gate_of s)).1.2, (run p env n (gate_of s)).2).
Proof. apply run_zoom; [by intros []|by intros []|done]. Qed.

(** A limiter changes no table, and lets pass or answers 429. *)
Lemma limited_run get put mw env n s : (forall l s, fr_db (put l s) = fr_db s) ->
  exists s', fr_db s' = fr_db s /\
    (run (limited get put mw) env n s = (s', S n, inr tt) \/
     exists r, run (limited get put mw) env n s = (s', S n, inl r) /\ resp_status r = 429%Z).
Proof.
  intros Hput. unfold limited. rewrite run_bind. cbn [run fst snd].
  destruct (get s) as [kl|]; [|exists s; auto].
  destruct (mw kl (e_now (env n))) as [kl' [|secs]]; exists (put (Some kl') s); (split; [apply Hput|]); cbn; eauto.
Qed.

Lemma tenant_limit_run T env n g :
  exists g', g_db g' = g_db g /\
    (run (tenant_limit T) env n g = (g', S n, inr tt) \/
     exists r, run (tenant_limit T) env n g = (g', S n, inl r) /\ resp_status r = 429%Z).
Proof.
  unfold tenant_limit. rewrite run_bind. cbn [run fst snd]. destruct (g_limiter g) as [kl|]; [|exists g; auto].
  destruct (PerTenantMiddleware kl T (e_now (env n))) as [kl' [|secs]]; eexists {| g_db := g_db g; g_limiter := Some kl' |}; cbn; eauto.
Qed.

Lemma limited_none get put mw env n s : get s = None -> run (limited get put mw) env n s = (s, S n, inr tt).
Proof. intros Hg. unfold limited. rewrite run_bind. cbn [run fst snd]. by rewrite Hg. Qed.

Lemma tenant_limit_none T env n g : g_limiter g = None -> run (tenant_limit T) env n g = (g, S n, inr tt).
Proof. intros Hg. unfold tenant_limit. rewrite run_bind. cbn [run fst snd]. by rewrite Hg. Qed.

(** After authentication: a limiter answers, or the handler runs on the tables as
    they were. *)
Lemma after_auth_run ctx (checkin : bool) (handler : Ctx -> Handler unit) env n s :
  let out := run (_ ← front_gate (tenant_limit (ctx_tenant ctx));
                  _ ← (if checkin then limited fr_agent put_agent (fun kl => PerAgentMiddleware kl (ctx_agent ctx)) else mret tt);
                  front_db (handler ctx)) env n s in
  (exists resp, out.2 = inl resp /\ resp_status resp = 429%Z /\ fr_db out.1.1 = fr_db s) \/
  (exists m, let ran := run (handler ctx) env m (fr_db s) in out.2 = ran.2 /\ fr_db out.1.1 = ran.1.1).
Proof.
  cbv zeta. rewrite run_bind, front_gate_run.
  destruct (tenant_limit_run (ctx_tenant ctx) env n (gate_of s)) as (g & Hg & [->|(resp & -> & Hr)]);
    [|left; by exists resp].
  cbn [fst snd]. cbn [gate_of g_db] in Hg. rewrite run_bind.
  destruct checkin.
  - destruct (limited_run fr_agent put_agent (fun kl => PerAgentMiddleware kl (ctx_agent ctx)) env (S n) (put_gate g s))
      as (s2 & Hs2 & [->|(resp & -> & Hr)]); [done| |left; exists resp; cbn in *; split_and!; congruence].
    cbn [fst snd]. right. exists (S (S n)). rewrite front_db_run, Hs2. cbn [put_gate fr_db]. by rewrite Hg.
  - cbn [run mret prog_ret fst snd]. right. exists (S n). rewrite front_db_run. cbn [put_gate fr_db fst snd]. by rewrite Hg.
Qed.

(** Where an accepted certificate comes from: the connection, or a header that a
    trusted proxy sent, or that no sanitizer looked at. *)
Definition cert_from (cfg : FrontConfig) (r : HttpRequest) (cert : PeerCert) : Prop :=
  head (ar_peer_certs (hr_agent r)) = Some cert \/
  ar_peer_certs (hr_agent r) = [] /\ fc_ca cfg = true /\
  certFromHeader (fc_headers cfg) (ar_client_cert_header (hr_agent r)) = Some (Some cert) /\
  forall trusted, sanitizer cfg = Some trusted -> isTrusted (fc_net cfg) trusted (hr_remote r) = true.

Lemma client_cert_from cfg r cert :
  client_cert (fc_headers cfg) (fc_ca cfg) (sanitized cfg r) = Some cert -> cert_from cfg r cert.
Proof.
  unfold client_cert, sanitized, cert_from. destruct (hr_agent r) as [certs hdr].
  assert (forall h, match certs with
    | c :: _ => Some c
    | [] => if fc_ca cfg then match certFromHeader (fc_headers cfg) h with Some c => c | None => None end else None
    end = Some cert -> head certs = Some cert \/ certs = [] /\ fc_ca cfg = true /\ certFromHeader (fc_headers cfg) h = Some (Some cert)) as Hc.
  { intros h. destruct certs as [|c l]; [|by left]. destruct (fc_ca cfg); [|done].
    destruct (certFromHeader _ h); [|done]. intros ->. by right. }
  destruct (sanitizer cfg) as [trusted|] eqn:Es; cbn [ar_peer_certs ar_client_cert_header].
  - unfold Sanitize. cbn [ar_peer_certs ar_client_cert_header]. destruct (hdr =s "") eqn:Eh; cbn [negb andb].
    { intros [?|(? & ? & Hh)]%Hc; [by left|]. cbn [ar_client_cert_header] in Hh. unfold certFromHeader in Hh. by rewrite Eh in Hh. }
    destruct (isTrusted _ trusted _) eqn:Et; cbn [negb ar_peer_certs ar_client_cert_header].
    + intros [?|(? & ? & ?)]%Hc; [by left|]. right. split_and!; [done..|]. by intros ? [= <-].
    + intros [?|(? & ? & ?)]%Hc; [by left|done].
  - intros [?|(? & ? & ?)]%Hc; [by left|by right].
Qed.

(** ** Properties *)

(** No route of agents or without credentials is also a route of users, and none
    is registered twice: what serves a method and a path is one endpoint. *)
Theorem routes_apart :
  let all := map fst (public_routes ++ agent_routes) ++ map (fun r => (rt_method r, rt_pattern r)) v1_routes in
  NoDup all.
Proof. vm_compute. apply (bool_decide_unpack _). by vm_compute. Qed.

(** C23: A request to a route of agents, whatever its headers, its address and its
    certificate are and whatever fails: it is answered with an error and changes no
    table, or its handler runs as a device that is not revoked, in the device's
    tenant, for a current and recorded certificate that is not revoked and that
    came with the connection or in the header of a trusted proxy, provided the
    list of proxies could be read. *)
Theorem agent_gate_sound cfg checkin handler r env s :
  let out := run (NewRouter cfg (AgentRoute checkin handler) r) env 0 s in
  (exists resp, out.2 = inl resp /\ (401 <= resp_status resp)%Z /\ fr_db out.1.1 = fr_db s) \/
  (exists cert d id c now n,
     cert_from cfg r cert /\ (pc_not_before cert <= now <= pc_not_after cert)%Z /\
     devices (fr_db s) !! pc_common_name cert = Some d /\ dev_status d <> "revoked" /\
     live (pc_common_name cert) (fr_db s) id c /\ crt_serial_number c = pc_serial cert /\
     let ran := run (handler (as_agent no_ctx (pc_common_name cert) (dev_tenant d))) env n (fr_db s) in
     out.2 = ran.2 /\ fr_db out.1.1 = ran.1.1).
Proof.
  cbv zeta. unfold NewRouter. rewrite run_bind.
  destruct (limited_run fr_ip put_ip (fun kl => PerIPMiddleware kl (hr_remote r)) env 0 s) as (s1 & Hs1 & [->|(resp & -> & Hr)]);
    [done| |left; exists resp; cbn; split_and!; [done|lia|done]].
  cbn [fst snd]. unfold agent_chain. rewrite run_bind, front_db_run, Hs1.
  destruct (MTLS_cases (fc_headers cfg) (fc_ca cfg) mret env 1 no_ctx (sanitized cfg r) (fr_db s))
    as [(resp & -> & Hr)|(cert & d & id & c & now & Hcert & Hnow & Hd & Hst & Hl & Hser & ->)]; [left; by exists resp|].
  cbn [fst snd run mret prog_ret].
  destruct (after_auth_run (as_agent no_ctx (pc_common_name cert) (dev_tenant d)) checkin handler env 3 (put_front_db (fr_db s) s1))
    as [(resp & Hr & Hst' & Hdb)|(m & Hres & Hdb)].
  - left. exists resp. split_and!; [done|lia|done].
  - right. exists cert, d, id, c, now, m. split_and!; try done; [by apply client_cert_from|lia|lia].
Qed.

(** A list of trusted proxies that cannot be read, one mistyped network in it
    being enough, registers no sanitizer, and then the header counts from any
    address: who sends the certificate of a device, which is no secret, is let
    through as that device without its key. *)
Theorem unreadable_proxies_fail_open cfg checkin handler r env s id cert T :
  NewProxyCertSanitizer (fc_net cfg) (TrustedProxyCIDRs cfg) = None -> fc_ca cfg = true ->
  fr_ip s = None -> fr_tenant s = None -> fr_agent s = None ->
  ar_peer_certs (hr_agent r) = [] ->
  certFromHeader (fc_headers cfg) (ar_client_cert_header (hr_agent r)) = Some (Some cert) ->
  valid_identity id cert T (fr_db s) ->
  (pc_not_before cert <= e_now (env 1%nat) <= pc_not_after cert)%Z -> e_fault (env 2) = false ->
  exists n, (run (NewRouter cfg (AgentRoute checkin handler) r) env 0 s).2
            = (run (handler (as_agent no_ctx id T)) env n (fr_db s)).2.
Proof.
  intros Hs Hca Hi Ht Ha Hp Hh Hv Hnow Hf.
  assert (sanitized cfg r = hr_agent r) as Hr by (unfold sanitized, sanitizer; rewrite Hs; by destruct (_ =s _)).
  unfold NewRouter. rewrite run_bind, limited_none by done. cbn [fst snd]. unfold agent_chain. rewrite run_bind, front_db_run, Hr.
  rewrite (MTLS_passes _ _ mret env 1 no_ctx (hr_agent r) (fr_db s) id cert T Hv); [|unfold client_cert; by rewrite Hp, Hca, Hh|done|done].
  cbn [run mret prog_ret fst snd]. rewrite run_bind, front_gate_run, tenant_limit_none by done. cbn [fst snd]. rewrite run_bind.
  destruct checkin.
  - rewrite limited_none by done. cbn [fst snd]. rewrite front_db_run. by eexists.
  - cbn [run mret prog_ret fst snd]. rewrite front_db_run. by eexists.
Qed.
