(* ===== verification/GatewaySpecs.v ===== *)
(** * Theorems on the gate of the user API

    A handler under /v1 runs only for an identified caller who has the permission
    of its route, and a viewer changes nothing. *)

From stdpp Require Import relations.
From Stdlib Require Import QArith.
From S2P Require Import Prelude Prog Models JobState Database Scope Quota Enrollment Identity Float64 RateLimit RateSpecs Gateway.

Local Close Scope Q_scope.
Local Open Scope nat_scope.

(** ** Who a request is *)

Definition by_key (cfg : RouterConfig) (authorization : string) (env : nat -> Env) (db : DB) (ctx : Ctx) : Prop :=
  exists id k, api_keys db !! id = Some k /\ key_hash k = hashAPIKey (rc_x509 cfg) (extractBearerToken authorization) /\
    (forall exp, key_expires_at k = Some exp -> exists n, (e_now (env n) <= exp)%Z) /\
    ctx = as_key k (role_perms (key_role k) db) no_ctx.

Definition by_sso (cfg : RouterConfig) (authorization : string) (db : DB) (ctx : Ctx) : Prop :=
  exists verify subject id u role, rc_oidc cfg = Some verify /\
    verify (extractBearerToken authorization) = Some (Some subject) /\
    users db !! id = Some u /\ usr_sso_subject u = Some subject /\ usr_role u = Some role /\
    ctx = as_user id u (role_perms role db) no_ctx.

Definition identified (cfg : RouterConfig) (authorization : string) (env : nat -> Env) (db : DB) (ctx : Ctx) : Prop :=
  ctx_tenant ctx <> "" /\ (by_key cfg authorization env db ctx \/ by_sso cfg authorization db ctx).

Lemma find_sso_Some subject db id u : find_sso subject db = Some (id, u) ->
  users db !! id = Some u /\ usr_sso_subject u = Some subject.
Proof.
  unfold find_sso. intros Hh. apply head_Some_elem_of, elem_of_select_where in Hh as [Hu Hp]. by reflect_bools.
Qed.

(** The one thing a request changes before its handler: the time of last use of the
    key it came with. *)
Definition gate_effect (cfg : RouterConfig) (authorization : string) (db db' : DB) : Prop :=
  db' = db \/ exists id k now, api_keys db !! id = Some k /\
    key_hash k = hashAPIKey (rc_x509 cfg) (extractBearerToken authorization) /\ db' = use_recorded id now db.

Section Authenticate.
Context (cfg : RouterConfig) (authorization : string) (env : nat -> Env) (db : DB).

(** What authentication ends with. *)
Definition auth_end (r : Response + Ctx) (db' : DB) : Prop :=
  gate_effect cfg authorization db db' /\ match r with inl e => (401 <= resp_status e)%Z | inr ctx => identified cfg authorization env db ctx end.

Lemma key_rg ctx : ctx_tenant ctx = "" -> ctx_agent ctx = "" ->
  rg (envs env) (=) (fun _ _ => True) (APIKeyAuth (rc_x509 cfg) authorization (RequireTenant mret) ctx) auth_end db.
Proof.
  assert (gate_effect cfg authorization db db) as Hsame by by left.
  intros HT HA. unfold APIKeyAuth. rewrite HT. cbn [negb]. cbv beta iota zeta. change ("" =s "") with true. cbn [negb]. cbv beta iota.
  destruct (_ =s ""); [by apply rg_stop|]. do 2 rg_step; [intros _; by apply rg_stop|].
  destruct (find_key _ db) as [[[id k] perms]|] eqn:Hk; [|by apply rg_stop].
  apply find_key_Some in Hk as (Hk & Hh & ->).
  assert ((forall exp, key_expires_at k = Some exp -> exists n, (e_now (env n) <= exp)%Z) ->
    rg (envs env) (=) (fun _ _ => True)
      (_ ← record_use id; RequireTenant mret (as_key k (role_perms (key_role k) db) ctx)) auth_end db) as Hgo.
  { intros He.
    assert (forall db', gate_effect cfg authorization db db' ->
      rg (envs env) (=) (fun _ _ => True) (RequireTenant mret (as_key k (role_perms (key_role k) db) ctx)) auth_end db') as Hgo'.
    2: { unfold record_use. do 5 rg_step; [intros _; by apply Hgo'|]. split; [done|]. apply rg_mret, Hgo'. right. by eexists id, k, _. }
    intros db' Heff. unfold RequireTenant. destruct (_ =s "") eqn:Et; [by apply rg_stop|]. apply rg_mret. reflect_bools.
    split; [done|]. split; [done|]. left. exists id, k. split_and!; [done..|]. unfold as_key. by rewrite HA. }
  rg_step. destruct (key_expires_at k) as [exp|] eqn:Ee; [|rg_step; by apply Hgo].
  rg_step. intros ? e [n <-] <-. split; [done|]. cbn [fst snd]. apply rg_mret. rg_step.
  destruct (exp <? e_now (env n))%Z eqn:El; [by apply rg_stop|]. reflect_bools.
  apply Hgo. intros exp' [= <-]. by exists n.
Qed.

Lemma authenticate_rg : rg (envs env) (=) (fun _ _ => True) (authenticate cfg authorization) auth_end db.
Proof.
  assert (gate_effect cfg authorization db db) as Hsame by by left.
  unfold authenticate. destruct (rc_oidc cfg) as [verify|] eqn:Ev; [|by apply key_rg].
  unfold OIDCAuth. cbv zeta. destruct (_ || _); [by apply key_rg|].
  destruct (verify _) as [[subject|]|] eqn:Hv; [|by apply rg_stop..].
  do 2 rg_step; [intros _; by apply rg_stop|].
  destruct (find_sso subject db) as [[id u]|] eqn:Hf; cbn [fmap option_fmap option_map]; [|by apply rg_stop].
  apply find_sso_Some in Hf as [Hu Hs]. cbn [snd]. destruct (usr_role u) as [role|] eqn:Hr; [|by apply rg_stop]. cbn [default].
  destruct (usr_tenant u =s "") eqn:Et; reflect_bools; [by apply key_rg|].
  unfold APIKeyAuth, RequireTenant. cbn [ctx_tenant as_user]. apply seqb_neq in Et as Et'. rewrite Et'. cbn [negb].
  apply rg_mret. split; [done|]. split; [done|]. right. by exists verify, subject, id, u, role.
Qed.
End Authenticate.

(** ** The gate *)

(** The handler ran, as its caller, on the database as it was, the key's time of last
    use apart. *)
Definition handled (cfg : RouterConfig) (authorization permission : string) (handler : Ctx -> Handler unit)
    (env : nat -> Env) (s s' : GStore) (res : Response + unit) : Prop :=
  exists ctx n db1, identified cfg authorization env (g_db s) ctx /\
    (ctx_is_admin ctx = true \/ permission ∈ ctx_permissions ctx) /\
    gate_effect cfg authorization (g_db s) db1 /\
    g_db s' = (run (handler ctx) env n db1).1.1 /\ res = (run (handler ctx) env n db1).2.

Lemma hasPermission_true perms p : hasPermission perms p = true -> p ∈ perms.
Proof. apply str_in_elem. Qed.

Lemma in_db_run {A : Type} (p : Handler A) env n s :
  run (in_db p) env n s = (put_gdb (run p env n (g_db s)).1.1 s, (run p env n (g_db s)).1.2, (run p env n (g_db s)).2).
Proof. apply run_zoom; [by intros []|done|done]. Qed.

Lemma gate_cases cfg authorization permission handler env s :
  let out := run (v1_chain cfg authorization permission handler) env 0 s in
  (exists r, out.2 = inl r /\ (401 <= resp_status r)%Z /\ gate_effect cfg authorization (g_db s) (g_db out.1.1)) \/
  handled cfg authorization permission handler env s out.1.1 out.2.
Proof.
  unfold v1_chain. cbv zeta. rewrite run_bind, in_db_run.
  pose proof (rg_run (envs env) (fun _ _ => True) (authenticate cfg authorization) _ env 0 (g_db s) ltac:(by eexists)
    (authenticate_rg cfg authorization env (g_db s))) as [Hdb Hres].
  destruct (run (authenticate cfg authorization) env 0 (g_db s)) as [[db1 n1] res]. cbn [fst snd] in *.
  destruct res as [r|ctx]; [left; by exists r|].
  rewrite run_bind. unfold tenant_limit. rewrite run_bind. cbn [run fst snd].
  set (lim := match g_limiter (put_gdb db1 s) with Some _ => _ | None => _ end).
  assert (g_db lim.1 = db1) as Hlim by (unfold lim; simpl; destruct (g_limiter s); [by destruct (PerTenantMiddleware _ _ _)|done]).
  destruct lim.2 as [|secs]; [|left; eexists; split; [done|]; split; [done|]; simpl; by rewrite Hlim].
  cbn [run mret prog_ret fst snd]. rewrite in_db_run, Hlim. cbn [fst snd g_db put_gdb].
  unfold Require_. destruct (ctx_is_admin ctx) eqn:Ea.
  { right. exists ctx, (S n1), db1. auto. }
  destruct (hasPermission (ctx_permissions ctx) permission) eqn:Hp; cbn [negb]; [|left; by eexists].
  right. exists ctx, (S n1), db1. apply hasPermission_true in Hp. auto.
Qed.

(** C9: Whatever the middleware and the handler do in between, a request to a route
    under /v1 is answered with an error and changes nothing in the database but
    the time of last use of the key it came with, or its handler runs, on the
    database as it was with at most that time changed, for a caller who is
    identified by a stored and unexpired key or by a verified SSO token, belongs
    to a tenant, and is an admin key or has the permission of the route. *)
Theorem gate_sound cfg authorization permission handler env s :
  let out := run (v1_chain cfg authorization permission handler) env 0 s in
  (exists r, out.2 = inl r /\ (401 <= resp_status r)%Z /\ gate_effect cfg authorization (g_db s) (g_db out.1.1)) \/
  handled cfg authorization permission handler env s out.1.1 out.2.
Proof. apply gate_cases. Qed.

(** ** What the predefined roles reach *)

(** The routes that are not reads, and can be reached with a set of permissions. *)
Definition writable (perms : list string) : list Route :=
  filter (fun r => rt_method r <> "GET" /\ rt_permission r ∈ perms) v1_routes.

Definition is_read (p : string) : bool := String.substring (String.length p - 5) 5 p =s ":read".

(** No method and path is routed twice, every permission exists, a read needs a
    read permission (what concerns enrollment tokens apart), and nothing else is
    had with one. *)
Definition route_ok (r : Route) : bool :=
  str_in (rt_permission r) AllPermissions &&
  eqb (rt_method r =s "GET") (is_read (rt_permission r) ||
    (rt_permission r =s PermEnrollmentTokenWrite) && (rt_method r =s "GET")).

Lemma routes_ok : forallb route_ok v1_routes = true /\ NoDup ((fun r => (rt_method r, rt_pattern r)) <$> v1_routes).
Proof. split; [by vm_compute|]. apply (bool_decide_unpack _). by vm_compute. Qed.

Lemma viewer_writes : writable ViewerPermissions = [].
Proof. by vm_compute. Qed.

Lemma technician_writes : (fun r => (rt_method r, rt_pattern r)) <$> writable TechnicianPermissions =
  [("POST", "/v1/jobs"); ("POST", "/v1/jobs/{job_id}/cancel")].
Proof. by vm_compute. Qed.

Lemma writable_elem perms r : r ∈ v1_routes -> rt_method r <> "GET" -> rt_permission r ∈ perms -> r ∈ writable perms.
Proof. intros. by apply list_elem_of_filter. Qed.

(** What the read-only roles can do: when every identity the request can have is no
    admin and has at most the permissions of the predefined Viewer role, a request
    to a route under /v1 that is not a GET is refused and changes nothing but the
    key's time of last use; with those of the Technician role, only creating and cancelling jobs is let
    through. *)
Theorem readonly_roles cfg authorization env s route handler :
  route ∈ v1_routes -> rt_method route <> "GET" ->
  (forall ctx, identified cfg authorization env (g_db s) ctx ->
     ctx_is_admin ctx = false /\ ctx_permissions ctx ⊆ TechnicianPermissions) ->
  let out := run (v1_chain cfg authorization (rt_permission route) handler) env 0 s in
  ((forall ctx, identified cfg authorization env (g_db s) ctx -> ctx_permissions ctx ⊆ ViewerPermissions) \/
   (rt_method route, rt_pattern route) ∉ [("POST", "/v1/jobs"); ("POST", "/v1/jobs/{job_id}/cancel")]) ->
  exists r, out.2 = inl r /\ (401 <= resp_status r)%Z /\ gate_effect cfg authorization (g_db s) (g_db out.1.1).
Proof.
  intros Hr Hm Hid out Hcase. destruct (gate_cases cfg authorization (rt_permission route) handler env s) as [H|(ctx & n & db1 & Hi & Hp & _)]; [done|].
  exfalso. destruct (Hid ctx Hi) as [Ha Ht]. destruct Hp as [Hp|Hp]; [congruence|].
  destruct Hcase as [Hv|Hn].
  - assert (route ∈ writable ViewerPermissions) as Hw by (apply writable_elem; [done..|]; by apply (Hv ctx Hi)).
    rewrite viewer_writes in Hw. by apply elem_of_nil in Hw.
  - apply Hn. rewrite <-technician_writes. apply (list_elem_of_fmap_2 (fun r => (rt_method r, rt_pattern r))).
    apply writable_elem; auto.
Qed.
