(* ===== verification/Base64.v ===== *)
(** * Base64

    Go's [base64.StdEncoding] on byte strings: [EncodeToString], and [DecodeString],
    which skips line breaks, wants the padding and ignores the bits after the end. *)

From S2P Require Import Prelude.

Local Open Scope Z_scope.

Definition alphabet : string := "ABCDEFGHIJKLMNOPQRSTUVWXYZabcdefghijklmnopqrstuvwxyz0123456789+/".

Definition byte_of (c : Ascii.ascii) : Z := Z.of_N (Ascii.N_of_ascii c).
Definition ascii_of (z : Z) : Ascii.ascii := Ascii.ascii_of_N (Z.to_N z).

Definition sextet_char (d : Z) : Ascii.ascii := default (ascii_of 0) (String.get (Z.to_nat d) alphabet).

Fixpoint position (c : Ascii.ascii) (s : string) (i : Z) : option Z :=
  match s with
  | EmptyString => None
  | String d s' => if Ascii.eqb c d then Some i else position c s' (i + 1)
  end.

(** The value of a character, [None] outside the alphabet. *)
Definition sextet (c : Ascii.ascii) : option Z := position c alphabet 0.

Definition pad : Ascii.ascii := Ascii.ascii_of_nat 61.

Fixpoint EncodeToString (s : string) : string :=
  match s with
  | EmptyString => EmptyString
  | String a EmptyString =>
      let v := byte_of a * 65536 in
      String (sextet_char (v / 262144)) (String (sextet_char (v / 4096 mod 64)) (String pad (String pad "")))
  | String a (String b EmptyString) =>
      let v := byte_of a * 65536 + byte_of b * 256 in
      String (sextet_char (v / 262144)) (String (sextet_char (v / 4096 mod 64))
        (String (sextet_char (v / 64 mod 64)) (String pad "")))
  | String a (String b (String c rest)) =>
      let v := byte_of a * 65536 + byte_of b * 256 + byte_of c in
      String (sextet_char (v / 262144)) (String (sextet_char (v / 4096 mod 64))
        (String (sextet_char (v / 64 mod 64)) (String (sextet_char (v mod 64)) (EncodeToString rest))))
  end.

Definition is_newline (c : Ascii.ascii) : bool := Ascii.eqb c (Ascii.ascii_of_nat 10) || Ascii.eqb c (Ascii.ascii_of_nat 13).

Fixpoint skip_newlines (s : string) : string :=
  match s with
  | EmptyString => EmptyString
  | String c s' => if is_newline c then skip_newlines s' else String c (skip_newlines s')
  end.

(** The quanta of a text without line breaks. *)
Fixpoint decode_quanta (s : string) : option string :=
  match s with
  | EmptyString => Some ""
  | String c1 (String c2 (String c3 (String c4 rest))) =>
      d1 ← sextet c1; d2 ← sextet c2;
      if Ascii.eqb c3 pad then
        if Ascii.eqb c4 pad && (rest =s "") then Some (String (ascii_of ((d1 * 64 + d2) / 16)) "") else None
      else
        d3 ← sextet c3;
        if Ascii.eqb c4 pad then
          if rest =s "" then
            let v := (d1 * 64 + d2) * 64 + d3 in
            Some (String (ascii_of (v / 1024)) (String (ascii_of (v / 4 mod 256)) ""))
          else None
        else
          d4 ← sextet c4;
          let v := ((d1 * 64 + d2) * 64 + d3) * 64 + d4 in
          r ← decode_quanta rest;
          Some (String (ascii_of (v / 65536)) (String (ascii_of (v / 256 mod 256)) (String (ascii_of (v mod 256)) r)))
  | _ => None
  end.

Definition DecodeString (s : string) : option string := decode_quanta (skip_newlines s).

(** ** The round trip *)

Lemma byte_range c : 0 <= byte_of c < 256.
Proof. unfold byte_of. pose proof (Ascii.N_ascii_bounded c). lia. Qed.

Lemma ascii_of_byte c z : z = byte_of c -> ascii_of z = c.
Proof. intros ->. unfold ascii_of, byte_of. rewrite N2Z.id. apply Ascii.ascii_N_embedding. Qed.

Definition digits : list Z := Z.of_nat <$> seq 0 64.

Lemma digit_ok d : 0 <= d < 64 ->
  sextet (sextet_char d) = Some d /\ is_newline (sextet_char d) = false /\ Ascii.eqb (sextet_char d) pad = false.
Proof.
  intros Hd. assert (Forall (fun d => sextet (sextet_char d) = Some d /\ is_newline (sextet_char d) = false /\
    Ascii.eqb (sextet_char d) pad = false) digits) as HF by (apply (bool_decide_unpack _); by vm_compute).
  rewrite Forall_forall in HF. apply HF. unfold digits. apply list_elem_of_fmap. exists (Z.to_nat d). split; [lia|].
  apply elem_of_seq. lia.
Qed.

Lemma encode_no_newline s : skip_newlines (EncodeToString s) = EncodeToString s.
Proof.
  assert (forall d t, 0 <= d < 64 -> skip_newlines (String (sextet_char d) t) = String (sextet_char d) (skip_newlines t)) as Hd.
  { intros d t Hd. simpl. by destruct (digit_ok d Hd) as (_ & -> & _). }
  induction s as [s IH] using (induction_ltof1 _ String.length). unfold ltof in IH.
  destruct s as [|a [|b [|c rest]]]; [done|..]; cbn [EncodeToString]; cbv zeta;
    pose proof (byte_range a); try pose proof (byte_range b); try pose proof (byte_range c);
    rewrite ?Hd by (apply Z.mod_pos_bound; lia) || (split; [apply Z.div_pos; lia|apply Z.div_lt_upper_bound; lia]).
  - done.
  - done.
  - rewrite IH by (simpl; lia). done.
Qed.

(** Decoding what was encoded gives it back. *)
Lemma base64_roundtrip s : DecodeString (EncodeToString s) = Some s.
Proof.
  unfold DecodeString. rewrite encode_no_newline.
  induction s as [s IH] using (induction_ltof1 _ String.length). unfold ltof in IH.
  assert (forall v, 0 <= v < 16777216 -> 0 <= v / 262144 < 64) as H1
    by (intros v Hv; split; [apply Z.div_pos; lia|apply Z.div_lt_upper_bound; lia]).
  assert (forall v, 0 <= v mod 64 < 64) as H2 by (intros; apply Z.mod_pos_bound; lia).
  destruct s as [|a [|b [|c rest]]]; [done|..]; cbn [EncodeToString decode_quanta]; cbv zeta;
    pose proof (byte_range a); try pose proof (byte_range b); try pose proof (byte_range c);
    match goal with |- context [sextet (sextet_char (?v / 262144))] => rewrite (proj1 (digit_ok _ (H1 v ltac:(lia)))) end;
    rewrite (proj1 (digit_ok _ (H2 _))); cbn [mbind option_bind].
  - cbn. do 2 f_equal. apply ascii_of_byte. Z.to_euclidean_division_equations. lia.
  - rewrite (proj2 (proj2 (digit_ok _ (H2 _)))), (proj1 (digit_ok _ (H2 _))). cbn [mbind option_bind].
    change (Ascii.eqb pad pad) with true. change ("" =s "") with true. cbv iota.
    do 2 f_equal; [|f_equal]; apply ascii_of_byte; Z.to_euclidean_division_equations; lia.
  - rewrite !(fun v => proj2 (proj2 (digit_ok _ (H2 v)))), !(fun v => proj1 (digit_ok _ (H2 v))). cbn [mbind option_bind].
    rewrite IH by (simpl; lia). cbn [mbind option_bind].
    do 2 f_equal; [|f_equal; [|f_equal]]; apply ascii_of_byte; Z.to_euclidean_division_equations; lia.
Qed.
