(* ===== verification/Tools.v ===== *)
(** * The release tools

    [tools/keygen/main.go] and [tools/sign/main.go]: the key pair of the release
    pipeline and the signatures of its artifacts, against the two places that read
    them: the registration of signing keys on the server (file [Files]) and the
    signature check of the agent (file [Update]).

    Ed25519 is a parameter; base64 is the encoding of file [Base64]. *)

From stdpp Require Import relations.
From S2P Require Import Prelude Text Platform Prog Models JobState Database Scope Quota JobSteps JobsApi Enrollment AgentAuth Update Credentials Install Paging Tenancy Fleet Files Base64.

Record ReleaseLib := {
  rl_keys : string -> string * string;        (* ed25519.GenerateKey from random bytes: public and private key *)
  rl_sign : string -> string -> string;       (* ed25519.Sign: private key, message *)
  rl_sha256 : string -> string;               (* the raw digest *)
}.

Definition PrivateKeySize : nat := 64.

Definition with_newline (s : string) : string := String.append s (char newline).

Section Tools.
Context {R : Type} (rl : ReleaseLib).

(** [os.MkdirAll] of the parent, when there is one; [true] is a nil error. *)
Definition parent_made (path : string) : prog FS R bool :=
  if Dir path =s "." then mret true else PStep (fun e fs => (fs, negb (e_fault e))) PRet.

(** [run] of keygen; [true] is a nil error. *)
Definition keygen (outPub outPriv : string) : prog FS R bool :=
  seed ← PStep (fun e fs => (fs, if e_fault e then None else Some (e_id e))) PRet;
  match seed with
  | None => mret false
  | Some seed =>
      let '(pub, priv) := rl_keys rl seed in
      made ← parent_made outPriv;
      if negb made then mret false
      else
        ok ← write_file outPriv priv;
        if negb ok then mret false
        else
          made ← parent_made outPub;
          if negb made then mret false else write_file outPub (with_newline (EncodeToString pub))
  end.

(** [run] of sign; [true] is a nil error. *)
Definition sign (keyPath filePath outPath : string) : prog FS R bool :=
  key ← read_file (Clean keyPath);
  match key with
  | None => mret false
  | Some key =>
      if negb (bool_decide (String.length key = PrivateKeySize)) then mret false
      else
        data ← read_file (Clean filePath);
        match data with
        | None => mret false
        | Some data => write_file (Clean outPath) (with_newline (EncodeToString (rl_sign rl key (rl_sha256 rl data))))
        end
  end.
End Tools.

(** ** Lemmas *)

Lemma skip_newlines_app a b : skip_newlines (String.append a b) = String.append (skip_newlines a) (skip_newlines b).
Proof.
  induction a as [|c a IH]; [done|]. rewrite append_cons. simpl. destruct (is_newline c); [done|]. by rewrite append_cons, IH.
Qed.

(** The line break after the text is skipped. *)
Lemma decode_with_newline s : DecodeString (with_newline (EncodeToString s)) = Some s.
Proof.
  unfold DecodeString, with_newline. rewrite skip_newlines_app, encode_no_newline. change (skip_newlines (char newline)) with "".
  rewrite append_empty, <-(encode_no_newline s). apply base64_roundtrip.
Qed.

Definition dash : Ascii.ascii := Ascii.ascii_of_nat 45.

Lemma sextet_not_dash d : Ascii.eqb (sextet_char d) dash = false.
Proof.
  unfold sextet_char. assert (forall n, match String.get n alphabet with Some c => Ascii.eqb c dash = false | None => True end) as H.
  { intros n. do 64 (destruct n as [|n]; [done|]). done. }
  specialize (H (Z.to_nat d)). destruct (String.get (Z.to_nat d) alphabet); [done|]. done.
Qed.

(** Base64 has no dash, so it is no PEM. *)
Lemma encode_no_dash s : without dash (EncodeToString s) = true.
Proof.
  revert s. fix IH 1. intros [|a [|b [|c s]]]; [done|..]; unfold without; cbn [EncodeToString string_forall];
    rewrite ?sextet_not_dash; cbn [negb andb]; [done|done|]. apply IH.
Qed.

(** What is relied on of Ed25519 and SHA-256, with the agent's functions. *)
Class ReleaseLaws (rl : ReleaseLib) (lib : Lib) := {
  private_size : forall seed, String.length (rl_keys rl seed).2 = PrivateKeySize;
  sign_verifies : forall seed d, Update.ed25519_verify lib (rl_keys rl seed).1 d (rl_sign rl (rl_keys rl seed).2 d) = true;
  same_digest : forall data, sha256_raw lib data = rl_sha256 rl data;
  same_base64 : forall s, base64_decode lib s = DecodeString s;
}.

Section Rules.
Context {R : Type} (rl : ReleaseLib).
Notation any := (fun _ _ : FS => True).

Lemma made_ok path (Q : R + bool -> FS -> Prop) fs : Q (inr true) fs -> rg ok_env (=) any (parent_made path) Q fs.
Proof. intros HQ. unfold parent_made. case_match; [done|]. intros fs1 e [He _] <-. split; [done|]. cbn [fst snd]. by rewrite He. Qed.

Lemma keygen_ok outPub outPriv (Q : R + bool -> FS -> Prop) fs :
  (forall seed, Q (inr true) (set_file outPub (with_newline (EncodeToString (rl_keys rl seed).1)) (set_file outPriv (rl_keys rl seed).2 fs))) ->
  rg ok_env (=) any (keygen rl outPub outPriv) Q fs.
Proof.
  pose proof ok_env_no_fault. intros HQ. unfold keygen. rg_step. intros fs1 e [He _] <-. split; [done|]. cbn [fst snd]. rewrite He. cbn [rg].
  specialize (HQ (e_id e)). destruct (rl_keys rl (e_id e)) as [pub priv]. rg_step. apply made_ok. cbn [negb]. rg_step.
  apply write_rg; [done|]. cbn [negb]. rg_step. apply made_ok. cbn [negb]. by apply write_rg.
Qed.

Lemma sign_ok key data keyPath filePath outPath (Q : R + bool -> FS -> Prop) fs :
  fs_files fs !! Clean keyPath = Some key -> String.length key = PrivateKeySize -> fs_files fs !! Clean filePath = Some data ->
  Q (inr true) (set_file (Clean outPath) (with_newline (EncodeToString (rl_sign rl key (rl_sha256 rl data)))) fs) ->
  rg ok_env (=) any (sign rl keyPath filePath outPath) Q fs.
Proof.
  pose proof ok_env_no_fault. intros Hk Hlen Hd HQ. unfold sign. rg_step. apply read_rg; [done|]. rewrite Hk, bool_decide_true by done. cbn [negb].
  rg_step. apply read_rg; [done|]. rewrite Hd. by apply write_rg.
Qed.

Lemma verify_ok lib filePath sig keyID pem pub data d fs (Q : R + bool -> FS -> Prop) :
  fetch_key lib keyID = Some pem -> parse_ed25519 lib pem = Some pub -> fs_files fs !! filePath = Some data ->
  base64_decode lib sig = Some d -> Q (inr (Update.ed25519_verify lib pub (sha256_raw lib data) d)) fs ->
  rg ok_env (=) any (verifySignature lib filePath sig keyID) Q fs.
Proof.
  pose proof ok_env_no_fault. intros Hf Hp Hd Hs HQ. unfold verifySignature, fetchSigningKey. rg_step. rg_step.
  intros fs1 e [He _] <-. split; [done|]. cbn [fst snd]. rewrite He, Hf. cbn [rg]. rg_step. rewrite Hp. rg_step. apply read_rg; [done|].
  by rewrite Hd, Hs.
Qed.
End Rules.

(** ** Theorems *)

(** What the release tools sign is what the agent accepts: after keygen and sign,
    an agent that gets the public key of the pair for a key id accepts the artifact
    with the text of the signature file, the line break at its end included. *)
Theorem release_verifies {R : Type} rl lib `{!ReleaseLaws rl lib} outPub outPriv filePath outPath data env fs :
  (forall n, ok_env (env n)) -> NoDup [outPub; outPriv; Clean filePath; Clean outPath] -> Clean outPriv = outPriv ->
  fs_files fs !! Clean filePath = Some data ->
  let fs1 := run_store (keygen (R := R) rl outPub outPriv) env fs in
  let fs2 := run_store (sign (R := R) rl outPriv filePath outPath) env fs1 in
  exists pub sig,
    fs_files fs2 !! outPub = Some (with_newline (EncodeToString pub)) /\ fs_files fs2 !! Clean outPath = Some sig /\
    forall agent path keyID pem env', (forall n, ok_env (env' n)) -> fs_files agent !! path = Some data ->
      fetch_key lib keyID = Some pem -> parse_ed25519 lib pem = Some pub ->
      run_result (verifySignature (R := R) lib path sig keyID) env' agent = inr true.
Proof.
  intros Henv Hnd Hclean Hdata fs1 fs2. rewrite !NoDup_cons in Hnd.
  assert (exists seed, fs1 = set_file outPub (with_newline (EncodeToString (rl_keys rl seed).1)) (set_file outPriv (rl_keys rl seed).2 fs)) as [seed H1].
  { unfold fs1. by_rg ok_env (fun _ _ : FS => True); [done|]. apply keygen_ok. by eexists. }
  set (sig := with_newline (EncodeToString (rl_sign rl (rl_keys rl seed).2 (rl_sha256 rl data)))).
  assert (fs2 = set_file (Clean outPath) sig fs1) as H2.
  { unfold fs2. by_rg ok_env (fun _ _ : FS => True); [done|]. apply (sign_ok rl (rl_keys rl seed).2 data); [|apply private_size| |done].
    - rewrite H1, Hclean. simpl. by rewrite lookup_insert_ne, lookup_insert_eq by set_solver.
    - rewrite H1. simpl. by rewrite !lookup_insert_ne by set_solver. }
  exists (rl_keys rl seed).1, sig. rewrite H2, H1. simpl. rewrite lookup_insert_ne, !lookup_insert_eq by set_solver. split; [done|]. split; [done|].
  intros agent path keyID pem env' Henv' Hd Hf Hp. by_rg ok_env (fun _ _ : FS => True); [done|].
  eapply verify_ok; [done|done|done|rewrite same_base64; apply decode_with_newline|]. by rewrite same_digest, sign_verifies.
Qed.

(** The server takes public keys in PEM, keygen writes base64: the file that keygen
    says to register on the management server is refused. *)
Theorem keygen_key_refused slib ctx name pub env db :
  (forall s, without dash s = true -> parse_pem slib s = None) -> name <> "" ->
  run_result (CreateSigningKey slib ctx (Some (name, with_newline (EncodeToString pub)))) env db =
    inl (ErrorWithCode 400 "invalid_key" (Lit (key_error InvalidPEM))).
Proof.
  intros Hpem Hn. unfold run_result, CreateSigningKey. rewrite (proj2 (seqb_neq _ _) Hn).
  destruct (with_newline (EncodeToString pub) =s "") eqn:E.
  { apply seqb_eq in E. apply (f_equal String.length) in E. unfold with_newline in E. rewrite length_append in E. simpl in E. lia. }
  unfold validateEd25519PEM, parseEd25519PublicKeyPEM. rewrite Hpem; [done|].
  unfold without, with_newline. rewrite string_forall_append. apply andb_true_iff. split; [apply encode_no_dash|done].
Qed.
