(* ===== verification/Logs.v ===== *)
(** * Logs

    [agent/logshipper/shipper.go], the buffer of log entries on the agent and its
    flushes; [server/api/logs.go], which stores a shipment; [server/api/auditlog.go],
    the listing of the audit log.  A shipper and a server with a network that may
    lose the request or the reply are one system at the end. *)

From stdpp Require Import relations.
From S2P Require Import Prelude Prog Models JobState Database Paging Base64.

Local Open Scope nat_scope.

(** ** server/api/logs.go *)

Definition validLogLevels : list string := ["debug"; "info"; "warn"; "error"].

(** A zero time is [None]. *)
Definition stored_entry (ctx : Ctx) (now : Z) (e : LogEntry) : DeviceLog :=
  {| dl_tenant := ctx_tenant ctx; dl_device := ctx_agent ctx;
     dl_timestamp := default now (le_timestamp e);
     dl_level := if str_in (le_level e) validLogLevels then le_level e else "info";
     dl_message := le_message e; dl_created_at := now |}.

Definition insert_log (id : string) (l : DeviceLog) (db : DB) : option DB :=
  if fk (tenants db) (dl_tenant l) && fk (devices db) (dl_device l)
  then t ← insert_new id l (device_logs db); Some (set_device_logs t db)
  else None.

(** The ids of the entries, drawn as the loop goes. *)
Definition number_entries (ctx : Ctx) (now : Z) (es : list LogEntry) : Handler (list (string * DeviceLog)) :=
  for_each es [] (fun acc e => id ← new_id "dlog"; mret (acc ++ [(id, stored_entry ctx now e)])).

Definition log_statements (rows : list (string * DeviceLog)) : list (DB -> option DB) :=
  (fun r => insert_log r.1 r.2) <$> rows.

Definition Ingest (ctx : Ctx) (body : option (list LogEntry)) : Handler unit :=
  if (ctx_agent ctx =s "") || (ctx_tenant ctx =s "") then stop (Error 401 "agent identity not found")
  else
    match body with
    | None => stop (Error 400 "invalid request body")
    | Some [] => stop NoContent
    | Some entries =>
        if (1000 <? Z.of_nat (length entries))%Z then stop (Error 400 "too many log entries (max 1000)")
        else
          now ← time_now;
          rows ← number_entries ctx now entries;
          r ← transact (log_statements rows);
          match r with
          | Some _ => stop (Error 500 "failed to store logs")
          | None => stop NoContent
          end
    end.

(** ** server/api/auditlog.go *)

(** The filters of the query string; [af_since] and [af_until] are set when the
    parameter parses. *)
Record AuditFilter := {
  af_actor : string; af_actor_type : string; af_action : string; af_resource_type : string; af_resource_id : string;
  af_since : option Z; af_until : option Z;
}.

Definition wanted (v col : string) : bool := (v =s "") || (col =s v).

Definition audit_matches (tenantID : string) (f : AuditFilter) (e : AuditEntry) : bool :=
  (au_tenant e =s tenantID) && wanted (af_actor f) (au_actor e) && wanted (af_actor_type f) (au_actor_type e)
  && wanted (af_action f) (au_action e) && wanted (af_resource_type f) (au_resource_type e)
  && wanted (af_resource_id f) (au_resource_id e)
  && match af_since f with Some t => (t <=? au_created_at e)%Z | None => true end
  && match af_until f with Some t => (au_created_at e <=? t)%Z | None => true end.

(** [ORDER BY created_at DESC, id DESC]. *)
Definition audit_order (a b : string * AuditEntry) : Prop :=
  (au_created_at b.2 < au_created_at a.2)%Z \/ au_created_at a.2 = au_created_at b.2 /\ string_leb b.1 a.1 = true.
#[export] Instance audit_order_dec : RelDecision audit_order.
Proof. intros a b. unfold audit_order. apply _. Defined.

Definition audit_rows (tenantID : string) (f : AuditFilter) (db : DB) : list (string * AuditEntry) :=
  (fun e => (au_id e, e)) <$> filter (fun e => audit_matches tenantID f e = true) (audit_log db).

(** A cursor that does not decode, or to nothing, is ignored. *)
Definition decode_cursor (cursor : string) : string := default "" (DecodeString cursor).

Definition next_cursor (p : Pagination) : string := EncodeToString (pg_next_cursor p).

Definition AuditList (ctx : Ctx) (limit_param cursor : string) (f : AuditFilter) : Handler unit :=
  if ctx_tenant ctx =s "" then stop (Error 401 "tenant not found")
  else
    let '(limit, cursorStr) := ParsePagination limit_param cursor in
    r ← query (fun db => page_rows audit_order limit (decode_cursor cursorStr) (audit_rows (ctx_tenant ctx) f db));
    match r with
    | None => stop (Error 500 "failed to query audit log")
    | Some rows =>
        let '(shown, p) := paginate limit rows in
        stop (JSON 200 (BAuditList (snd <$> shown)
          {| pg_next_cursor := next_cursor p; pg_has_more := pg_has_more p; pg_limit := pg_limit p |}))
    end.

(** ** agent/logshipper/shipper.go *)

Definition defaultMaxBatch : nat := 500.
Definition defaultMaxBuffer : nat := 5000.

(** [sh_flight]: the batch a flush has taken and not settled yet. *)
Record Shipper := { sh_buffer : list LogEntry; sh_flight : option (list LogEntry) }.

Definition new_shipper : Shipper := {| sh_buffer := []; sh_flight := None |}.

Definition Add (entry : LogEntry) (s : Shipper) : Shipper :=
  if defaultMaxBuffer <=? length (sh_buffer s) then s
  else {| sh_buffer := sh_buffer s ++ [entry]; sh_flight := sh_flight s |}.

(** The first half of [flush], to the sending of the request.  [built]: [json.Marshal]
    and [http.NewRequestWithContext] give a request; otherwise [flush] returns with
    the batch taken out of the buffer. *)
Definition flush_take (built : bool) (s : Shipper) : Shipper :=
  match sh_buffer s with
  | [] => s
  | _ =>
      let n := length (sh_buffer s) `min` defaultMaxBatch in
      {| sh_buffer := drop n (sh_buffer s); sh_flight := if built then Some (take n (sh_buffer s)) else None |}
  end.

Definition rebuffer (batch : list LogEntry) (s : Shipper) : Shipper :=
  {| sh_buffer := take defaultMaxBuffer (batch ++ sh_buffer s); sh_flight := None |}.

(** The second half: [None] is an error of the request. *)
Definition flush_settle (result : option Z) (s : Shipper) : Shipper :=
  match sh_flight s with
  | None => s
  | Some batch =>
      match result with
      | None => rebuffer batch s
      | Some status => if (500 <=? status)%Z then rebuffer batch s else {| sh_buffer := sh_buffer s; sh_flight := None |}
      end
  end.

Definition Pending (s : Shipper) : nat := length (sh_buffer s).

(** [slog] levels: debug -4, info 0, warn 4, error 8. *)
Definition slogLevelToString (l : Z) : string :=
  if (8 <=? l)%Z then "error" else if (4 <=? l)%Z then "warn" else if (0 <=? l)%Z then "info" else "debug".

(** [Handle] of the tee handler: what it gives to the shipper. *)
Definition Handle (minLevel time level : Z) (message : string) (s : Shipper) : Shipper :=
  if (minLevel <=? level)%Z
  then Add {| le_timestamp := Some time; le_level := slogLevelToString level; le_message := message |} s
  else s.

(** ** The agent, the network and the server *)

(** What becomes of a shipment: it does not arrive, it is answered, or it is
    handled and the answer is lost; [Refused] is an answer of the middleware in
    front of the handler. *)
Inductive LogDelivery := NotDelivered | Delivered | ReplyLost | Refused (status : Z).

Record LogSystem := { ls_shipper : Shipper; ls_db : DB }.

Definition ingest_run (ctx : Ctx) (env : nat -> Env) (batch : list LogEntry) (db : DB) : DB * Z :=
  (run_store (Ingest ctx (Some batch)) env db,
   match run_result (Ingest ctx (Some batch)) env db with inl r => resp_status r | inr _ => 0%Z end).

Definition ship (ctx : Ctx) (d : LogDelivery) (env : nat -> Env) (st : LogSystem) : LogSystem :=
  match sh_flight (ls_shipper st) with
  | None => st
  | Some batch =>
      match d with
      | NotDelivered => {| ls_shipper := flush_settle None (ls_shipper st); ls_db := ls_db st |}
      | Refused status => {| ls_shipper := flush_settle (Some status) (ls_shipper st); ls_db := ls_db st |}
      | ReplyLost =>
          {| ls_shipper := flush_settle None (ls_shipper st); ls_db := (ingest_run ctx env batch (ls_db st)).1 |}
      | Delivered =>
          let '(db', status) := ingest_run ctx env batch (ls_db st) in
          {| ls_shipper := flush_settle (Some status) (ls_shipper st); ls_db := db' |}
      end
  end.
