(* ===== verification/LogSpecs.v ===== *)
(** * Theorems on logs

    A shipment is stored whole or not at all; from the agent's logger to the
    server's table entries keep their order, none disappears unaccounted for, and
    the buffer is bounded; the cursors of the audit log round-trip. *)

From stdpp Require Import relations.
From S2P Require Import Prelude Prog Models JobState Database Enrollment Paging Base64 Logs.

Local Open Scope nat_scope.

(** ** Storing a shipment *)

Lemma insert_log_Some id l db db' : insert_log id l db = Some db' ->
  device_logs db !! id = None /\ db' = set_device_logs (<[id := l]> (device_logs db)) db.
Proof.
  unfold insert_log. destruct (_ && _); [|done]. by intros (t & [Hn ->]%insert_new_Some & [= <-])%bind_Some.
Qed.

Lemma log_statements_run rows : forall db db', run_stmts (log_statements rows) db = Some db' ->
  exists t, db' = set_device_logs t db /\ device_logs db ⊆ t /\ Forall (fun r => t !! r.1 = Some r.2) rows /\
    forall k l, t !! k = Some l -> device_logs db !! k = Some l \/ (k, l) ∈ rows.
Proof.
  induction rows as [|r rows IH]; intros db db'; simpl.
  { intros [= <-]. exists (device_logs db). split_and!; [by destruct db|done|constructor|auto]. }
  intros (db1 & [Hn ->]%insert_log_Some & Hr)%bind_Some. apply IH in Hr as (t & -> & Hsub & Hrows & Hall). simpl in *.
  exists t. split_and!; [done| | |].
  - etrans; [by apply insert_subseteq|done].
  - constructor; [|done]. eapply lookup_weaken; [apply lookup_insert_eq|done].
  - intros k l Hk. destruct (Hall k l Hk) as [Hi|Hi]; [|right; by right].
    apply lookup_insert_Some in Hi as [[<- <-]|[_ Hi]]; [right; destruct r; by left|by left].
Qed.

Lemma number_entries_rg E ctx now es (Q : Response + list (string * DeviceLog) -> DB -> Prop) db :
  (forall rows, rows.*2 = stored_entry ctx now <$> es -> Q (inr rows) db) ->
  rg E (=) (fun _ _ => True) (number_entries ctx now es) Q db.
Proof.
  intros HQ. unfold number_entries.
  apply (rg_for_each E (=) (fun _ _ => True) _ Q (fun ys acc s => s = db /\ acc.*2 = stored_entry ctx now <$> ys) es [] []).
  - done.
  - intros ys x zs acc s _ [-> Hacc]. do 2 rg_step. rg_step. split; [done|]. by rewrite !fmap_app, Hacc.
  - intros rows s [-> Hrows]. by apply HQ.
Qed.

(** An entry as the server keeps it, for the device of the caller. *)
Definition in_table (ctx : Ctx) (db : DB) (e : LogEntry) : Prop :=
  exists id now, device_logs db !! id = Some (stored_entry ctx now e).

Definition logs_grow (a b : DB) : Prop := exists t, b = set_device_logs t a /\ device_logs a ⊆ t.

#[export] Instance logs_grow_preorder : PreOrder logs_grow.
Proof.
  split.
  - intros a. exists (device_logs a). by destruct a.
  - intros a b c (t & -> & H1) (t' & -> & H2). exists t'. split; [done|]. simpl in H2. by etrans.
Qed.

Lemma in_table_grow ctx a b e : logs_grow a b -> in_table ctx a e -> in_table ctx b e.
Proof. intros (t & -> & Hsub) (id & now & Hl). exists id, now. simpl. by eapply lookup_weaken. Qed.

(** What a request to store a shipment does. *)
Definition shipment_spec (ctx : Ctx) (entries : list LogEntry) (db db' : DB) (r : Response) : Prop :=
  (400 <= resp_status r)%Z /\ db' = db \/
  r = NoContent /\ logs_grow db db' /\ Forall (in_table ctx db') entries /\
    forall k l, device_logs db' !! k = Some l -> device_logs db !! k = Some l \/
      exists e now, e ∈ entries /\ l = stored_entry ctx now e.

Lemma Ingest_rg E ctx entries db (Q : Response + unit -> DB -> Prop) :
  (forall r db', shipment_spec ctx entries db db' r -> Q (inl r) db') ->
  rg E (=) (fun _ _ => True) (Ingest ctx (Some entries)) Q db.
Proof.
  intros HQ. assert (forall st m, (400 <= st)%Z -> Q (inl (Error st m)) db) as Herr by (intros; apply HQ; by left).
  unfold Ingest. destruct (_ || _); [by apply rg_stop, Herr|].
  destruct entries as [|e0 es]; [apply rg_stop, HQ; right; by split_and!; [|reflexivity|constructor|auto]|].
  set (entries := e0 :: es) in *. destruct (1000 <? _)%Z; [by apply rg_stop, Herr|]. do 2 rg_step. rg_step.
  apply number_entries_rg. intros rows Hrows. rg_step. apply rg_transact. intros s1 e He <-.
  destruct (tx_run _ _ _ _) as [db'|i] eqn:Htx; (split; [done|]); [|by apply rg_stop, Herr].
  apply tx_run_inl, log_statements_run in Htx as (tb & -> & Hsub & Hall & Hnew). apply rg_stop, HQ. right.
  split_and!; [done|by exists tb| |].
  - rewrite Forall_forall in Hall. apply Forall_forall. intros x Hx.
    assert (stored_entry ctx t x ∈ rows.*2) as Hin by (rewrite Hrows; by apply list_elem_of_fmap_2).
    apply list_elem_of_fmap in Hin as ([id l] & El & Hin). exists id, t. simpl in *. rewrite El. by apply (Hall (id, l)).
  - intros k l Hk. destruct (Hnew k l Hk) as [?|Hin]; [by left|right].
    assert (l ∈ rows.*2) as Hl by (by apply (list_elem_of_fmap_2 snd rows (k, l))).
    rewrite Hrows in Hl. apply list_elem_of_fmap in Hl as (x & -> & Hx). by exists x, t.
Qed.

(** POST /v1/agents/logs, alone, whatever fails: a shipment is refused and nothing
    changes, or it is answered with 204, every entry is in the table, for the
    calling device, with a known level and a time, and the table has gained
    nothing else. *)
Theorem ingest_spec ctx entries env db :
  exists r, run_result (Ingest ctx (Some entries)) env db = inl r /\
    shipment_spec ctx entries db (run_store (Ingest ctx (Some entries)) env db) r.
Proof. by_rg any_env (fun _ _ : DB => True); [done|]. apply Ingest_rg. eauto. Qed.

(** ** From the agent to the table *)

Inductive LogEvent :=
| EvAdd (e : LogEntry)
| EvTake (built : bool)
| EvShip (d : LogDelivery) (env : nat -> Env).

Definition log_do (ctx : Ctx) (ev : LogEvent) (st : LogSystem) : LogSystem :=
  match ev with
  | EvAdd e => {| ls_shipper := Add e (ls_shipper st); ls_db := ls_db st |}
  | EvTake built => match sh_flight (ls_shipper st) with
                    | None => {| ls_shipper := flush_take built (ls_shipper st); ls_db := ls_db st |}
                    | Some _ => st
                    end
  | EvShip d env => ship ctx d env st
  end.

Definition flight (s : Shipper) : list LogEntry := default [] (sh_flight s).

(** The status a flush gets to see, [None] for an error. *)
Definition seen_status (ctx : Ctx) (d : LogDelivery) (env : nat -> Env) (st : LogSystem) : option Z :=
  match d with
  | NotDelivered | ReplyLost => None
  | Refused status => Some status
  | Delivered => Some (ingest_run ctx env (flight (ls_shipper st)) (ls_db st)).2
  end.

(** The entries an event gives up: the entry added to a full buffer, a batch for
    which no request could be made, a batch answered with an error below 500, what does not fit when a batch is put back. *)
Definition dropped (ctx : Ctx) (ev : LogEvent) (st : LogSystem) : list LogEntry :=
  let s := ls_shipper st in
  match ev, sh_flight s with
  | EvAdd e, _ => if defaultMaxBuffer <=? length (sh_buffer s) then [e] else []
  | EvTake built, None => if built then [] else take defaultMaxBatch (sh_buffer s)
  | EvShip d env, Some batch =>
      match seen_status ctx d env st with
      | Some status =>
          if (status <? 400)%Z then [] else if (status <? 500)%Z then batch
          else drop defaultMaxBuffer (batch ++ sh_buffer s)
      | None => drop defaultMaxBuffer (batch ++ sh_buffer s)
      end
  | _, _ => []
  end.

(** The entries an event sees accepted. *)
Definition acked (ctx : Ctx) (ev : LogEvent) (st : LogSystem) : list LogEntry :=
  match ev, sh_flight (ls_shipper st) with
  | EvShip d env, Some batch =>
      match seen_status ctx d env st with
      | Some status => if (status <? 400)%Z then batch else []
      | None => []
      end
  | _, _ => []
  end.

Definition added (ev : LogEvent) : list LogEntry := match ev with EvAdd e => [e] | _ => [] end.

(** A history, with the entries added, accepted and dropped in it. *)
Inductive log_history (ctx : Ctx) (db0 : DB) : LogSystem -> list LogEntry -> list LogEntry -> list LogEntry -> Prop :=
| lh_start : log_history ctx db0 {| ls_shipper := new_shipper; ls_db := db0 |} [] [] []
| lh_step st ev ins acc out :
    log_history ctx db0 st ins acc out ->
    (forall status env, ev = EvShip (Refused status) env -> (400 <= status)%Z) ->
    log_history ctx db0 (log_do ctx ev st) (ins ++ added ev) (acc ++ acked ctx ev st) (out ++ dropped ctx ev st).

(** One event: what was on the agent is accepted, dropped or still there, in order. *)
Definition on_agent (s : Shipper) : list LogEntry := flight s ++ sh_buffer s.

Lemma on_agent_step ctx ev st :
  (forall status env, ev = EvShip (Refused status) env -> (400 <= status)%Z) ->
  let s' := ls_shipper (log_do ctx ev st) in
  (acked ctx ev st ++ on_agent s') `sublist_of` (on_agent (ls_shipper st) ++ added ev) /\
  on_agent (ls_shipper st) ++ added ev ≡ₚ acked ctx ev st ++ on_agent s' ++ dropped ctx ev st.
Proof.
  destruct st as [[buf fl] db]. destruct ev as [e|built|d env]; intros Href; cbn [log_do acked dropped added ls_shipper sh_flight sh_buffer].
  - unfold Add, on_agent, flight. cbn [sh_buffer sh_flight]. case_match; cbn [sh_buffer sh_flight app].
    + split; [by apply sublist_inserts_r|done].
    + rewrite app_nil_r, (assoc_L (++)). done.
  - destruct fl as [b|]; cbn [log_do ls_shipper sh_flight]; rewrite ?app_nil_r; [done|].
    unfold flush_take, on_agent, flight. cbn [sh_buffer sh_flight default app]. destruct buf as [|x buf]; [by destruct built|].
    cbv zeta. assert (take (length (x :: buf) `min` defaultMaxBatch) (x :: buf) = take defaultMaxBatch (x :: buf)) as Ht.
    { rewrite <-take_take, take_ge; [done|]. rewrite length_take. lia. }
    destruct built; cbn [sh_buffer sh_flight default app]; unfold id; rewrite ?app_nil_r; [by rewrite take_drop|].
    split; [apply sublist_drop|]. rewrite <-Ht, (comm (++)). by rewrite take_drop.
  - rewrite app_nil_r. destruct fl as [b|]; unfold ship; cbn [ls_shipper sh_flight]; [|by rewrite app_nil_r].
    assert (forall t, on_agent (rebuffer b {| sh_buffer := buf; sh_flight := t |}) = take defaultMaxBuffer (b ++ buf)) as Hre by done.
    assert (take defaultMaxBuffer (b ++ buf) `sublist_of` b ++ buf) as Hsub by apply sublist_take.
    assert (b ++ buf ≡ₚ take defaultMaxBuffer (b ++ buf) ++ drop defaultMaxBuffer (b ++ buf)) as Hperm by by rewrite take_drop.
    assert (forall status db', let r := {| ls_shipper := flush_settle (Some status) {| sh_buffer := buf; sh_flight := Some b |}; ls_db := db' |} in
      ((if (status <? 400)%Z then b else []) ++ on_agent (ls_shipper r)) `sublist_of` b ++ buf /\
      b ++ buf ≡ₚ (if (status <? 400)%Z then b else []) ++ on_agent (ls_shipper r) ++
        (if (status <? 400)%Z then [] else if (status <? 500)%Z then b else drop defaultMaxBuffer (b ++ buf))) as Hsettle.
    { intros status db'. cbn [ls_shipper flush_settle sh_flight sh_buffer].
      destruct (Z.leb_spec 500 status); [rewrite Hre|];
        destruct (Z.ltb_spec status 400), (Z.ltb_spec status 500); try lia; try done; unfold on_agent, flight; cbn [sh_flight sh_buffer default app].
      - rewrite app_nil_r. done.
      - split; [by apply sublist_inserts_l|]. by rewrite (comm (++)). }
    unfold seen_status, flight. cbn [sh_flight ls_shipper default].
    destruct d; cbn [ls_shipper flush_settle sh_flight]; try (by rewrite Hre); [|by apply (Hsettle _ db)].
    destruct (ingest_run _ _ _ _) as [db' status]. apply (Hsettle _ db).
Qed.

Lemma buffer_bound ctx ev st :
  length (sh_buffer (ls_shipper st)) <= defaultMaxBuffer -> length (sh_buffer (ls_shipper (log_do ctx ev st))) <= defaultMaxBuffer.
Proof.
  assert (forall b s, length (sh_buffer (rebuffer b s)) <= defaultMaxBuffer) as Hre.
  { intros b s. unfold rebuffer. cbn [sh_buffer]. rewrite length_take. lia. }
  assert (forall r s, length (sh_buffer s) <= defaultMaxBuffer -> length (sh_buffer (flush_settle r s)) <= defaultMaxBuffer) as Hset.
  { intros r s Hs. unfold flush_settle. destruct (sh_flight s); [|done]. destruct r as [status|]; [destruct (_ <=? _)%Z|]; auto. }
  destruct st as [s db]. cbn [ls_shipper]. intros Hs. destruct ev as [e| |d env]; cbn [log_do ls_shipper].
  - unfold Add. destruct (Nat.leb_spec defaultMaxBuffer (length (sh_buffer s))); [done|]. cbn [sh_buffer]. rewrite length_app. simpl. lia.
  - destruct (sh_flight s); cbn [ls_shipper]; [done|]. unfold flush_take. destruct (sh_buffer s) eqn:E; [by rewrite E|]. cbv zeta. cbn [sh_buffer].
    rewrite length_drop. lia.
  - unfold ship. cbn [ls_shipper ls_db]. destruct (sh_flight s); [|done]. destruct d; cbn [ls_shipper]; auto.
    destruct (ingest_run _ _ _ _). cbn [ls_shipper]. auto.
Qed.

Lemma ingest_run_spec ctx env batch db :
  logs_grow db (ingest_run ctx env batch db).1 /\
  ((ingest_run ctx env batch db).2 < 400 -> Forall (in_table ctx (ingest_run ctx env batch db).1) batch)%Z.
Proof.
  unfold ingest_run. cbn [fst snd]. by_rg any_env (fun _ _ : DB => True); [done|].
  apply Ingest_rg. intros r db' [[Hr ->]|(-> & Hg & Hall & _)]; [split; [reflexivity|lia]|done].
Qed.

Lemma log_step_stores ctx ev st :
  (forall status env, ev = EvShip (Refused status) env -> (400 <= status)%Z) ->
  logs_grow (ls_db st) (ls_db (log_do ctx ev st)) /\ Forall (in_table ctx (ls_db (log_do ctx ev st))) (acked ctx ev st).
Proof.
  intros Href. destruct st as [[buf fl] db].
  destruct ev as [e| |d env]; cbn [log_do acked ls_db ls_shipper sh_flight]; [by split; [reflexivity|constructor]|by destruct fl; (split; [reflexivity|constructor])|].
  unfold ship. cbn [ls_shipper sh_flight ls_db]. destruct fl as [b|]; [|by split; [reflexivity|constructor]].
  destruct (ingest_run_spec ctx env b db) as [Hg Hs]. unfold seen_status, flight. cbn [ls_shipper sh_flight ls_db default]. unfold id.
  destruct d; cbn [ls_db]; try (by split; [reflexivity || done|constructor]).
  - destruct (ingest_run ctx env b db) as [db' status]. cbn [fst snd ls_db] in *. split; [done|].
    destruct (Z.ltb_spec status 400); [auto|constructor].
  - specialize (Href _ _ eq_refl). destruct (Z.ltb_spec status 400); [lia|]. by split; [reflexivity|constructor].
Qed.

Lemma log_history_inv ctx db0 st ins acc out : log_history ctx db0 st ins acc out ->
  (acc ++ on_agent (ls_shipper st)) `sublist_of` ins /\
  ins ≡ₚ acc ++ on_agent (ls_shipper st) ++ out /\
  Forall (in_table ctx (ls_db st)) acc /\ length (sh_buffer (ls_shipper st)) <= defaultMaxBuffer.
Proof.
  induction 1 as [|st ev ins acc out _ (IH1 & IH2 & IH3 & IH4) Href]; [split_and!; [done|done|constructor|simpl; lia]|].
  destruct (on_agent_step ctx ev st Href) as [H1 H2]. destruct (log_step_stores ctx ev st Href) as [H3 H4]. split_and!.
  - etrans; [|apply sublist_app; [exact IH1|reflexivity]]. rewrite <-!(assoc_L (++)). by apply sublist_app.
  - rewrite IH2. transitivity (acc ++ (on_agent (ls_shipper st) ++ added ev) ++ out); [solve_Permutation|].
    rewrite H2. solve_Permutation.
  - apply Forall_app. split; [|done]. eapply Forall_impl; [exact IH3|]. intros e. by apply in_table_grow.
  - by apply buffer_bound.
Qed.

(** C13: Log shipping, from the agent's logger to the server's table, in any history of
    additions, flushes, lost requests, lost replies, refusals and database faults:
    every entry added is accepted, in flight, in the buffer, or was dropped, which
    happens only to an entry added to a full buffer, to a batch that no request
    could be made for, to a batch answered with an error below 500, and to what
    exceeds the buffer when a batch is put back; what was not dropped keeps its
    order; what was accepted is in the table; and the buffer stays within its
    bound. *)
Theorem log_delivery ctx db0 st ins acc out :
  log_history ctx db0 st ins acc out ->
  (acc ++ on_agent (ls_shipper st)) `sublist_of` ins /\
  ins ≡ₚ acc ++ on_agent (ls_shipper st) ++ out /\
  Forall (in_table ctx (ls_db st)) acc /\ Pending (ls_shipper st) <= defaultMaxBuffer.
Proof. apply log_history_inv. Qed.

(** ** The cursors of the audit log *)

(** A client that passes the cursor of a page back gets the rows below its last
    row: the encoded cursor decodes to the id. *)
Theorem audit_cursor_roundtrip p : decode_cursor (next_cursor p) = pg_next_cursor p.
Proof. unfold decode_cursor, next_cursor. by rewrite base64_roundtrip. Qed.
