(* ===== verification/Sessions.v ===== *)
(** * Local sessions

    [agent/localauth/session.go]: the sessions of local users, in memory.  Every
    method runs under the mutex, so it is one function of the sessions and of the
    clock; times are nanoseconds. *)

From S2P Require Import Prelude.

Inductive SessionType := SessionCLI | SessionWeb.
#[export] Instance SessionType_eq_dec : EqDecision SessionType.
Proof. solve_decision. Defined.

Definition Minute : Z := 60 * 1000000000.
Definition cliIdleTimeout : Z := 15 * Minute.
Definition webIdleTimeout : Z := 30 * Minute.
Definition webMaxLifetime : Z := 8 * 60 * Minute.

(** The token is the key of the map. *)
Record Session := {
  ses_username : string;
  ses_type : SessionType;
  ses_created : Z;
  ses_last_used : Z;
  ses_expires : Z;
}.

Notation SessionManager := (gmap string Session).
Definition NewSessionManager : SessionManager := ∅.

Definition idle_timeout (t : SessionType) : Z :=
  match t with SessionCLI => cliIdleTimeout | SessionWeb => webIdleTimeout end.

Definition new_session (now : Z) (username : string) (st : SessionType) : Session :=
  {| ses_username := username; ses_type := st; ses_created := now; ses_last_used := now;
     ses_expires := match st with SessionCLI => now + cliIdleTimeout | SessionWeb => now + webMaxLifetime end |}%Z.

(** [token] is what [generateToken] draws, [None] an error of the random source. *)
Definition CreateSession (token : option string) (now : Z) (username : string) (st : SessionType) (sm : SessionManager)
    : SessionManager * option (string * Session) :=
  match token with
  | None => (sm, None)
  | Some tok => let s := new_session now username st in (<[tok := s]> sm, Some (tok, s))
  end.

Inductive ValidateError := UnknownToken | SessionExpired | SessionIdle.

Definition ses_expired (now : Z) (s : Session) : bool := (ses_expires s <? now)%Z.
Definition ses_idle (now : Z) (s : Session) : bool := (idle_timeout (ses_type s) <? now - ses_last_used s)%Z.

Definition refresh (now : Z) (s : Session) : Session :=
  {| ses_username := ses_username s; ses_type := ses_type s; ses_created := ses_created s; ses_last_used := now;
     ses_expires := match ses_type s with SessionCLI => now + cliIdleTimeout | SessionWeb => ses_expires s end |}%Z.

Definition Validate (now : Z) (token : string) (sm : SessionManager) : SessionManager * (Session + ValidateError) :=
  match sm !! token with
  | None => (sm, inr UnknownToken)
  | Some s =>
      if ses_expired now s then (delete token sm, inr SessionExpired)
      else if ses_idle now s then (delete token sm, inr SessionIdle)
      else (<[token := refresh now s]> sm, inl (refresh now s))
  end.

Definition RevokeToken (token : string) (sm : SessionManager) : SessionManager := delete token sm.
Definition RevokeAll (sm : SessionManager) : SessionManager := ∅.

Definition Cleanup (now : Z) (sm : SessionManager) : SessionManager :=
  filter (fun kv : string * Session => ses_expired now kv.2 || ses_idle now kv.2 = false) sm.

(** ** Lemmas *)

Definition session_live (now : Z) (s : Session) : bool := negb (ses_expired now s || ses_idle now s).

Lemma Validate_ok now token sm : forall sm' s', Validate now token sm = (sm', inl s') ->
  exists s, sm !! token = Some s /\ session_live now s = true /\ s' = refresh now s /\ sm' = <[token := s']> sm.
Proof.
  intros sm' s'. unfold Validate, session_live. destruct (sm !! token) as [s|]; [|done].
  destruct (ses_expired now s) eqn:E1; [done|]. destruct (ses_idle now s) eqn:E2; [done|]. intros [= <- <-].
  exists s. by rewrite E1, E2.
Qed.

(** Who may use a session at all, by its own fields. *)
Lemma live_later now now' s : (now <= now')%Z -> session_live now s = false -> session_live now' s = false.
Proof.
  unfold session_live, ses_expired, ses_idle. rewrite !negb_false_iff, !orb_true_iff, !Z.ltb_lt. lia.
Qed.

(** ** Sequences of operations *)

Inductive SesOp :=
| SCreate (token : string) (username : string) (st : SessionType)
| SValidate (token : string)
| SRevoke (token : string)
| SRevokeAll
| SCleanup.

Definition ses_step (sm : SessionManager) (c : Z * SesOp) : SessionManager * option (Session + ValidateError) :=
  match c.2 with
  | SCreate tok u st => ((CreateSession (Some tok) c.1 u st sm).1, None)
  | SValidate tok => let '(sm', r) := Validate c.1 tok sm in (sm', Some r)
  | SRevoke tok => (RevokeToken tok sm, None)
  | SRevokeAll => (RevokeAll sm, None)
  | SCleanup => (Cleanup c.1 sm, None)
  end.

Fixpoint ses_run (sm : SessionManager) (cs : list (Z * SesOp)) : SessionManager :=
  match cs with [] => sm | c :: cs' => ses_run (ses_step sm c).1 cs' end.

Fixpoint ses_clock (t : Z) (cs : list (Z * SesOp)) : Prop :=
  match cs with [] => True | c :: cs' => (t <= c.1)%Z /\ ses_clock c.1 cs' end.

(** ** What a session is: its life as a specification *)

(** The uses of a session, oldest first: it was created at [created], and each use
    came in time after the one before; a web session also ends on its own. *)
Inductive life (st : SessionType) (created : Z) : Z -> Prop :=
| life_new : life st created created
| life_use last now : life st created last -> (last <= now)%Z ->
    (now - last <= idle_timeout st)%Z -> (st = SessionWeb -> now <= created + webMaxLifetime)%Z ->
    life st created now.

(** Every stored session is one that was created, with a life up to its last use. *)
Definition ses_inv (cs : list (Z * SesOp)) (sm : SessionManager) : Prop :=
  forall tok s, sm !! tok = Some s ->
    (ses_created s, SCreate tok (ses_username s) (ses_type s)) ∈ cs /\
    life (ses_type s) (ses_created s) (ses_last_used s) /\
    ses_expires s = match ses_type s with SessionCLI => ses_last_used s + cliIdleTimeout | SessionWeb => ses_created s + webMaxLifetime end%Z.

Lemma live_life now s cs tok sm : ses_inv cs sm -> sm !! tok = Some s -> (ses_last_used s <= now)%Z -> session_live now s = true ->
  life (ses_type s) (ses_created s) now.
Proof.
  intros Hinv Hs Hle Hl. destruct (Hinv tok s Hs) as (_ & Hlife & Hexp).
  unfold session_live, ses_expired, ses_idle in Hl. rewrite negb_true_iff, orb_false_iff, !Z.ltb_ge in Hl. destruct Hl as [H1 H2].
  eapply life_use; [exact Hlife|done|lia|]. intros E. rewrite Hexp, E in H1. lia.
Qed.

Definition used_by (t : Z) (sm : SessionManager) : Prop := forall tok s, sm !! tok = Some s -> (ses_last_used s <= t)%Z.

Lemma ses_inv_step t cs sm c : (t <= c.1)%Z -> used_by t sm -> ses_inv cs sm ->
  used_by c.1 (ses_step sm c).1 /\ ses_inv (cs ++ [c]) (ses_step sm c).1.
Proof.
  intros Hle Hu Hinv. destruct c as [now op]. simpl in Hle.
  assert (forall tok s, sm !! tok = Some s -> (ses_last_used s <= now)%Z /\
    (ses_created s, SCreate tok (ses_username s) (ses_type s)) ∈ cs ++ [(now, op)] /\
    life (ses_type s) (ses_created s) (ses_last_used s) /\
    ses_expires s = match ses_type s with SessionCLI => ses_last_used s + cliIdleTimeout | SessionWeb => ses_created s + webMaxLifetime end%Z) as Hold.
  { intros tok s Hs. destruct (Hinv tok s Hs) as (H1 & H2 & H3). specialize (Hu tok s Hs). split_and!; [lia|set_solver|done|done]. }
  assert (forall sm', (forall tok s, sm' !! tok = Some s -> sm !! tok = Some s) -> used_by now sm' /\ ses_inv (cs ++ [(now, op)]) sm') as Hsub.
  { intros sm' Hsm. split; [intros tok s Hs%Hsm; by apply Hold in Hs as [? _]|intros tok s Hs%Hsm; by apply Hold in Hs as [_ ?]]. }
  destruct op as [tok u st|tok|tok| |]; cbn [ses_step fst snd].
  - simpl. split; intros k s; rewrite lookup_insert_Some; intros [[<- <-]|[_ Hs]]; try (by apply Hold in Hs as [? ?]); simpl; [lia|].
    split_and!; [set_solver|constructor|by destruct st].
  - unfold Validate. destruct (sm !! tok) as [s|] eqn:Hs; [|by apply Hsub].
    destruct (ses_expired now s) eqn:E1; [apply Hsub; cbn [fst]; by intros k s' [_ ?]%lookup_delete_Some|].
    destruct (ses_idle now s) eqn:E2; [apply Hsub; cbn [fst]; by intros k s' [_ ?]%lookup_delete_Some|].
    assert (session_live now s = true) as Hl by (unfold session_live; by rewrite E1, E2).
    destruct (Hold tok s Hs) as (Hlast & Hin & Hlife & Hexp).
    pose proof (live_life now s cs tok sm Hinv Hs Hlast Hl) as Hnow.
    split; intros k s'; cbn [fst]; rewrite lookup_insert_Some; intros [[<- <-]|[_ Hs']]; try (by apply Hold in Hs' as [? ?]); simpl; [lia|].
    split_and!; [done|done|]. rewrite Hexp. by destruct (ses_type s).
  - apply Hsub. unfold RevokeToken. by intros k s [_ ?]%lookup_delete_Some.
  - apply Hsub. unfold RevokeAll. by intros k s ?%lookup_empty_Some.
  - apply Hsub. unfold Cleanup. by intros k s [? _]%map_lookup_filter_Some.
Qed.

Lemma ses_inv_run cs : forall t cs0 sm, ses_clock t cs -> used_by t sm -> ses_inv cs0 sm -> ses_inv (cs0 ++ cs) (ses_run sm cs).
Proof.
  induction cs as [|c cs IH]; intros t cs0 sm Hc Hu Hi; simpl; [by rewrite app_nil_r|]. destruct Hc as [Hle Hc].
  destruct (ses_inv_step t cs0 sm c Hle Hu Hi) as [Hu' Hi']. specialize (IH c.1 (cs0 ++ [c]) _ Hc Hu' Hi').
  by rewrite <-app_assoc in IH.
Qed.

Lemma used_by_run cs : forall t cs0 sm, ses_clock t cs -> used_by t sm -> ses_inv cs0 sm ->
  used_by (match last cs with Some c => c.1 | None => t end) (ses_run sm cs).
Proof.
  induction cs as [|c cs IH]; intros t cs0 sm Hc Hu Hi; [done|]. destruct Hc as [Hle Hc].
  destruct (ses_inv_step t cs0 sm c Hle Hu Hi) as [Hu' Hi']. rewrite last_cons. specialize (IH c.1 (cs0 ++ [c]) _ Hc Hu' Hi').
  simpl. by destruct (last cs).
Qed.

(** A token is accepted only within its session's life: after any sequence of
    operations with a clock that does not go back, a token that validates belongs
    to a session created with it for that user, whose uses have all come within
    the idle timeout of its type, and, on the web, within eight hours of its
    creation. *)
Theorem session_life cs t now tok sm' s :
  ses_clock t (cs ++ [(now, SValidate tok)]) ->
  Validate now tok (ses_run NewSessionManager cs) = (sm', inl s) ->
  (ses_created s, SCreate tok (ses_username s) (ses_type s)) ∈ cs /\ life (ses_type s) (ses_created s) now.
Proof.
  intros Hc Hv. assert (ses_clock t cs /\ (match last cs with Some c => c.1 | None => t end <= now)%Z) as [Hc1 Hle].
  { clear Hv. revert t Hc. induction cs as [|c cs IH]; intros t; simpl; [tauto|]. intros [H1 H2]. apply IH in H2 as [H2 H3].
    rewrite last_cons. split; [done|]. by destruct (last cs). }
  assert (used_by t NewSessionManager) as Hu by (unfold NewSessionManager; by intros k s0 ?%lookup_empty_Some).
  assert (ses_inv [] NewSessionManager) as Hi by (unfold NewSessionManager; by intros k s0 ?%lookup_empty_Some).
  pose proof (ses_inv_run cs t [] _ Hc1 Hu Hi) as Hinv. pose proof (used_by_run cs t [] _ Hc1 Hu Hi) as Hub.
  apply Validate_ok in Hv as (s0 & Hs & Hl & -> & _). simpl in Hinv.
  pose proof (live_life now s0 cs tok _ Hinv Hs ltac:(specialize (Hub tok s0 Hs); lia) Hl) as Hlife.
  destruct (Hinv tok s0 Hs) as (Hin & _ & _). by simpl.
Qed.

(** ** Cleanup is not observable *)

(** Two managers with the same sessions among those that can still validate at [t]. *)
Definition same_live (t : Z) (a b : SessionManager) : Prop :=
  forall tok, match a !! tok, b !! tok with
              | Some x, Some y => x = y \/ session_live t x = false /\ session_live t y = false
              | Some x, None | None, Some x => session_live t x = false
              | None, None => True
              end.

(** What a call answers, as far as a caller can act on it. *)
Definition answer_seen (r : option (Session + ValidateError)) : option Session :=
  match r with Some (inl s) => Some s | _ => None end.

Lemma same_live_refl t a : same_live t a a.
Proof. intros tok. destruct (a !! tok); auto. Qed.

Lemma same_live_later t t' a b : (t <= t')%Z -> same_live t a b -> same_live t' a b.
Proof.
  intros Hle H tok. specialize (H tok). pose proof (fun s => live_later t t' s Hle) as Hl.
  destruct (a !! tok), (b !! tok); try done; auto. destruct H as [?|[? ?]]; auto.
Qed.

Lemma Validate_live now tok sm :
  Validate now tok sm =
    match sm !! tok with
    | None => (sm, inr UnknownToken)
    | Some s => if session_live now s then (<[tok := refresh now s]> sm, inl (refresh now s))
                else (delete tok sm, inr (if ses_expired now s then SessionExpired else SessionIdle))
    end.
Proof. unfold Validate, session_live. destruct (sm !! tok) as [s|]; [|done]. by destruct (ses_expired now s), (ses_idle now s). Qed.

Lemma same_live_insert t tok s a b : same_live t a b -> same_live t (<[tok := s]> a) (<[tok := s]> b).
Proof.
  intros H k. destruct (decide (tok = k)) as [->|Hn]; [rewrite !lookup_insert_eq; auto|]. rewrite !lookup_insert_ne by done. apply H.
Qed.

Lemma same_live_delete t tok a b : same_live t a b -> same_live t (delete tok a) (delete tok b).
Proof.
  intros H k. destruct (decide (tok = k)) as [->|Hn]; [by rewrite !lookup_delete_eq|]. rewrite !lookup_delete_ne by done. apply H.
Qed.

Lemma same_live_cleanup t a b : same_live t a b -> same_live t (Cleanup t a) b /\ same_live t a (Cleanup t b).
Proof.
  assert (forall m k, Cleanup t m !! k = match m !! k with Some s => if session_live t s then Some s else None | None => None end) as Hc.
  { intros m k. unfold Cleanup. rewrite map_lookup_filter. destruct (m !! k) as [s|]; simpl; [|done].
    unfold session_live. case_guard as H; simpl in *; [by rewrite H|]. apply not_false_is_true in H. by rewrite H. }
  intros H. split; intros k; specialize (H k); rewrite Hc; destruct (a !! k) as [x|], (b !! k) as [y|]; try done;
    try (destruct (session_live t x) eqn:Ex); try (destruct (session_live t y) eqn:Ey); naive_solver.
Qed.

Lemma same_live_step t a b c : (t <= c.1)%Z -> same_live t a b ->
  same_live c.1 (ses_step a c).1 (ses_step b c).1 /\ answer_seen (ses_step a c).2 = answer_seen (ses_step b c).2.
Proof.
  intros Hle H. apply (same_live_later t c.1) in H; [|done]. destruct c as [now op]. cbn [fst] in *.
  destruct op as [tok u st|tok|tok| |]; cbn [ses_step fst snd].
  - split; [|done]. by apply same_live_insert.
  - rewrite !Validate_live. pose proof (H tok) as Ht. pose proof (same_live_delete now tok a b H) as Hd.
    pose proof (fun s => same_live_insert now tok s a b H) as Hins.
    destruct (a !! tok) as [x|] eqn:Ea, (b !! tok) as [y|] eqn:Eb.
    + destruct Ht as [->|[Hx Hy]]; [destruct (session_live now y); cbn [fst snd]; auto|]. rewrite Hx, Hy. cbn [fst snd]. auto.
    + rewrite Ht. cbn [fst snd]. split; [|done]. intros k. specialize (Hd k). destruct (decide (tok = k)) as [->|Hn]; [by rewrite lookup_delete_eq, Eb|].
      rewrite !lookup_delete_ne in Hd by done. by rewrite lookup_delete_ne by done.
    + rewrite Ht. cbn [fst snd]. split; [|done]. intros k. specialize (Hd k). destruct (decide (tok = k)) as [->|Hn]; [by rewrite lookup_delete_eq, Ea|].
      rewrite !lookup_delete_ne in Hd by done. by rewrite lookup_delete_ne by done.
    + done.
  - split; [|done]. by apply same_live_delete.
  - done.
  - split; [|done]. by apply same_live_cleanup, same_live_cleanup.
Qed.

(** The answers of a sequence. *)
Fixpoint ses_answers (sm : SessionManager) (cs : list (Z * SesOp)) : list (option Session) :=
  match cs with [] => [] | c :: cs' => answer_seen (ses_step sm c).2 :: ses_answers (ses_step sm c).1 cs' end.

Lemma same_live_answers cs : forall t a b, ses_clock t cs -> same_live t a b -> ses_answers a cs = ses_answers b cs.
Proof.
  induction cs as [|c cs IH]; intros t a b Hc H; simpl; [done|]. destruct Hc as [Hle Hc].
  destruct (same_live_step t a b c Hle H) as [H1 ->]. f_equal. by eapply IH.
Qed.

(** The periodic cleanup changes nothing a caller can see: the same calls, at times
    after it, are accepted with the same sessions whether it runs or not. *)
Theorem cleanup_unobservable sm t cs :
  ses_clock t cs -> ses_answers (Cleanup t sm) cs = ses_answers sm cs.
Proof. intros Hc. eapply same_live_answers; [exact Hc|]. apply same_live_cleanup, same_live_refl. Qed.
