(* ===== verification/LocalAccess.v ===== *)
(** * Local access

    The ways into the agent from its own machine: [agent/localauth/ipc.go] and
    [agent/localcli] (the methods of the IPC router and their authentication),
    [agent/ipc/handler.go] (dispatch), [agent/localui/server.go] (the web UI) and
    [agent/localaudit/audit.go] (the local audit log).  They share the sessions
    ([Sessions]) and the CDM manager ([Cdm]).  The operating system decides on
    credentials: [Authenticate] is a parameter. *)

From S2P Require Import Prelude Cdm Sessions.

(** ** agent/localaudit/audit.go *)

Definition ActionAuthSuccess := "auth.success".
Definition ActionAuthFailure := "auth.failure".
Definition ActionCDMToggle := "cdm.toggle".
Definition ActionCDMGrant := "cdm.session.grant".
Definition ActionCDMRevoke := "cdm.session.revoke".
Definition ActionConfigView := "config.view".
Definition InterfaceCLI := "cli".
Definition InterfaceUI := "ui".

Record Entry := {
  en_timestamp : Z;
  en_action : string;
  en_username : string;
  en_interface : string;
  en_old_state : string;
  en_new_state : string;
  en_duration : string;
  en_expires_at : option Z;
  en_reason : string;
}.

(** The log file as its entries; a write that fails loses the entry. *)
Notation LocalLog := (list Entry).

Definition log_write (at_ : option Z) (e : Z -> Entry) (l : LocalLog) : LocalLog :=
  match at_ with Some t => l ++ [e t] | None => l end.

Definition mk_entry (action username iface old new duration : string) (expires : option Z) (reason : string) (t : Z) : Entry :=
  {| en_timestamp := t; en_action := action; en_username := username; en_interface := iface; en_old_state := old;
     en_new_state := new; en_duration := duration; en_expires_at := expires; en_reason := reason |}.

Definition LogAuthSuccess (username iface : string) := mk_entry ActionAuthSuccess username iface "" "" "" None "".
Definition LogAuthFailure (username iface reason : string) := mk_entry ActionAuthFailure username iface "" "" "" None reason.
Definition LogCDMToggle (username iface old new : string) := mk_entry ActionCDMToggle username iface old new "" None "".
Definition LogCDMGrant (username iface duration : string) (expires : option Z) :=
  mk_entry ActionCDMGrant username iface "" "" duration expires "".
Definition LogCDMRevoke (username iface reason : string) := mk_entry ActionCDMRevoke username iface "" "" "" None reason.
Definition LogConfigView (username iface : string) := mk_entry ActionConfigView username iface "" "" "" None "".

(** The last [limit] entries (all for zero), most recent first. *)
Definition Read (limit : nat) (l : LocalLog) : LocalLog :=
  let all := if (0 <? limit)%nat && (limit <? length l)%nat then drop (length l - limit) l else l in
  reverse all.

Definition cdm_entry (e : Entry) : bool :=
  (en_action e =s ActionCDMToggle) || (en_action e =s ActionCDMGrant) || (en_action e =s ActionCDMRevoke).

Definition ReadCDMOnly (limit : nat) (l : LocalLog) : LocalLog :=
  let filtered := filter (fun e => cdm_entry e = true) (Read 0 l) in
  if (0 <? limit)%nat && (limit <? length filtered)%nat then take limit filtered else filtered.

(** ** The world *)

Record Local := { lw_sessions : SessionManager; lw_cdm : World; lw_log : LocalLog }.

(** What the system answers during one request. *)
Record LIo := {
  li_now : Z;               (* time.Now() of the session manager *)
  li_token : option string; (* generateToken *)
  li_cdm : Io;
  li_audit : option Z;      (* time of the audit entry; None when it is lost *)
  li_expires : Z;           (* time.Now() of the audited expiry *)
  li_log_lines : option (list string); (* the agent's log file *)
}.

Definition put_sessions (sm : SessionManager) (w : Local) : Local := {| lw_sessions := sm; lw_cdm := lw_cdm w; lw_log := lw_log w |}.
Definition put_cdm (c : World) (w : Local) : Local := {| lw_sessions := lw_sessions w; lw_cdm := c; lw_log := lw_log w |}.
Definition put_entry (io : LIo) (e : Z -> Entry) (w : Local) : Local :=
  {| lw_sessions := lw_sessions w; lw_cdm := lw_cdm w; lw_log := log_write (li_audit io) e (lw_log w) |}.

Definition CodeMethodNotFound : Z := -32601.
Definition CodeInvalidParams : Z := -32602.
Definition CodeInternal : Z := -32603.
Definition CodeUnauthorized : Z := -32001.

(** What a request of either interface returns; [code] is the IPC error code or
    the HTTP status. *)
Inductive Reply :=
| Failed (code : Z)
| Okay
| LoggedIn (token : string) (expires : Z)
| Validity (username : option string)
| Status (s : State)
| Lines (l : list string)
| Entries (l : LocalLog).

Section Access.
Context (Authenticate : string -> string -> bool).

(** ** agent/localauth/ipc.go *)

(** Parameters that do not unmarshal are [None]. *)
Definition auth_login (io : LIo) (params : option (string * string)) (w : Local) : Local * Reply :=
  match params with
  | None => (w, Failed CodeInvalidParams)
  | Some (username, password) =>
      if (username =s "") || (password =s "") then (w, Failed CodeInvalidParams)
      else if negb (Authenticate username password)
      then (put_entry io (LogAuthFailure username InterfaceCLI "invalid credentials") w, Failed CodeUnauthorized)
      else
        match CreateSession (li_token io) (li_now io) username SessionCLI (lw_sessions w) with
        | (_, None) => (w, Failed CodeInternal)
        | (sm, Some (tok, s)) =>
            (put_entry io (LogAuthSuccess username InterfaceCLI) (put_sessions sm w), LoggedIn tok (ses_expires s))
        end
  end.

Definition auth_validate (io : LIo) (params : option string) (w : Local) : Local * Reply :=
  match params with
  | None => (w, Failed CodeInvalidParams)
  | Some token =>
      match Validate (li_now io) token (lw_sessions w) with
      | (sm, inl s) => (put_sessions sm w, Validity (Some (ses_username s)))
      | (sm, inr _) => (put_sessions sm w, Validity None)
      end
  end.

Definition auth_logout (params : option string) (w : Local) : Local * Reply :=
  match params with
  | None => (w, Failed CodeInvalidParams)
  | Some token => (put_sessions (RevokeToken token (lw_sessions w)) w, Okay)
  end.

(** ** agent/localcli *)

Definition RequireAuthMiddleware (next : LIo -> Local -> Local * Reply) (token : string) (io : LIo) (w : Local) : Local * Reply :=
  if token =s "" then (w, Failed CodeUnauthorized)
  else
    match Validate (li_now io) token (lw_sessions w) with
    | (sm, inr _) => (put_sessions sm w, Failed CodeUnauthorized)
    | (sm, inl _) => next io (put_sessions sm w)
    end.

(** A call of the CDM manager, and the audit entry of its success. *)
Definition cdm_do (op : Op) (err : Z) (e : Z -> Entry) (io : LIo) (w : Local) : Local * Reply :=
  match cdm_step (lw_cdm w) (li_cdm io, op) with
  | (c, AError) => (put_cdm c w, Failed err)
  | (c, _) => (put_entry io e (put_cdm c w), Okay)
  end.

Definition snapshot (k : State -> Reply) (w : Local) (io : LIo) : Local * Reply :=
  match cdm_step (lw_cdm w) (li_cdm io, OSnapshot) with
  | (c, AState s) => (put_cdm c w, k s)
  | (c, _) => (put_cdm c w, Failed CodeInternal)
  end.

Definition agent_status (io : LIo) (w : Local) : Local * Reply :=
  let '(w', r) := snapshot Status w io in (put_entry io (LogConfigView "" InterfaceCLI) w', r).

Definition cdm_status (io : LIo) (w : Local) : Local * Reply := snapshot Status w io.

(** The actor is the one the caller names. *)
Definition cdm_enable (params : option string) (io : LIo) (w : Local) : Local * Reply :=
  match params with
  | None => (w, Failed CodeInvalidParams)
  | Some actor => cdm_do (OEnable actor) CodeInternal (LogCDMToggle actor InterfaceCLI "disabled" "enabled") io w
  end.

Definition cdm_disable (params : option string) (io : LIo) (w : Local) : Local * Reply :=
  match params with
  | None => (w, Failed CodeInvalidParams)
  | Some actor => cdm_do (ODisable actor) CodeInternal (LogCDMToggle actor InterfaceCLI "enabled" "disabled") io w
  end.

(** The duration as text and as parsed, [None] when it does not parse. *)
Definition cdm_grant (params : option (string * string * option Z)) (io : LIo) (w : Local) : Local * Reply :=
  match params with
  | None => (w, Failed CodeInvalidParams)
  | Some (_, _, None) => (w, Failed CodeInvalidParams)
  | Some (actor, text, Some dur) =>
      if (dur <=? 0)%Z then (w, Failed CodeInvalidParams)
      else cdm_do (OGrant actor dur) CodeInternal (LogCDMGrant actor InterfaceCLI text (Some (li_expires io + dur)%Z)) io w
  end.

Definition cdm_revoke (params : option string) (io : LIo) (w : Local) : Local * Reply :=
  match params with
  | None => (w, Failed CodeInvalidParams)
  | Some actor => cdm_do (ORevoke actor) CodeInternal (LogCDMRevoke actor InterfaceCLI "user request") io w
  end.

Definition readTailLines (n : nat) (all : list string) : list string :=
  if (n <? length all)%nat then drop (length all - n) all else all.

Definition agent_logs (tail : Z) (io : LIo) (w : Local) : Local * Reply :=
  let n := if (tail <=? 0)%Z then 50%nat else Z.to_nat tail in
  match li_log_lines io with
  | None => (w, Failed CodeInternal)
  | Some all => (w, Lines (readTailLines n all))
  end.

Definition agent_audit (io : LIo) (w : Local) : Local * Reply := (w, Entries (ReadCDMOnly 100 (lw_log w))).

(** ** agent/ipc/handler.go *)

Inductive Method :=
| MLogin (params : option (string * string))
| MValidate (params : option string)
| MLogout (params : option string)
| MStatus
| MCdmStatus
| MEnable (params : option string)
| MDisable (params : option string)
| MGrant (params : option (string * string * option Z))
| MRevoke (params : option string)
| MLogs (tail : Z)
| MAudit
| MUnknown.

Definition Dispatch (token : string) (m : Method) (io : LIo) (w : Local) : Local * Reply :=
  let guarded next := RequireAuthMiddleware next token io w in
  match m with
  | MLogin p => auth_login io p w
  | MValidate p => auth_validate io p w
  | MLogout p => auth_logout p w
  | MStatus => guarded agent_status
  | MCdmStatus => guarded cdm_status
  | MEnable p => guarded (cdm_enable p)
  | MDisable p => guarded (cdm_disable p)
  | MGrant p => guarded (cdm_grant p)
  | MRevoke p => guarded (cdm_revoke p)
  | MLogs n => guarded (agent_logs n)
  | MAudit => guarded agent_audit
  | MUnknown => (w, Failed CodeMethodNotFound)
  end.

(** ** agent/localui/server.go *)

Definition requireAuth (next : string -> LIo -> Local -> Local * Reply) (cookie : option string) (io : LIo) (w : Local) : Local * Reply :=
  match cookie with
  | None => (w, Failed 401)
  | Some token =>
      match Validate (li_now io) token (lw_sessions w) with
      | (sm, inr _) => (put_sessions sm w, Failed 401)
      | (sm, inl s) => next (ses_username s) io (put_sessions sm w)
      end
  end.

Definition handleLogin (io : LIo) (body : option (string * string)) (w : Local) : Local * Reply :=
  match body with
  | None => (w, Failed 400)
  | Some (username, password) =>
      if (username =s "") || (password =s "") then (w, Failed 400)
      else if negb (Authenticate username password)
      then (put_entry io (LogAuthFailure username InterfaceUI "invalid credentials") w, Failed 401)
      else
        match CreateSession (li_token io) (li_now io) username SessionWeb (lw_sessions w) with
        | (_, None) => (w, Failed 500)
        | (sm, Some (tok, s)) =>
            (put_entry io (LogAuthSuccess username InterfaceUI) (put_sessions sm w), LoggedIn tok (ses_expires s))
        end
  end.

Definition handleLogout (cookie : option string) (_ : string) (_ : LIo) (w : Local) : Local * Reply :=
  (match cookie with Some token => put_sessions (RevokeToken token (lw_sessions w)) w | None => w end, Okay).

Definition handleStatus (_ : string) (io : LIo) (w : Local) : Local * Reply := snapshot Status w io.
Definition handleCDMStatus (_ : string) (io : LIo) (w : Local) : Local * Reply := snapshot Status w io.

Definition handleCDMEnable (username : string) : LIo -> Local -> Local * Reply :=
  cdm_do (OEnable username) 500 (LogCDMToggle username InterfaceUI "disabled" "enabled").

Definition handleCDMDisable (username : string) : LIo -> Local -> Local * Reply :=
  cdm_do (ODisable username) 500 (LogCDMToggle username InterfaceUI "enabled" "disabled").

Definition handleCDMGrant (body : option (string * option Z)) (username : string) (io : LIo) (w : Local) : Local * Reply :=
  match body with
  | None => (w, Failed 400)
  | Some (_, None) => (w, Failed 400)
  | Some (text, Some dur) =>
      if (dur <=? 0)%Z then (w, Failed 400)
      else cdm_do (OGrant username dur) 409 (LogCDMGrant username InterfaceUI text (Some (li_expires io + dur)%Z)) io w
  end.

Definition handleCDMRevoke (username : string) : LIo -> Local -> Local * Reply :=
  cdm_do (ORevoke username) 409 (LogCDMRevoke username InterfaceUI "user request").

Definition handleAuditLog (_ : string) (_ : LIo) (w : Local) : Local * Reply := (w, Entries (ReadCDMOnly 100 (lw_log w))).

Inductive Page :=
| PLogin (body : option (string * string))
| PLogout
| PStatus
| PCdm
| PEnable
| PDisable
| PGrant (body : option (string * option Z))
| PRevoke
| PAudit.

Definition serve_page (cookie : option string) (p : Page) (io : LIo) (w : Local) : Local * Reply :=
  let guarded next := requireAuth next cookie io w in
  match p with
  | PLogin b => handleLogin io b w
  | PLogout => guarded (handleLogout cookie)
  | PStatus => guarded handleStatus
  | PCdm => guarded handleCDMStatus
  | PEnable => guarded handleCDMEnable
  | PDisable => guarded handleCDMDisable
  | PGrant b => guarded (handleCDMGrant b)
  | PRevoke => guarded handleCDMRevoke
  | PAudit => guarded handleAuditLog
  end.

(** ** The agent's life *)

(** A request over either interface, a call of the executor or the poller on the
    CDM manager, the periodic cleanup, or a restart of the agent, which loses the
    sessions. *)
Inductive Event :=
| EvIpc (token : string) (m : Method)
| EvWeb (cookie : option string) (p : Page)
| EvAsk (op : Op)
| EvCleanup
| EvRestart.

(** Without a CDM manager the agent does not start, and answers nothing. *)
Definition local_step (ev : Event) (io : LIo) (w : Local) : Local :=
  match ev, w_mem (lw_cdm w) with
  | EvRestart, _ => put_sessions NewSessionManager (put_cdm (cdm_step (lw_cdm w) (li_cdm io, ORestart)).1 w)
  | _, None => w
  | EvIpc token m, Some _ => (Dispatch token m io w).1
  | EvWeb cookie p, Some _ => (serve_page cookie p io w).1
  | EvAsk op, Some _ => put_cdm (cdm_step (lw_cdm w) (li_cdm io, op)).1 w
  | EvCleanup, Some _ => put_sessions (Cleanup (li_now io) (lw_sessions w)) w
  end.
End Access.
