(* ===== verification/LocalSpecs.v ===== *)
(** * Theorems on local access

    The consent that CDM asks for is given only by someone whose credentials the
    operating system accepted; over the web UI in their own name, over IPC in any
    name. *)

From S2P Require Import Prelude Cdm Sessions LocalAccess.

Section Specs.
Context (Authenticate : string -> string -> bool).
Notation step := (local_step Authenticate).

(** The user of a session token, at the time of the request. *)
Definition session_user (io : LIo) (token : string) (w : Local) : option string :=
  match Validate (li_now io) token (lw_sessions w) with (_, inl s) => Some (ses_username s) | _ => None end.

(** The call on the CDM manager that a method asks for. *)
Definition method_op (m : Method) : option Op :=
  match m with
  | MStatus | MCdmStatus => Some OSnapshot
  | MEnable (Some a) => Some (OEnable a)
  | MDisable (Some a) => Some (ODisable a)
  | MGrant (Some (a, _, Some d)) => if (d <=? 0)%Z then None else Some (OGrant a d)
  | MRevoke (Some a) => Some (ORevoke a)
  | _ => None
  end.

Definition page_op (user : string) (p : Page) : option Op :=
  match p with
  | PStatus | PCdm => Some OSnapshot
  | PEnable => Some (OEnable user)
  | PDisable => Some (ODisable user)
  | PGrant (Some (_, Some d)) => if (d <=? 0)%Z then None else Some (OGrant user d)
  | PRevoke => Some (ORevoke user)
  | _ => None
  end.

(** The calls an event makes on the CDM manager, with the session's user; those of
    the agent itself have none. *)
Definition cdm_calls (ev : Event) (io : LIo) (w : Local) : list (option string * (Io * Op)) :=
  match ev, w_mem (lw_cdm w) with
  | EvRestart, _ => [(None, (li_cdm io, ORestart))]
  | _, None => []
  | EvIpc token m, Some _ =>
      match (if token =s "" then None else session_user io token w), method_op m with
      | Some u, Some op => [(Some u, (li_cdm io, op))]
      | _, _ => []
      end
  | EvWeb (Some token) p, Some _ =>
      match session_user io token w with
      | Some u => match page_op u p with Some op => [(Some u, (li_cdm io, op))] | None => [] end
      | None => []
      end
  | EvWeb None _, Some _ => []
  | EvAsk op, Some _ => [(None, (li_cdm io, op))]
  | EvCleanup, Some _ => []
  end.

Lemma cdm_do_cdm op err e io w : lw_cdm (cdm_do op err e io w).1 = (cdm_step (lw_cdm w) (li_cdm io, op)).1.
Proof. unfold cdm_do. by destruct (cdm_step _ _) as [c []]. Qed.

Lemma snapshot_cdm k w io : lw_cdm (snapshot k w io).1 = (cdm_step (lw_cdm w) (li_cdm io, OSnapshot)).1.
Proof. unfold snapshot. by destruct (cdm_step _ _) as [c []]. Qed.

Lemma cdm_do_sessions op err e io w : lw_sessions (cdm_do op err e io w).1 = lw_sessions w.
Proof. unfold cdm_do. by destruct (cdm_step _ _) as [c []]. Qed.

Lemma snapshot_sessions k w io : lw_sessions (snapshot k w io).1 = lw_sessions w.
Proof. unfold snapshot. by destruct (cdm_step _ _) as [c []]. Qed.

Lemma cdm_run_one w c : (cdm_run w [c]).1 = (cdm_step w c).1.
Proof. simpl. by destruct (cdm_step w c). Qed.

Lemma status_cdm io w : lw_cdm (agent_status io w).1 = (cdm_step (lw_cdm w) (li_cdm io, OSnapshot)).1.
Proof. unfold agent_status. rewrite <-(snapshot_cdm Status w io). by destruct (snapshot _ _ _). Qed.

Lemma status_sessions io w : lw_sessions (agent_status io w).1 = lw_sessions w.
Proof. unfold agent_status. pose proof (snapshot_sessions Status w io) as H. by destruct (snapshot _ _ _). Qed.

(** What a method does to the manager. *)
Lemma method_cdm token m io w :
  lw_cdm (Dispatch Authenticate token m io w).1 =
    (cdm_run (lw_cdm w) (match (if token =s "" then None else session_user io token w), method_op m with
                         | Some u, Some op => [(li_cdm io, op)] | _, _ => [] end)).1.
Proof.
  unfold Dispatch. destruct m as [[[u p]|]|[t|]|[t|]| | |[a|]|[a|]|[[[a x] [d|]]|]|[a|]|n| |];
    cbn [method_op]; unfold RequireAuthMiddleware, session_user, auth_login, auth_validate, auth_logout;
    destruct (token =s ""); try done;
    try (destruct (Validate (li_now io) token (lw_sessions w)) as [sm [s|e]]; try done);
    unfold cdm_status, cdm_enable, cdm_disable, cdm_grant, cdm_revoke, agent_logs, agent_audit;
    rewrite ?cdm_run_one; try (by repeat case_match); rewrite ?status_cdm, ?snapshot_cdm, ?cdm_do_cdm; try done.
  destruct (d <=? 0)%Z; [done|]. by rewrite cdm_run_one, cdm_do_cdm.
Qed.

Lemma page_cdm cookie p io w :
  lw_cdm (serve_page Authenticate cookie p io w).1 =
    (cdm_run (lw_cdm w) (match cookie with
                         | Some token => match session_user io token w with
                                         | Some u => match page_op u p with Some op => [(li_cdm io, op)] | None => [] end
                                         | None => [] end
                         | None => [] end)).1.
Proof.
  unfold serve_page. destruct cookie as [token|].
  2: { destruct p as [[[u x]|]| | | | | |[[t [d|]]|]| |]; cbn [requireAuth]; try done. unfold handleLogin. by repeat case_match. }
  unfold session_user. destruct p as [[[u x]|]| | | | | |[[t [d|]]|]| |]; cbn [requireAuth page_op]; unfold handleLogin;
    destruct (Validate (li_now io) token (lw_sessions w)) as [sm [s|e]]; try done; try (by repeat case_match);
    unfold handleLogout, handleStatus, handleCDMStatus, handleCDMEnable, handleCDMDisable, handleCDMGrant, handleCDMRevoke, handleAuditLog;
    rewrite ?cdm_run_one, ?snapshot_cdm, ?cdm_do_cdm; try done.
  destruct (d <=? 0)%Z; [done|]. by rewrite cdm_run_one, cdm_do_cdm.
Qed.

(** An event is its calls on the manager. *)
Lemma event_cdm ev io w : lw_cdm (step ev io w) = (cdm_run (lw_cdm w) (snd <$> cdm_calls ev io w)).1.
Proof.
  unfold local_step, cdm_calls. destruct ev as [token m|cookie p|op| |]; [..|by rewrite <-cdm_run_one];
    (destruct (w_mem (lw_cdm w)) eqn:Em; [|by first [done|destruct cookie]]).
  - rewrite method_cdm. by destruct (if token =s "" then None else _), (method_op m).
  - rewrite page_cdm. destruct cookie as [token|]; [|done]. destruct (session_user io token w) as [u|]; [|done]. by destruct (page_op u p).
  - by rewrite <-cdm_run_one.
  - done.
Qed.

(** ** Sessions come from logins *)

Definition login_of (ev : Event) : option (string * string) :=
  match ev with EvIpc _ (MLogin p) => p | EvWeb _ (PLogin b) => b | _ => None end.

(** [u] has logged in, with a password that the system accepted. *)
Definition logged_in (evs : list Event) (u : string) : Prop :=
  exists pw ev, ev ∈ evs /\ login_of ev = Some (u, pw) /\ Authenticate u pw = true.

Definition owned (evs : list Event) (sm : SessionManager) : Prop :=
  forall tok s, sm !! tok = Some s -> logged_in evs (ses_username s).

Lemma logged_in_mono evs evs' u : evs ⊆ evs' -> logged_in evs u -> logged_in evs' u.
Proof. intros Hs (pw & ev & H1 & H2). exists pw, ev. split; [by apply Hs|done]. Qed.

Lemma owned_validate evs now tok sm : owned evs sm -> owned evs (Validate now tok sm).1.
Proof.
  intros Ho. rewrite Validate_live. destruct (sm !! tok) as [s|] eqn:Hs; [|done].
  destruct (session_live now s); cbn [fst]; intros k s'; [rewrite lookup_insert_Some|rewrite lookup_delete_Some]; naive_solver.
Qed.

Lemma owned_user evs io tok w u : owned evs (lw_sessions w) -> session_user io tok w = Some u -> logged_in evs u.
Proof.
  intros Ho. unfold session_user. destruct (Validate _ _ _) as [sm [s|]] eqn:Hv; [|done]. intros [= <-].
  apply Validate_ok in Hv as (s0 & Hs & _ & -> & _). simpl. by apply (Ho tok).
Qed.

Lemma owned_sub evs sm sm' : (forall tok s, sm' !! tok = Some s -> sm !! tok = Some s) -> owned evs sm -> owned evs sm'.
Proof. intros Hs Ho tok s H. eapply Ho. by apply Hs. Qed.

Lemma owned_create evs ev u pw io st sm :
  ev ∈ evs -> login_of ev = Some (u, pw) -> Authenticate u pw = true -> owned evs sm ->
  owned evs (CreateSession (li_token io) (li_now io) u st sm).1.
Proof.
  intros Hin Hl Ha Ho. unfold CreateSession. destruct (li_token io) as [tok|]; [|done]. cbn [fst]. intros k s.
  rewrite lookup_insert_Some. intros [[_ <-]|[_ Hs]]; [|by eapply Ho]. simpl. by exists pw, ev.
Qed.

(** The sessions after a method or a page, given how they were validated. *)
Lemma event_owned evs ev io w : ev ∈ evs -> owned evs (lw_sessions w) -> owned evs (lw_sessions (step ev io w)).
Proof.
  intros Hin Ho. pose proof (fun tok => owned_validate evs (li_now io) tok _ Ho) as Hv.
  assert (forall tok sm r, Validate (li_now io) tok (lw_sessions w) = (sm, r) -> owned evs sm) as Hval.
  { intros tok sm r E. specialize (Hv tok). by rewrite E in Hv. }
  unfold local_step. destruct ev as [token m|cookie p|op| |].
  5: { simpl. unfold NewSessionManager. by intros tok s ?%lookup_empty_Some. }
  all: destruct (w_mem (lw_cdm w)) as [st|]; [|done].
  - unfold Dispatch. destruct m as [[[u p]|]|[t|]|[t|]| | |[a|]|[a|]|[[[a x] [d|]]|]|[a|]|n| |];
      unfold RequireAuthMiddleware, auth_validate, auth_logout;
      try (match goal with |- context [token =s ""] => destruct (token =s ""); [done|] end);
      try (match goal with |- context [Validate _ ?tk _] =>
             destruct (Validate (li_now io) tk (lw_sessions w)) as [sm [s|e]] eqn:E; apply Hval in E; try done end);
      unfold cdm_status, cdm_enable, cdm_disable, cdm_grant, cdm_revoke, agent_logs, agent_audit;
      rewrite ?status_sessions, ?snapshot_sessions, ?cdm_do_sessions; try done; try (by repeat case_match).
    + unfold auth_login. destruct (_ || _); [done|]. destruct (Authenticate u p) eqn:Ea; [|done]. cbn [negb].
      pose proof (owned_create evs _ u p io SessionCLI _ Hin eq_refl Ea Ho) as Hc.
      destruct (CreateSession _ _ _ _ _) as [sm [[tok s]|]]; done.
    + eapply owned_sub; [|exact Ho]. simpl. unfold RevokeToken. by intros k s [_ ?]%lookup_delete_Some.
    + destruct (d <=? 0)%Z; [done|]. by rewrite cdm_do_sessions.
  - unfold serve_page. destruct p as [[[u x]|]| | | | | |[[t [d|]]|]| |];
      try (destruct cookie as [token|]; cbn [requireAuth]; [|done];
           destruct (Validate (li_now io) token (lw_sessions w)) as [sm [s|e]] eqn:E; apply Hval in E; try done);
      unfold handleLogout, handleStatus, handleCDMStatus, handleCDMEnable, handleCDMDisable, handleCDMGrant, handleCDMRevoke, handleAuditLog;
      rewrite ?snapshot_sessions, ?cdm_do_sessions; try done.
    + unfold handleLogin. destruct (_ || _); [done|]. destruct (Authenticate u x) eqn:Ea; [|done]. cbn [negb].
      pose proof (owned_create evs _ u x io SessionWeb _ Hin eq_refl Ea Ho) as Hc.
      destruct (CreateSession _ _ _ _ _) as [sm [[tok s]|]]; done.
    + eapply owned_sub; [|exact E]. simpl. unfold RevokeToken. by intros k s' [_ ?]%lookup_delete_Some.
    + destruct (d <=? 0)%Z; [done|]. by rewrite cdm_do_sessions.
  - done.
  - eapply owned_sub; [|exact Ho]. simpl. unfold Cleanup. by intros k s [? _]%map_lookup_filter_Some.
Qed.

(** ** Histories *)

(** The calls of the agent itself on the manager only ask. *)
Definition asks (ev : Event) : Prop :=
  match ev with EvAsk op => op = OSnapshot \/ op = OCanExecute \/ op = OSessionActive | _ => True end.

Definition fresh_agent (cdm_log : option (list CdmEntry)) (log : LocalLog) : Local :=
  {| lw_sessions := NewSessionManager; lw_cdm := installed cdm_log; lw_log := log |}.

Inductive local_history (w0 : Local) : list Event -> list (option string * (Io * Op)) -> Local -> Prop :=
| lo_start : local_history w0 [] [] w0
| lo_step evs calls w ev io : local_history w0 evs calls w -> asks ev ->
    local_history w0 (evs ++ [ev]) (calls ++ cdm_calls ev io w) (step ev io w).

Lemma calls_user evs ev io w c : asks ev -> owned evs (lw_sessions w) -> c ∈ cdm_calls ev io w ->
  match c.1 with
  | Some u => logged_in evs u
  | None => c.2.2 = OSnapshot \/ c.2.2 = OCanExecute \/ c.2.2 = OSessionActive \/ c.2.2 = ORestart
  end.
Proof.
  intros Hask Ho. unfold cdm_calls. destruct ev as [token m|[token|] p|op| |]; [..|rewrite list_elem_of_singleton; intros ->; simpl; auto];
    destruct (w_mem (lw_cdm w)); try (by intros ?%elem_of_nil).
  - destruct (token =s ""); [by intros ?%elem_of_nil|]. destruct (session_user io token w) as [u|] eqn:Hu; [|by intros ?%elem_of_nil].
    destruct (method_op m); [|by intros ?%elem_of_nil]. rewrite list_elem_of_singleton. intros ->. by eapply owned_user.
  - destruct (session_user io token w) as [u|] eqn:Hu; [|by intros ?%elem_of_nil].
    destruct (page_op u p); [|by intros ?%elem_of_nil]. rewrite list_elem_of_singleton. intros ->. by eapply owned_user.
  - rewrite list_elem_of_singleton. intros ->. simpl in *. tauto.
Qed.

Lemma local_history_inv cdm_log log evs calls w : local_history (fresh_agent cdm_log log) evs calls w ->
  lw_cdm w = (cdm_run (installed cdm_log) (snd <$> calls)).1 /\ owned evs (lw_sessions w) /\
  Forall (fun c => match c.1 with
                   | Some u => logged_in evs u
                   | None => c.2.2 = OSnapshot \/ c.2.2 = OCanExecute \/ c.2.2 = OSessionActive \/ c.2.2 = ORestart
                   end) calls.
Proof.
  induction 1 as [|evs calls w ev io _ (IH1 & IH2 & IH3) Hask].
  { split_and!; [done| |constructor]. simpl. unfold NewSessionManager. by intros tok s ?%lookup_empty_Some. }
  assert (evs ⊆ evs ++ [ev]) as Hsub by set_solver.
  assert (owned (evs ++ [ev]) (lw_sessions w)) as Ho by (intros tok s Hs; eapply logged_in_mono; [exact Hsub|]; by eapply IH2).
  split_and!.
  - rewrite event_cdm, IH1, fmap_app. symmetry. apply cdm_run_app.
  - apply event_owned; [set_solver|done].
  - apply Forall_app. split.
    + eapply Forall_impl; [exact IH3|]. intros [[u|] c]; simpl; [|done]. by apply logged_in_mono.
    + apply Forall_forall. intros c Hc. by apply (calls_user _ ev io w).
Qed.

(** C14: The owner's consent comes from a login: in any history of requests over IPC and
    the web UI, questions of the executor, cleanups and restarts of a freshly
    installed agent, whatever file operations fail, a job may start while CDM is
    on only within a session that was granted in a request with a live session
    token of a user whose credentials the operating system had accepted, and no
    later than the grant allows. *)
Theorem consent_from_login cdm_log log evs calls w io s :
  local_history (fresh_agent cdm_log log) evs calls w ->
  (cdm_step (lw_cdm w) (io, OCanExecute)).2 = ABool true -> w_mem (lw_cdm w) = Some s -> st_enabled s = true ->
  exists u io' d, logged_in evs u /\ (Some u, (io', OGrant (st_session_granted_by s) d)) ∈ calls /\
    (io_now io <= io_now io' + d)%Z.
Proof.
  intros (Hcdm & _ & Hcalls)%local_history_inv Hyes Hs He. rewrite Hcdm in Hs, Hyes.
  destruct (granted_in_time _ _ _ _ Hyes Hs He) as (io' & d & Hin & Hle).
  apply list_elem_of_fmap in Hin as ([o c] & Ec & Hin). simpl in Ec. subst c.
  rewrite Forall_forall in Hcalls. specialize (Hcalls _ Hin). simpl in Hcalls.
  destruct o as [u|]; [by exists u, io', d|]. by destruct Hcalls as [?|[?|[?|?]]].
Qed.

(** Over IPC the name is the caller's choice: any local user with a session can
    open a CDM session in the name of anyone, and both audit logs then name that
    person. *)
Theorem ipc_actor_unchecked token actor text d io w s st lg t :
  token <> "" -> lw_sessions w !! token = Some s -> session_live (li_now io) s = true -> (0 < d)%Z ->
  w_mem (lw_cdm w) = Some st -> st_enabled st = true -> write_ok (li_cdm io) = true ->
  w_log (lw_cdm w) = Some lg -> io_audit (li_cdm io) = Some t -> li_audit io = Some t ->
  let w' := (Dispatch Authenticate token (MGrant (Some (actor, text, Some d))) io w).1 in
  (exists st', w_mem (lw_cdm w') = Some st' /\ st_session_active st' = true /\ st_session_granted_by st' = actor) /\
  (exists e, w_log (lw_cdm w') = Some (lg ++ [e]) /\ ce_actor e = actor) /\
  (exists e, lw_log w' = lw_log w ++ [e] /\ en_username e = actor).
Proof.
  intros Htok Hs Hl Hd Hm He Hw Hlg Ha Hla. cbn [Dispatch]. unfold RequireAuthMiddleware.
  apply seqb_neq in Htok. rewrite Htok, Validate_live, Hs, Hl. unfold cdm_grant. destruct (Z.leb_spec d 0); [lia|].
  unfold cdm_do. cbn [put_sessions lw_cdm]. unfold cdm_step. rewrite Hm. unfold GrantSession. rewrite He, Hw. cbn [negb fst].
  split_and!.
  - eexists. split; [done|]. done.
  - cbn. rewrite Hlg. unfold Write. rewrite Ha. by eexists.
  - cbn. rewrite Hla. by eexists.
Qed.

(** ** The filtered view of the local audit log *)

(** What local users are shown: at most a hundred CDM entries, the latest ones,
    most recent first, and no login or failed login among them. *)
Theorem cdm_view_spec l :
  let view := ReadCDMOnly 100 l in
  view = take 100 (reverse (filter (fun e => cdm_entry e = true) l)) /\ length view <= 100 /\
  forall e, e ∈ view -> e ∈ l /\ en_action e <> ActionAuthSuccess /\ en_action e <> ActionAuthFailure.
Proof.
  cbv zeta. assert (ReadCDMOnly 100 l = take 100 (reverse (filter (fun e => cdm_entry e = true) l))) as E.
  { unfold ReadCDMOnly, Read. change ((0 <? 100)%nat) with true. change ((0 <? 0)%nat) with false. cbn [andb]. cbv zeta.
    assert (filter (fun e => cdm_entry e = true) (reverse l) = reverse (filter (fun e => cdm_entry e = true) l)) as ->.
    { induction l as [|e l IH]; [done|]. rewrite reverse_cons, filter_app, IH, !filter_cons.
      destruct (decide (cdm_entry e = true)); [by rewrite reverse_cons|by rewrite app_nil_r]. }
    destruct (100 <? _)%nat eqn:Hn; [done|]. apply Nat.ltb_ge in Hn. by rewrite take_ge. }
  rewrite E. split_and!; [done|rewrite length_take; lia|].
  intros e He%subseteq_take. rewrite elem_of_reverse, list_elem_of_filter in He. destruct He as [Hc Hin]. split; [done|].
  unfold cdm_entry in Hc. apply orb_true_iff in Hc as [[Hc|Hc]%orb_true_iff|Hc]; reflect_bools; by rewrite Hc.
Qed.
End Specs.
