(* ===== verification/AuditFile.v ===== *)
(** * The agent's audit logs as files

    [agent/localaudit/audit.go] and [agent/cdm/audit.go] down to the bytes of the
    file: a JSON object per line, appended without regard to how the last write
    ended, and read back by skipping the lines that do not parse.  Files
    [LocalAccess] and [Cdm] keep these logs as lists of entries; the theorems here
    say what of them the file gives back.  The JSON encoding is a parameter. *)

From stdpp Require Import relations.
From S2P Require Import Prelude Text Platform Prog Models JobState Database Scope Quota JobSteps JobsApi Requests Enrollment AgentAuth Update Credentials Install Installers Scripts Cdm Sessions LocalAccess.

(** ** The file *)

Record AuditCodec (A : Type) := { au_enc : A -> string; au_dec : string -> option A }.
Arguments au_enc {A} _ _.
Arguments au_dec {A} _ _.

(** A piece of an encoded entry, from its start. *)
Definition piece {A : Type} (cd : AuditCodec A) (f : string) : Prop :=
  f <> "" /\ exists a n, f = String.substring 0 n (au_enc cd a).

(** JSON objects have no newline, are read back, and what starts with pieces of
    some and goes on with another is no JSON. *)
Class AuditLaws {A : Type} (cd : AuditCodec A) : Prop := {
  enc_line a : without newline (au_enc cd a) = true;
  enc_nonempty a : au_enc cd a <> "";
  enc_dec a : au_dec cd (au_enc cd a) = Some a;
  torn_dec a fs : fs <> [] -> Forall (piece cd) fs -> au_dec cd (String.append (String.concat "" fs) (au_enc cd a)) = None;
}.

(** [splitLines]: [start] is what has been read since the last newline. *)
Fixpoint lines_from (start s : string) : list string :=
  match s with
  | EmptyString => if start =s "" then [] else [start]
  | String c s' => if Ascii.eqb c newline then start :: lines_from "" s' else lines_from (String.append start (char c)) s'
  end.
Definition splitLines (data : string) : list string := lines_from "" data.

(** Negative limits are limits of 0. *)
Definition newest {A : Type} (limit : nat) (all : list A) : list A :=
  let all := if (0 <? limit)%nat && (limit <? length all)%nat then drop (length all - limit) all else all in
  reverse all.

Section File.
Context {R A : Type} (cd : AuditCodec A).

(** The part of [data] that reaches the file, [None] when it is not even opened. *)
Definition written (e : Env) (data : string) : option string :=
  if e_fault e then
    if e_faults e 0 then None
    else Some (String.substring 0 (Nat.min (String.length (e_id e)) (pred (String.length data))) data)
  else Some data.

(** [Write]; the file is absent until it is opened for the first time. *)
Definition write_entry (entry : Z -> A) : prog (option string) R unit :=
  now ← time_now;
  let data := String.append (au_enc cd (entry now)) (char newline) in
  PStep (fun e f => (match written e data with
                     | Some part => Some (String.append (default "" f) part)
                     | None => f
                     end, tt)) PRet.

(** The entries of a file: lines that are empty or do not parse are skipped. *)
Definition parse_entries (data : string) : list A :=
  omap (fun line => if line =s "" then None else au_dec cd line) (splitLines data).

(** [Read]; [None] is an error. *)
Definition read_entries (limit : nat) : prog (option string) R (option (list A)) :=
  PStep (fun e f => (f, match f with
                        | None => if e_fault e then None else Some []
                        | Some data => if e_fault e then None else Some (newest limit (parse_entries data))
                        end)) PRet.
End File.

(** ** The two logs *)

Definition local_write {R} (cd : AuditCodec Entry) (entry : Z -> Entry) : prog (option string) R unit := write_entry cd entry.
Definition local_read {R} (cd : AuditCodec Entry) (limit : nat) : prog (option string) R (option (list Entry)) := read_entries cd limit.
Definition cdm_write {R} (cd : AuditCodec CdmEntry) (entry : Z -> CdmEntry) : prog (option string) R unit := write_entry cd entry.
Definition cdm_read {R} (cd : AuditCodec CdmEntry) (limit : nat) : prog (option string) R (option (list CdmEntry)) := read_entries cd limit.
Definition cdm_splitLines : string -> list string := splitLines.

(** ** What a sequence of writes leaves *)

Section Histories.
Context {A : Type} (cd : AuditCodec A) `{!AuditLaws cd}.

(** How a write ends: complete, without a byte, or after a part of its line. *)
Inductive Ending := Whole | Nothing | Torn.

Definition ending (e : Env) : Ending :=
  if e_fault e then if e_faults e 0 then Nothing else if e_id e =s "" then Nothing else Torn else Whole.

(** The entries that can be read back: those written whole, except the first one
    after torn ones, which ends up on their line. *)
Fixpoint readable_entries (torn : bool) (ws : list (Ending * A)) : list A :=
  match ws with
  | [] => []
  | (Whole, a) :: ws' => (if torn then [] else [a]) ++ readable_entries false ws'
  | (Nothing, _) :: ws' => readable_entries torn ws'
  | (Torn, _) :: ws' => readable_entries true ws'
  end.

(** Whether the file ends within a line. *)
Fixpoint left_torn (torn : bool) (ws : list (Ending * A)) : bool :=
  match ws with
  | [] => torn
  | (Whole, _) :: ws' => left_torn false ws'
  | (Nothing, _) :: ws' => left_torn torn ws'
  | (Torn, _) :: ws' => left_torn true ws'
  end.

(** Writes one after the other; each sees its own clock value and failure. *)
Fixpoint write_all_entries (ws : list ((Z -> A) * Env)) (f : option string) : option string :=
  match ws with
  | [] => f
  | (entry, e) :: ws' =>
      write_all_entries ws' (run_store (write_entry (R := Empty_set) cd entry) (fun _ => e) f)
  end.

Definition outcome (w : (Z -> A) * Env) : Ending * A := (ending w.2, w.1 (e_now w.2)).

(** *** Strings *)

Lemma substring_prefix n s : exists r, s = String.append (String.substring 0 n s) r.
Proof.
  revert s. induction n as [|n IH]; intros s.
  - exists s. by destruct s.
  - destruct s as [|c s]; [by exists ""|]. destruct (IH s) as [r Hr]. exists r. cbn. by rewrite Hr at 1.
Qed.

Lemma substring_append n a b : n <= String.length a -> String.substring 0 n (String.append a b) = String.substring 0 n a.
Proof.
  revert a. induction n as [|n IH]; intros a Hn.
  - destruct a; [|done]. simpl. by destruct b.
  - destruct a as [|c a]; simpl in Hn; [lia|]. change (String c (String.substring 0 n (String.append a b)) = String c (String.substring 0 n a)). by rewrite IH by lia.
Qed.

Lemma substring_nonempty n s : n <> 0 -> s <> "" -> String.substring 0 n s <> "".
Proof. by destruct n, s. Qed.

Lemma concat_snoc (fs : list string) f : String.concat "" (fs ++ [f]) = String.append (String.concat "" fs) f.
Proof.
  induction fs as [|x fs IH]; [done|]. destruct fs as [|y fs]; [done|].
  change (String.append x (String.concat "" ((y :: fs) ++ [f])) = String.append (String.append x (String.concat "" (y :: fs))) f).
  by rewrite IH, append_assoc.
Qed.

Lemma lines_from_line l rest : forall start, without newline l = true ->
  lines_from start (String.append l (String newline rest)) = String.append start l :: lines_from "" rest.
Proof.
  induction l as [|c l IH]; intros start Hl.
  - cbn. by rewrite append_empty.
  - cbn in Hl. apply andb_prop in Hl as [Hc Hl]. apply negb_true_iff in Hc. rewrite append_cons. cbn [lines_from]. rewrite Hc, IH by done.
    by rewrite append_assoc.
Qed.

Lemma text_cons l ls : text (l :: ls) = String.append l (String newline (text ls)).
Proof.
  unfold text. cbn [map]. destruct (map _ ls) as [|x xs] eqn:E; [done|]. cbn [String.concat].
  change (String.append (String.append l (char newline)) (String.concat "" (x :: xs)) = String.append l (String newline (String.concat "" (x :: xs)))).
  by rewrite append_assoc.
Qed.

Lemma text_snoc ls l : text (ls ++ [l]) = String.append (text ls) (String.append l (char newline)).
Proof. induction ls as [|x ls IH]; [done|]. cbn [app]. by rewrite !text_cons, IH, append_assoc. Qed.

Lemma splitLines_text ls : Forall (fun l => without newline l = true) ls -> splitLines (text ls) = ls.
Proof.
  unfold splitLines. induction 1 as [|l ls Hl _ IH]; [done|]. rewrite text_cons, lines_from_line by done. by rewrite IH.
Qed.

(** *** One write *)

Lemma run_write entry e f :
  run_store (write_entry (R := Empty_set) cd entry) (fun _ => e) f =
  match written e (String.append (au_enc cd (entry (e_now e))) (char newline)) with
  | Some part => Some (String.append (default "" f) part)
  | None => f
  end.
Proof. done. Qed.

Lemma length_line a : pred (String.length (String.append a (char newline))) = String.length a.
Proof. rewrite length_append. simpl. lia. Qed.

(** What a write adds to the bytes of the file. *)
Lemma write_adds entry e f :
  let a := entry (e_now e) in
  exists part, default "" (run_store (write_entry (R := Empty_set) cd entry) (fun _ => e) f) = String.append (default "" f) part /\
    match ending e with
    | Whole => part = String.append (au_enc cd a) (char newline)
    | Nothing => part = ""
    | Torn => piece cd part
    end.
Proof.
  intros a. rewrite run_write. fold a. unfold written, ending. rewrite length_line. destruct (e_fault e); [|by eexists].
  destruct (e_faults e 0); [exists ""; by rewrite append_empty|]. eexists. split; [done|].
  set (n := Nat.min _ _). rewrite substring_append by (unfold n; lia). destruct (e_id e =s "") eqn:E; reflect_bools.
  - unfold n. rewrite E. by destruct (au_enc cd a).
  - split; [|by exists a, n]. apply substring_nonempty; [|apply enc_nonempty]. unfold n.
    assert (String.length (e_id e) <> 0) by (by destruct (e_id e)). assert (String.length (au_enc cd a) <> 0); [|lia].
    pose proof (enc_nonempty a). by destruct (au_enc cd a).
Qed.

(** *** All writes *)

Definition line_entry (line : string) : option A := if line =s "" then None else au_dec cd line.

Lemma piece_line f : piece cd f -> without newline f = true.
Proof.
  intros [_ (a & n & ->)]. destruct (substring_prefix n (au_enc cd a)) as [r Hr]. pose proof (enc_line a) as Hl. rewrite Hr, without_append in Hl.
  by apply andb_prop in Hl as [Hl _].
Qed.

Lemma pieces_line fs : Forall (piece cd) fs -> without newline (String.concat "" fs) = true.
Proof.
  induction fs as [|f fs IH] using rev_ind; [done|]. intros [Hfs Hf]%Forall_app. rewrite concat_snoc, without_append, IH by done.
  rewrite Forall_singleton in Hf. cbn [andb]. by apply piece_line.
Qed.

(** The line of a whole entry behind some pieces. *)
Lemma whole_line fs a :
  Forall (piece cd) fs -> let l := String.append (String.concat "" fs) (au_enc cd a) in
  without newline l = true /\ line_entry l = match fs with [] => Some a | _ => None end.
Proof.
  intros Hfs l. split; [unfold l; by rewrite without_append, pieces_line, enc_line|]. unfold line_entry.
  destruct (l =s "") eqn:E; reflect_bools.
  - exfalso. apply (enc_nonempty a). unfold l in E. destruct (String.concat "" fs); [done|discriminate].
  - unfold l. destruct fs as [|f fs]; [apply enc_dec|by apply torn_dec].
Qed.

Lemma writes_read ws : forall ls fs f,
  Forall (fun l => without newline l = true) ls -> Forall (piece cd) fs ->
  default "" f = String.append (text ls) (String.concat "" fs) ->
  let torn := match fs with [] => false | _ => true end in
  left_torn torn (map outcome ws) = false ->
  parse_entries cd (default "" (write_all_entries ws f)) = omap line_entry ls ++ readable_entries torn (map outcome ws).
Proof.
  induction ws as [|[entry e] ws IH]; intros ls fs f Hls Hfs Hf torn Hend.
  - destruct fs; [|done]. cbn. rewrite Hf. cbn. rewrite append_empty, app_nil_r. unfold parse_entries. by rewrite splitLines_text.
  - cbn [write_all_entries map] in *. destruct (write_adds entry e f) as (part & Hpart & Hend').
    set (a := entry (e_now e)) in *. change (outcome (entry, e)) with (ending e, a) in *. rewrite Hf, append_assoc in Hpart. cbn [left_torn readable_entries] in *. destruct (ending e).
    + subst part. destruct (whole_line fs a Hfs) as [Hline Hentry].
      rewrite (IH (ls ++ [String.append (String.concat "" fs) (au_enc cd a)]) []); [|by apply Forall_app_2, Forall_singleton|done| |done].
      * rewrite omap_app. cbn [omap list_omap]. rewrite Hentry. unfold torn. destruct fs; by rewrite <- app_assoc.
      * rewrite Hpart, text_snoc. cbn [String.concat]. rewrite append_empty. by rewrite append_assoc.
    + subst part. rewrite append_empty in Hpart. by apply (IH ls fs).
    + rewrite (IH ls (fs ++ [part])); [|done|by apply Forall_app_2, Forall_singleton|by rewrite concat_snoc|by destruct fs].
      by destruct fs.
Qed.
End Histories.

(** ** Theorems *)

(** Whatever writes are lost or torn: when the file does not end within a line,
    reading it gives the newest of exactly the entries that were written whole and
    not behind a torn one. *)
Theorem audit_reads_back {A : Type} (cd : AuditCodec A) `{!AuditLaws cd} ws limit env :
  (forall n, ok_env (env n)) -> left_torn false (map outcome ws) = false ->
  run_result (read_entries (R := Empty_set) cd limit) env (write_all_entries cd ws None)
    = inr (Some (newest limit (readable_entries false (map outcome ws)))).
Proof.
  intros Hok Hend. pose proof (writes_read cd ws [] [] None (Forall_nil_2 _) (Forall_nil_2 _) eq_refl Hend) as Hr. cbn in Hr.
  rewrite <- Hr. unfold run_result, read_entries. cbn [run fst snd]. destruct (Hok 0) as [-> _].
  destruct (write_all_entries cd ws None); [done|]. unfold newest. cbn. by rewrite andb_false_r.
Qed.

(** The list that files [LocalAccess] and [Cdm] keep for a log. *)
Definition kept_entries {A : Type} (ws : list ((Z -> A) * Env)) : list A :=
  omap (fun w : (Z -> A) * Env => match ending w.2 with Whole => Some (w.1 (e_now w.2)) | _ => None end) ws.

Lemma readable_kept {A : Type} (ws : list ((Z -> A) * Env)) :
  Forall (fun w => ending w.2 <> Torn) ws ->
  left_torn false (map outcome ws) = false /\ readable_entries false (map outcome ws) = kept_entries ws.
Proof.
  induction 1 as [|[entry e] ws He _ [IH1 IH2]]; [done|]. cbn [map]. change (outcome (entry, e)) with (ending e, entry (e_now e)).
  cbn [snd] in He. unfold kept_entries. cbn [left_torn readable_entries omap list_omap fst snd]. by destruct (ending e); rewrite ?IH1, ?IH2.
Qed.

(** Without torn writes the file of the local audit log is the log that the local
    interfaces are specified with: writing adds an entry or loses it, and reading
    gives its newest entries first. *)
Theorem local_audit_refines cd `{!AuditLaws cd} ws limit env :
  (forall n, ok_env (env n)) -> Forall (fun w : (Z -> Entry) * Env => ending w.2 <> Torn) ws ->
  let log := foldl (fun l (w : (Z -> Entry) * Env) =>
    log_write (match ending w.2 with Whole => Some (e_now w.2) | _ => None end) w.1 l) [] ws in
  run_result (local_read (R := Empty_set) cd limit) env (write_all_entries cd ws None) = inr (Some (LocalAccess.Read limit log)).
Proof.
  intros Hok Hws log. destruct (readable_kept ws Hws) as [H1 H2]. unfold local_read. rewrite (audit_reads_back cd) by done. rewrite H2.
  assert (forall l0, foldl (fun l (w : (Z -> Entry) * Env) =>
    log_write (match ending w.2 with Whole => Some (e_now w.2) | _ => None end) w.1 l) l0 ws = l0 ++ kept_entries ws) as Hlog.
  { clear. induction ws as [|w ws IH]; intros l0; [by rewrite app_nil_r|]. cbn [foldl]. rewrite IH. unfold kept_entries. cbn [omap list_omap].
    destruct (ending w.2); cbn [log_write]; rewrite <- ?app_assoc; done. }
  unfold log. by rewrite Hlog.
Qed.

(** The entry after a torn one is lost although its own write succeeded. *)
Theorem torn_write_swallows_next {A : Type} (cd : AuditCodec A) `{!AuditLaws cd} ws torn next limit env :
  (forall n, ok_env (env n)) -> left_torn false (map outcome ws) = false -> ending torn.2 = Torn -> ending next.2 = Whole ->
  run_result (read_entries (R := Empty_set) cd limit) env (write_all_entries cd (ws ++ [torn; next]) None)
    = run_result (read_entries (R := Empty_set) cd limit) env (write_all_entries cd ws None).
Proof.
  intros Hok Hws Ht Hn. rewrite !(audit_reads_back cd); [|done|done|done|].
  - do 3 f_equal. rewrite map_app. cbn [map]. change (outcome torn) with (ending torn.2, torn.1 (e_now torn.2)).
    change (outcome next) with (ending next.2, next.1 (e_now next.2)). rewrite Ht, Hn. clear Hws. generalize false.
    induction (map outcome ws) as [|[[] a] os IH]; intros t; cbn [app readable_entries]; [done|by rewrite IH..].
  - rewrite map_app. cbn [map]. change (outcome torn) with (ending torn.2, torn.1 (e_now torn.2)).
    change (outcome next) with (ending next.2, next.1 (e_now next.2)). rewrite Ht, Hn. clear Hws. generalize false at 1.
    induction (map outcome ws) as [|[[] a] os IH]; intros t; cbn [app left_torn]; done.
Qed.

(** ** The laws can hold *)

Definition flag_codec : AuditCodec bool :=
  {| au_enc := fun b : bool => if b then "{1}" else "{0}";
     au_dec := fun s => if s =s "{1}" then Some true else if s =s "{0}" then Some false else None |}.

Lemma flag_laws : AuditLaws flag_codec.
Proof.
  split; [by intros []|by intros []|by intros []|]. intros a [|f fs] Hne Hfs; [done|]. apply Forall_cons in Hfs as [[Hf _] _]. cbn [au_dec au_enc flag_codec].
  set (l := String.append _ _). assert (3 < String.length l).
  { unfold l. rewrite length_append. assert (1 <= String.length (String.concat "" (f :: fs))); [|destruct a; simpl in *; lia].
    destruct f; [done|]. destruct fs; simpl; lia. }
  assert (l =s "{1}" = false) as -> by (apply seqb_neq; intros E; rewrite E in *; simpl in *; lia).
  by assert (l =s "{0}" = false) as -> by (apply seqb_neq; intros E; rewrite E in *; simpl in *; lia).
Qed.

(** Three entries, the second torn: the third is lost with it, the fourth is not. *)
Definition calm : Env := {| e_fault := false; e_faults := fun _ => false; e_now := 0; e_id := "" |}.
Definition short_write : Env := {| e_fault := true; e_faults := fun _ => false; e_now := 0; e_id := "xx" |}.

Example torn_log :
  run_result (read_entries (R := Empty_set) flag_codec 10) (fun _ => calm)
    (write_all_entries flag_codec [(fun _ => true, calm); (fun _ => true, short_write); (fun _ => true, calm); (fun _ => false, calm)] None)
    = inr (Some [false; true]).
Proof. vm_compute. reflexivity. Qed.
