(* ===== verification/Ipc.v ===== *)
(** * The local transport and the command line

    [agent/ipc/protocol.go], [client.go], [server.go] and [handler.go],
    [agent/localcli/cli.go] and the commands of [agent/cmd/agent/main.go]: requests
    and responses as lines of JSON over a stream, one at a time, between the
    command line and the handlers of file [LocalAccess].

    The JSON codec is a parameter with the laws [CodecLaws]. *)

From S2P Require Import Prelude Text Cdm Sessions LocalAccess.

Record IpcRequest := { rq_id : string; rq_method : string; rq_params : string; rq_token : string }.

(** [Response]: an error or a result. *)
Record IpcResponse := { rs_id : string; rs_body : (Z + string) }.

Record Codec := {
  enc_request : IpcRequest -> string;
  dec_request : string -> option IpcRequest;
  enc_response : IpcResponse -> string;
  dec_response : string -> option IpcResponse;
  enc_result : Reply -> string;                              (* json.Marshal of a handler's result *)
  p_login : string -> option (string * string);              (* the params of each method *)
  p_token : string -> option string;
  p_actor : string -> option string;
  p_grant : string -> option (string * string * option Z);
  p_tail : string -> Z;
  enc_login : string -> string -> string;
  enc_actor : string -> string;
  enc_grant : string -> string -> string;
  enc_tail : Z -> string;
}.

(** The messages the scanners take. *)
Definition MaxMessage : Z := 1024 * 1024.

Definition WriteMessage (data : string) : string := String.append data (char newline).

(** ** agent/ipc/handler.go *)

(** [r.handlers[req.Method]]. *)
Definition route (c : Codec) (r : IpcRequest) : Method :=
  let m := rq_method r in
  let p := rq_params r in
  if m =s "auth.login" then MLogin (p_login c p)
  else if m =s "auth.validate" then MValidate (p_token c p)
  else if m =s "auth.logout" then MLogout (p_token c p)
  else if m =s "agent.status" then MStatus
  else if m =s "cdm.status" then MCdmStatus
  else if m =s "cdm.enable" then MEnable (p_actor c p)
  else if m =s "cdm.disable" then MDisable (p_actor c p)
  else if m =s "cdm.grant" then MGrant (p_grant c p)
  else if m =s "cdm.revoke" then MRevoke (p_actor c p)
  else if m =s "agent.logs" then MLogs (p_tail c p)
  else if m =s "agent.audit" then MAudit
  else MUnknown.

Section Transport.
Context (c : Codec) (Authenticate : string -> string -> bool).

Definition dispatch_request (r : IpcRequest) (io : LIo) (w : Local) : Local * IpcResponse :=
  let '(w', reply) := Dispatch Authenticate (rq_token r) (route c r) io w in
  (w', {| rs_id := rq_id r; rs_body := match reply with Failed code => inl code | _ => inr (enc_result c reply) end |}).

(** ** agent/ipc/server.go *)

(** The loop of [handleConn] over the lines the scanner gives; a line that is not a
    request ends the connection. [ios n] is what the system answers during request
    [n]. *)
Fixpoint serve_lines (lines : list string) (ios : nat -> LIo) (n : nat) (w : Local) : Local * string :=
  match lines with
  | [] => (w, "")
  | line :: rest =>
      match dec_request c line with
      | None => (w, "")
      | Some r =>
          let '(w1, resp) := dispatch_request r (ios n) w in
          let '(w2, out) := serve_lines rest ios (S n) w1 in
          (w2, String.append (WriteMessage (enc_response c resp)) out)
      end
  end.

Definition handleConn (input : string) (ios : nat -> LIo) (w : Local) : Local * string :=
  serve_lines (scan_lines MaxMessage input).1 ios 0 w.

(** ** agent/ipc/client.go *)

(** A call, with the token of [CallWithToken] or the empty one of [Call]. *)
Record Invocation := { iv_method : string; iv_params : string; iv_token : string }.

(** The request of the call with sequence number [seq]. *)
Definition request_of (seq : nat) (i : Invocation) : IpcRequest :=
  {| rq_id := pretty seq; rq_method := iv_method i; rq_params := iv_params i; rq_token := iv_token i |}.

(** The result of a call, from the next line of the connection; [None] is an error
    of the transport, [Some (inl code)] one of the server. *)
Definition ReadResponse (line : option string) : option (Z + string) :=
  l ← line;
  r ← dec_response c l;
  Some (rs_body r).

(** A client's calls over one connection: what it sends and what each returns. *)
Definition client_input (seq : nat) (calls : list Invocation) : string :=
  String.concat "" (imap (fun k i => WriteMessage (enc_request c (request_of (seq + k) i))) calls).

Definition client_results (calls : list Invocation) (output : string) : list (option (Z + string)) :=
  let lines := (scan_lines MaxMessage output).1 in
  imap (fun k _ => ReadResponse (lines !! k)) calls.

(** The calls served directly, one after the other. *)
Fixpoint serve_calls_directly (seq : nat) (calls : list Invocation) (ios : nat -> LIo) (n : nat) (w : Local)
    : Local * list IpcResponse :=
  match calls with
  | [] => (w, [])
  | i :: rest =>
      let '(w1, resp) := dispatch_request (request_of seq i) (ios n) w in
      let '(w2, resps) := serve_calls_directly (S seq) rest ios (S n) w1 in (w2, resp :: resps)
  end.

(** ** Lemmas *)

(** What is relied on of the JSON codec: it reads back what it wrote, and a
    document is one line that does not end in a carriage return. *)
Class CodecLaws := {
  request_roundtrip : forall r, dec_request c (enc_request c r) = Some r;
  response_roundtrip : forall r, dec_response c (enc_response c r) = Some r;
  request_line : forall r, without newline (enc_request c r) = true /\ drop_cr (enc_request c r) = enc_request c r;
  response_line : forall r, without newline (enc_response c r) = true /\ drop_cr (enc_response c r) = enc_response c r;
}.

Definition fits (s : string) : Prop := (Z.of_nat (String.length s) < MaxMessage)%Z.

Context `{!CodecLaws}.

Lemma concat_imap_requests : forall calls seq,
  client_input seq calls =
    String.concat "" (WriteMessage <$> imap (fun k i => enc_request c (request_of (seq + k) i)) calls).
Proof. intros calls seq. unfold client_input. by rewrite fmap_imap. Qed.

Lemma serve_lines_requests ios : forall calls seq n w,
  serve_lines (imap (fun k i => enc_request c (request_of (seq + k) i)) calls) ios n w =
    ((serve_calls_directly seq calls ios n w).1,
     String.concat "" (WriteMessage <$> (enc_response c <$> (serve_calls_directly seq calls ios n w).2))).
Proof.
  induction calls as [|i calls IH]; intros seq n w; [done|].
  rewrite imap_cons. cbn [serve_lines serve_calls_directly]. rewrite Nat.add_0_r, request_roundtrip.
  destruct (dispatch_request _ _ w) as [w1 resp].
  rewrite (imap_ext _ (fun k i => enc_request c (request_of (S seq + k) i)));
    [|intros k x _; simpl; by rewrite Nat.add_succ_r].
  rewrite IH. destruct (serve_calls_directly (S seq) calls ios (S n) w1) as [w2 resps]. cbn [fst snd fmap list_fmap].
  f_equal. destruct (WriteMessage <$> (enc_response c <$> resps)) as [|y l] eqn:El; [by rewrite append_empty|done].
Qed.

Lemma directly_length calls ios : forall seq n w, length (serve_calls_directly seq calls ios n w).2 = length calls.
Proof.
  induction calls as [|i calls IH]; intros seq n w; [done|]. cbn [serve_calls_directly].
  destruct (dispatch_request _ _ w) as [w1 resp]. specialize (IH (S seq) (S n) w1).
  destruct (serve_calls_directly (S seq) calls ios (S n) w1). simpl in *. by rewrite IH.
Qed.

Lemma written_lines lines :
  Forall (fun l => without newline l = true /\ drop_cr l = l) lines -> Forall fits lines ->
  scan_lines MaxMessage (String.concat "" (WriteMessage <$> lines)) = (lines, true).
Proof.
  intros H1 H2. apply (scan_lines_written MaxMessage lines). rewrite Forall_forall in *. intros l Hl. destruct (H1 l Hl). split_and!; auto.
  by apply H2.
Qed.

Lemma results_of resps calls : length resps = length calls ->
  imap (fun k (_ : Invocation) => ReadResponse ((enc_response c <$> resps) !! k)) calls = (fun r => Some (rs_body r)) <$> resps.
Proof.
  intros Hlen. apply list_eq. intros k. rewrite list_lookup_imap, list_lookup_fmap. unfold ReadResponse. rewrite list_lookup_fmap.
  destruct (resps !! k) as [r|] eqn:Er.
  - destruct (lookup_lt_is_Some_2 calls k) as [i ->]; [rewrite <-Hlen; by eapply lookup_lt_Some|]. simpl. by rewrite response_roundtrip.
  - rewrite (lookup_ge_None_2 calls k); [done|]. rewrite <-Hlen. by apply lookup_ge_None.
Qed.
End Transport.

(** ** agent/localcli/cli.go and the commands of agent/cmd/agent/main.go *)

(** The session token after a login. *)
Record CLI := { cli_token : string }.

(** [Login]: the credentials come from the arguments, then the environment, then the
    prompt; [None] is an error of the prompt. *)
Definition login_call (c : Codec) (getenv : string -> string) (prompt : string -> option string) (username password : string)
    : option Invocation :=
  let username := if username =s "" then getenv "MOEBIUS_USERNAME" else username in
  let password := if password =s "" then getenv "MOEBIUS_PASSWORD" else password in
  username ← (if username =s "" then prompt "Username: " else Some username);
  password ← (if password =s "" then prompt "Password: " else Some password);
  Some {| iv_method := "auth.login"; iv_params := enc_login c username password; iv_token := "" |}.

(** [None]: not authenticated. *)
Definition authedCall (cli : CLI) (method params : string) : option Invocation :=
  if cli_token cli =s "" then None else Some {| iv_method := method; iv_params := params; iv_token := cli_token cli |}.

Definition cliUsername (getenv : string -> string) : string :=
  if negb (getenv "MOEBIUS_USERNAME" =s "") then getenv "MOEBIUS_USERNAME"
  else if negb (getenv "USER" =s "") then getenv "USER"
  else "unknown".

(** The value after the last [flag] that has one. *)
Fixpoint flag_value (flag : string) (args : list string) (default : string) : string :=
  match args with
  | a :: (b :: _) as rest => flag_value flag rest (if a =s flag then b else default)
  | _ => default
  end.

(** The subcommands that reach the daemon; [None]: unknown, or not authenticated. *)
Definition cli_command (c : Codec) (getenv : string -> string) (cli : CLI) (args : list string) : option Invocation :=
  match args with
  | "status" :: _ => authedCall cli "agent.status" ""
  | "logs" :: rest => authedCall cli "agent.logs" (enc_tail c (default 50%Z (Atoi (flag_value "--tail" rest "50"))))
  | "cdm" :: sub :: rest =>
      if sub =s "status" then authedCall cli "cdm.status" ""
      else if sub =s "enable" then authedCall cli "cdm.enable" (enc_actor c (cliUsername getenv))
      else if sub =s "disable" then authedCall cli "cdm.disable" (enc_actor c (cliUsername getenv))
      else if sub =s "grant" then authedCall cli "cdm.grant" (enc_grant c (cliUsername getenv) (flag_value "--duration" rest "10m"))
      else if sub =s "revoke" then authedCall cli "cdm.revoke" (enc_actor c (cliUsername getenv))
      else None
  | _ => None
  end.

(** ** Properties *)

(** C25: The transport is transparent: a client's calls over one connection, with
    messages below the scanners' limit, have exactly the effects and the results of
    calling the handlers one after the other. *)
Theorem ipc_transparent c Authenticate `{!CodecLaws c} seq calls ios w :
  let direct := serve_calls_directly c Authenticate seq calls ios 0 w in
  Forall fits (imap (fun k i => enc_request c (request_of (seq + k) i)) calls) -> Forall fits (enc_response c <$> direct.2) ->
  let served := handleConn c Authenticate (client_input c seq calls) ios w in
  served.1 = direct.1 /\ client_results c calls served.2 = (fun r => Some (rs_body r)) <$> direct.2.
Proof.
  intros direct Hreq Hresp served. unfold served, handleConn. rewrite concat_imap_requests, written_lines; [|..|done].
  - cbn [fst]. rewrite serve_lines_requests by done. fold direct. split; [done|]. cbn [snd]. unfold client_results.
    rewrite written_lines; [cbn [fst]; apply results_of; [done|apply directly_length]| |done].
    apply Forall_fmap, Forall_forall. intros r _. by apply response_line.
  - apply Forall_lookup_2. intros k l. rewrite list_lookup_imap. destruct (calls !! k) as [i|]; [|done]. intros [= <-].
    by apply request_line.
Qed.

(** The login is asked for on a terminal, the name in the audit log is not taken
    from it: with MOEBIUS_USERNAME unset, a CDM session that a user opens with
    moebius-agent cdm grant is recorded in the name that USER holds, whoever
    logged in. *)
Theorem cli_actor_from_env c Authenticate getenv cli io w s st lg t text d :
  getenv "MOEBIUS_USERNAME" = "" -> getenv "USER" <> "" -> cli_token cli <> "" ->
  lw_sessions w !! cli_token cli = Some s -> session_live (li_now io) s = true ->
  p_grant c (enc_grant c (getenv "USER") "10m") = Some (getenv "USER", text, Some d) -> (0 < d)%Z ->
  w_mem (lw_cdm w) = Some st -> st_enabled st = true -> write_ok (li_cdm io) = true ->
  w_log (lw_cdm w) = Some lg -> io_audit (li_cdm io) = Some t -> li_audit io = Some t ->
  exists call, cli_command c getenv cli ["cdm"; "grant"] = Some call /\
    let w' := (dispatch_request c Authenticate (request_of 2 call) io w).1 in
    (exists e, w_log (lw_cdm w') = Some (lg ++ [e]) /\ ce_actor e = getenv "USER") /\
    (exists e, lw_log w' = lw_log w ++ [e] /\ en_username e = getenv "USER").
Proof.
  intros Hmu Hu Htok Hs Hl Hp Hd Hm He Hw Hlg Ha Hla. apply seqb_neq in Hu, Htok.
  exists {| iv_method := "cdm.grant"; iv_params := enc_grant c (getenv "USER") "10m"; iv_token := cli_token cli |}.
  assert (cliUsername getenv = getenv "USER") as Eu by (unfold cliUsername; by rewrite Hmu, Hu).
  split; [unfold cli_command, authedCall; by rewrite Eu, Htok|].
  unfold dispatch_request. change (route c (request_of 2 _)) with (MGrant (p_grant c (enc_grant c (getenv "USER") "10m"))).
  rewrite Hp. cbn [Dispatch request_of rq_token iv_token]. unfold RequireAuthMiddleware.
  rewrite Htok, Validate_live, Hs, Hl. unfold cdm_grant. destruct (Z.leb_spec d 0); [lia|].
  unfold cdm_do. cbn [put_sessions lw_cdm]. unfold cdm_step. rewrite Hm. unfold GrantSession. rewrite He, Hw. cbn [negb fst].
  split.
  - cbn. rewrite Hlg. unfold Write. rewrite Ha. by eexists.
  - cbn. rewrite Hla. by eexists.
Qed.
