(* ===== verification/Witnesses.v ===== *)
(** * Concrete instances of the theorems

    A small installation (one tenant with a device, a user, roles, keys, an
    enrollment token and a few jobs) and, for every theorem with hypotheses, a
    run on it in which they hold. *)

From stdpp Require Import relations.
From S2P Require Import Prelude Platform Prog Models JobState Database Scope Quota JobSteps JobsApi AgentJobs Checkin Scheduler JobSystem JobSpecs Isolation Lineage Enrollment AgentAuth Identity Inventory.
From S2P Require Import Poller.
From S2P Require Import Update.
From S2P Require Import Cdm.

(** ** The installation *)

Local Open Scope Z_scope.

Definition env0 (n : nat) : Env :=
  {| e_fault := false; e_faults := fun _ => false; e_now := 1000000000000 + Z.of_nat n; e_id := pretty n |}.

Lemma env0_ok n : ok_env (env0 n).
Proof. done. Defined.

Definition ctx0 : Ctx :=
  {| ctx_tenant := "ten_1"; ctx_agent := "dev_1"; ctx_user := "usr_1"; ctx_is_admin := false; ctx_scope := None;
     ctx_permissions := TechnicianPermissions |}.

Definition dev0 : Device :=
  {| dev_tenant := "ten_1"; dev_hostname := "host"; dev_os := "linux"; dev_os_version := "12"; dev_arch := "amd64";
     dev_agent_version := "1.0.0"; dev_status := "online"; dev_last_seen_at := Some 5; dev_registered_at := 1;
     dev_cdm_enabled := false; dev_cdm_session_active := false; dev_cdm_session_expires_at := None;
     dev_sequence_last := 0 |}.

Definition job0 (status : string) (at_ : option Z) : Job :=
  {| job_tenant := "ten_1"; job_device := "dev_1"; job_parent := None; job_type := "exec"; job_status := status;
     job_payload := "{}"; job_retry_policy := None; job_retry_count := 0; job_max_retries := 1;
     job_last_error := None; job_created_by := Some "usr_1"; job_created_at := 10; job_dispatched_at := at_;
     job_acknowledged_at := at_; job_started_at := None; job_completed_at := at_ |}.

Definition token0 : EnrollmentToken :=
  {| tok_tenant := "ten_1"; tok_hash := "#raw"; tok_created_by := "usr_1";
     tok_scope := Some (JValid {| sc_group_ids := ["grp_1"]; sc_tag_ids := []; sc_site_ids := []; sc_device_ids := [] |});
     tok_used_at := None; tok_expires_at := 2000000000000; tok_created_at := 1 |}.

Definition cert0 : AgentCertificate :=
  {| crt_device := "dev_1"; crt_serial_number := "s1"; crt_fingerprint := "f1"; crt_issued_at := 1;
     crt_expires_at := 2000000000000; crt_revoked_at := None; crt_revocation_reason := None |}.

Definition key0 : APIKey :=
  {| key_tenant := "ten_1"; key_user := "usr_1"; key_name := "k"; key_hash := "#key"; key_role := "rol_1";
     key_scope := None; key_is_admin := true; key_last_used_at := None; key_expires_at := None; key_created_at := 1 |}.

Definition rule0 : AlertRule :=
  {| ar_tenant := "ten_1"; ar_name := "offline";
     ar_condition := JValid {| ac_type := "agent_offline"; ac_threshold_minutes := 5; ac_scope := None |};
     ar_channels := JValid {| ach_webhooks := []; ach_emails := [] |}; ar_enabled := true |}.

Definition db0 : DB :=
  {| tenants := {["ten_1" := {| tn_name := "one"; tn_slug := "one"; tn_config := None; tn_created_at := 1 |}]};
     users := {["usr_1" := {| usr_tenant := "ten_1"; usr_email := "a@b"; usr_role := Some "rol_1";
                              usr_sso_subject := None; usr_created_at := 1 |};
                "usr_2" := {| usr_tenant := "ten_1"; usr_email := "c@d"; usr_role := None;
                              usr_sso_subject := None; usr_created_at := 2 |}]};
     roles := {["rol_1" := {| role_tenant := None; role_name := "Viewer"; role_permissions := ViewerPermissions;
                              role_is_custom := false |}]};
     api_keys := {["key_1" := key0]};
     devices := {["dev_1" := dev0]};
     groups := {["grp_1" := {| ct_tenant := "ten_1"; ct_name := "g"; ct_location := None |}]}; tags := ∅; sites := ∅;
     device_groups := {[("dev_1", "grp_1")]}; device_tags := ∅; device_sites := ∅;
     inventory_hardware := ∅; inventory_packages := ∅;
     jobs := {["job_q" := job0 "queued" None; "job_d" := job0 "dispatched" (Some 20);
               "job_f" := job0 "failed" (Some 30)]};
     job_results := ∅; scheduled_jobs := ∅; alert_rules := {["alr_1" := rule0]};
     agent_certificates := {["crt_1" := cert0]}; enrollment_tokens := {["enr_1" := token0]};
     signing_keys := ∅; files := ∅; file_uploads := ∅; agent_versions := ∅; agent_version_binaries := ∅;
     agent_update_policies := ∅; installers := ∅; agent_rollouts := ∅; device_logs := ∅; audit_log := [] |}.

Definition wiring0 : Wiring :=
  {| wr_audit := true; wr_quota := None; wr_decode := fun _ => None; wr_scan_null := None; wr_marshal := fun s => s;
     wr_cron_next := fun _ now => Some (now + 1)%Z; wr_sched := Scheduler.New {| TickSeconds := 0;
       ReaperDispatchedTimeoutSec := 0; ReaperInflightTimeoutSec := 0 |} |}.

Definition x509_0 : X509 :=
  {| pem_decode := Some; pem_encode := fun s => s; parse_csr := fun s => Some {| csr_key := ECDSA "P-256" s; csr_body := s |};
     check_signature := fun _ => true; create_certificate := fun t _ => Some (tpl_serial t);
     sha256_hex := String.append "#"; ca_raw := "ca" |}.

Local Close Scope Z_scope.

(** The rows of a table of the installation, one by one. *)
Ltac rows H :=
  simpl in H; repeat (apply lookup_insert_Some in H as [[<- <-]|[_ H]]);
  try (apply lookup_singleton_Some in H as [<- <-]); try (by rewrite lookup_empty in H).

(** ** The job system *)

Lemma jobs_ok0 : jobs_ok db0.
Proof. intros id j Hj. rows Hj; (split; [split_and!; intros; done || by eexists|done]). Defined.

Definition checkin0 : CheckinRequest :=
  {| cr_agent_id := "dev_1"; cr_timestamp := 1%Z; cr_sequence := 1%Z;
     cr_status := {| as_uptime_seconds := 0%Z; as_cdm_enabled := false; as_cdm_session_active := false;
                     as_cdm_session_expires_at := None; as_agent_version := "1.0.0"; as_last_update_failed := false;
                     as_last_update_job_id := ""; as_last_update_error := "" |};
     cr_delta := None |}.

(** A check-in, then a tick, then a retry, in one pool. *)
Definition requests0 : list Request := [QCheckin ctx0 (Some checkin0); QTick; QRetry ctx0 "job_f"].
Definition pool0 : list (Handler unit) := map (serve wiring0) requests0.
Definition after1 : DB := run_store (serve wiring0 (QCheckin ctx0 (Some checkin0))) env0 db0.
Definition after2 : DB := run_store (serve wiring0 QTick) env0 after1.
Definition after3 : DB := run_store (serve wiring0 (QRetry ctx0 "job_f")) env0 after2.

Lemma pool0_runs : exists pool, rtc pstep (db0, pool0) (after3, pool).
Proof.
  eexists. etrans.
  { apply (pool_run (serve wiring0 (QCheckin ctx0 (Some checkin0))) env0 0 db0 pool0 0). reflexivity. }
  etrans.
  { apply (pool_run (serve wiring0 QTick) env0 0 after1 _ 1). reflexivity. }
  apply (pool_run (serve wiring0 (QRetry ctx0 "job_f")) env0 0 after2 _ 2). reflexivity.
Defined.

Lemma interleaving_safe_witness : jobs_ok after3 /\ jobs_grow db0 after3.
Proof.
  destruct pool0_runs as [pool Hs]. exact (interleaving_safe wiring0 requests0 db0 after3 pool jobs_ok0 Hs).
Defined.

Lemma history0 : history wiring0 db0 requests0 after3.
Proof. apply (h_cons wiring0 db0 _ _ env0), (h_cons wiring0 after1 _ _ env0), (h_cons wiring0 after2 _ _ env0), h_nil. Defined.

(** The queued job is handed out by the check-in and left alone by the others; the
    retry appears queued. *)
Lemma history_lifecycle_witness :
  (exists j', jobs after3 !! "job_q" = Some j' /\ job_status j' = JobStatusDispatched
     /\ along requests0 JobStatusQueued (job_status j')) /\
  (exists j', jobs db0 !! "job_2" = None /\ jobs after3 !! "job_2" = Some j' /\ job_status j' = JobStatusQueued).
Proof.
  pose proof (history_lifecycle wiring0 db0 requests0 after3 "job_q" history0) as H.
  destruct (jobs after3 !! "job_q") as [j'|] eqn:E; [|by destruct H].
  split; [|eexists; split_and!; vm_compute; reflexivity]. exists j'. split; [done|]. split; [|exact H].
  revert E. vm_compute. by intros [= <-].
Defined.

Lemma terminal_immutable_witness : jobs after3 !! "job_f" = Some (job0 "failed" (Some 30%Z)).
Proof.
  apply (terminal_immutable wiring0 db0 requests0 after3 "job_f"); [exact history0| |reflexivity|reflexivity].
  repeat constructor.
Defined.

(** The retry of the failed job is a row the requests may add. *)
Lemma isolation_witness :
  exists j, jobs db0 !! "job_2" = None /\ jobs after3 !! "job_2" = Some j /\ job_parent j = Some "job_f" /\
    rtc (fun o o' => exists q, q ∈ requests0 /\ reach q "job_2" o o') None (Some j).
Proof.
  destruct pool0_runs as [pool Hs]. pose proof (isolation wiring0 requests0 db0 after3 pool Hs "job_2") as H.
  destruct (jobs after3 !! "job_2") as [j|] eqn:E; [|vm_compute in E; discriminate E].
  exists j. split; [reflexivity|]. split; [done|]. split; [|exact H]. revert E. vm_compute. by intros [= <-].
Defined.

Lemma lineage0 : lineage_ok db0.
Proof. intros id j Hj. rows Hj; (split; [reflexivity|done]). Defined.

Lemma retry_lineage_witness : lineage_ok after3.
Proof. destruct pool0_runs as [pool Hs]. exact (retry_lineage wiring0 requests0 db0 after3 pool lineage0 Hs). Defined.

(** *** Check-in *)

Lemma checkin_dispatch_witness :
  exists now ds, run_result (Checkin ctx0 (Some checkin0)) env0 db0 = inl (JSON 200 (BCheckin now ds)) /\
    length ds = 2 /\ NoDup (map jd_job_id ds).
Proof.
  eexists _, _. split; [vm_compute; reflexivity|]. split; [reflexivity|].
  refine (proj1 (proj2 (checkin_dispatch env0 ctx0 checkin0 db0 _ _ _))). vm_compute. reflexivity.
Defined.

Lemma checkin_fifo_witness :
  exists now ds, run_result (Checkin ctx0 (Some checkin0)) env0 db0 = inl (JSON 200 (BCheckin now ds)) /\
    ("job_q" ∈ map jd_job_id ds \/
     length ds = 10 /\ forall d, d ∈ ds -> (jd_created_at d <= 10)%Z).
Proof.
  apply (checkin_fifo env0 ctx0 checkin0 db0 "job_q" (job0 "queued" None));
    try reflexivity; [exact env0_ok|done|done].
Defined.

(** *** Users *)

Lemma cancel_spec_witness :
  run_result (Cancel true ctx0 "job_q") env0 db0 = inl NoContent /\
  (exists now, jobs (run_store (Cancel true ctx0 "job_q") env0 db0)
               = <["job_q" := apply_change (CCancel now) (job0 "queued" None)]> (jobs db0)) /\
  run_result (Cancel true ctx0 "job_f") env0 db0 <> inl NoContent.
Proof.
  pose proof (cancel_spec true env0 ctx0 "job_q" db0 env0_ok) as (_ & _ & Hok).
  pose proof (cancel_spec true env0 ctx0 "job_f" db0 env0_ok) as (_ & Hbad & _).
  destruct Hok as [Hr Hj]; [by right|reflexivity|]. split; [exact Hr|]. split; [exact Hj|].
  destruct Hbad as [[msg Hm] _]; [by right|reflexivity|]. rewrite Hm. discriminate.
Defined.

(** *** Scheduler *)

(** All accesses of a tick succeed and read one clock value, far in the future. *)
Definition env_at (now : Z) (n : nat) : Env :=
  {| e_fault := false; e_faults := fun _ => false; e_now := now; e_id := pretty n |}.

Definition tick0 : prog DB Empty_set (list Alert) := runTick (wr_cron_next wiring0) (wr_sched wiring0).

Lemma tick_reaps_witness :
  jobs (run_store tick0 (env_at 1000000000000) db0) !! "job_d"
  = Some (reaped (wr_sched wiring0) 1000000000000 (job0 "dispatched" (Some 20%Z))) /\
  job_status (reaped (wr_sched wiring0) 1000000000000 (job0 "dispatched" (Some 20%Z))) = "queued".
Proof.
  split; [|vm_compute; reflexivity].
  apply (tick_reaps (wr_cron_next wiring0) (wr_sched wiring0) (env_at 1000000000000) 1000000000000 db0 "job_d");
    [done|reflexivity].
Defined.

Lemma no_job_stuck_witness :
  exists now j', jobs (run_store tick0 (env_at now) db0) !! "job_d" = Some j' /\ job_status j' = "queued".
Proof.
  destruct (no_job_stuck (wr_sched wiring0) db0 "job_d" (job0 "dispatched" (Some 20%Z)) jobs_ok0 eq_refl)
    as [deadline Hd]; [by left|].
  exists (deadline + 1)%Z. destruct (Hd (wr_cron_next wiring0) (env_at (deadline + 1)) (deadline + 1)%Z)
    as (j' & Hj & [[_ H]|[H _]]); [lia|done|eauto|discriminate H].
Defined.

(** A scheduled job that is due. *)
Definition sched_db : DB := set_scheduled_jobs {["sjb_1" :=
  {| sj_tenant := "ten_1"; sj_name := "nightly"; sj_job_type := "exec"; sj_payload := "{}";
     sj_target := Some (JValid {| tgt_device_ids := ["dev_1"]; tgt_group_ids := []; tgt_tag_ids := [];
                                  tgt_site_ids := [] |});
     sj_cron_expr := "@daily"; sj_retry_policy := None; sj_enabled := true; sj_last_run_at := None;
     sj_next_run_at := Some 1%Z |}]} db0.

Lemma scheduled_jobs_blocked_witness :
  jobs (run_store (evaluateScheduledJobs (wr_cron_next wiring0) 1000 : prog DB Empty_set _) env0 sched_db) = jobs db0.
Proof.
  apply (scheduled_jobs_blocked (wr_cron_next wiring0) 1000 env0 sched_db). intros k.
  destruct (users sched_db !! _) as [u|] eqn:Hu; [|reflexivity]. exfalso. simpl in Hu.
  apply lookup_insert_Some in Hu as [[H _]|[_ Hu]]; [discriminate H|].
  apply lookup_singleton_Some in Hu as [H _]. discriminate H.
Defined.

Lemma offline_alert_spec_witness :
  exists a, run_result (evaluateAgentOffline "alr_1" rule0
      {| ac_type := "agent_offline"; ac_threshold_minutes := 5; ac_scope := None |} 1000000000000
      : prog DB Empty_set _) env0 db0 = inr (Some a).
Proof.
  apply (offline_alert_spec env0 "alr_1" rule0
    {| ac_type := "agent_offline"; ac_threshold_minutes := 5; ac_scope := None |} 1000000000000 db0 env0_ok).
  exists "dev_1". split; [|exact I]. exists dev0. split_and!; try reflexivity. done.
Defined.

(** ** Enrollment and authentication *)

Definition enroll0 : EnrollRequest :=
  {| er_token := "raw"; er_csr := "csr"; er_hostname := "new"; er_os := "linux"; er_os_version := "12";
     er_arch := "amd64"; er_agent_version := "1.0.0" |}.
Definition enroll_prog : Handler unit := Enroll x509_0 true None "POST" (Some enroll0).
Definition enrolled1 : DB := run_store enroll_prog env0 db0.

Lemma hash_unique0 : hash_unique db0.
Proof. intros i j t t' Hi Hj _. rows Hi. rows Hj. reflexivity. Defined.

(** Two requests with one token: the first is enrolled, the second refused. *)
Lemma token_single_use_witness :
  exists r1 r2 pool, rtc pstep (db0, [enroll_prog; enroll_prog] ++ []) (run_store enroll_prog env0 enrolled1, pool) /\
    pool !! 0%nat = Some (PStop r1) /\ pool !! 1%nat = Some (PStop r2) /\
    is_enrolled r1 = true /\ is_enrolled r2 = false.
Proof.
  assert (rtc pstep (db0, [enroll_prog; enroll_prog])
    (run_store enroll_prog env0 enrolled1,
     [finished (run_result enroll_prog env0 db0); finished (run_result enroll_prog env0 enrolled1)])) as Hs.
  { transitivity (enrolled1, [finished (run_result enroll_prog env0 db0); enroll_prog]).
    - exact (pool_run enroll_prog env0 0 db0 [enroll_prog; enroll_prog] 0 eq_refl).
    - exact (pool_run enroll_prog env0 0 enrolled1 [finished (run_result enroll_prog env0 db0); enroll_prog] 1 eq_refl). }
  assert (exists r1, (finished (run_result enroll_prog env0 db0) : Handler unit) = PStop r1 /\ is_enrolled r1 = true) as (r1 & H1 & E1).
  { eexists. split; [vm_compute; reflexivity|reflexivity]. }
  assert (exists r2, (finished (run_result enroll_prog env0 enrolled1) : Handler unit) = PStop r2) as (r2 & H2).
  { eexists. vm_compute. reflexivity. }
  rewrite H1, H2 in Hs. exists r1, r2, [PStop r1; PStop r2].
  split; [exact Hs|]. split; [reflexivity|]. split; [reflexivity|]. split; [exact E1|].
  destruct (is_enrolled r2) eqn:E2; [|reflexivity].
  assert (0 = 1) as Habs; [|discriminate Habs].
  apply (token_single_use x509_0 "raw" [(true, None, "POST", Some enroll0); (true, None, "POST", Some enroll0)] [] db0
    (run_store enroll_prog env0 enrolled1) [PStop r1; PStop r2] 0 1 r1 r2 hash_unique0);
    [|constructor|exact Hs|simpl; lia|simpl; lia|reflexivity|reflexivity|exact E1|exact E2].
  apply Forall_cons; split; [by intros req [= <-]|]. apply Forall_cons; split; [by intros req [= <-]|]. constructor.
Defined.

Definition lib0 : HeaderLib :=
  {| query_unescape := Some; hdr_pem_decode := Some; parse_certificate := fun _ => None; verify_chain := fun _ => false |}.
Definition peer (cn serial : string) : AgentRequest :=
  {| ar_peer_certs := [{| pc_common_name := cn; pc_serial := serial; pc_not_before := 0;
                          pc_not_after := 3000000000000 |}];
     ar_client_cert_header := "" |}.

(** After a renewal the old certificate is refused. *)
Lemma renewal_locks_out_witness :
  exists cpem chain r,
    run_result (Renew x509_0 true "POST" ctx0 (Some "csr")) env0 db0 = inl (JSON 200 (BRenew cpem chain)) /\
    run_result (MTLS lib0 true (fun _ => stop NoContent : Handler unit) ctx0 (peer "dev_1" "s1")) env0
      (run_store (Renew x509_0 true "POST" ctx0 (Some "csr")) env0 db0) = inl r /\ (401 <= resp_status r)%Z.
Proof.
  assert (exists cpem chain, run_result (Renew x509_0 true "POST" ctx0 (Some "csr")) env0 db0
    = inl (JSON 200 (BRenew cpem chain)) /\ cpem <> "s1") as (cpem & chain & Hr & Hne).
  { eexists _, _. split; [vm_compute; reflexivity|discriminate]. }
  destruct (renewal_locks_out x509_0 true "POST" env0 ctx0 (Some "csr") db0 cpem chain Hr)
    as (csr & sg & Hsg & (block & c & now & der & _ & _ & _ & _ & Hcrt & Hpem & _) & Hout).
  injection Hcrt as Hcrt. simpl in Hpem.
  destruct (Hout lib0 true (fun _ => stop NoContent) env0 ctx0 (peer "dev_1" "s1")
      {| pc_common_name := "dev_1"; pc_serial := "s1"; pc_not_before := 0; pc_not_after := 3000000000000 |}
      eq_refl eq_refl) as (r & Hm & Hge); [simpl; congruence|]. exists cpem, chain, r.
  exact (conj Hr (conj Hm Hge)).
Defined.

(** The agent enrolled above reaches a handler with its new certificate. *)
Lemma enrolled_agent_authenticates_witness :
  exists dv, devices enrolled1 !! "dev_2" = Some dv /\
    run (MTLS lib0 true (fun _ => stop NoContent : Handler unit) ctx0 (peer "dev_2" "4")) env0 0 enrolled1
    = (enrolled1, 2%nat, inl NoContent).
Proof.
  assert (exists chain, run_result enroll_prog env0 db0 = inl (JSON 200 (BEnroll "dev_2" "4" chain 30)))
    as (chain & Hr).
  { eexists. vm_compute. reflexivity. }
  destruct (enrolled_agent_authenticates x509_0 true None "POST" env0 (Some enroll0) db0 "dev_2" "4" chain 30%Z Hr)
    as (csr & sg & dv & Hp & (block & c & now & der & _ & _ & _ & _ & Hcrt & Hpem & _) & Hd & Hauth).
  injection Hcrt as Hcrt. simpl in Hpem. exists dv. split; [exact Hd|].
  etrans; [apply (Hauth lib0 true (fun _ => stop NoContent) env0 ctx0 (peer "dev_2" "4")
    {| pc_common_name := "dev_2"; pc_serial := "4"; pc_not_before := 0; pc_not_after := 3000000000000 |})
    |reflexivity]; [reflexivity|reflexivity|discriminate|simpl; congruence|split; discriminate|reflexivity].
Defined.

(** ** Identity *)

Definition idw0 : IdWiring := {| iw_x509 := x509_0; iw_audit := true; iw_quota := None |}.

(** A caller without the admin flag tries to delete the admin key. *)
Lemma admin_keys_protected_witness :
  admin_key (run_store (serve_id idw0 ctx0 (IDeleteKey "key_1")) env0 db0) "key_1".
Proof.
  apply (admin_keys_protected idw0 [(ctx0, IDeleteKey "key_1")] db0 _
    [finished (run_result (serve_id idw0 ctx0 (IDeleteKey "key_1")) env0 db0)]).
  - by apply Forall_singleton.
  - exact (pool_run (serve_id idw0 ctx0 (IDeleteKey "key_1")) env0 0 db0
             [serve_id idw0 ctx0 (IDeleteKey "key_1")] 0 eq_refl).
  - eexists. split; [vm_compute; reflexivity|reflexivity].
Defined.

(** A technician creates a role: it is stored, within its own permissions. *)
Definition role_request : IdRequest := ICreateRole (Some ("mine", ["jobs:read"])).

Lemma no_role_escalation_witness :
  roles_bounded ctx0 db0 (run_store (serve_id idw0 ctx0 role_request) env0 db0) /\
  is_Some (roles (run_store (serve_id idw0 ctx0 role_request) env0 db0) !! "rol_0").
Proof.
  split; [exact (no_role_escalation idw0 ctx0 role_request env0 db0 eq_refl)|].
  eexists. vm_compute. reflexivity.
Defined.

(** The other user is given the viewer's role. *)
Lemma user_role_guard_witness :
  exists u, users (run_store (UpdateUser true ctx0 "usr_2" (Some "rol_1")) env0 db0) !! "usr_2" = Some u /\
    usr_role u = Some "rol_1" /\ role_within ctx0 db0 (Some "rol_1").
Proof.
  assert (exists u, users (run_store (UpdateUser true ctx0 "usr_2" (Some "rol_1")) env0 db0) !! "usr_2" = Some u
    /\ usr_role u = Some "rol_1") as (u & Hu & Hr).
  { eexists. split; [vm_compute; reflexivity|reflexivity]. }
  exists u. split; [exact Hu|]. split; [exact Hr|]. rewrite <- Hr.
  destruct (user_role_guard true env0 ctx0 "usr_2" (Some "rol_1") db0 eq_refl "usr_2" u Hu) as [H|(_ & _ & _ & H)];
    [|exact H].
  exfalso. assert (usr_role u = None) as Hn; [|congruence].
  injection H as <-. reflexivity.
Defined.

(** A technician, who may not write groups, mints a key with the viewer's role. *)
Definition key_request : createAPIKeyRequest :=
  {| ak_name := "new"; ak_role_id := "rol_1"; ak_is_admin := false; ak_scope := None; ak_expires_at := None |}.
Definition key_prog : Handler unit := CreateAPIKey x509_0 true None ctx0 (Some key_request).
Definition nobody : Ctx :=
  {| ctx_tenant := ""; ctx_agent := ""; ctx_user := ""; ctx_is_admin := false; ctx_scope := None;
     ctx_permissions := [] |}.

Lemma created_key_authenticates_witness :
  exists raw role n db1, find_role "ten_1" "rol_1" db0 = Some role /\
    run (APIKeyAuth x509_0 (String.append "Bearer " raw) (fun c => stop (JSON 200 (BRoleList []))) nobody) env0 0
      (run_store key_prog env0 db0)
    = run (stop (JSON 200 (BRoleList [])) : Handler unit) env0 n db1.
Proof.
  assert (exists id key raw, run_result key_prog env0 db0 = inl (JSON 201 (BAPIKey id key raw)) /\ raw = "sk_1")
    as (id & key & raw & Hr & Hraw).
  { eexists _, _, _. split; [vm_compute; reflexivity|reflexivity]. }
  destruct (created_key_authenticates x509_0 true None env0 ctx0 key_request db0 id key raw Hr)
    as (role & Hrole & _ & Hauth).
  { intros i k Hk. rows Hk. subst raw. discriminate. }
  destruct (Hauth (fun c => stop (JSON 200 (BRoleList []))) env0 nobody eq_refl eq_refl) as [Hrun _].
  destruct Hrun as (n & db1 & _ & Hrun); [intros exp Hexp; discriminate Hexp|].
  exists raw, role, n, db1. split; [exact Hrole|exact Hrun].
Defined.

Definition scope_of (gs ds : list string) : APIScope :=
  {| sc_group_ids := gs; sc_tag_ids := []; sc_site_ids := []; sc_device_ids := ds |}.

Lemma subset_never_widens_witness : in_scope db0 "ten_1" (scope_of ["grp_1"; "grp_2"] []) "dev_1".
Proof.
  apply (subset_never_widens db0 "ten_1" (scope_of ["grp_1"; "grp_2"] []) (scope_of ["grp_1"] [])).
  - vm_compute. reflexivity.
  - right. left. exists "grp_1". split; [by left|]. apply elem_of_members. split; [vm_compute; reflexivity|].
    exists dev0. split; reflexivity.
Defined.

(** ** Agent: CDM *)

Definition io_at (now : Z) : Io := {| io_now := now; io_write := WOk; io_read_ok := true; io_audit := Some now |}.
Definition io_bad (now : Z) : Io := {| io_now := now; io_write := WFail Kept; io_read_ok := true; io_audit := None |}.

(** Enable, a refused job, a grant, an allowed job, a restart, an allowed job, a
    refused job after the session's end. *)
Definition calls0 : list (Io * Op) :=
  [(io_at 1, OEnable "admin"); (io_at 2, OCanExecute); (io_at 3, OGrant "owner" 10); (io_at 4, OCanExecute);
   (io_at 5, ORestart); (io_at 13, OCanExecute); (io_at 14, OCanExecute)].

Lemma cdm_refines_witness :
  spec_answers {| sp_enabled := false; sp_session := None |} calls0 (cdm_run (Cdm.installed (Some [])) calls0).2 /\
  (cdm_run (Cdm.installed (Some [])) calls0).2
  = [ANil; ABool false; ANil; ABool true; ANil; ABool true; ABool false].
Proof.
  split; [|vm_compute; reflexivity]. apply (cdm_refines calls0 (Some [])).
  - repeat constructor.
  - repeat constructor; simpl; lia.
Defined.

(** A job is let pass although the restart's write failed: the grant is there. *)
Lemma consent_required_witness :
  exists io' d, (io', OGrant "owner" d) ∈ take 5 calls0 /\ (9 <= io_now io' + d)%Z.
Proof.
  assert (exists s, w_mem (cdm_run (Cdm.installed (Some [])) (take 5 calls0)).1 = Some s /\ st_enabled s = true
    /\ st_session_granted_by s = "owner") as (s & Hm & He & Hg).
  { eexists. split; [vm_compute; reflexivity|]. split; reflexivity. }
  rewrite <- Hg. apply (consent_required (take 5 calls0) (Some []) (io_bad 9) s); [|exact Hm|exact He].
  vm_compute. reflexivity.
Defined.

Definition off0 : World := Cdm.installed None.

(** Failing writes and restarts after [Enable]: a job passes only in a session. *)
Definition rough : list (Io * Op) :=
  [(io_bad 2, OGrant "owner" 10); (io_bad 3, ORestart); (io_at 4, OGrant "owner" 10); (io_bad 5, OSnapshot)].

Lemma enable_sticky_witness :
  exists s, w_mem (cdm_run (cdm_step off0 (io_at 1, OEnable "admin")).1 rough).1 = Some s /\ st_enabled s = true
    /\ st_session_active s = true /\ expired (io_now (io_at 6)) s = false.
Proof.
  apply (enable_sticky off0 (io_at 1) "admin" rough (io_at 6)); [reflexivity|repeat constructor|].
  vm_compute. reflexivity.
Defined.

Definition on0 : World := (cdm_run off0 [(io_at 1, OEnable "admin"); (io_at 2, OGrant "owner" 10)]).1.
Definition on_state : State :=
  {| st_enabled := true; st_session_active := true; st_session_expires_at := Some 12%Z;
     st_session_granted_by := "owner"; st_session_granted_at := Some 2%Z |}.

Lemma revoke_holds_witness :
  (cdm_step (cdm_run (cdm_step on0 (io_bad 3, ORevoke "owner")).1 [(io_bad 4, OEnable "admin")]).1
     (io_at 5, OCanExecute)).2 = ABool false.
Proof.
  apply (revoke_holds on0 on_state (io_bad 3) "owner" [(io_bad 4, OEnable "admin")] (io_at 5));
    [vm_compute; reflexivity|reflexivity|repeat constructor].
Defined.

Lemma failed_writes_witness :
  (cdm_run on0 [(io_bad 3, ORevoke "owner"); (io_at 4, ORestart); (io_at 5, OCanExecute)]).2
  = [AError; ANil; ABool true].
Proof.
  apply (failed_writes on0 on_state (io_bad 3) (io_at 4) (io_at 5) "owner" 1 12); vm_compute; try reflexivity; discriminate.
Defined.

(** ** Agent: inventory and check-in *)

Definition pkg (n v : string) : PackageRef := {| pr_name := n; pr_version := v; pr_manager := "apt" |}.
Definition last0 : gmap string PackageRef := snapshot_of [pkg "vim" "8"; pkg "git" "2"].
Definition now0 : list PackageRef := [pkg "vim" "9"; pkg "gcc" "13"].

(** The server has the rows of the last snapshot. *)
Definition inv_db : DB :=
  set_inventory_packages {["ipk_a" := package_row "dev_1" (pkg "vim" "8") 1; "ipk_b" := package_row "dev_1" (pkg "git" "2") 1]} db0.

Definition env_far (n : nat) : Env :=
  {| e_fault := false; e_faults := fun _ => false; e_now := 7; e_id := String.append "x" (pretty n) |}.

Lemma fresh0 : fresh_env env_far 0 inv_db.
Proof.
  split_and!; [done| |].
  - intros k k' _ _ H. injection H as H. by apply (inj pretty).
  - intros k _. apply lookup_insert_None. split; [by apply lookup_singleton_None|done].
Defined.

Lemma synced0 : synced inv_db "dev_1" last0.
Proof.
  intros p. split.
  - intros (id & row & Hid & _ & Hn & Hv & Hm). destruct p as [n v m].
    rows Hid; simpl in Hn, Hv, Hm; subst; vm_compute; reflexivity.
  - intros [_ Hin]%lookup_snapshot. apply elem_of_cons in Hin as [->|Hin].
    + exists "ipk_a". eexists. by split; [vm_compute; reflexivity|].
    + apply list_elem_of_singleton in Hin as ->. exists "ipk_b". eexists. by split; [vm_compute; reflexivity|].
Defined.

Definition poller0 : Poller := Poller.New "dev_1" "1.0.0" 30 0.

Lemma checkin_syncs_witness :
  synced (run (checkin ctx0 NoAnswer 9 true (Some now0) poller0 (Some last0) : prog DB Empty_set _) env_far 0 inv_db).1.1
    "dev_1" (snapshot_of now0).
Proof.
  destruct (checkin_syncs ctx0 env_far inv_db poller0 last0 now0 NoAnswer 9) as (p' & js & _ & Hs);
    [discriminate|discriminate|by exists dev0|exact fresh0|by apply snapshot_of_ok; repeat constructor
    |repeat constructor|exact synced0|discriminate|exact Hs].
Defined.

(** The request is lost: two check-ins later the server still has the old rows. *)
Lemma lost_checkin_witness :
  synced (foldl (fun s now =>
    (run (checkin ctx0 Answered now true (Some now0) poller0 (Some (snapshot_of now0)) : prog DB Empty_set _)
       env_far 0 s).1.1) inv_db [10%Z; 11%Z]) "dev_1" last0.
Proof.
  apply (lost_checkin ctx0 env_far inv_db poller0 last0 now0 [10%Z; 11%Z]);
    [done|discriminate|discriminate|repeat constructor|exact synced0].
Defined.

(** ** Agent: update *)

Definition uplib0 : Lib :=
  {| fetch := fun _ => Some "v2"; fetch_key := Some; parse_ed25519 := Some; sha256_raw := String.append "#";
     hex_encode := fun s => s; base64_decode := Some;
     ed25519_verify := fun key d sig => (key =s "k1") && (sig =s String.append "sig" d); enough_space := fun _ => true |}.
Definition update0 : AgentUpdatePayload :=
  {| up_version := "2.0.0"; up_channel := ""; up_download_url := "https://u"; up_sha256 := "#v2"; up_signature := "sig#v2";
     up_signature_key_id := "k1"; up_size_bytes := 2; up_min_rollback_version := ""; up_force := false |}.
Definition fs0 : FS := {| fs_files := {[BinaryPath linux := "v1"]}; fs_pending := PNone |}.
Definition update_prog : prog FS JobResultSubmission JobResultSubmission :=
  executeAgentUpdate uplib0 (Some linux) "1.0.0" 30 "job_u" (JValid update0).

Lemma paths0 : paths_distinct linux.
Proof. split_and!; discriminate. Defined.

(** The update goes through, and the installed binary is a verified one. *)
Lemma update_installs_verified_witness :
  exists c, fs_files (run_store update_prog env0 fs0) !! BinaryPath linux = Some c /\ verified uplib0 update0 c.
Proof.
  destruct (update_installs_verified uplib0 linux "1.0.0" 30 "job_u" (JValid update0) env0 fs0 paths0)
    as [(msg & Hr & _)|(p & msg & Hp & _ & c & Hv & Hc & _)].
  - vm_compute in Hr. discriminate Hr.
  - injection Hp as <-. exists c. split; [exact Hc|exact Hv].
Defined.

(** A restart past the deadline brings the old binary back. *)
Lemma late_restart_undoes_witness :
  fs_files (run_store update_prog env0 fs0) !! BinaryPath linux = Some "v2" /\
  fs_files (run_store (startup (pretty : Z -> string) linux "2.0.0" : prog FS Empty_set unit) (env_at 2000000000000)
    (run_store update_prog env0 fs0)) !! BinaryPath linux = Some "v1".
Proof.
  split; [vm_compute; reflexivity|].
  assert (exists d, fs_pending (run_store update_prog env0 fs0) = PValid d /\ (pu_deadline d < 2000000000000)%Z)
    as (d & Hd & Hlt).
  { eexists. split; [vm_compute; reflexivity|reflexivity]. }
  apply (late_restart_undoes (pretty : Z -> string) uplib0 linux "1.0.0" 30 "job_u" (JValid update0) update0 env0 fs0
    (env_at 2000000000000) "v1" d paths0); [reflexivity|reflexivity| |exact Hd|done|exact Hlt].
  eexists. vm_compute. reflexivity.
Defined.
