(* ===== verification/FleetWitnesses.v ===== *)
(** * Concrete instances, continued

    Runs on the small installation of [Witnesses] for the theorems on the fleet,
    files, versions, installers, the gateway, rate limits, logs, listings and the
    agent's local access. *)

From Stdlib Require Import QArith.
From stdpp Require Import relations.
From S2P Require Import Prelude Prog Models JobState Database Scope Quota JobSystem Enrollment AgentAuth Identity.
From S2P Require Import Cdm Sessions LocalAccess LocalSpecs.
From S2P Require Import Tenancy Fleet FleetSpecs Float64 Paging RateLimit RateSpecs Gateway GatewaySpecs.
From S2P Require Import Versions VersionSpecs Logs LogSpecs.
From S2P Require Import Files FileSpecs FileHistory.
From S2P Require Import Installers InstallerSpecs.
From S2P Require Import Witnesses.

Local Close Scope Q_scope.
Local Open Scope nat_scope.

(** ** Devices *)

Definition fw0 : FleetWiring := {| fw_audit := true; fw_ilike := fun _ _ => true; fw_marshal := fun s => s |}.
Definition revoke0 : Handler unit := Revoke true ctx0 "dev_1" None.

(** The device is revoked while another request of the tenant is served. *)
Lemma fleet_isolation_witness :
  let qs := [(ctx0, FRevoke "dev_1" None); (ctx0, FGetTenant)] in
  tenant_frame (fun T => exists cq, cq ∈ qs /\ ctx_tenant cq.1 = T) db0 (run_store revoke0 env0 db0) /\
  (dev_status <$> devices (run_store revoke0 env0 db0) !! "dev_1") = Some "revoked".
Proof.
  split; [|vm_compute; reflexivity].
  eapply (fleet_isolation fw0 [(ctx0, FRevoke "dev_1" None); (ctx0, FGetTenant)]).
  exact (pool_run revoke0 env0 0 db0 (map (fun cq => fleet_serve fw0 cq.1 cq.2) [(ctx0, FRevoke "dev_1" None); (ctx0, FGetTenant)]) 0 eq_refl).
Defined.

(** A check-in of the revoked device that was already past authentication, and a
    renewal that was not. *)
Definition later0 : list LaterRequest :=
  [LJobs (QCheckin ctx0 (Some checkin0)); LRenew lib0 true ctx0 (peer "dev_1" "s1") "POST" (Some "csr"); LFleet ctx0 FGetTenant].
Definition late0 : Handler unit := serve wiring0 (QCheckin ctx0 (Some checkin0)).

Lemma revoked_locked_out_witness :
  exists r, run_result (MTLS lib0 true (fun _ => stop NoContent : Handler unit) ctx0 (peer "dev_1" "s1")) env0
    (run_store late0 env0 (run_store revoke0 env0 db0)) = inl r /\ (401 <= resp_status r)%Z.
Proof.
  eapply (revoked_locked_out true env0 ctx0 "dev_1" None db0 x509_0 wiring0 fw0 later0)
    with (cert := {| pc_common_name := "dev_1"; pc_serial := "s1"; pc_not_before := 0; pc_not_after := 3000000000000 |}).
  - vm_compute. reflexivity.
  - exact (pool_run late0 env0 0 (run_store revoke0 env0 db0)
      (map (later_serve x509_0 wiring0 fw0) later0) 0 eq_refl).
  - reflexivity.
  - reflexivity.
Defined.

(** ** Versions and policies *)

Definition version0 : AgentVersion :=
  {| av_version := "1.1.0"; av_channel := "stable"; av_changelog := Some ""; av_yanked := false; av_yank_reason := Some "";
     av_created_at := 1 |}.
Definition rollout0 : Rollout :=
  {| ro_version := "ver_1"; ro_tenant := "ten_1"; ro_status := RolloutStatusInProgress; ro_strategy := "gradual";
     ro_batch_percent := 10; ro_batch_interval_minutes := 60; ro_current_batch := 0; ro_total_devices := 1;
     ro_updated_devices := 0; ro_rolled_back_devices := 0; ro_seed := 7; ro_last_batch_at := None; ro_created_at := 1 |}.
Definition versions_db : DB := set_agent_versions {["ver_1" := version0]} (set_agent_rollouts {["rol_1" := rollout0]} db0).

Definition pause0 : Handler unit := version_serve None ctx0 (OPause "1.1.0").
Definition abort0 : Handler unit := version_serve None ctx0 (OAbort "1.1.0").

(** Paused, then aborted. *)
Lemma rollout_lifecycle_witness :
  exists new, rtc rollout_next RolloutStatusInProgress new /\
    agent_rollouts (run_store abort0 env0 (run_store pause0 env0 versions_db)) !! "rol_1"
    = Some (set_rollout_status new rollout0) /\ new = RolloutStatusAborted.
Proof.
  destruct (rollout_lifecycle None versions_db (run_store abort0 env0 (run_store pause0 env0 versions_db)) "rol_1" rollout0)
    as (new & Hn & Hr & _).
  - eapply rtc_l; [apply (version_step_one None ctx0 (OPause "1.1.0") env0)|].
    apply rtc_once, (version_step_one None ctx0 (OAbort "1.1.0") env0).
  - reflexivity.
  - exists new. split; [exact Hn|]. split; [exact Hr|]. apply (f_equal (fmap ro_status)) in Hr. vm_compute in Hr. injection Hr as Hnew. exact (eq_sym Hnew).
Defined.

Definition policy_request : upsertPolicyRequest :=
  {| up_group_id := "grp_1"; up_enabled := None; up_channel := "beta"; up_schedule := ""; up_rollout_strategy := "";
     up_rollout_batch_percent := Some 25%Z; up_rollout_batch_interval_minutes := None |}.

Lemma policy_roundtrip_witness :
  exists id', find_policy "ten_1" "grp_1" (run_store (UpsertPolicy ctx0 (Some policy_request)) env0 db0)
    = Some (id', requested_policy ctx0 policy_request).
Proof.
  destruct (policy_roundtrip env0 ctx0 policy_request db0 "aup_0" (requested_policy ctx0 policy_request)) as (_ & _ & Hf & _).
  - intros a b p q Ha. rows Ha.
  - vm_compute. reflexivity.
  - apply Hf. discriminate.
Defined.

(** ** Listings *)

(** Rows by id, the greatest first. *)
Definition by_id : relation (string * Z) := fun a b => string_leb b.1 a.1 = true.

#[local] Instance by_id_decision : RelDecision by_id.
Proof. intros a b. unfold by_id. exact _. Defined.
#[local] Instance by_id_trans : Transitive by_id.
Proof. intros a b c H1 H2. unfold by_id in *. eapply string_leb_trans; eauto. Defined.
#[local] Instance by_id_total : Total by_id.
Proof. intros a b. apply string_leb_total. Defined.

Lemma paging_terminates_witness :
  is_Some (collect by_id 4 2 "" [("a", 1%Z); ("c", 3%Z); ("b", 2%Z)]).
Proof.
  apply (paging_terminates by_id 2 "" [("a", 1%Z); ("c", 3%Z); ("b", 2%Z)]); [reflexivity|].
  intros kv Hkv. repeat (apply elem_of_cons in Hkv as [->|Hkv]; [discriminate|]). by apply elem_of_nil in Hkv.
Defined.

Lemma paging_complete_witness :
  collect by_id 4 2 "" [("a", 1%Z); ("c", 3%Z); ("b", 2%Z)] = Some [("c", 3%Z); ("b", 2%Z); ("a", 1%Z)].
Proof.
  etrans; [apply (paging_complete by_id 2 [("a", 1%Z); ("c", 3%Z); ("b", 2%Z)])|vm_compute; reflexivity].
  - reflexivity.
  - vm_compute. repeat constructor; set_solver.
  - intros kv Hkv. repeat (apply elem_of_cons in Hkv as [->|Hkv]; [discriminate|]). by apply elem_of_nil in Hkv.
  - intros a b _ _ H. exact H.
Defined.

(** ** Files *)

(** A hash that is not empty, and keys that are their own encoding. *)
Definition siglib0 : SigLib :=
  {| sha256 := fun s => s; hex := String.append "h"; b64_decode := Some; parse_pem := Some;
     parse_pkix := fun s => Some (Some s); ed25519_verify := fun _ _ _ => true |}.
Definition fh0 : FilesHandler :=
  {| fh_base := "/data"; fh_quota := None; fh_lib := siglib0; fh_scan_null := None; fh_ilike := fun _ _ => true;
     fh_payload_file := fun _ => None |}.
Definition fstore0 : FStore := {| fs_db := db0; fs_dirs := ∅; fs_staged := ∅; fs_blobs := ∅ |}.

Definition upload_request : initiateUploadRequest :=
  {| iq_filename := "f"; iq_size_bytes := 3; iq_sha256 := "habc"; iq_signature := ""; iq_signature_key_id := "";
     iq_mime_type := "text/plain" |}.
Definition initiated : FStore := run_store (file_serve fh0 ctx0 (FInitiate (Some upload_request))) env0 fstore0.
Definition chunked : FStore := run_store (file_serve fh0 ctx0 (FChunk "upl_2" "0" "" (Some "abc"))) env0 initiated.
Definition completed : FStore := run_store (file_serve fh0 ctx0 (FComplete "upl_2")) env0 chunked.

Lemma hash0 d : sha256_hex_of (fh_lib fh0) d <> "".
Proof. discriminate. Defined.

Lemma chunked_steps : rtc (file_step fh0) fstore0 chunked.
Proof.
  eapply rtc_l; [apply (file_step_one fh0 ctx0 (FInitiate (Some upload_request)) env0); exact (fun _ => I)|].
  apply rtc_once, (file_step_one fh0 ctx0 (FChunk "upl_2" "0" "" (Some "abc")) env0). exact (fun _ => I).
Defined.

(** Initiated, one chunk, completed: the blob is what was declared. *)
Lemma files_intact_witness : files_inv fh0 completed /\ fs_blobs completed !! "fil_1" = Some "abc".
Proof.
  split; [|vm_compute; reflexivity].
  apply (files_intact fh0 fstore0 completed hash0 eq_refl eq_refl).
  eapply rtc_r; [exact chunked_steps|]. apply (file_step_one fh0 ctx0 (FComplete "upl_2") env0), env0_ok.
Defined.

(** Why the accesses of a completion must not fail: when the UPDATE of [completed_at]
    does, whose error is ignored, the upload stays pending while its chunks are
    removed; the file is stored, but a repeated completion removes its blob. *)
Definition env_failing (k n : nat) : Env :=
  if (n =? k)%nat then {| e_fault := true; e_faults := e_faults (env0 n); e_now := e_now (env0 n); e_id := e_id (env0 n) |} else env0 n.
Definition half_completed : FStore := run_store (file_serve fh0 ctx0 (FComplete "upl_2")) (env_failing 8) chunked.
Definition repeated : FStore := run_store (file_serve fh0 ctx0 (FComplete "upl_2")) env0 half_completed.

Example unchecked_update_loses_file :
  fs_blobs half_completed !! "fil_1" = Some "abc" /\ fs_blobs repeated !! "fil_1" = None /\
  (fil_storage_path <$> files (fs_db repeated) !! "fil_1") = Some "/data/fil_1".
Proof. vm_compute. done. Qed.

Lemma complete_decides_witness :
  exists body, run_result (CompleteUpload fh0 ctx0 "upl_2") env0 chunked = inl (Answer (JSON 200 body)).
Proof.
  destruct (file_uploads (fs_db chunked) !! "upl_2") as [u|] eqn:Hu; [|vm_compute in Hu; discriminate Hu].
  destruct (files (fs_db chunked) !! "fil_1") as [f|] eqn:Hf; [|vm_compute in Hf; discriminate Hf].
  pose proof Hu as Eu. pose proof Hf as Ef. vm_compute in Eu, Ef. injection Eu as <-. injection Ef as <-.
  eapply (complete_decides fh0 ctx0 "upl_2" env0 fstore0 chunked _ _ hash0 env0_ok eq_refl eq_refl chunked_steps).
  - vm_compute. reflexivity.
  - vm_compute. reflexivity.
  - cbn [upl_total_chunks upl_uploaded_chunks]. split.
    + intros i Hi. apply list_elem_of_singleton. lia.
    + exists "abc", false. split; [vm_compute; reflexivity|]. split; reflexivity.
Defined.

Lemma total_chunks_exact_witness : total_chunks 5242881 = 2%Z /\ total_chunks 5242880 = 1%Z.
Proof.
  destruct (total_chunks_exact 5242881) as (-> & _); [split; reflexivity || discriminate|].
  destruct (total_chunks_exact 5242880) as (-> & _); [split; reflexivity || discriminate|]. split; reflexivity.
Defined.

(** ** Rate limits *)

(** One request in a second, two at once, and the middleware's time to live. *)
Definition kl0 : KeyedLimiter := NewKeyedLimiter {| Rate := 1; Burst := 2 |} (600 * Second).
Definition burst0 : list (string * Z) := [("k", 1%Z); ("k", 2%Z); ("k", 3%Z)].

Lemma rate_limited_witness :
  (inject_Z (passed "k" burst0 (serve_calls kl0 burst0).2)
     <= burst kl0 + gain kl0 3 + inject_Z 3 * slack kl0)%Q /\ passed "k" burst0 (serve_calls kl0 burst0).2 = 2%Z.
Proof.
  split; [|vm_compute; reflexivity]. apply (rate_limited kl0 0 burst0 "k").
  - split_and!; [by vm_compute| |by vm_compute|]; [exists 2%Z; split; [lia|vm_compute; reflexivity]|].
    intros k b Hb. simpl in Hb. by apply lookup_empty_Some in Hb.
  - by vm_compute.
  - simpl. lia.
Defined.

(** ** Local sessions *)

Definition uses0 : list (Z * SesOp) := [(0%Z, SCreate "t" "owner" SessionWeb); (Minute, SValidate "t")].

Lemma session_life_witness : life SessionWeb 0 (2 * Minute).
Proof.
  destruct (Validate (2 * Minute) "t" (ses_run NewSessionManager uses0)) as [sm' [s|e]] eqn:Hv; [|vm_compute in Hv; discriminate Hv].
  destruct (session_life uses0 0 (2 * Minute) "t" sm' s) as [Hin Hlife].
  - simpl. unfold Minute. lia.
  - exact Hv.
  - apply (f_equal snd) in Hv. vm_compute in Hv. injection Hv as <-. exact Hlife.
Defined.

(** ** The gateway *)

(** A key with the predefined Viewer role. *)
Definition viewer_db : DB :=
  set_api_keys {["key_1" := {| key_tenant := "ten_1"; key_user := "usr_1"; key_name := "k"; key_hash := "#sk_v"; key_role := "rol_1";
    key_scope := None; key_is_admin := false; key_last_used_at := None; key_expires_at := None; key_created_at := 1 |}]} db0.
Definition cfg0 : RouterConfig := {| rc_x509 := x509_0; rc_oidc := None |}.
Definition gstore0 : GStore := {| g_db := viewer_db; g_limiter := None |}.
Definition create_job_route : Route := R_ "POST" "/v1/jobs" PermJobsCreate "jobsH.Create".

Lemma viewer_identified ctx : identified cfg0 "Bearer sk_v" env0 viewer_db ctx ->
  ctx_is_admin ctx = false /\ ctx_permissions ctx ⊆ ViewerPermissions.
Proof.
  intros [_ [(id & k & Hk & _ & _ & ->)|(verify & sub & id & u & role & Hv & _)]]; [|discriminate Hv].
  rows Hk. split; [reflexivity|]. vm_compute. set_solver.
Defined.

(** A viewer does not get to create a job. *)
Lemma readonly_roles_witness :
  exists r, run_result (v1_chain cfg0 "Bearer sk_v" PermJobsCreate (fun _ => stop NoContent)) env0 gstore0 = inl r /\
    (401 <= resp_status r)%Z.
Proof.
  destruct (readonly_roles cfg0 "Bearer sk_v" env0 gstore0 create_job_route (fun _ => stop NoContent)) as (r & Hr & Hge & _).
  - apply (list_elem_of_lookup_2 v1_routes 17). reflexivity.
  - discriminate.
  - intros ctx Hc. destruct (viewer_identified ctx Hc) as [-> Hp]. split; [reflexivity|]. etrans; [exact Hp|]. vm_compute. set_solver.
  - left. intros ctx Hc. apply viewer_identified, Hc.
  - exists r. split; [exact Hr|exact Hge].
Defined.

(** ** Installers *)

Definition installer0 : Installer :=
  {| ins_version := "1.0.0"; ins_channel := "stable"; ins_os := "linux"; ins_arch := "amd64"; ins_file := "fil_1";
     ins_sha256 := "habc"; ins_signature := ""; ins_signature_key := ""; ins_released_at := 1; ins_yanked := false;
     ins_yank_reason := None |}.
Definition installer_store : FStore :=
  {| fs_db := set_installers {["ins_1" := installer0]} db0; fs_dirs := ∅; fs_staged := ∅; fs_blobs := {["fil_1" := "abc"]} |}.
Definition http0 : HttpInfo := {| hi_tls := true; hi_host := "fleet"; hi_forwarded_proto := ""; hi_forwarded_host := "" |}.

Lemma script_agrees_witness :
  run_result (DownloadInstaller x509_0 "Bearer raw" "linux" "amd64" "1.0.0") (env_at 1000) installer_store
  = inl (Answer (JSON 200 (BBytes (installerFilename "linux" "amd64" "1.0.0") "abc"))).
Proof.
  destruct (script_agrees x509_0 http0 "linux" "amd64" "raw" "https://fleet" "1.0.0" "habc" "amd64" env0 (env_at 1000) installer_store)
    as (k & i & Hk & _ & _ & _ & _ & _ & Hd).
  - intros k1 k2 i1 i2 H1 H2 _. rows H1. rows H2. reflexivity.
  - vm_compute. reflexivity.
  - done.
  - intros n. eexists. vm_compute. reflexivity.
  - rows Hk. apply Hd. reflexivity.
Defined.

(** ** Logs *)

Definition line (m : string) : LogEntry := {| le_timestamp := Some 1%Z; le_level := "info"; le_message := m |}.

(** Two lines, a batch whose reply is lost, then the same batch again. *)
Definition log_events : list LogEvent :=
  [EvAdd (line "a"); EvAdd (line "b"); EvTake true; EvShip ReplyLost env0; EvTake true; EvShip Delivered (fun n => env0 (10 + n))].

(** The state and the three lists that a sequence of events leads to. *)
Definition log_add (h : LogSystem * list LogEntry * list LogEntry * list LogEntry) (ev : LogEvent) :=
  let '(st, ins, acc, out) := h in
  (log_do ctx0 ev st, ins ++ added ev, acc ++ acked ctx0 ev st, out ++ dropped ctx0 ev st).
Definition log_end := foldl log_add ({| ls_shipper := new_shipper; ls_db := db0 |}, [], [], []) log_events.

Lemma log_end_history : log_history ctx0 db0 log_end.1.1.1 log_end.1.1.2 log_end.1.2 log_end.2.
Proof. do 6 (apply lh_step; [|intros ? ? H; discriminate H]). apply lh_start. Defined.

Lemma log_delivery_witness :
  Forall (in_table ctx0 (ls_db log_end.1.1.1)) log_end.1.2 /\ log_end.1.2 = [line "a"; line "b"].
Proof.
  split; [apply (log_delivery ctx0 db0 log_end.1.1.1 log_end.1.1.2 log_end.1.2 log_end.2 log_end_history)|vm_compute; reflexivity].
Defined.

(** ** Local access *)

Definition accepts (u p : string) : bool := (u =s "owner") && (p =s "pw").
Definition lio (now : Z) : LIo :=
  {| li_now := now; li_token := Some "t"; li_cdm := io_at now; li_audit := Some now; li_expires := now; li_log_lines := None |}.

(** The owner logs in on the web, turns CDM on and opens a session. *)
Definition local0 : Local := fresh_agent None [].
Definition local1 : Local := local_step accepts (EvWeb None (PLogin (Some ("owner", "pw")))) (lio 1) local0.
Definition local2 : Local := local_step accepts (EvWeb (Some "t") PEnable) (lio 2) local1.
Definition local3 : Local := local_step accepts (EvWeb (Some "t") (PGrant (Some ("10s", Some 10%Z)))) (lio 3) local2.

Lemma local_history0 : exists evs calls, local_history accepts local0 evs calls local3.
Proof. do 2 eexists. do 3 (apply lo_step; [|exact I]). apply lo_start. Defined.

Lemma consent_from_login_witness :
  exists evs calls u io' d, local_history accepts local0 evs calls local3 /\ logged_in accepts evs u /\
    (Some u, (io', OGrant "owner" d)) ∈ calls /\ (5 <= io_now io' + d)%Z.
Proof.
  destruct local_history0 as (evs & calls & Hh). exists evs, calls.
  destruct (w_mem (lw_cdm local3)) as [s|] eqn:Hs; [|vm_compute in Hs; discriminate Hs].
  assert (st_enabled s = true /\ st_session_granted_by s = "owner") as [He Hby].
  { vm_compute in Hs. injection Hs as <-. split; reflexivity. }
  destruct (consent_from_login accepts None [] evs calls local3 (io_at 5) s Hh) as (u & io' & d & Hu & Hin & Hle).
  - vm_compute. reflexivity.
  - exact Hs.
  - exact He.
  - exists u, io', d. rewrite <-Hby. split; [exact Hh|]. split; [exact Hu|]. split; [exact Hin|exact Hle].
Defined.
