(* ===== verification/AgentWitnesses.v ===== *)
(** * Concrete instances, continued: the agent and the server's processes

    Concrete functions for the libraries that the files [Credentials], [Pki],
    [LocalCA] and [Ipc] take as parameters, with the proofs of their laws, and
    runs in which the hypotheses of the theorems on them hold. *)

From stdpp Require Import relations countable strings.
From S2P Require Import Prelude Text Platform Prog Models JobState Database Scope Quota JobSteps JobsApi Requests Enrollment AgentAuth Checkin Inventory Host Update Credentials Packages Transfer Install Pki LocalCA.
From S2P Require Import Cdm Sessions LocalAccess Ipc.
From S2P Require Import Migrate.
From S2P Require Import RateLimit Config Gateway Server.
From S2P Require Import Files FileSpecs TransferSpecs.
From S2P Require Import AgentJobs JobSpecs Poller Executor EndToEnd.
From S2P Require Import Witnesses FleetWitnesses.

Local Open Scope nat_scope.

(** ** An encoding of values as strings of digits *)

Definition zero_digit : Ascii.ascii := Ascii.ascii_of_nat 48.
Definition one_digit : Ascii.ascii := Ascii.ascii_of_nat 49.

Fixpoint bits (p : positive) : string :=
  match p with
  | xH => ""
  | xO p' => String zero_digit (bits p')
  | xI p' => String one_digit (bits p')
  end.

Fixpoint of_bits (s : string) : positive :=
  match s with
  | EmptyString => xH
  | String c s' => if Ascii.eqb c zero_digit then xO (of_bits s') else xI (of_bits s')
  end.

Lemma of_bits_bits p : of_bits (bits p) = p.
Proof. induction p as [p IH|p IH|]; simpl; by rewrite ?IH. Defined.

Lemma bits_line p : without newline (bits p) = true /\ drop_cr (bits p) = bits p.
Proof.
  induction p as [p [IH1 IH2]|p [IH1 IH2]|]; [..|done]; cbn [bits]; (split; [exact IH1|]); cbn [drop_cr]; rewrite IH2; by destruct (bits p).
Defined.

Definition show {A : Type} `{Countable A} (a : A) : string := bits (encode a).
Definition read {A : Type} `{Countable A} (s : string) : option A := decode (of_bits s).

Lemma read_show {A : Type} `{Countable A} (a : A) : read (show a) = Some a.
Proof. unfold read, show. rewrite of_bits_bits. apply decode_encode. Defined.

(** ** Certificates *)

#[local] Instance template_eq_dec : EqDecision CertTemplate.
Proof. solve_decision. Defined.
#[local] Instance template_countable : Countable CertTemplate.
Proof.
  refine (inj_countable'
    (fun t => (lt_serial t, lt_common_name t, lt_not_before t, lt_not_after t, lt_is_ca t, lt_max_path_len t, lt_permitted t, lt_names t))
    (fun '(a, b, c, d, e, f, g, h) => {| lt_serial := a; lt_common_name := b; lt_not_before := c; lt_not_after := d; lt_is_ca := e;
                                         lt_max_path_len := f; lt_permitted := g; lt_names := h |}) _).
  by intros [].
Defined.

Definition cert_lib0 : CertLib :=
  {| ll_create := fun tpl parent key signer =>
       match parent with
       | Some ca => if lc_key ca =s signer then Some (show (tpl, key, signer)) else None
       | None => Some (show (tpl, key, signer))
       end;
     ll_key_pem := Some;
     ll_parse_cert := fun s => '(tpl, key, signer) ← read s; Some {| lc_template := tpl; lc_key := key; lc_signer := signer |};
     ll_parse_key := Some;
     ll_pair := fun cert key =>
       '(tpl, k, signer) ← read cert;
       if k =s key then Some {| lc_template := tpl; lc_key := k; lc_signer := signer |} else None |}.

Lemma cert_laws0 : CertLaws cert_lib0.
Proof.
  split.
  - intros tpl [ca|] key signer H; simpl in *; [by rewrite H, seqb_refl|done].
  - intros tpl parent key signer pem H. assert (pem = show (tpl, key, signer)) as ->.
    { simpl in H. destruct parent; [case_match|]; congruence. }
    cbn [ll_parse_cert cert_lib0]. by rewrite read_show.
  - intros key. by exists key.
  - intros cert key c k Hc [= ->]. cbn [ll_parse_cert ll_pair cert_lib0] in *. destruct (read cert) as [[[tpl k0] signer]|]; simpl in *; [|done].
    by injection Hc as <-.
Defined.

Definition no_files : FS := {| fs_files := ∅; fs_pending := PNone |}.

(** The first start of the web UI on a Debian machine. *)
Lemma local_ui_certificate_witness :
  exists c, run_result (serve_tls (R := Empty_set) cert_lib0 (DataDir linux) {| ts_debian := true; ts_rhel := false |}) env0 no_files
    = inr (Some c) /\ lt_names (lc_template c) = ["localhost"; "127.0.0.1"].
Proof.
  destruct (@local_ui_certificate Empty_set cert_lib0 cert_laws0 {| ts_debian := true; ts_rhel := false |} no_files env0 env0_ok)
    as [_ (c & Hr & ca & _ & _ & (_ & Hn & _) & _)].
  - left. split; left; reflexivity.
  - exists c. split; [exact Hr|exact Hn].
Defined.

(** The server of a first deployment. *)
Definition world0 : World_ :=
  {| wo_parse_url := fun _ => true; wo_database := fun _ => true; wo_storage := fun _ => true; wo_discover := fun _ _ => None;
     wo_signer := fun _ => x509_0 |}.
Definition getenv0 (v : string) : string :=
  if v =s "DATABASE_URL" then "postgres://db"
  else if v =s "CA_CERT_PATH" then Join ["keys"; "intermediate-ca.crt"]
  else if v =s "CA_KEY_PATH" then Join ["keys"; "intermediate-ca.key"] else "".

Lemma fresh_server_starts_witness :
  exists srv, run_result (runServer (R := Empty_set) cert_lib0 world0 getenv0) env0
    (run_store (runGenerateCA (R := Empty_set) cert_lib0 "keys" (@rev _)) env0 no_files) = inr (inl srv) /\ as_port srv = 8080%Z.
Proof.
  destruct (@fresh_server_starts Empty_set cert_lib0 cert_laws0 world0 getenv0 "keys" (@rev _) no_files env0 env0)
    as (rp & root & ip & ca & srv & _ & _ & _ & _ & _ & _ & Hr & _ & _ & _ & Hp).
  - exact env0_ok.
  - exact env0_ok.
  - intros files. symmetry. apply Permutation_rev.
  - apart.
  - apart.
  - discriminate.
  - reflexivity.
  - reflexivity.
  - reflexivity.
  - reflexivity.
  - exists srv. split; [exact Hr|exact Hp].
Defined.

(** Two migrators at the same time; the first stops after three accesses, the
    second runs to its end, then the first goes on. *)
Definition schema0 : Schema := {| sm_table := false; sm_applied := [] |}.
Definition migrator := Run sql_entries (fun _ _ => true).

Lemma migrations_in_order_witness :
  let s1 := (run_some 3 migrator env0 0 schema0).1 in
  let s2 := run_store migrator env0 s1 in
  NoDup (sm_applied s2).*1 /\ length (sm_applied s2) = 5.
Proof.
  set (p1 := (run_some 3 migrator env0 0 schema0).2).
  split; [|vm_compute; reflexivity].
  refine (proj2 (proj2 (migrations_in_order sql_entries [migrator; migrator] schema0 _
    [p1; finished (run_result migrator env0 (run_some 3 migrator env0 0 schema0).1)] sql_well_numbered _ _ _))).
  - apply prefix_nil.
  - repeat (apply Forall_cons; split; [exists (fun _ _ => true); reflexivity|]). apply Forall_nil. exact I.
  - etrans; [exact (pool_run_some 3 migrator env0 0 schema0 [migrator; migrator] 0 eq_refl)|].
    exact (pool_run migrator env0 0 (run_some 3 migrator env0 0 schema0).1 [p1; migrator] 1 eq_refl).
Defined.

(** The package helper installs a version of a package. *)
Lemma helper_sound_witness :
  exists pkg, pkg_helper "/usr/bin:/bin" (fun p => p =s "/usr/bin/apt-get") ["apt"; "install"; "vim"; "9"]
    = inl {| xc_path := "/usr/bin/apt-get"; xc_argv := ["apt-get"; "install"; "-y"; "--no-install-recommends"; pkg];
             xc_env := helper_env |} /\ metachar_free pkg = true.
Proof.
  destruct (helper_sound "/usr/bin:/bin" (fun p => p =s "/usr/bin/apt-get") ["apt"; "install"; "vim"; "9"]
    {| xc_path := "/usr/bin/apt-get"; xc_argv := ["apt-get"; "install"; "-y"; "--no-install-recommends"; "vim=9"];
       xc_env := helper_env |}) as (binary & verb & flags & pkg & Hargv & _ & Hin & _ & Hm & _).
  - vm_compute. reflexivity.
  - exists "vim=9". split; [vm_compute; reflexivity|]. cbn [xc_argv] in Hargv. apply (f_equal (@last _)) in Hargv.
    change (binary :: verb :: "-y" :: flags ++ [pkg]) with ((binary :: verb :: "-y" :: flags) ++ [pkg]) in Hargv.
    rewrite last_snoc in Hargv. injection Hargv as <-. exact Hm.
Defined.

(** ** A machine to install on *)

Definition machine0 : Machine :=
  {| mc_nodes := {["/tmp/agent" := {| nd_dir := false; nd_data := "elf"; nd_owner := "admin"; nd_group := "admin"; nd_mode := mode 0 7 5 5 |}]};
     mc_groups := ∅; mc_users := ∅; mc_systemctl := [] |}.
Definition inst0 : InstallHost :=
  {| in_euid := 0; in_systemctl := true; in_executable := Some "/tmp/agent"; in_umask := mode 0 0 2 2 |}.
Definition args0 : InstallArgs := {| ia_token := "raw"; ia_url := "https://fleet"; ia_ca := ""; ia_cdm := false |}.

(** Keys are their own CSRs, and a certificate names its subject and its serial. *)
Definition client0 : ClientLib :=
  {| cl_goos := "linux"; cl_arch := "amd64"; cl_version := "1.0.0"; cl_hostname := "host"; cl_csr := fun _ key => Some key;
     cl_key_pem := Some;
     cl_pair := fun cert _ => '(cn, serial) ← read cert; Some {| pc_common_name := cn; pc_serial := serial; pc_not_before := 0; pc_not_after := 3000000000000 |};
     cl_pool := fun _ => true; cl_not_after := fun _ => Some 3000000000000000%Z |}.
Definition x509_1 : X509 :=
  {| pem_decode := Some; pem_encode := fun s => s; parse_csr := fun s => Some {| csr_key := ECDSA "P-256" s; csr_body := s |};
     check_signature := fun _ => true; create_certificate := fun t _ => Some (show (tpl_common_name t, tpl_serial t));
     sha256_hex := String.append "#"; ca_raw := "ca" |}.
Definition server0 : Server :=
  {| sv_x509 := x509_1; sv_audit := true; sv_quota := None; sv_headers := lib0; sv_ca_pool := true; sv_ctx := nobody |}.

Lemma client_laws0 : ClientLaws client0 x509_1.
Proof.
  split; [done|]. intros host key csr kpem block c tpl der _ _ _ _ Hder. simpl in Hder. injection Hder as <-.
  cbn [cl_pair client0 pem_encode x509_1]. rewrite read_show. simpl. eexists. split; [reflexivity|]. split; reflexivity.
Defined.

Lemma installed_agent_never_starts_witness :
  (exists o, run_result (Install inst0 linux args0) env0 machine0 = inr o) /\
  run_result (start_agent (R := Empty_set) client0 server0 linux) env0
    {| bt_db := db0; bt_fs := {| fs_files := readable (ServiceName linux) (ServiceName linux) (run_store (Install inst0 linux args0) env0 machine0);
                                 fs_pending := PNone |} |} = inr None.
Proof.
  destruct (@installed_agent_never_starts Empty_set inst0 args0 machine0 env0 client0 server0 db0 PNone env0) as [H1 H2].
  - split; [reflexivity|]. split; [reflexivity|]. split; [reflexivity|]. split; [discriminate|]. split; [discriminate|].
    split; [exists "/tmp/agent"; split; [reflexivity|]; apply (bool_decide_unpack _); vm_compute; exact I|].
    intros H. destruct H. reflexivity.
  - reflexivity.
  - reflexivity.
  - split; [exact (H1 env0_ok)|exact H2].
Defined.

(** ** Credentials *)

(** A machine with a token that the service can read. *)
Definition new_agent : Boot := {| bt_db := db0; bt_fs := {| fs_files := {[EnrollmentTokenPath linux := "raw"]}; fs_pending := PNone |} |}.
Definition first_start : Boot * (Empty_set + option (string * PeerCert)) :=
  let p : prog Boot Empty_set _ := start_agent client0 server0 linux in (run_store p env0 new_agent, run_result p env0 new_agent).

Lemma linux_placed : well_placed linux.
Proof. apart. Defined.

Lemma startup_authenticates_witness :
  exists id cert T, first_start.2 = inr (Some (id, cert)) /\ pc_common_name cert = id /\
    run (MTLS lib0 true (fun _ => stop NoContent : Handler unit) nobody {| ar_peer_certs := [cert]; ar_client_cert_header := "" |}) env0 0 (bt_db first_start.1)
    = run (stop NoContent : Handler unit) env0 2 (bt_db first_start.1) /\ T = "ten_1".
Proof.
  assert (exists id serial, first_start.2 = inr (Some (id, {| pc_common_name := id; pc_serial := serial; pc_not_before := 0;
    pc_not_after := 3000000000000 |})) /\ id <> "") as (id & serial & Hr & Hne).
  { do 2 eexists. split; [vm_compute; reflexivity|discriminate]. }
  destruct (@startup_authenticates client0 server0 linux client_laws0 env0 new_agent id _ linux_placed env0_ok eq_refl Hr Hne) as [T HT].
  exists id, {| pc_common_name := id; pc_serial := serial; pc_not_before := 0; pc_not_after := 3000000000000 |}, "ten_1".
  split; [exact Hr|]. split; [reflexivity|]. split; [|reflexivity].
  apply (HT (fun _ => stop NoContent) env0 nobody); [split; vm_compute; discriminate|reflexivity].
Defined.

(** An agent whose certificate is due: the answer to its renewal is lost. *)
Definition client_due : ClientLib :=
  {| cl_goos := "linux"; cl_arch := "amd64"; cl_version := "1.0.0"; cl_hostname := "host"; cl_csr := cl_csr client0;
     cl_key_pem := cl_key_pem client0; cl_pair := cl_pair client0; cl_pool := cl_pool client0; cl_not_after := fun _ => Some 0%Z |}.
Definition cert_s1 : PeerCert := {| pc_common_name := "dev_1"; pc_serial := "s1"; pc_not_before := 0; pc_not_after := 3000000000000 |}.
Definition old_agent : Boot :=
  {| bt_db := db0;
     bt_fs := {| fs_files := {[AgentIDPath linux := "dev_1"; ClientCertPath linux := show ("dev_1", "s1"); ClientKeyPath linux := "k";
                              CACertPath linux := "ca"]}; fs_pending := PNone |} |}.
Definition env_lost (n : nat) : Env :=
  {| e_fault := Nat.eqb n 19; e_faults := fun _ => false; e_now := 1000000000000 + Z.of_nat n; e_id := pretty n |}.
Definition lost_start : prog Boot Empty_set (option (string * PeerCert)) := start_agent client_due server0 linux.
Definition locked_agent : Boot := run_store lost_start env_lost old_agent.

Lemma lost_renewal_locks_out_witness :
  starts client_due server0 linux [env0; env0] locked_agent = locked_agent /\
  exists r, run_result (MTLS lib0 true (fun _ => stop NoContent : Handler unit) nobody {| ar_peer_certs := [cert_s1]; ar_client_cert_header := "" |})
    env0 (bt_db locked_agent) = inl r /\ resp_status r <> 200%Z.
Proof.
  destruct (lost_renewal_locks_out client_due server0 linux env_lost old_agent cert_s1 [env0; env0]) as (H1 & _ & H2).
  - exact linux_placed.
  - reflexivity.
  - vm_compute. reflexivity.
  - intros H. apply (f_equal size) in H. vm_compute in H. discriminate H.
  - vm_compute. reflexivity.
  - split; [exact H1|exact (H2 (fun _ => stop NoContent) env0 nobody)].
Defined.

(** ** Transfers *)

(** A server whose driver reads NULL as the empty string, and the file uploaded to
    it in [completed]. *)
Definition fh1 : FilesHandler :=
  {| fh_base := fh_base fh0; fh_quota := fh_quota fh0; fh_lib := fh_lib fh0; fh_scan_null := Some ""; fh_ilike := fh_ilike fh0;
     fh_payload_file := fh_payload_file fh0 |}.
Definition info0 (id : string) : option fileDownloadResponse :=
  match run_result (Download fh1 ctx0 id) env0 completed with
  | inl (Answer (ROk 200 (BDownload i))) => Some i
  | _ => None
  end.
Definition joblib0 : JobLib :=
  {| jl_windows := false; jl_command := fun _ _ _ h => (h, {| co_stdout := ""; co_stderr := ""; co_error := None |}, false);
     jl_hook := fun _ _ _ h => (h, ("", true)); jl_info := info0; jl_statfs := fun _ _ => Some (1000000, 4096)%Z; jl_files := uplib0;
     jl_marshal := fun _ _ => "" |}.
Definition transfer0 : FileTransferPayload :=
  {| ftp_file_id := "fil_1"; ftp_integrity := None; ftp_storage := None; ftp_on_complete := None |}.
Definition agent0 : Agent :=
  {| ag_fs := fs0; ag_inv := None;
     ag_host := {| ho_dpkg := None; ho_rpm := None; ho_cpuinfo := None; ho_meminfo := None; ho_blocks := None; ho_ifaces := None |} |}.

Lemma transfers_fail_witness :
  exists res, is_Some (info0 "fil_1") /\
    run_result (executeFileTransfer joblib0 (DropDir linux) (JValid transfer0)) env0 agent0 = inl res /\ sub_status res = "failed".
Proof.
  destruct (transfers_fail fh1 ctx0 joblib0 (DropDir linux) (JValid transfer0) env0 agent0) as (res & Hr & Hs & _).
  - intros id info Hi. exists env0, completed. cbn [jl_info joblib0] in Hi. unfold info0 in Hi.
    revert Hi. destruct (run_result (Download fh1 ctx0 id) env0 completed) as [o|u]; [|discriminate].
    repeat (case_match; try discriminate). intros Hi. injection Hi as <-. reflexivity.
  - exists res. split; [apply (bool_decide_unpack _); vm_compute; exact I|]. split; [exact Hr|exact Hs].
Defined.

(** ** The local transport *)

#[local] Instance request_eq_dec : EqDecision IpcRequest.
Proof. solve_decision. Defined.
#[local] Instance request_countable : Countable IpcRequest.
Proof.
  refine (inj_countable' (fun r => (rq_id r, rq_method r, rq_params r, rq_token r))
    (fun '(a, b, c, d) => {| rq_id := a; rq_method := b; rq_params := c; rq_token := d |}) _). by intros [].
Defined.
#[local] Instance response_eq_dec : EqDecision IpcResponse.
Proof. solve_decision. Defined.
#[local] Instance response_countable : Countable IpcResponse.
Proof. refine (inj_countable' (fun r => (rs_id r, rs_body r)) (fun '(a, b) => {| rs_id := a; rs_body := b |}) _). by intros []. Defined.

Definition codec0 : Codec :=
  {| enc_request := show; dec_request := read; enc_response := show; dec_response := read; enc_result := fun _ => "ok";
     p_login := read; p_token := Some; p_actor := Some; p_grant := fun s => Some (s, s, Some 600%Z); p_tail := fun _ => 50%Z;
     enc_login := fun u p => show (u, p); enc_actor := fun a => a; enc_grant := fun a _ => a; enc_tail := fun _ => "" |}.

Lemma codec_laws0 : CodecLaws codec0.
Proof. split; intros r; [apply read_show|apply read_show|apply bits_line|apply bits_line]. Defined.

Definition calls1 : list Invocation :=
  [{| iv_method := "auth.login"; iv_params := enc_login codec0 "owner" "pw"; iv_token := "" |};
   {| iv_method := "cdm.enable"; iv_params := "owner"; iv_token := "t" |}].

Lemma ipc_transparent_witness :
  client_results codec0 calls1 (handleConn codec0 accepts (client_input codec0 1 calls1) (fun n => lio (Z.of_nat n)) local0).2
    = [Some (inr "ok"); Some (inr "ok")].
Proof.
  refine (eq_trans (proj2 (@ipc_transparent codec0 accepts codec_laws0 1 calls1 (fun n => lio (Z.of_nat n)) local0 _ _)) _).
  - repeat (apply Forall_cons; split; [vm_compute; reflexivity|]). apply Forall_nil. exact I.
  - repeat (apply Forall_cons; split; [vm_compute; reflexivity|]). apply Forall_nil. exact I.
  - vm_compute. reflexivity.
Defined.

(** ** A job, end to end *)

Definition create0 : CreateRequest :=
  {| cq_type := "exec"; cq_target := {| tgt_device_ids := ["dev_1"]; tgt_group_ids := []; tgt_tag_ids := []; tgt_site_ids := [] |};
     cq_payload := "id"; cq_retry_policy := None |}.
Definition created0 : DB := run_store (Create true None ctx0 (Some create0)) env0 db0.
Definition poller0 : Poller := Poller.New "dev_1" "1.0.0" 30 0.
Definition runner0 : ExecutorConfig :=
  {| ex_ctx := ctx0; ex_audit := true; ex_decode := fun _ => None; ex_lib := joblib0;
     ex_packages := {| pc_shell := {| env_path := ""; executable := fun _ => false; look_windows := fun _ => None; run_program := fun _ _ _ h => (h, {| co_stdout := ""; co_stderr := ""; co_error := None |}) |};
                       pc_windows := false; pc_injected := None; pc_inventory := false |};
     ex_payloads := {| pl_exec := fun raw => JValid {| xp_command := raw; xp_timeout_seconds := 10%Z |};
                       pl_file_transfer := fun _ => JInvalid transfer0;
                       pl_package := fun _ => JInvalid {| pp_name := ""; pp_version := ""; pp_manager := "" |};
                       pl_agent_update := fun _ => JInvalid update0;
                       pl_agent_rollback := fun _ => JInvalid {| rb_reason := ""; rb_min_rollback_version := "" |} |};
     ex_dropDir := DropDir linux; ex_platform := Some linux; ex_version := "1.0.0"; ex_pollInterval := 30; ex_restart := false |}.
Definition polled0 : DB * nat * (Empty_set + (Poller * Collector * list JobDispatch)) :=
  run (Poller.checkin ctx0 Answered 5 false None poller0 None) env0 0 created0.
Definition sys2 : Sys :=
  {| sy_db := polled0.1.1; sy_cdm := {| w_mem := Some zero_state; w_file := NoFile; w_log := None |}; sy_agent := agent0;
     sy_executed := []; sy_restarts := 0 |}.

Lemma job_end_to_end_witness :
  exists jd s' n' res, jd_job_id jd = "job_1" /\ run (runJob runner0 jd : prog Sys Empty_set unit) env0 0 sys2 = (s', n', inr tt) /\
    sy_executed s' = ["job_1"] /\ reported_on "job_1" res (sy_db s').
Proof.
  destruct (job_end_to_end true None env0 ctx0 create0 db0 ["job_1"] 1 "job_1") as (j & Hj & _ & _ & Hgo).
  - vm_compute. reflexivity.
  - apply (bool_decide_unpack _). vm_compute. exact I.
  - destruct (Hgo runner0 env0 5%Z false None poller0 None created0 Hj) as (db2 & n & p' & coll' & ds & Hrun & Hout);
      [vm_compute in Hj; injection Hj as <-; reflexivity|reflexivity|discriminate|discriminate|exact env0_ok|reflexivity|].
    change (polled0 = (db2, n, inr (p', coll', ds))) in Hrun.
    destruct Hout as [[Hten _]|(jd & _ & Hjd & Hty & Hpl & Hfin)].
    + exfalso. revert Hten. replace (length ds) with (match polled0.2 with inr r => length r.2 | inl _ => 0 end) by (rewrite Hrun; reflexivity).
      vm_compute. discriminate.
    + destruct (Hfin env0 sys2) as (s' & n' & env' & st & co & H1 & H2 & _ & H3);
        [exact (f_equal (fun r => jobs r.1.1 !! "job_1") Hrun)|exact env0_ok| |reflexivity|reflexivity|discriminate|discriminate| |].
      * assert (job_results (sy_db sys2) = ∅) as He by (vm_compute; reflexivity). intros k. rewrite He. apply lookup_empty.
      * intros env' a. unfold execute. rewrite Hty, Hpl. vm_compute. reflexivity.
      * eexists jd, s', n', _. split; [exact Hjd|]. split; [exact H1|]. split; [exact H2|exact H3].
Defined.
